(* ===== verification/_CoqProject ===== *)
-Q . S2P
Prelude.v
Enums.v
Double.v
Records.v
Values.v
World.v
Registry.v
RegistryFacts.v
Fixtures.v
RegistryProps.v
Histories.v
Paths.v
PathsFacts.v
Quality.v
Route.v
RouteFacts.v
Ranking.v
Eligibility.v
RouteProps.v
Governance.v
Concurrency.v
ConcurrencyProps.v
ConcurrentReads.v
Bytes.v
BytesFacts.v
ByteLoops.v
Text.v
Json.v
Protocol.v
ProtocolProps.v
Serialization.v
SerializationFacts.v
SerializationProps.v
Persistence.v
Recovery.v
Typing.v
Transport.v
Wire.v
Coordinator.v
CoordinatorFacts.v
CoordinatorProps.v
Lifecycle.v
Attribution.v
WorkerClient.v
Backends.v
BackendsProps.v
Nvidia.v
NvidiaProps.v
SelfCheck.v
SelfCheckProps.v
Inspect.v
InspectProps.v
Examples.v
Worker.v
WorkerArgs.v
WorkerProps.v
Restarts.v
