(* ===== verification/Prelude.v ===== *)
(** * NVLink Fabric: a verification development

    NVLink Fabric is a C++20 library that keeps a governed model of the
    interconnect between accelerators: which devices and links exist, what is
    known about them and how, which paths join two devices, and which route a
    policy allows.  Evidence is never promoted: what is stale, synthetic or
    recovered from disk says so, and a route decided on old state is not
    executable on new state.  This library models the program in Rocq and
    proves what makes it correct.  Paths below are relative to src/.

    ** How the parts fit together

    - A [TopologyRegistry] (src/core/registry.cpp) owns the topology.  Every
      mutation copies an immutable state, edits the copy and swaps it in under
      a lock; readers take a snapshot.
    - Path enumeration, path quality and route governance
      (src/core/path.cpp, src/core/policy.cpp) are functions of a snapshot and
      the measurement history; a decision carries the generations it was made
      under and is executable only while they are current.
    - A coordinator process (src/core/runtime.cpp) exposes its registry to
      workers over framed messages (src/core/protocol.cpp); a HELLO is
      authorized against the coordinator's epoch and the worker's last boot.
    - Durable state is serialized with an integrity check
      (src/core/serialization.cpp) and replaced atomically on disk
      (src/core/persistence.cpp); restoring it leaves everything dynamic in
      need of revalidation.
    - Backends (src/backend) discover devices and links for a registry.
    - Two programs: an inspection tool that loads a registry and answers one
      command (tools/nvlink_fabric_inspect.cpp), and the worker process the
      coordinator is run against (tools/nvlink_worker.cpp), which helpers in
      runtime.cpp start and kill.  Three examples (examples/) use the library.

    ** The files

    Foundations.
    - [Prelude]: machine widths ([wrap64] and the like), stable insertion sort
      (the order [std::sort] leaves, with [std::stable_sort]'s choice on equal
      keys), list and sortedness lemmas, tactics, the hint databases.
    - [Enums]: the [enum class] types of enums.hpp, capability.hpp,
      topology.hpp and policy.hpp, a Module each, with their names and their
      bytes; the class [EnumU8] is what they promise to the codecs.  A byte no
      enumerator names is kept as [UNNAMED], since the decoders cast blindly.
    - [Double]: [double] as the Standard Library's executable binary64, with
      order and monotonicity lemmas.
    - [Records]: the structs of the public headers, [Result] and [Error].
    - [Values]: the member functions of [Result], [Error], [Id], [Generation],
      [Timestamp] and [Evidence] (result.hpp, error.hpp, identities.hpp,
      time.hpp, evidence.hpp).
    - [World]: the identity and generation counters (identities.hpp) and the
      clock as explicit state; [Platform] is what C++ leaves to the
      implementation (order of argument evaluation, contents of a moved-from
      string).

    Registry.
    - [Registry]: [State], each mutating call, [snapshot],
      [capture_durable_state], [restore_durable_state]; [Op], [run_op] and
      [reachable] make the calls a transition system.
    - [RegistryFacts]: the invariant [wf], and [effect], the abstract
      specification every call refines (lemma by lemma); [RegistryProps]: the
      invariant, error paths, generations, acceptance conditions, snapshots.
      [Histories]: a small history bound against a large one.
    - [Concurrency]: the registry shared by threads.  [lock_step] is the code's
      own protocol, a step per lock, copy, edit, swap, unlock and pointer load;
      [atomic_step] is what the rest of the development assumes.
      [ConcurrencyProps]: the second is an abstraction of the first, the lock
      invariant, every call returns.  [ConcurrentReads]: what readers are told
      while others write.  (Both after the route files, since readers decide
      routes.)

    Routes.
    - [Paths] and [PathsFacts]: adjacency, FNV-1a path ids, the depth-first
      search; [routes] is the abstract enumeration it refines.
    - [Quality]: [PathQuality], [compute_quality], policies and scores.
      [Route]: candidate checks, ranking, [decide_route],
      [is_route_executable], [revalidate_route], [explain_path].
      [RouteFacts], [Ranking], [Eligibility]: their lemmas (walks of a path,
      the comparator is a strict weak order, what the checks establish) and the
      specifications they are measured against: [newest_measurement], which
      measurement counts, and [hard_ok], the hard constraints stated on links
      and measurements rather than on the computed quality.
    - [RouteProps] and [Governance]: exactness of enumeration, quality,
      soundness and optimality of decisions, staleness.

    Text.
    - [Text]: [std::to_string], [snprintf], [strtoull], [c_str] and
      [Timestamp::to_string].  [Json]: [jesc], and the part of the JSON grammar
      the inspection tool prints, with a parser that inverts it.

    Codecs and storage.
    - [Bytes] and [BytesFacts]: little-endian writers, the bounded sticky
      reader, CRC-32; [reads] composes along the reader monad.  [ByteLoops]:
      the shift-and-cast loops of serialization.cpp as they are written.
    - [Protocol], [ProtocolProps]: frames.  [Serialization],
      [SerializationFacts], [SerializationProps]: durable states.
    - [Persistence]: save and load over a file map, as the list of states a
      save passes through, so that a crash is a prefix.  [Recovery]: restart
      end to end.  [Typing]: every field of every reachable registry stays
      within its C++ type, so that what it captures can be written.

    Runtime.
    - [Transport]: [send_all], [recv_exact], [send_frame], [recv_frame] over a
      socket that cuts bytes as it likes.  [Wire]: payload codecs.
    - [Coordinator]: [handle_connection] as a machine whose steps
      ([conn_step]) are what happens between two blocking points; [System]
      interleaves any number of connections.  [CoordinatorFacts],
      [CoordinatorProps]: termination, outcome, fencing, the invariant.
    - [Lifecycle]: [start], the accept thread and [stop] around [System], as
      one step relation of threads ([thread_step], labelled with the [Actor]
      that moves), outside calls and clients connecting ([env_step]) and the
      owner's calls ([owner_step]).  [accept] blocks when nobody waits at the
      open listener, for good if nobody comes.
    - [Attribution]: who published what, and what a served route reply rests
      on, under every interleaving of [System].
    - [WorkerClient]: the client, and client and server run against each other.
    - [Worker]: the worker program's [main] and the process helpers.
      [WorkerArgs]: what a spawned process is told.  [WorkerProps]: process and
      coordinator from start to end, a life being one [incarnation] on the
      registry.  [Restarts]: incarnations one after the other, each killed
      after any number of its frames.

    Backends.
    - [Backends], [BackendsProps]: the interface [Backend] as a class, the
      synthetic and no-op implementations, and loading a registry the way
      tools/nvlink_fabric_inspect.cpp does.
    - [Nvidia], [NvidiaProps]: device and link discovery of
      nvidia_backend.cpp; [SelfCheck], [SelfCheckProps]: its
      [run_cuda_self_check], over the trace of the library calls it makes.
    - [Inspect], [InspectProps]: the inspection tool's [main].  [Examples]: the
      three example programs.
    - [Fixtures] holds the concrete topologies witnesses evaluate.

    ** What the theorems show

    - Safety of routes: an executable decision has a simple path whose
      links are in a supported state and which satisfies each hard constraint
      ([executable_route_sound]); it is a
      best candidate ([selected_route_optimal]); every candidate is accounted
      for ([every_candidate_judged]); it is executable on unchanged state and
      never again after a change ([fresh_decision_executes],
      [stale_decision_never_executes], and the lemma [revalidate_route_spec]).
    - Enumeration and quality: exactly the simple paths in canonical order,
      bounded depth ([enumerate_paths_exact]); aggregates, the measured ones
      those of the newest valid, fresh measurement of the path's ends
      ([path_quality_aggregates]); and the lemmas [dfs_terminates] and
      [healthy_iff].
    - Registry: the invariant over all reachable states, failed calls change
      nothing, generations advance, exact acceptance conditions, bounded
      histories keep the newest entries and decide nothing else
      ([bounded_history_equivalent]); lemmas: canonical snapshots, and nothing
      fresh after a disconnect or a restore.
    - Concurrency: whatever threads do, their calls and answers are those of a
      run of atomic calls ([registry_linearizable]); mutual exclusion, and what
      each holder of a lock knows ([registry_lock_invariant]); no deadlock, every
      call returns under every schedule ([registry_calls_return]); readers get
      one published state, never a mixture ([concurrent_reads_sound]).
    - Codecs: decoding is the exact inverse of encoding, one changed byte is
      always caught ([corrupted_state_rejected], and for frames a lemma),
      frames are prefix-free; the hand-written byte loops compute the reference
      functions ([byte_loops_agree]); durable states round-trip; a save
      is atomic; a restart gives the topology back.
    - Types: whatever sequence of typed calls a process makes, its registry can
      be saved and read back ([reachable_state_typed]).
    - Runtime: frames survive any fragmentation, a connection always ends with
      one of three outcomes, accepted boots strictly increase under every
      interleaving, handshakes, publications and route queries agree end to end;
      [stop] ends the accept thread without the help of any client, and returns
      once the connections have ended, however the threads are scheduled
      ([stop_returns]); every
      owned record was published over a connection authorized for its owner
      ([published_is_attributed]); a served route reply is decided on a
      well-formed registry the server had, over links in a supported state
      ([served_route_sound]).
    - The worker: the arguments a spawned process reads are those of the
      specification ([spawned_worker_arguments], on an ASCII path); its whole life at the
      coordinator is one abstract session ([worker_lifetime]); and a worker
      that is restarted often enough wears its links out
      ([restarts_wear_out]).
    - CUDA: what discovery yields ([nvidia_inventory]); the self-check releases
      everything it acquired on every path, whatever the libraries answer
      ([self_check_balanced]).
    - The inspection tool prints JSON that parses back to what the registry
      holds ([inspect_json_faithful]), and always exits with a documented code
      (the lemma [inspect_main_exits]).
    - Behaviours the code has and a reader may not expect are lemmas too:
      [full_registry_update_asymmetry], [replay_asymmetry],
      [nvlink_segments_counted_twice], [large_states_do_not_return],
      [supported_policy_never_asks_revalidation],
      [served_boot_never_rechecked], [nvidia_discovery_ends], and the last case
      of [handle_connection_outcome].

    ** Modelling choices

    - [std::size_t] and fixed-width integers are [Z]; wrap-around is written
      where the code can reach it (generations, counters, casts, the 16-bit
      string length).  Theorems that need a value below its width say so
      ([u64], [no_wrap], [generations_valid]).
    - [unordered_map] is a [gmap]; code that iterates one is modelled on the
      map's enumeration, and [snapshot_canonical] shows that the order is
      irrelevant after sorting.
    - Locks: outside [Concurrency] a mutation is one atomic step and a reader
      that loads the state twice ([decide_route]) is given two registries, which
      may differ; [registry_linearizable] justifies both.  A call may draw its
      identifiers and timestamps from any [World], since those of other threads
      fall between its own.
    - Fuel: [dfs] gets [dfs_fuel] = depth + 1 and is shown never to use it up;
      [handle_connection] gets [conn_fuel], twice the bytes still to come plus
      the rank of its phase, and is shown to end; [send_loop] and [recv_loop]
      get the number of bytes left, each iteration moving at least one.
      The JSON parser's fuel bounds nesting and members; [render_parses]
      gives enough.
    - Third-party code is an argument: [Driver] (what CUDA and NVML answer
      during discovery), [Oracle] (the answer to each call of the self-check,
      given all calls before it), [Net] and [Dial] (what the operating system
      answers to socket calls), the conversion of text to UTF-16 and the
      splitting of a command line ([converts_ascii] and [splits_arguments] state
      what is documented of them, on ASCII), [localtime].
      Theorems hold for every value of them, but for the hypotheses they state.
    - Liveness is inevitability over [turn]: every schedule in which some
      thread keeps moving, with any number of outside calls in between, reaches
      the goal.  [ensured] is the same with the steps that are owed told from
      those that may happen: the accept thread and [stop] have to move, the
      connections only may.  The bytes a peer will ever send are finite, and a
      [recv] at their end reports the closed connection; a [recv] or [send] that
      blocks is a connection that does not move.
    - The worker's heartbeat loop is followed for any given number of rounds;
      being killed is the end of its stream.
    - [double] arithmetic is not contracted (no fused multiply-add) and rounds
      to nearest.

    ** What is not modelled

    Winsock and NVML initialisation beyond their answers, socket options and
    [SIGPIPE], the polling interval of the accept loop and the pause between
    heartbeats, a client that leaves the queue between [select] and [accept],
    [fsync] and power loss below the level of file operations, the descriptor
    race between [stop] and the accept thread, benchmarks and tests. *)

From stdpp Require Export base tactics numbers list gmap strings sorting pretty.
From Stdlib Require Export ZArith Lia.

Declare Scope fabric_scope.
Delimit Scope fabric_scope with fabric.
Open Scope Z_scope.
Open Scope fabric_scope.

Create HintDb fabric.
Create Rewrite HintDb fabric.

(** ** Sizes

    [std::size_t] values are [Z]; [zlen] and [msize] are the [size()] of a
    vector/deque/string of bytes and of an [unordered_map]. *)
Definition zlen {A} (l : list A) : Z := Z.of_nat (length l).
Definition msize {A} (m : gmap Z A) : Z := Z.of_nat (size m).

(** ** Machine integers *)

Definition two64 : Z := 18446744073709551616.
Definition two32 : Z := 4294967296.
Definition wrap64 (v : Z) : Z := v mod two64.
Definition wrap32 (v : Z) : Z := v mod two32.
Definition wrap16 (v : Z) : Z := v mod 65536.
Definition wrap8 (v : Z) : Z := v mod 256.

Definition u64 (v : Z) : Prop := 0 ≤ v < two64.
Definition u32 (v : Z) : Prop := 0 ≤ v < two32.
Definition u8 (v : Z) : Prop := 0 ≤ v < 256.

(** [std::to_string] of an unsigned value. *)
Definition dec (v : Z) : string := pretty (Z.to_N v).

(** ** Stable sorting

    [std::sort] and [std::stable_sort] with a comparator [lt] (a boolean
    "goes before").  For a strict weak order the result of [std::stable_sort]
    is determined: it is the stable sorted permutation, computed here by
    insertion; for a strict total order on the elements [std::sort] agrees. *)
Section StableSort.
Context {A : Type} (lt : A → A → bool).

Fixpoint insert_by (x : A) (l : list A) : list A :=
  match l with
  | [] => [x]
  | y :: l' => if lt y x then y :: insert_by x l' else x :: y :: l'
  end.

Definition stable_sort (l : list A) : list A := foldr insert_by [] l.
End StableSort.

(** ** Three-way comparisons and lexicographic composition *)
Definition comparison_le (c : comparison) : Prop := c ≠ Gt.

Definition lex (c1 c2 : comparison) : comparison :=
  match c1 with Eq => c2 | _ => c1 end.

(** A comparison function that is a total preorder on the elements of [P]. *)
Class CmpOn {A} (P : A → Prop) (c : A → A → comparison) : Prop := {
  cmp_opp x y : P x → P y → c y x = CompOpp (c x y);
  cmp_le_trans x y z : P x → P y → P z →
    comparison_le (c x y) → comparison_le (c y z) → comparison_le (c x z)
}.

(** ** The state monad

    Effects thread their state explicitly: the world's counters and clock, a
    reader's position, a connection's input. *)
Definition ret {S A} (a : A) : S → A * S := λ s, (a, s).
Definition bind {S A B} (m : S → A * S) (k : A → S → B * S) : S → B * S :=
  λ s, let '(a, s') := m s in k a s'.

Notation "'let*' x := m 'in' k" := (bind m (λ x, k))
  (at level 10, x name, m at level 100, k at level 200) : fabric_scope.
Notation "'let*' ' p := m 'in' k" := (bind m (λ p, k))
  (at level 10, p strict pattern, m at level 100, k at level 200) : fabric_scope.

(** Repeats an effect, collecting its results in order. *)
Fixpoint repeat_m {S A} (n : nat) (m : S → A * S) : S → list A * S :=
  match n with
  | O => ret []
  | S n' => let* a := m in let* l := repeat_m n' m in ret (a :: l)
  end.

(** Runs an effectful function over a list, left to right. *)
Fixpoint map_m {S A B} (f : A → S → B * S) (l : list A) : S → list B * S :=
  match l with
  | [] => ret []
  | x :: l' => let* y := f x in let* ys := map_m f l' in ret (y :: ys)
  end.

(** ** Tactics *)

(** Splits every [if]/[match] of the goal on its scrutinee, keeping the
    equation. *)
Ltac case_ifs :=
  repeat (case_decide || case_bool_decide ||
    match goal with
    | |- context [if ?b then _ else _] => let E := fresh "Hif" in destruct b eqn:E
    end).

(** Splits the guard of the outermost [if] of a hypothesis. *)
Ltac split_if H :=
  match type of H with
  | context [if ?b then _ else _] => let E := fresh "Hg" in destruct b eqn:E
  end.

(** Turns boolean comparisons of the context into propositions. *)
Ltac to_props :=
  repeat match goal with
  | H : (_ && _)%bool = true |- _ => apply andb_true_iff in H; destruct H
  | H : (_ || _)%bool = false |- _ => apply orb_false_iff in H; destruct H
  | H : negb _ = true |- _ => apply negb_true_iff in H
  | H : negb _ = false |- _ => apply negb_false_iff in H
  | H : (_ <=? _) = true |- _ => apply Z.leb_le in H
  | H : (_ <=? _) = false |- _ => apply Z.leb_gt in H
  | H : (_ <? _) = true |- _ => apply Z.ltb_lt in H
  | H : (_ <? _) = false |- _ => apply Z.ltb_ge in H
  | H : (_ =? _) = true |- _ => apply Z.eqb_eq in H
  | H : (_ =? _) = false |- _ => apply Z.eqb_neq in H
  | H : bool_decide _ = true |- _ => apply bool_decide_eq_true in H
  | H : bool_decide _ = false |- _ => apply bool_decide_eq_false in H
  end.

Lemma bind_eq {S A B} (m : S → A * S) (k : A → S → B * S) s :
  bind m k s = k (m s).1 (m s).2.
Proof. unfold bind. by destruct (m s). Qed.

(** ** Lemmas on sizes and machine integers *)

Lemma zlen_app {A} (l k : list A) : zlen (l ++ k) = zlen l + zlen k.
Proof. unfold zlen. rewrite length_app. lia. Qed.

Lemma zlen_cons {A} (x : A) l : zlen (x :: l) = 1 + zlen l.
Proof. unfold zlen. simpl. lia. Qed.

Lemma zlen_nonneg {A} (l : list A) : 0 ≤ zlen l.
Proof. unfold zlen. lia. Qed.

Lemma msize_nonneg {A} (m : gmap Z A) : 0 ≤ msize m.
Proof. unfold msize. lia. Qed.

Lemma msize_insert_None {A} (m : gmap Z A) k x :
  m !! k = None → msize (<[k:=x]> m) = 1 + msize m.
Proof. intros H. unfold msize. rewrite map_size_insert_None by done. lia. Qed.

Lemma msize_insert_Some {A} (m : gmap Z A) k x y :
  m !! k = Some y → msize (<[k:=x]> m) = msize m.
Proof. intros H. unfold msize. by rewrite (map_size_insert_Some k x m) by eauto. Qed.

Lemma msize_fmap {A B} (f : A → B) (m : gmap Z A) : msize (f <$> m) = msize m.
Proof. unfold msize. by rewrite map_size_fmap. Qed.

Lemma msize_subseteq {A} (m1 m2 : gmap Z A) : m1 ⊆ m2 → msize m1 ≤ msize m2.
Proof. intros H. unfold msize. apply map_subseteq_size in H. lia. Qed.

Lemma wrap64_small v : u64 v → wrap64 v = v.
Proof. unfold u64, wrap64. intros. by apply Z.mod_small. Qed.

Lemma wrap64_u64 v : u64 (wrap64 v).
Proof. unfold u64, wrap64, two64. apply Z.mod_pos_bound. lia. Qed.

(** ** Lists in correspondence *)

Lemma Forall2_partner_r {A B} (Q : A → B → Prop) l k y :
  Forall2 Q l k → y ∈ k → ∃ x, x ∈ l ∧ Q x y.
Proof.
  intros Hf (i & Hi)%list_elem_of_lookup.
  destruct (Forall2_lookup_r _ _ _ _ _ Hf Hi) as (x & Hx & HQ).
  exists x. split; [by eapply list_elem_of_lookup_2|done].
Qed.

Lemma Forall2_partner_l {A B} (Q : A → B → Prop) l k x :
  Forall2 Q l k → x ∈ l → ∃ y, y ∈ k ∧ Q x y.
Proof.
  intros Hf (i & Hi)%list_elem_of_lookup.
  destruct (Forall2_lookup_l _ _ _ _ _ Hf Hi) as (y & Hy & HQ).
  exists y. split; [by eapply list_elem_of_lookup_2|done].
Qed.

#[export] Hint Resolve wrap64_u64 zlen_nonneg msize_nonneg : fabric.
#[export] Hint Rewrite @zlen_app @zlen_cons @msize_fmap : fabric.

(** ** Comparison functions *)
Section Comparisons.
Context {A : Type} (P : A → Prop) (c : A → A → comparison) `{!CmpOn P c}.

Lemma cmp_refl x : P x → c x x = Eq.
Proof. intros Hx. pose proof (cmp_opp x x Hx Hx) as H. by destruct (c x x). Qed.

(** The cases of transitivity a total preorder gives. *)
Lemma cmp_lt_le_trans x y z : P x → P y → P z →
  c x y = Lt → comparison_le (c y z) → c x z = Lt.
Proof.
  unfold comparison_le. intros Hx Hy Hz Hxy Hyz.
  destruct (c x z) eqn:Hxz; [|done|].
  - exfalso. assert (c y x ≠ Gt) as Hyx.
    { apply (cmp_le_trans y z x); unfold comparison_le; [done..|].
      rewrite (cmp_opp x z) by done. by rewrite Hxz. }
    by rewrite (cmp_opp x y), Hxy in Hyx by done.
  - exfalso. apply (cmp_le_trans x y z); unfold comparison_le; try done.
    by rewrite Hxy.
Qed.

Lemma cmp_le_lt_trans x y z : P x → P y → P z →
  comparison_le (c x y) → c y z = Lt → c x z = Lt.
Proof.
  unfold comparison_le. intros Hx Hy Hz Hxy Hyz.
  destruct (c x z) eqn:Hxz; [|done|].
  - exfalso. assert (c z y ≠ Gt) as Hzy.
    { apply (cmp_le_trans z x y); unfold comparison_le; [done..| |done].
      rewrite (cmp_opp x z) by done. by rewrite Hxz. }
    by rewrite (cmp_opp y z), Hyz in Hzy by done.
  - exfalso. apply (cmp_le_trans x y z); unfold comparison_le; try done.
    by rewrite Hyz.
Qed.

Lemma cmp_eq_trans x y z : P x → P y → P z →
  c x y = Eq → c y z = Eq → c x z = Eq.
Proof.
  intros Hx Hy Hz Hxy Hyz.
  destruct (c x z) eqn:Hxz; [done| |].
  - pose proof (cmp_lt_le_trans x z y Hx Hz Hy Hxz) as Ht.
    rewrite (cmp_opp y z), Hyz in Ht by done.
    by rewrite Ht in Hxy by done.
  - exfalso. apply (cmp_le_trans x y z); unfold comparison_le; try done.
    + by rewrite Hxy.
    + by rewrite Hyz.
Qed.
End Comparisons.

#[export] Instance cmp_lex {A} (P : A → Prop) (c1 c2 : A → A → comparison) :
  CmpOn P c1 → CmpOn P c2 → CmpOn P (λ x y, lex (c1 x y) (c2 x y)).
Proof.
  intros H1 H2. split.
  - intros x y Hx Hy. rewrite (cmp_opp (c := c1) x y), (cmp_opp (c := c2) x y) by done.
    by destruct (c1 x y).
  - intros x y z Hx Hy Hz. unfold lex, comparison_le.
    destruct (c1 x y) eqn:Exy, (c1 y z) eqn:Eyz; try done; intros Hxy Hyz.
    + rewrite (cmp_eq_trans P c1 x y z) by done. by apply (cmp_le_trans x y z).
    + rewrite (cmp_le_lt_trans P c1 x y z); try done.
      unfold comparison_le. by rewrite Exy.
    + rewrite (cmp_lt_le_trans P c1 x y z); try done.
      unfold comparison_le. by rewrite Eyz.
    + rewrite (cmp_lt_le_trans P c1 x y z); try done.
      unfold comparison_le. by rewrite Eyz.
Qed.

(** Comparisons pulled back along a key, and the usual orders. *)
#[export] Instance cmp_key {A B} (P : B → Prop) (c : B → B → comparison) (f : A → B) :
  CmpOn P c → CmpOn (λ x, P (f x)) (λ x y, c (f x) (f y)).
Proof.
  intros H. split.
  - intros x y. apply (cmp_opp (c := c)).
  - intros x y z. apply (cmp_le_trans (c := c)).
Qed.

Lemma cmp_flip {A} (P : A → Prop) (c : A → A → comparison) :
  CmpOn P c → CmpOn P (λ x y, c y x).
Proof.
  intros H. split.
  - intros x y Hx Hy. by apply (cmp_opp (c := c)).
  - intros x y z Hx Hy Hz H1 H2. by apply (cmp_le_trans (c := c) z y x).
Qed.

Lemma cmp_weaken {A} (P Q : A → Prop) (c : A → A → comparison) :
  CmpOn P c → (∀ x, Q x → P x) → CmpOn Q c.
Proof.
  intros H HQ. split.
  - intros x y Hx Hy. apply (cmp_opp (c := c)); auto.
  - intros x y z Hx Hy Hz. apply (cmp_le_trans (c := c)); auto.
Qed.

#[export] Instance cmp_Z (P : Z → Prop) : CmpOn P Z.compare.
Proof.
  split.
  - intros x y _ _. apply Z.compare_antisym.
  - intros x y z _ _ _. unfold comparison_le.
    apply Z.le_trans.
Qed.

(** ** Stable sorting: permutation, order, determinism *)
Section StableSortFacts.
Context {A : Type} (lt : A → A → bool).

Lemma insert_by_perm x l : insert_by lt x l ≡ₚ x :: l.
Proof.
  induction l as [|y l IH]; simpl; [done|].
  destruct (lt y x); [|done]. rewrite IH. apply Permutation_swap.
Qed.

Lemma stable_sort_perm l : stable_sort lt l ≡ₚ l.
Proof.
  induction l as [|x l IH]; simpl; [done|].
  rewrite insert_by_perm. by constructor.
Qed.

(** [le x y]: [y] does not go strictly before [x]. *)
Let le (x y : A) : Prop := lt y x = false.

Lemma insert_by_sorted (P : A → Prop) x l :
  (∀ a b, P a → P b → lt a b = true → lt b a = false) →
  (∀ a b c, P a → P b → P c → lt b a = false → lt c b = false → lt c a = false) →
  P x → Forall P l → StronglySorted le l → StronglySorted le (insert_by lt x l).
Proof.
  intros Hasym Htrans Hx HP Hs. induction Hs as [|y l Hs IH Hy]; simpl.
  { by repeat constructor. }
  apply Forall_cons in HP as [Hyp HP].
  destruct (lt y x) eqn:Hyx.
  - constructor; [by apply IH|].
    rewrite insert_by_perm. constructor; [|done]. unfold le. by apply Hasym.
  - constructor; [by constructor|]. constructor; [done|].
    rewrite Forall_forall in Hy, HP |- *. intros z Hz.
    apply (Htrans x y z); auto. by apply Hy.
Qed.

Lemma stable_sort_sorted (P : A → Prop) l :
  (∀ a b, P a → P b → lt a b = true → lt b a = false) →
  (∀ a b c, P a → P b → P c → lt b a = false → lt c b = false → lt c a = false) →
  Forall P l → StronglySorted le (stable_sort lt l).
Proof.
  intros Hasym Htrans. induction l as [|x l IH]; intros HP; simpl; [constructor|].
  apply Forall_cons in HP as [Hx HP]. apply (insert_by_sorted P); auto.
  by rewrite stable_sort_perm.
Qed.

(** Determinism: when no two distinct elements are equivalent, the result
    depends on the elements only, not on their order. *)
Lemma stable_sort_determined l1 l2 :
  (∀ a b, lt a b = true → lt b a = false) →
  (∀ a b c, lt b a = false → lt c b = false → lt c a = false) →
  (∀ a b, a ∈ l1 → b ∈ l1 → lt a b = false → lt b a = false → a = b) →
  l1 ≡ₚ l2 → stable_sort lt l1 = stable_sort lt l2.
Proof.
  intros Hasym Htrans Hanti Hp.
  apply (StronglySorted_unique_strong le).
  - intros a b Ha Hb H1 H2. rewrite stable_sort_perm in Ha, Hb.
    rewrite <-Hp in Hb. by apply Hanti.
  - apply (stable_sort_sorted (λ _, True)); eauto using Forall_true.
  - apply (stable_sort_sorted (λ _, True)); eauto using Forall_true.
  - by rewrite !stable_sort_perm.
Qed.
End StableSortFacts.

(** ** Transition systems with visible events

    A step may carry an event; a run collects the events of its steps. *)
Section Runs.
Context {E : Type}.

Inductive run {S : Type} (step : S → option E → S → Prop) : S → list E → S → Prop :=
| run_refl s : run step s [] s
| run_step s e s' tr s'' :
    step s e s' → run step s' tr s'' → run step s (option_list e ++ tr) s''.

Lemma run_once {S} (step : S → option E → S → Prop) s e s' :
  step s e s' → run step s (option_list e) s'.
Proof.
  intros Hs. rewrite <-(app_nil_r (option_list e)). eapply run_step; [done|apply run_refl].
Qed.

Lemma run_app {S} (step : S → option E → S → Prop) s1 tr1 s2 tr2 s3 :
  run step s1 tr1 s2 → run step s2 tr2 s3 → run step s1 (tr1 ++ tr2) s3.
Proof.
  induction 1 as [|s e s' tr s'' Hs _ IH]; intros H2; [done|].
  rewrite <-(assoc_L (++)). eapply run_step; eauto.
Qed.

(** What every step preserves holds after every run. *)
Lemma run_invariant {S} (step : S → option E → S → Prop) (I : S → Prop) s tr s' :
  (∀ x e y, step x e y → I x → I y) → run step s tr s' → I s → I s'.
Proof. intros Hstep. induction 1; eauto. Qed.

(** Forward simulation: when every step of one system is a run of the other
    with the same event, its runs are runs of the other. *)
Lemma simulation {S T} (step1 : S → option E → S → Prop) (step2 : T → option E → T → Prop)
    (R : S → T → Prop) s tr s' t :
  (∀ x e x' y, step1 x e x' → R x y → ∃ y', run step2 y (option_list e) y' ∧ R x' y') →
  run step1 s tr s' → R s t → ∃ t', run step2 t tr t' ∧ R s' t'.
Proof.
  intros Hsim Hr. revert t. induction Hr as [s|s e s1 tr s2 Hs _ IH]; intros t Ht.
  - exists t. split; [apply run_refl|done].
  - destruct (Hsim _ _ _ _ Hs Ht) as (t1 & H1 & HR1). destruct (IH t1 HR1) as (t2 & H2 & HR2).
    exists t2. split; [by eapply run_app|done].
Qed.
End Runs.

(** ** Inevitability

    [P] comes true on every schedule: it holds now, or some action is
    possible and it comes true after every one that is. *)
Inductive inevitable {A} (step : A → A → Prop) (P : A → Prop) (x : A) : Prop :=
| inevitable_now : P x → inevitable step P x
| inevitable_later :
    (∃ y, step x y) → (∀ y, step x y → inevitable step P y) → inevitable step P x.

(** It does when some action is always possible and each one lowers a measure. *)
Lemma inevitable_measure {A} (step : A → A → Prop) (I P : A → Prop) (measure : A → nat) :
  (∀ x, I x → P x ∨ ∃ y, step x y) →
  (∀ x y, I x → step x y → I y ∧ (measure y < measure x)%nat) →
  ∀ x, I x → inevitable step P x.
Proof.
  intros Hprog Hdec x. induction (Nat.lt_wf_0_projected measure x) as [x _ IH].
  intros Hx. destruct (Hprog x Hx) as [Hp|Hy]; [by apply inevitable_now|].
  apply inevitable_later; [done|]. intros y Hs.
  destruct (Hdec x y Hx Hs) as [Hi Hm]. by apply IH.
Qed.

(** The same when only the actions of [duty] are sure to be taken: a schedule
    may stop where none of them is possible, and nowhere else. *)
Inductive ensured {A} (duty step : A → A → Prop) (P : A → Prop) (x : A) : Prop :=
| ensured_now : P x → ensured duty step P x
| ensured_later :
    (∃ y, duty x y) → (∀ y, step x y → ensured duty step P y) → ensured duty step P x.

Lemma ensured_all {A} (step : A → A → Prop) P x : ensured step step P x → inevitable step P x.
Proof. induction 1; [by apply inevitable_now|by apply inevitable_later]. Qed.

(** ** Sums over a list *)
Lemma sum_insert {A} (f : A → nat) l i x y :
  l !! i = Some x →
  (sum_list_with f (<[i:=y]> l) + f x = sum_list_with f l + f y)%nat.
Proof.
  revert i. induction l as [|z l IH]; intros [|i] Hi; simpl in Hi; try done.
  - injection Hi as ->. simpl. lia.
  - specialize (IH i Hi). simpl. lia.
Qed.

Lemma sum_two {A} (f : A → nat) l i j x y :
  i ≠ j → l !! i = Some x → l !! j = Some y → (f x + f y ≤ sum_list_with f l)%nat.
Proof.
  revert i j. induction l as [|z l IH]; intros [|i] [|j] Hij Hi Hj; simpl in Hi, Hj; try done; simpl.
  - injection Hi as ->. assert (f y ≤ sum_list_with f l)%nat by (by eapply sum_list_with_in, list_elem_of_lookup_2). lia.
  - injection Hj as ->. assert (f x ≤ sum_list_with f l)%nat by (by eapply sum_list_with_in, list_elem_of_lookup_2). lia.
  - assert (i ≠ j) as Hne by congruence. specialize (IH i j Hne Hi Hj). lia.
Qed.

Lemma sum_zero {A} (f : A → nat) l i x :
  sum_list_with f l = 0%nat → l !! i = Some x → f x = 0%nat.
Proof.
  intros Hs Hi. assert (f x ≤ sum_list_with f l)%nat by (by eapply sum_list_with_in, list_elem_of_lookup_2). lia.
Qed.
