(* ===== verification/Enums.v ===== *)
(** * Enumerations of enums.hpp, capability.hpp, topology.hpp, policy.hpp

    One [Module] per [enum class].  An [enum class E : std::uint8_t] that the
    decoders build with [static_cast<E>(byte)] may hold a byte that names no
    enumerator; such values are the constructor [UNNAMED b].  The class
    [EnumU8] is what those enumerations promise to the codecs: conversion to
    and from the underlying byte, and that it loses nothing. *)

From S2P Require Import Prelude.

(** The underlying-type conversions of an [enum class : std::uint8_t];
    [enum_wf] says a value is represented by its enumerator if it has one. *)
Class EnumU8 (E : Type) := {
  to_u8 : E → Z;
  of_u8 : Z → E;
  enum_wf : E → Prop;
  of_to_u8 e : enum_wf e → of_u8 (to_u8 e) = e;
  to_of_u8 b : to_u8 (of_u8 b) = b;
  to_u8_range e : enum_wf e → u8 (to_u8 e);
  of_u8_wf b : u8 b → enum_wf (of_u8 b)
}.

(** Solves the laws of [EnumU8] by cases on the byte and the enumerator. *)
Ltac solve_enum_with f g wf :=
  unfold u8, f, g, wf;
  let x := fresh "x" in
  intros x; intros;
  match type of x with Z => idtac | _ => destruct x end;
  repeat match goal with
  | |- context [match ?x with _ => _ end] => is_var x; destruct x
  end;
  done || lia.

Module EvidenceClass.
  (** [enum class EvidenceClass : std::uint8_t]. *)
Inductive EvidenceClass :=
| REAL
| SYNTHETIC
| UNSUPPORTED
| UNNAMED (b : Z).

#[export] Instance evidence_class_eq_dec : EqDecision EvidenceClass.
Proof. solve_decision. Defined.

(** [static_cast<std::uint8_t>] and back. *)
Definition evidence_class_to_u8 (e : EvidenceClass) : Z :=
  match e with
  | REAL => 0
  | SYNTHETIC => 1
  | UNSUPPORTED => 2
  | UNNAMED b => b
  end.

Definition evidence_class_of_u8 (b : Z) : EvidenceClass :=
  match b with
  | 0 => REAL
  | 1 => SYNTHETIC
  | 2 => UNSUPPORTED
  | _ => UNNAMED b
  end.

Definition evidence_class_name (e : EvidenceClass) : string :=
  match e with
  | REAL => "REAL"
  | SYNTHETIC => "SYNTHETIC"
  | UNSUPPORTED => "UNSUPPORTED"
  | UNNAMED _ => "UNKNOWN"
  end.

(** Represented by its enumerator when it has one. *)
Definition evidence_class_wf (e : EvidenceClass) : Prop :=
  match e with UNNAMED b => 3 ≤ b < 256 | _ => True end.

#[export] Program Instance evidence_class_enum : EnumU8 EvidenceClass := {|
  to_u8 := evidence_class_to_u8;
  of_u8 := evidence_class_of_u8;
  enum_wf := evidence_class_wf
|}.
Solve Obligations with solve_enum_with evidence_class_of_u8 evidence_class_to_u8 evidence_class_wf.
End EvidenceClass.
Export (hints) EvidenceClass.
Abbreviation EvidenceClass := EvidenceClass.EvidenceClass.

Module InterconnectTechnology.
  (** [enum class InterconnectTechnology : std::uint8_t]. *)
Inductive InterconnectTechnology :=
| UNKNOWN
| NONE
| NVLINK
| PCIE
| CXL
| OTHER
| UNNAMED (b : Z).

#[export] Instance interconnect_technology_eq_dec : EqDecision InterconnectTechnology.
Proof. solve_decision. Defined.

(** [static_cast<std::uint8_t>] and back. *)
Definition interconnect_technology_to_u8 (e : InterconnectTechnology) : Z :=
  match e with
  | UNKNOWN => 0
  | NONE => 1
  | NVLINK => 2
  | PCIE => 3
  | CXL => 4
  | OTHER => 5
  | UNNAMED b => b
  end.

Definition interconnect_technology_of_u8 (b : Z) : InterconnectTechnology :=
  match b with
  | 0 => UNKNOWN
  | 1 => NONE
  | 2 => NVLINK
  | 3 => PCIE
  | 4 => CXL
  | 5 => OTHER
  | _ => UNNAMED b
  end.

Definition interconnect_technology_name (e : InterconnectTechnology) : string :=
  match e with
  | UNKNOWN => "UNKNOWN"
  | NONE => "NONE"
  | NVLINK => "NVLink"
  | PCIE => "PCIe"
  | CXL => "CXL"
  | OTHER => "OTHER"
  | UNNAMED _ => "UNKNOWN"
  end.

(** Represented by its enumerator when it has one. *)
Definition interconnect_technology_wf (e : InterconnectTechnology) : Prop :=
  match e with UNNAMED b => 6 ≤ b < 256 | _ => True end.

#[export] Program Instance interconnect_technology_enum : EnumU8 InterconnectTechnology := {|
  to_u8 := interconnect_technology_to_u8;
  of_u8 := interconnect_technology_of_u8;
  enum_wf := interconnect_technology_wf
|}.
Solve Obligations with solve_enum_with interconnect_technology_of_u8 interconnect_technology_to_u8 interconnect_technology_wf.
End InterconnectTechnology.
Export (hints) InterconnectTechnology.
Abbreviation InterconnectTechnology := InterconnectTechnology.InterconnectTechnology.

Module DeviceHealthState.
  (** [enum class DeviceHealthState : std::uint8_t]. *)
Inductive DeviceHealthState :=
| UNKNOWN
| PRESENT
| ABSENT
| DEGRADED
| REVALIDATION_REQUIRED
| INCOMPATIBLE
| UNREACHABLE
| UNNAMED (b : Z).

#[export] Instance device_health_eq_dec : EqDecision DeviceHealthState.
Proof. solve_decision. Defined.

(** [static_cast<std::uint8_t>] and back. *)
Definition device_health_to_u8 (e : DeviceHealthState) : Z :=
  match e with
  | UNKNOWN => 0
  | PRESENT => 1
  | ABSENT => 2
  | DEGRADED => 3
  | REVALIDATION_REQUIRED => 4
  | INCOMPATIBLE => 5
  | UNREACHABLE => 6
  | UNNAMED b => b
  end.

Definition device_health_of_u8 (b : Z) : DeviceHealthState :=
  match b with
  | 0 => UNKNOWN
  | 1 => PRESENT
  | 2 => ABSENT
  | 3 => DEGRADED
  | 4 => REVALIDATION_REQUIRED
  | 5 => INCOMPATIBLE
  | 6 => UNREACHABLE
  | _ => UNNAMED b
  end.

Definition device_health_name (e : DeviceHealthState) : string :=
  match e with
  | UNKNOWN => "UNKNOWN"
  | PRESENT => "PRESENT"
  | ABSENT => "ABSENT"
  | DEGRADED => "DEGRADED"
  | REVALIDATION_REQUIRED => "REVALIDATION_REQUIRED"
  | INCOMPATIBLE => "INCOMPATIBLE"
  | UNREACHABLE => "UNREACHABLE"
  | UNNAMED _ => "UNKNOWN"
  end.

(** Represented by its enumerator when it has one. *)
Definition device_health_wf (e : DeviceHealthState) : Prop :=
  match e with UNNAMED b => 7 ≤ b < 256 | _ => True end.

#[export] Program Instance device_health_enum : EnumU8 DeviceHealthState := {|
  to_u8 := device_health_to_u8;
  of_u8 := device_health_of_u8;
  enum_wf := device_health_wf
|}.
Solve Obligations with solve_enum_with device_health_of_u8 device_health_to_u8 device_health_wf.
End DeviceHealthState.
Export (hints) DeviceHealthState.
Abbreviation DeviceHealthState := DeviceHealthState.DeviceHealthState.

Module LinkOperationalState.
  (** [enum class LinkOperationalState : std::uint8_t]. *)
Inductive LinkOperationalState :=
| UNKNOWN
| PRESENT
| ABSENT
| SUPPORTED
| UNSUPPORTED
| UP
| DOWN
| DEGRADED
| REVALIDATION_REQUIRED
| STALE
| INCOMPATIBLE
| UNREACHABLE
| UNNAMED (b : Z).

#[export] Instance link_state_eq_dec : EqDecision LinkOperationalState.
Proof. solve_decision. Defined.

(** [static_cast<std::uint8_t>] and back. *)
Definition link_state_to_u8 (e : LinkOperationalState) : Z :=
  match e with
  | UNKNOWN => 0
  | PRESENT => 1
  | ABSENT => 2
  | SUPPORTED => 3
  | UNSUPPORTED => 4
  | UP => 5
  | DOWN => 6
  | DEGRADED => 7
  | REVALIDATION_REQUIRED => 8
  | STALE => 9
  | INCOMPATIBLE => 10
  | UNREACHABLE => 11
  | UNNAMED b => b
  end.

Definition link_state_of_u8 (b : Z) : LinkOperationalState :=
  match b with
  | 0 => UNKNOWN
  | 1 => PRESENT
  | 2 => ABSENT
  | 3 => SUPPORTED
  | 4 => UNSUPPORTED
  | 5 => UP
  | 6 => DOWN
  | 7 => DEGRADED
  | 8 => REVALIDATION_REQUIRED
  | 9 => STALE
  | 10 => INCOMPATIBLE
  | 11 => UNREACHABLE
  | _ => UNNAMED b
  end.

Definition link_state_name (e : LinkOperationalState) : string :=
  match e with
  | UNKNOWN => "UNKNOWN"
  | PRESENT => "PRESENT"
  | ABSENT => "ABSENT"
  | SUPPORTED => "SUPPORTED"
  | UNSUPPORTED => "UNSUPPORTED"
  | UP => "UP"
  | DOWN => "DOWN"
  | DEGRADED => "DEGRADED"
  | REVALIDATION_REQUIRED => "REVALIDATION_REQUIRED"
  | STALE => "STALE"
  | INCOMPATIBLE => "INCOMPATIBLE"
  | UNREACHABLE => "UNREACHABLE"
  | UNNAMED _ => "UNKNOWN"
  end.

(** Represented by its enumerator when it has one. *)
Definition link_state_wf (e : LinkOperationalState) : Prop :=
  match e with UNNAMED b => 12 ≤ b < 256 | _ => True end.

#[export] Program Instance link_state_enum : EnumU8 LinkOperationalState := {|
  to_u8 := link_state_to_u8;
  of_u8 := link_state_of_u8;
  enum_wf := link_state_wf
|}.
Solve Obligations with solve_enum_with link_state_of_u8 link_state_to_u8 link_state_wf.
End LinkOperationalState.
Export (hints) LinkOperationalState.
Abbreviation LinkOperationalState := LinkOperationalState.LinkOperationalState.

Module NodeKind.
  (** [enum class NodeKind : std::uint8_t]. *)
Inductive NodeKind :=
| ACCELERATOR
| SWITCH
| HOST
| UNKNOWN
| UNNAMED (b : Z).

#[export] Instance node_kind_eq_dec : EqDecision NodeKind.
Proof. solve_decision. Defined.

(** [static_cast<std::uint8_t>] and back. *)
Definition node_kind_to_u8 (e : NodeKind) : Z :=
  match e with
  | ACCELERATOR => 0
  | SWITCH => 1
  | HOST => 2
  | UNKNOWN => 3
  | UNNAMED b => b
  end.

Definition node_kind_of_u8 (b : Z) : NodeKind :=
  match b with
  | 0 => ACCELERATOR
  | 1 => SWITCH
  | 2 => HOST
  | 3 => UNKNOWN
  | _ => UNNAMED b
  end.

Definition node_kind_name (e : NodeKind) : string :=
  match e with
  | ACCELERATOR => "ACCELERATOR"
  | SWITCH => "SWITCH"
  | HOST => "HOST"
  | UNKNOWN => "UNKNOWN"
  | UNNAMED _ => "UNKNOWN"
  end.

(** Represented by its enumerator when it has one. *)
Definition node_kind_wf (e : NodeKind) : Prop :=
  match e with UNNAMED b => 4 ≤ b < 256 | _ => True end.

#[export] Program Instance node_kind_enum : EnumU8 NodeKind := {|
  to_u8 := node_kind_to_u8;
  of_u8 := node_kind_of_u8;
  enum_wf := node_kind_wf
|}.
Solve Obligations with solve_enum_with node_kind_of_u8 node_kind_to_u8 node_kind_wf.
End NodeKind.
Export (hints) NodeKind.
Abbreviation NodeKind := NodeKind.NodeKind.

Module MeasurementSupport.
  (** [enum class MeasurementSupport : std::uint8_t]. *)
Inductive MeasurementSupport :=
| UNKNOWN
| UNSUPPORTED
| SYNTHETIC_ONLY
| REAL
| UNNAMED (b : Z).

#[export] Instance measurement_support_eq_dec : EqDecision MeasurementSupport.
Proof. solve_decision. Defined.

(** [static_cast<std::uint8_t>] and back. *)
Definition measurement_support_to_u8 (e : MeasurementSupport) : Z :=
  match e with
  | UNKNOWN => 0
  | UNSUPPORTED => 1
  | SYNTHETIC_ONLY => 2
  | REAL => 3
  | UNNAMED b => b
  end.

Definition measurement_support_of_u8 (b : Z) : MeasurementSupport :=
  match b with
  | 0 => UNKNOWN
  | 1 => UNSUPPORTED
  | 2 => SYNTHETIC_ONLY
  | 3 => REAL
  | _ => UNNAMED b
  end.

Definition measurement_support_name (e : MeasurementSupport) : string :=
  match e with
  | UNKNOWN => "UNKNOWN"
  | UNSUPPORTED => "UNSUPPORTED"
  | SYNTHETIC_ONLY => "SYNTHETIC_ONLY"
  | REAL => "REAL"
  | UNNAMED _ => "UNKNOWN"
  end.

(** Represented by its enumerator when it has one. *)
Definition measurement_support_wf (e : MeasurementSupport) : Prop :=
  match e with UNNAMED b => 4 ≤ b < 256 | _ => True end.

#[export] Program Instance measurement_support_enum : EnumU8 MeasurementSupport := {|
  to_u8 := measurement_support_to_u8;
  of_u8 := measurement_support_of_u8;
  enum_wf := measurement_support_wf
|}.
Solve Obligations with solve_enum_with measurement_support_of_u8 measurement_support_to_u8 measurement_support_wf.
End MeasurementSupport.
Export (hints) MeasurementSupport.
Abbreviation MeasurementSupport := MeasurementSupport.MeasurementSupport.

Module RouteDecisionOutcome.
  (** [enum class RouteDecisionOutcome : std::uint8_t]. *)
Inductive RouteDecisionOutcome :=
| ROUTE_ALLOWED
| ROUTE_ALLOWED_DEGRADED
| NO_ROUTE
| STALE_TOPOLOGY
| REVALIDATION_REQUIRED
| UNSUPPORTED
| INSUFFICIENT_EVIDENCE
| POLICY_REJECTED
| ENDPOINT_STALE
| LINK_STALE
| UNNAMED (b : Z).

#[export] Instance route_outcome_eq_dec : EqDecision RouteDecisionOutcome.
Proof. solve_decision. Defined.

(** [static_cast<std::uint8_t>] and back. *)
Definition route_outcome_to_u8 (e : RouteDecisionOutcome) : Z :=
  match e with
  | ROUTE_ALLOWED => 0
  | ROUTE_ALLOWED_DEGRADED => 1
  | NO_ROUTE => 2
  | STALE_TOPOLOGY => 3
  | REVALIDATION_REQUIRED => 4
  | UNSUPPORTED => 5
  | INSUFFICIENT_EVIDENCE => 6
  | POLICY_REJECTED => 7
  | ENDPOINT_STALE => 8
  | LINK_STALE => 9
  | UNNAMED b => b
  end.

Definition route_outcome_of_u8 (b : Z) : RouteDecisionOutcome :=
  match b with
  | 0 => ROUTE_ALLOWED
  | 1 => ROUTE_ALLOWED_DEGRADED
  | 2 => NO_ROUTE
  | 3 => STALE_TOPOLOGY
  | 4 => REVALIDATION_REQUIRED
  | 5 => UNSUPPORTED
  | 6 => INSUFFICIENT_EVIDENCE
  | 7 => POLICY_REJECTED
  | 8 => ENDPOINT_STALE
  | 9 => LINK_STALE
  | _ => UNNAMED b
  end.

Definition route_outcome_name (e : RouteDecisionOutcome) : string :=
  match e with
  | ROUTE_ALLOWED => "ROUTE_ALLOWED"
  | ROUTE_ALLOWED_DEGRADED => "ROUTE_ALLOWED_DEGRADED"
  | NO_ROUTE => "NO_ROUTE"
  | STALE_TOPOLOGY => "STALE_TOPOLOGY"
  | REVALIDATION_REQUIRED => "REVALIDATION_REQUIRED"
  | UNSUPPORTED => "UNSUPPORTED"
  | INSUFFICIENT_EVIDENCE => "INSUFFICIENT_EVIDENCE"
  | POLICY_REJECTED => "POLICY_REJECTED"
  | ENDPOINT_STALE => "ENDPOINT_STALE"
  | LINK_STALE => "LINK_STALE"
  | UNNAMED _ => "UNKNOWN"
  end.

(** Represented by its enumerator when it has one. *)
Definition route_outcome_wf (e : RouteDecisionOutcome) : Prop :=
  match e with UNNAMED b => 10 ≤ b < 256 | _ => True end.

#[export] Program Instance route_outcome_enum : EnumU8 RouteDecisionOutcome := {|
  to_u8 := route_outcome_to_u8;
  of_u8 := route_outcome_of_u8;
  enum_wf := route_outcome_wf
|}.
Solve Obligations with solve_enum_with route_outcome_of_u8 route_outcome_to_u8 route_outcome_wf.
End RouteDecisionOutcome.
Export (hints) RouteDecisionOutcome.
Abbreviation RouteDecisionOutcome := RouteDecisionOutcome.RouteDecisionOutcome.

Module PathQualityOutcome.
  (** [enum class PathQualityOutcome : std::uint8_t]; no decoder builds one from a byte. *)
Inductive PathQualityOutcome :=
| HEALTHY
| DEGRADED
| CONTENDED
| LINK_DOWN
| NO_PATH
| INSUFFICIENT_EVIDENCE
| REVALIDATION_REQUIRED
| UNSUPPORTED.

#[export] Instance PathQualityOutcome_eq_dec : EqDecision PathQualityOutcome.
Proof. solve_decision. Defined.

Definition path_quality_outcome_name (e : PathQualityOutcome) : string :=
  match e with
  | HEALTHY => "HEALTHY"
  | DEGRADED => "DEGRADED"
  | CONTENDED => "CONTENDED"
  | LINK_DOWN => "LINK_DOWN"
  | NO_PATH => "NO_PATH"
  | INSUFFICIENT_EVIDENCE => "INSUFFICIENT_EVIDENCE"
  | REVALIDATION_REQUIRED => "REVALIDATION_REQUIRED"
  | UNSUPPORTED => "UNSUPPORTED"
  end.
End PathQualityOutcome.
Export (hints) PathQualityOutcome.
Abbreviation PathQualityOutcome := PathQualityOutcome.PathQualityOutcome.

Module RouteRejectionReason.
  (** [enum class RouteRejectionReason : std::uint8_t]; no decoder builds one from a byte. *)
Inductive RouteRejectionReason :=
| NONE
| ENDPOINT_UNKNOWN
| ENDPOINT_ABSENT
| ENDPOINT_STALE_GENERATION
| LINK_UNSUPPORTED
| LINK_DOWN
| LINK_DEGRADED_BELOW_MINIMUM
| LINK_STALE_GENERATION
| TOPOLOGY_STALE
| INSUFFICIENT_EVIDENCE
| FRESHNESS_VIOLATION
| MIN_CAPABILITY_UNMET
| TECHNOLOGY_EXCLUDED
| POLICY_EXCLUDED
| PATH_TOO_DEEP
| NOT_DIRECT.

#[export] Instance RouteRejectionReason_eq_dec : EqDecision RouteRejectionReason.
Proof. solve_decision. Defined.

Definition rejection_reason_name (e : RouteRejectionReason) : string :=
  match e with
  | NONE => "NONE"
  | ENDPOINT_UNKNOWN => "ENDPOINT_UNKNOWN"
  | ENDPOINT_ABSENT => "ENDPOINT_ABSENT"
  | ENDPOINT_STALE_GENERATION => "ENDPOINT_STALE_GENERATION"
  | LINK_UNSUPPORTED => "LINK_UNSUPPORTED"
  | LINK_DOWN => "LINK_DOWN"
  | LINK_DEGRADED_BELOW_MINIMUM => "LINK_DEGRADED_BELOW_MINIMUM"
  | LINK_STALE_GENERATION => "LINK_STALE_GENERATION"
  | TOPOLOGY_STALE => "TOPOLOGY_STALE"
  | INSUFFICIENT_EVIDENCE => "INSUFFICIENT_EVIDENCE"
  | FRESHNESS_VIOLATION => "FRESHNESS_VIOLATION"
  | MIN_CAPABILITY_UNMET => "MIN_CAPABILITY_UNMET"
  | TECHNOLOGY_EXCLUDED => "TECHNOLOGY_EXCLUDED"
  | POLICY_EXCLUDED => "POLICY_EXCLUDED"
  | PATH_TOO_DEEP => "PATH_TOO_DEEP"
  | NOT_DIRECT => "NOT_DIRECT"
  end.
End RouteRejectionReason.
Export (hints) RouteRejectionReason.
Abbreviation RouteRejectionReason := RouteRejectionReason.RouteRejectionReason.

Module RouteFactorKey.
  (** [enum class RouteFactorKey : std::uint8_t]; no decoder builds one from a byte. *)
Inductive RouteFactorKey :=
| DIRECTNESS
| HOP_COUNT
| MEASURED_BANDWIDTH
| NOMINAL_BANDWIDTH
| MEASURED_LATENCY
| DEGRADATION
| CONTENTION
| FRESHNESS
| CONFIDENCE
| POLICY_PREFERENCE.

#[export] Instance RouteFactorKey_eq_dec : EqDecision RouteFactorKey.
Proof. solve_decision. Defined.

Definition route_factor_key_name (e : RouteFactorKey) : string :=
  match e with
  | DIRECTNESS => "DIRECTNESS"
  | HOP_COUNT => "HOP_COUNT"
  | MEASURED_BANDWIDTH => "MEASURED_BANDWIDTH"
  | NOMINAL_BANDWIDTH => "NOMINAL_BANDWIDTH"
  | MEASURED_LATENCY => "MEASURED_LATENCY"
  | DEGRADATION => "DEGRADATION"
  | CONTENTION => "CONTENTION"
  | FRESHNESS => "FRESHNESS"
  | CONFIDENCE => "CONFIDENCE"
  | POLICY_PREFERENCE => "POLICY_PREFERENCE"
  end.
End RouteFactorKey.
Export (hints) RouteFactorKey.
Abbreviation RouteFactorKey := RouteFactorKey.RouteFactorKey.

(** [enum class ErrorCode] (error.hpp). *)
Module ErrorCode.
Inductive ErrorCode :=
| OK | NOT_FOUND | UNSUPPORTED | INVALID_ARGUMENT | INVALID_TOPOLOGY
| STALE_GENERATION | STALE_BOOT | STALE_EPOCH | STALE_MEASUREMENT
| REVALIDATION_REQUIRED | BACKEND_UNAVAILABLE | BACKEND_ERROR | LINK_DOWN
| NO_PATH | INSUFFICIENT_EVIDENCE | INTEGRITY_FAILURE | PROTOCOL_ERROR
| RESOURCE_LIMIT | CANCELLED.

#[export] Instance ErrorCode_eq_dec : EqDecision ErrorCode.
Proof. solve_decision. Defined.

Definition error_code_name (c : ErrorCode) : string :=
  match c with
  | OK => "OK"
  | NOT_FOUND => "NOT_FOUND"
  | UNSUPPORTED => "UNSUPPORTED"
  | INVALID_ARGUMENT => "INVALID_ARGUMENT"
  | INVALID_TOPOLOGY => "INVALID_TOPOLOGY"
  | STALE_GENERATION => "STALE_GENERATION"
  | STALE_BOOT => "STALE_BOOT"
  | STALE_EPOCH => "STALE_EPOCH"
  | STALE_MEASUREMENT => "STALE_MEASUREMENT"
  | REVALIDATION_REQUIRED => "REVALIDATION_REQUIRED"
  | BACKEND_UNAVAILABLE => "BACKEND_UNAVAILABLE"
  | BACKEND_ERROR => "BACKEND_ERROR"
  | LINK_DOWN => "LINK_DOWN"
  | NO_PATH => "NO_PATH"
  | INSUFFICIENT_EVIDENCE => "INSUFFICIENT_EVIDENCE"
  | INTEGRITY_FAILURE => "INTEGRITY_FAILURE"
  | PROTOCOL_ERROR => "PROTOCOL_ERROR"
  | RESOURCE_LIMIT => "RESOURCE_LIMIT"
  | CANCELLED => "CANCELLED"
  end.
End ErrorCode.
Export (hints) ErrorCode.
Abbreviation ErrorCode := ErrorCode.ErrorCode.

(** ** Provenance: a bit set in a [std::uint32_t]. *)
Module Provenance.
Definition NONE : Z := 0.
Definition NVML : Z := Z.shiftl 1 0.
Definition CUDA_RUNTIME : Z := Z.shiftl 1 1.
Definition CUDA_DRIVER : Z := Z.shiftl 1 2.
Definition OPERATING_SYSTEM : Z := Z.shiftl 1 3.
Definition BENCHMARK : Z := Z.shiftl 1 4.
Definition PERSISTED : Z := Z.shiftl 1 5.
Definition DERIVED : Z := Z.shiftl 1 6.
Definition SYNTHETIC_FIXTURE : Z := Z.shiftl 1 7.

(** [operator|], [operator&], [operator~]. *)
Definition prov_or (a b : Z) : Z := Z.lor a b.
Definition prov_and (a b : Z) : Z := Z.land a b.
Definition prov_not (a : Z) : Z := wrap32 (Z.lnot a).

Definition prov_add (p : Z) (bn : Z * string) (out : string) : string :=
  if Z.land p bn.1 =? 0 then out
  else (if bool_decide (out = "") then out else out +:+ "|") +:+ bn.2.

Definition provenance_name (p : Z) : string :=
  let out := foldl (λ out bn, prov_add p bn out) ""
    [(NVML, "NVML"); (CUDA_RUNTIME, "CUDA_RUNTIME"); (CUDA_DRIVER, "CUDA_DRIVER");
     (OPERATING_SYSTEM, "OS"); (BENCHMARK, "BENCHMARK"); (PERSISTED, "PERSISTED");
     (DERIVED, "DERIVED"); (SYNTHETIC_FIXTURE, "SYNTHETIC_FIXTURE")] in
  if bool_decide (out = "") then "NONE" else out.
End Provenance.
