(* ===== verification/Double.v ===== *)
(** * IEEE 754 binary64 ([double])

    The program computes scores with [double]; the model uses the Standard
    Library's executable specification of binary64 ([SpecFloat], 53 bits of
    precision, exponent bound 1024, round to nearest even). *)

From S2P Require Import Prelude.
From Corelib Require Export SpecFloat.

Abbreviation double := spec_float.

#[export] Instance double_eq_dec : EqDecision double.
Proof. solve_decision. Defined.

(** [static_cast<double>] of an integer, and integral literals. *)
Definition d_of_Z (z : Z) : double := binary_normalize 53 1024 z 0 false.
(** A literal [m * 2^e]. *)
Definition d_of_Ze (m e : Z) : double := binary_normalize 53 1024 m e false.

Definition dadd : double → double → double := SFadd 53 1024.
Definition dmul : double → double → double := SFmul 53 1024.
Definition ddiv : double → double → double := SFdiv 53 1024.

(** [a < b], [a > b], [a <= b], [a == b], [a != b]: all but the last are false
    when an operand is a NaN. *)
Definition dltb : double → double → bool := SFltb.
Definition dgtb (a b : double) : bool := SFltb b a.
Definition dleb : double → double → bool := SFleb.
Definition deqb : double → double → bool := SFeqb.
Definition dneqb (a b : double) : bool := negb (SFeqb a b).

(** [std::max<double>]: [(a < b) ? b : a]. *)
Definition dmax (a b : double) : double := if dltb a b then b else a.

Definition d0 : double := d_of_Z 0.
Definition d1 : double := d_of_Z 1.
Definition d_half : double := d_of_Ze 1 (-1).
Definition d_inf : double := S754_infinity false.

(** [static_cast<std::uint64_t>(x)]: truncation; [None] where C++ leaves the
    conversion undefined (NaN, infinities, out of range). *)
Definition d_trunc (x : double) : option Z :=
  match x with
  | S754_zero _ => Some 0
  | S754_finite false m e => Some (Z.shiftl (Z.pos m) e)
  | S754_finite true m e => Some (- Z.shiftl (Z.pos m) e)
  | _ => None
  end.
Definition d_to_u64 (x : double) : option Z :=
  match d_trunc x with
  | Some v => if (0 <=? v) && (v <? two64) then Some v else None
  | None => None
  end.

Definition is_nan (x : double) : bool :=
  match x with S754_nan => true | _ => false end.
Definition not_nan (x : double) : Prop := is_nan x = false.

(** The order of the non-NaN doubles as a three-way comparison. *)
Definition dcompare (a b : double) : comparison :=
  match SFcompare a b with Some o => o | None => Eq end.

Lemma dltb_compare a b : not_nan a → not_nan b → dltb a b = true ↔ dcompare a b = Lt.
Proof.
  unfold dltb, dcompare, SFltb. intros Ha Hb.
  destruct (SFcompare a b) as [[]|]; split; congruence.
Qed.

Lemma deqb_compare a b : not_nan a → not_nan b → deqb a b = true ↔ dcompare a b = Eq.
Proof.
  unfold deqb, dcompare, SFeqb. intros Ha Hb.
  destruct (SFcompare a b) as [[]|] eqn:E; split; try congruence.
  destruct a as [[]|[]| |[] ? ?], b as [[]|[]| |[] ? ?]; done.
Qed.

(** A key that makes [dcompare] lexicographic: the class of the number
    (negative infinity, negative, zero, positive, infinity), its exponent and
    its mantissa, signs applied. *)
Definition d_class (x : double) : Z :=
  match x with
  | S754_infinity true => -2 | S754_finite true _ _ => -1
  | S754_zero _ => 0 | S754_nan => 0
  | S754_finite false _ _ => 1 | S754_infinity false => 2
  end.
Definition d_exp (x : double) : Z :=
  match x with
  | S754_finite true _ e => - e | S754_finite false _ e => e | _ => 0
  end.
Definition d_man (x : double) : Z :=
  match x with
  | S754_finite true m _ => Z.neg m | S754_finite false m _ => Z.pos m | _ => 0
  end.

Lemma dcompare_key a b : not_nan a → not_nan b →
  dcompare a b =
  lex (d_class a ?= d_class b) (lex (d_exp a ?= d_exp b) (d_man a ?= d_man b)).
Proof.
  unfold dcompare. intros Ha Hb.
  destruct a as [[]|[]| |[] m e], b as [[]|[]| |[] m' e']; try done; simpl.
  - rewrite Z.compare_opp, (Z.compare_antisym e e'). by destruct (e ?= e').
  - by destruct (e ?= e').
Qed.

#[export] Instance cmp_dcompare : CmpOn not_nan dcompare.
Proof.
  assert (CmpOn not_nan (λ a b,
    lex (d_class a ?= d_class b) (lex (d_exp a ?= d_exp b) (d_man a ?= d_man b)))) as H.
  { repeat apply cmp_lex; apply (cmp_weaken (λ _, True)); try done;
      apply (cmp_key (λ _, True) Z.compare), _. }
  split.
  - intros x y Hx Hy. rewrite !dcompare_key by done. by apply H.
  - intros x y z Hx Hy Hz. rewrite !dcompare_key by done. by apply H.
Qed.

(** ** Non-negative numbers: closure under the operations the scores use *)

(** +0, a positive number or +infinity. *)
Definition d_nonneg (x : double) : bool :=
  match x with
  | S754_zero false | S754_infinity false | S754_finite false _ _ => true
  | _ => false
  end.
(** A positive number, infinity excluded. *)
Definition d_positive (x : double) : bool :=
  match x with S754_finite false _ _ => true | _ => false end.
(** +0 or a positive number, infinity excluded. *)
Definition d_nonneg_finite (x : double) : bool :=
  match x with S754_zero false | S754_finite false _ _ => true | _ => false end.

Lemma d_nonneg_not_nan x : d_nonneg x = true → not_nan x.
Proof. by destruct x. Qed.

Lemma d_nonneg_finite_nonneg x : d_nonneg_finite x = true → d_nonneg x = true.
Proof. by destruct x. Qed.

Lemma shr_1_nonneg mrs : 0 ≤ shr_m mrs → 0 ≤ shr_m (shr_1 mrs).
Proof. destruct mrs as [[|[]|[]] ? ?]; simpl; lia. Qed.

Lemma iter_shr_1_nonneg p mrs : 0 ≤ shr_m mrs → 0 ≤ shr_m (iter_pos shr_1 p mrs).
Proof.
  revert mrs. induction p as [p IH|p IH|]; intros mrs H; simpl; auto using shr_1_nonneg.
Qed.

Lemma shr_fexp_nonneg m e l : 0 ≤ m → 0 ≤ shr_m (shr_fexp 53 1024 m e l).1.
Proof.
  intros Hm. unfold shr_fexp, shr. assert (0 ≤ shr_m (shr_record_of_loc m l)) as H.
  { by destruct l as [|[]]. }
  destruct (_ - _); simpl; [done|by apply iter_shr_1_nonneg|done].
Qed.

Lemma round_nearest_even_nonneg m l : 0 ≤ m → 0 ≤ round_nearest_even m l.
Proof. intros. destruct l as [|[]]; simpl; try case_match; lia. Qed.

Lemma binary_round_aux_nonneg m e l :
  0 ≤ m → d_nonneg (binary_round_aux 53 1024 false m e l) = true.
Proof.
  intros Hm. unfold binary_round_aux.
  pose proof (shr_fexp_nonneg m e l Hm) as H1.
  destruct (shr_fexp 53 1024 m e l) as [mrs e']. simpl in H1.
  pose proof (shr_fexp_nonneg _ e' loc_Exact (round_nearest_even_nonneg (shr_m mrs)
    (loc_of_shr_record mrs) H1)) as H2.
  destruct (shr_fexp 53 1024 _ e' loc_Exact) as [mrs' e'']. simpl in H2.
  destruct (shr_m mrs'); [done| |lia]. by case_match.
Qed.

Lemma binary_normalize_nonneg m e :
  0 ≤ m → d_nonneg (binary_normalize 53 1024 m e false) = true.
Proof.
  intros Hm. destruct m as [|p|p]; simpl; [done| |lia].
  unfold binary_round. destruct (shl_align _ _ _) as [mz ez].
  by apply binary_round_aux_nonneg.
Qed.

Lemma d_of_Z_nonneg z : 0 ≤ z → d_nonneg (d_of_Z z) = true.
Proof. apply binary_normalize_nonneg. Qed.

Lemma dadd_nonneg x y : d_nonneg x = true → d_nonneg y = true → d_nonneg (dadd x y) = true.
Proof.
  destruct x as [[]|[]| |[] mx ex], y as [[]|[]| |[] my ey]; try done.
  intros _ _. unfold dadd, SFadd. by apply binary_normalize_nonneg.
Qed.

Lemma dmul_nonneg x y : d_positive x = true → d_nonneg y = true → d_nonneg (dmul x y) = true.
Proof.
  destruct x as [[]|[]| |[] mx ex], y as [[]|[]| |[] my ey]; try done.
  intros _ _. unfold dmul, SFmul. by apply binary_round_aux_nonneg.
Qed.

Lemma SFdiv_core_nonneg mx ex my ey :
  0 ≤ mx → 0 < my → 0 ≤ (SFdiv_core_binary 53 1024 mx ex my ey).1.1.
Proof.
  intros Hx Hy. unfold SFdiv_core_binary.
  set (s := _ - Z.min _ _). set (m' := match s with Zpos _ => _ | Z0 => _ | Zneg _ => _ end).
  assert (0 ≤ m') as Hm.
  { subst m'. destruct s; [done|by apply Z.shiftl_nonneg|done]. }
  pose proof (Z.div_pos m' my Hm Hy) as Hd. unfold Z.div in Hd.
  change (IntDef.Z.div_eucl m' my) with (Z.div_eucl m' my).
  by destruct (Z.div_eucl m' my) as [q rm].
Qed.

(** Division by a positive number, and of a finite number by +infinity. *)
Lemma ddiv_nonneg x y :
  d_nonneg_finite x = true → (d_positive y = true ∨ y = d_inf) → d_nonneg (ddiv x y) = true.
Proof.
  unfold ddiv, SFdiv.
  destruct x as [[]|[]| |[] mx ex], y as [[]|[]| |[] my ey]; try done; try (by intros _ [|]).
  intros _ _. pose proof (SFdiv_core_nonneg (Zpos mx) ex (Zpos my) ey) as H.
  destruct (SFdiv_core_binary _ _ _ _ _ _) as [[mz ez] lz]. apply binary_round_aux_nonneg.
  apply H; lia.
Qed.

(** The reciprocal of a non-negative number (that of +0 is +infinity). *)
Lemma drecip_nonneg y : d_nonneg y = true → d_nonneg (ddiv d1 y) = true.
Proof.
  destruct y as [[]|[]| |[] my ey]; try done. intros _. by apply ddiv_nonneg; [|left].
Qed.

(** ** A [std::uint64_t] converts to a finite double *)

Lemma Zdigits2_le n k : 0 ≤ k → 0 ≤ n < 2 ^ k → Zdigits2 n ≤ k.
Proof.
  intros Hk [H0 Hn]. destruct n as [|p|p]; simpl; [done| |lia].
  revert k Hk Hn. clear H0. induction p as [p IH|p IH|]; intros k Hk Hn; simpl.
  1,2: assert (k ≠ 0) by (intros ->; simpl in Hn; lia);
    replace k with (1 + (k - 1)) in Hn by lia; rewrite Z.pow_add_r in Hn by lia;
    specialize (IH (k - 1)); lia.
  destruct (decide (k = 0)) as [->|]; simpl in *; lia.
Qed.

(** Shifting lowers the mantissa and bounds the exponent. *)
Definition mantissa_below (b : Z) (mrs : shr_record) : Prop := 0 ≤ shr_m mrs ≤ b.

Lemma shr_1_below b mrs : mantissa_below b mrs → mantissa_below b (shr_1 mrs).
Proof. unfold mantissa_below. destruct mrs as [[|[]|[]] ? ?]; simpl; lia. Qed.

Lemma iter_shr_1_below b p mrs :
  mantissa_below b mrs → mantissa_below b (iter_pos shr_1 p mrs).
Proof. revert mrs. induction p; intros mrs H; simpl; auto using shr_1_below. Qed.

Lemma shr_fexp_below m e l k :
  0 ≤ k → 0 ≤ m < 2 ^ k →
  mantissa_below m (shr_fexp 53 1024 m e l).1 ∧
  (shr_fexp 53 1024 m e l).2 ≤ Z.max e (Z.max (k + e - 53) (-1074)).
Proof.
  intros Hk Hm. pose proof (Zdigits2_le m k Hk Hm) as Hd.
  assert (mantissa_below m (shr_record_of_loc m l)) as Hb.
  { unfold mantissa_below. destruct l as [|[]]; simpl; lia. }
  unfold shr_fexp, shr, fexp, emin.
  change (IntDef.Z.max) with Z.max.
  destruct (Z.max (Zdigits2 m + e - 53) (3 - 1024 - 53) - e) as [|p|p] eqn:E; simpl;
    (split; [auto using iter_shr_1_below|lia]).
Qed.

Lemma binary_round_aux_finite m e l k :
  0 ≤ k → 0 ≤ m < 2 ^ k → e ≤ 0 → k ≤ 400 →
  d_nonneg_finite (binary_round_aux 53 1024 false m e l) = true.
Proof.
  intros Hk Hm He Hk9. unfold binary_round_aux.
  destruct (shr_fexp_below m e l k Hk Hm) as [H1 He1].
  destruct (shr_fexp 53 1024 m e l) as [mrs e']. simpl in *. unfold mantissa_below in H1.
  set (m1 := round_nearest_even _ _).
  assert (0 ≤ m1 < 2 ^ (k + 1)) as Hm1.
  { rewrite Z.pow_add_r by lia. subst m1.
    destruct (loc_of_shr_record mrs) as [|[]]; simpl; try case_match; lia. }
  destruct (shr_fexp_below m1 e' loc_Exact (k + 1)) as [H2 He2]; [lia|done|].
  destruct (shr_fexp 53 1024 m1 e' loc_Exact) as [mrs' e'']. simpl in *.
  unfold mantissa_below in H2. destruct (shr_m mrs'); [done| |lia].
  rewrite (proj2 (Z.leb_le _ _)); [done|]. lia.
Qed.

Lemma d_of_Z_finite z : u64 z → d_nonneg_finite (d_of_Z z) = true.
Proof.
  unfold u64, two64, d_of_Z, binary_normalize. intros Hz.
  destruct z as [|p|p]; [done| |lia]. unfold binary_round, shl_align.
  pose proof (Zdigits2_le (Zpos p) 64) as Hd. simpl in Hd. unfold fexp, emin.
  change IntDef.Z.max with Z.max. change IntDef.Z.sub with Z.sub. change IntDef.Z.add with Z.add.
  destruct (Z.max _ _ - 0) as [|d|d] eqn:E.
  1,2: apply (binary_round_aux_finite _ _ _ 64); lia.
  assert (Zneg d ≤ 0 ∧ -53 ≤ Zneg d) as Hdn by lia.
  apply (binary_round_aux_finite _ _ _ (64 + 53)); [lia| |idtac|lia]. 2: lia.
  change (PosDef.Pos.iter xO p d) with (shift_pos d p).
  rewrite shift_pos_correct. split; [lia|].
  rewrite Z.pow_add_r, Z.mul_comm by lia.
  assert (Z.pow_pos 2 d ≤ 2 ^ 53).
  { change (Z.pow_pos 2 d) with (2 ^ Zpos d). apply Z.pow_le_mono_r; lia. }
  nia.
Qed.
