(* ===== verification/Records.v ===== *)
(** * The data model: records of the public headers

    [Result]/[Error] (result.hpp, error.hpp), [Timestamp] (time.hpp),
    [Evidence], [Capability], [DeviceRecord], [LinkRecord], [PathElement],
    [Path], [TopologySnapshot] (topology.hpp), [MeasurementRecord],
    [Observation], [ConsistentView], [DurableState] and [Limits].  Identities
    and generations ([Id<Tag>], [Generation<Tag>]) are the [std::uint64_t] they
    wrap. *)

From S2P Require Import Prelude Enums Double.

(** ** Identities and generations (identities.hpp) *)

(** [Id::is_nil] and [Generation::valid]. *)
Definition is_nil (i : Z) : bool := i =? 0.
Definition gen_valid (g : Z) : bool := negb (g =? 0).
(** [Generation::next]: [v_ + 1u] in 64 bits. *)
Definition gen_next (g : Z) : Z := wrap64 (g + 1).

(** ** Result and Error *)
Record Error := mkError { err_code : ErrorCode; err_message : string }.

Inductive Result (A : Type) :=
| Ok (a : A)
| Err (e : Error).
Arguments Ok {A} a.
Arguments Err {A} e.

Lemma Ok_inj {A} (a b : A) : Ok a = Ok b → a = b.
Proof. congruence. Qed.

Definition err {A} (c : ErrorCode) (m : string) : Result A := Err (mkError c m).
Definition has_value {A} (r : Result A) : bool :=
  match r with Ok _ => true | Err _ => false end.

(** [Error::to_string] of an error with no context entries. *)
Definition error_to_string (e : Error) : string :=
  ErrorCode.error_code_name (err_code e) +:+
  (if bool_decide (err_message e = "") then "" else ": " +:+ err_message e).

(** ** Timestamp *)
Record Timestamp := mkTimestamp { unix_ns : Z; ts_valid : bool }.
#[export] Instance Timestamp_eq_dec : EqDecision Timestamp.
Proof. solve_decision. Defined.
Definition default_timestamp : Timestamp := mkTimestamp 0 false.

(** ** Evidence *)
Record Evidence := mkEvidence {
  evidence_class : EvidenceClass;
  provenance : Z;
  ev_source : string;
  ev_note : string
}.
#[export] Instance Evidence_eq_dec : EqDecision Evidence.
Proof. solve_decision. Defined.
Definition default_evidence : Evidence :=
  mkEvidence EvidenceClass.UNSUPPORTED Provenance.NONE "" "".

Definition is_real (e : Evidence) : bool :=
  bool_decide (evidence_class e = EvidenceClass.REAL).
Definition is_synthetic (e : Evidence) : bool :=
  bool_decide (evidence_class e = EvidenceClass.SYNTHETIC).
Definition is_unsupported (e : Evidence) : bool :=
  bool_decide (evidence_class e = EvidenceClass.UNSUPPORTED).

Definition describe (e : Evidence) : string :=
  let out := EvidenceClass.evidence_class_name (evidence_class e) in
  let prov := Provenance.provenance_name (provenance e) in
  let out := if bool_decide (prov ≠ "") && bool_decide (prov ≠ "NONE")
             then out +:+ " " +:+ prov else out in
  let out := if bool_decide (ev_source e = "") then out
             else out +:+ " from=" +:+ ev_source e in
  if bool_decide (ev_note e = "") then out else out +:+ " (" +:+ ev_note e +:+ ")".

(** ** Capability *)
Record Capability := mkCapability {
  interconnect : InterconnectTechnology;
  cap_link_count : Z;
  nominal_lane_width : Z;
  nominal_bandwidth_bps : Z;
  peer_access_supported : bool;
  measurement_support : MeasurementSupport;
  supported_counters : Z;
  telemetry_supported : bool
}.
#[export] Instance Capability_eq_dec : EqDecision Capability.
Proof. solve_decision. Defined.
Definition default_capability : Capability :=
  mkCapability InterconnectTechnology.UNKNOWN 0 0 0 false MeasurementSupport.UNKNOWN 0 false.

(** [Capability::equivalent]. *)
Definition equivalent (a b : Capability) : bool :=
  bool_decide (interconnect a = interconnect b) &&
  (cap_link_count a =? cap_link_count b) &&
  (nominal_lane_width a =? nominal_lane_width b) &&
  (nominal_bandwidth_bps a =? nominal_bandwidth_bps b) &&
  Bool.eqb (peer_access_supported a) (peer_access_supported b) &&
  bool_decide (measurement_support a = measurement_support b) &&
  (supported_counters a =? supported_counters b) &&
  Bool.eqb (telemetry_supported a) (telemetry_supported b).

(** ** DeviceRecord *)
Record DeviceRecord := mkDevice {
  dev_id : Z;
  dev_logical_name : string;
  dev_kind : NodeKind;
  dev_backend : string;
  dev_backend_instance : string;
  dev_pci_identity : string;
  dev_cuda_ordinal : option Z;
  dev_vendor : string;
  dev_architecture : string;
  dev_device_generation : string;
  dev_capability : Capability;
  dev_health : DeviceHealthState;
  dev_evidence : Evidence;
  dev_generation : Z;
  dev_owner_worker : option Z;
  dev_owner_boot : option Z
}.
Definition default_device : DeviceRecord :=
  mkDevice 0 "" NodeKind.UNKNOWN "" "" "" None "" "" "" default_capability
    DeviceHealthState.UNKNOWN default_evidence 0 None None.

Definition is_valid_edge_endpoint (d : DeviceRecord) : bool :=
  bool_decide (dev_kind d = NodeKind.ACCELERATOR) || bool_decide (dev_kind d = NodeKind.HOST).

(** ** LinkRecord *)
Record LinkRecord := mkLink {
  lk_id : Z;
  lk_source : Z;
  lk_target : Z;
  lk_directed : bool;
  lk_physical_identifier : string;
  lk_state : LinkOperationalState;
  lk_technology : InterconnectTechnology;
  lk_capability : Capability;
  lk_generation : Z;
  lk_evidence : Evidence;
  lk_last_observation : Timestamp;
  lk_measurement_supported : bool;
  lk_degraded : bool;
  lk_degradation_note : string;
  lk_topology_generation : Z
}.
Definition default_link : LinkRecord :=
  mkLink 0 0 0 false "" LinkOperationalState.UNKNOWN InterconnectTechnology.UNKNOWN
    default_capability 0 default_evidence default_timestamp false false "" 0.

(** ** PathElement and Path *)
Inductive PathElement :=
| DEVICE (device : Z)
| LINK (link : Z).
#[export] Instance PathElement_eq_dec : EqDecision PathElement.
Proof. solve_decision. Defined.

Record Path := mkPath {
  path_id_ : Z;
  path_source : Z;
  path_target : Z;
  path_direct : bool;
  path_switch_traversal : bool;
  path_elements : list PathElement;
  path_hop_count : Z;
  path_nvlink_segments : Z
}.

(** [Path::to_string]. *)
Definition element_to_string (e : PathElement) : string :=
  match e with
  | DEVICE d => " dev:" +:+ dec d
  | LINK l => " link:" +:+ dec l
  end.
Definition path_to_string (p : Path) : string :=
  "path(" +:+
  (foldl (λ '(out, first) e,
     (out +:+ (if first : bool then "" else " ->") +:+ element_to_string e, false))
     ("", true) (path_elements p)).1 +:+ ")".

(** ** TopologySnapshot *)
Record TopologySnapshot := mkSnapshot {
  snap_generation : Z;
  snapshot_id : Z;
  snap_devices : list DeviceRecord;
  snap_links : list LinkRecord;
  snap_created_at : Timestamp
}.

(** ** MeasurementRecord *)
Record MeasurementRecord := mkMeasurement {
  meas_id : Z;
  meas_source : Z;
  meas_target : Z;
  meas_payload_bytes : Z;
  meas_iterations : Z;
  meas_warmup_iterations : Z;
  meas_completed_transfers : Z;
  meas_bytes_verified : Z;
  meas_bandwidth_bps : double;
  meas_latency_seconds : double;
  meas_warmup_separated : bool;
  meas_integrity_verified : bool;
  meas_contended : bool;
  meas_method : string;
  meas_path_note : string;
  meas_evidence : Evidence;
  meas_measured_at : Timestamp;
  meas_valid : bool;
  meas_stale : bool;
  meas_revalidation_required : bool;
  meas_owner_worker : option Z;
  meas_owner_boot : option Z
}.
Definition default_measurement : MeasurementRecord :=
  mkMeasurement 0 0 0 0 0 0 0 0 d0 d0 true false false "" "" default_evidence
    default_timestamp false false false None None.

(** ** Observation and ConsistentView (registry.hpp) *)
Record Observation := mkObservation {
  obs_id : Z;
  obs_kind : string;
  obs_source : Z;
  obs_target : Z;
  obs_evidence : Evidence;
  obs_observed_at : Timestamp;
  obs_summary : string;
  obs_stale : bool
}.

Record ConsistentView := mkView {
  view_topology : TopologySnapshot;
  view_measurements : list MeasurementRecord
}.

(** ** DurableState (durable.hpp) *)
Record DurableState := mkDurable {
  ds_format_version : string;
  ds_topology_generation : Z;
  ds_devices : list DeviceRecord;
  ds_links : list LinkRecord;
  ds_saved_at : Timestamp
}.
Definition durable_format_version : string := "nvlinkfabric-durable/1.0".

(** ** Limits (limits.hpp) *)
Record Limits := mkLimits {
  max_devices : Z;
  max_links : Z;
  max_parallel_links_per_pair : Z;
  max_path_depth : Z;
  max_candidate_paths : Z;
  max_measurement_history : Z;
  max_observations : Z;
  max_persisted_state_bytes : Z;
  max_frame_bytes : Z;
  max_workers : Z;
  max_tcp_clients : Z;
  max_queued_messages : Z
}.
Definition default_limits : Limits :=
  mkLimits 256 1024 16 16 256 1024 4096 (64 * 1024 * 1024) (16 * 1024 * 1024) 32 64 256.

(** ** Field updates the operations perform *)
Definition link_set_topology_generation (g : Z) (l : LinkRecord) : LinkRecord :=
  mkLink (lk_id l) (lk_source l) (lk_target l) (lk_directed l) (lk_physical_identifier l)
    (lk_state l) (lk_technology l) (lk_capability l) (lk_generation l) (lk_evidence l)
    (lk_last_observation l) (lk_measurement_supported l) (lk_degraded l)
    (lk_degradation_note l) g.

(** Overwrites [state], [degraded] and [degradation_note]. *)
Definition link_set_dynamic (st : LinkOperationalState) (deg : bool) (note : string)
    (l : LinkRecord) : LinkRecord :=
  mkLink (lk_id l) (lk_source l) (lk_target l) (lk_directed l) (lk_physical_identifier l)
    st (lk_technology l) (lk_capability l) (lk_generation l) (lk_evidence l)
    (lk_last_observation l) (lk_measurement_supported l) deg note (lk_topology_generation l).

(** Overwrites [generation], [evidence] and [last_observation]. *)
Definition link_set_observed (g : Z) (ev : Evidence) (ts : Timestamp) (l : LinkRecord) : LinkRecord :=
  mkLink (lk_id l) (lk_source l) (lk_target l) (lk_directed l) (lk_physical_identifier l)
    (lk_state l) (lk_technology l) (lk_capability l) g ev
    ts (lk_measurement_supported l) (lk_degraded l) (lk_degradation_note l)
    (lk_topology_generation l).

Definition device_set_health (h : DeviceHealthState) (d : DeviceRecord) : DeviceRecord :=
  mkDevice (dev_id d) (dev_logical_name d) (dev_kind d) (dev_backend d)
    (dev_backend_instance d) (dev_pci_identity d) (dev_cuda_ordinal d) (dev_vendor d)
    (dev_architecture d) (dev_device_generation d) (dev_capability d) h
    (dev_evidence d) (dev_generation d) (dev_owner_worker d) (dev_owner_boot d).

(** Overwrites [evidence] and [generation]. *)
Definition device_set_observed (ev : Evidence) (g : Z) (d : DeviceRecord) : DeviceRecord :=
  mkDevice (dev_id d) (dev_logical_name d) (dev_kind d) (dev_backend d)
    (dev_backend_instance d) (dev_pci_identity d) (dev_cuda_ordinal d) (dev_vendor d)
    (dev_architecture d) (dev_device_generation d) (dev_capability d) (dev_health d)
    ev g (dev_owner_worker d) (dev_owner_boot d).

Definition device_set_owner (w b : Z) (d : DeviceRecord) : DeviceRecord :=
  mkDevice (dev_id d) (dev_logical_name d) (dev_kind d) (dev_backend d)
    (dev_backend_instance d) (dev_pci_identity d) (dev_cuda_ordinal d) (dev_vendor d)
    (dev_architecture d) (dev_device_generation d) (dev_capability d) (dev_health d)
    (dev_evidence d) (dev_generation d) (Some w) (Some b).

(** Overwrites [id], [stale] and [revalidation_required]. *)
Definition meas_set_flags (i : Z) (stale reval : bool) (m : MeasurementRecord) : MeasurementRecord :=
  mkMeasurement i (meas_source m) (meas_target m) (meas_payload_bytes m) (meas_iterations m)
    (meas_warmup_iterations m) (meas_completed_transfers m) (meas_bytes_verified m)
    (meas_bandwidth_bps m) (meas_latency_seconds m) (meas_warmup_separated m)
    (meas_integrity_verified m) (meas_contended m) (meas_method m) (meas_path_note m)
    (meas_evidence m) (meas_measured_at m) (meas_valid m) stale reval
    (meas_owner_worker m) (meas_owner_boot m).

Definition meas_set_owner (w b : Z) (m : MeasurementRecord) : MeasurementRecord :=
  mkMeasurement (meas_id m) (meas_source m) (meas_target m) (meas_payload_bytes m)
    (meas_iterations m) (meas_warmup_iterations m) (meas_completed_transfers m)
    (meas_bytes_verified m) (meas_bandwidth_bps m) (meas_latency_seconds m)
    (meas_warmup_separated m) (meas_integrity_verified m) (meas_contended m) (meas_method m)
    (meas_path_note m) (meas_evidence m) (meas_measured_at m) (meas_valid m) (meas_stale m)
    (meas_revalidation_required m) (Some w) (Some b).

(** Overwrites [id] and [stale]. *)
Definition obs_set_flags (i : Z) (stale : bool) (o : Observation) : Observation :=
  mkObservation i (obs_kind o) (obs_source o) (obs_target o) (obs_evidence o)
    (obs_observed_at o) (obs_summary o) stale.

(** ** Equality tests coincide with equality *)
Lemma equivalent_spec a b : equivalent a b = true ↔ a = b.
Proof.
  unfold equivalent. destruct a, b; simpl.
  rewrite !andb_true_iff, !Z.eqb_eq, !bool_decide_eq_true, !Bool.eqb_true_iff.
  split; [intros; destruct_and!; by subst|intros [=]; by subst].
Qed.
