(* ===== verification/Values.v ===== *)
(** * Value types: Result, Error, identities, timestamps
    (result.hpp, error.hpp, identities.hpp, time.hpp, evidence.hpp)

    The accessors of the small classes every other part passes around.  The
    development uses [Result A], [Error] and integers for them; here are the
    classes' own interfaces on top of these, exceptions and termination
    included. *)

From S2P Require Import Prelude Enums Double Records.
From Stdlib Require Import String.

(** ** Result<T> *)

(** What an accessor does: it returns, or it throws [std::runtime_error]. *)
Inductive Access (A : Type) := Got (a : A) | Thrown (what : string).
Arguments Got {A} a.
Arguments Thrown {A} what.

Definition ok {A} (v : A) : Result A := Ok v.

Definition throw_no_value {A} (e : Error) : Access A :=
  Thrown ("Result has no value: " +:+ error_to_string e).

Definition value {A} (r : Result A) : Access A :=
  match r with Ok a => Got a | Err e => throw_no_value e end.

(** [operator*] and [operator->]. *)
Definition deref {A} (r : Result A) : Access A := value r.

(** [error()] of a result with a value: [std::get] throws in a [noexcept]
    function, and the process terminates ([None]). *)
Definition error {A} (r : Result A) : option Error :=
  match r with Ok _ => None | Err e => Some e end.

Definition value_or {A} (r : Result A) (def : A) : A :=
  if has_value r then match r with Ok a => a | Err _ => def end else def.

Definition make_error (c : ErrorCode) (m : string) : Error := mkError c m.
Definition error_of (c : ErrorCode) (m : string) : Error := mkError c m.

(** ** Result<void> *)
Record VoidResult := mkVoid { void_ok : bool; void_err : Error }.
Definition default_error : Error := mkError ErrorCode.OK "".

Definition void_success : VoidResult := mkVoid true default_error.
Definition void_failure (e : Error) : VoidResult := mkVoid false e.
Definition void_has_value (r : VoidResult) : bool := void_ok r.
Definition void_error (r : VoidResult) : Error := void_err r.

(** The [Result unit] it stands for. *)
Definition of_void (r : VoidResult) : Result unit :=
  if void_ok r then Ok tt else Err (void_err r).

(** ** Error, with its context *)
Record ErrorInfo := mkErrorInfo { ei_error : Error; ei_context : gmap string string }.

Definition error_ok (e : Error) : bool := bool_decide (err_code e = ErrorCode.OK).
Definition error_bool (e : Error) : bool := negb (error_ok e).

Definition set_context (name v : string) (e : ErrorInfo) : ErrorInfo :=
  mkErrorInfo (ei_error e) (<[name := v]> (ei_context e)).

(** The entries in the order of [std::map]: by key, byte by byte. *)
Definition key_lt (a b : string * string) : bool := String.ltb a.1 b.1.
Definition context_entries (m : gmap string string) : list (string * string) :=
  stable_sort key_lt (map_to_list m).

Definition error_info_to_string (e : ErrorInfo) : string :=
  error_to_string (ei_error e) +:+
  match context_entries (ei_context e) with
  | [] => ""
  | l => " {" +:+ foldr (λ kv out, " " +:+ kv.1 +:+ "=" +:+ kv.2 +:+ out) " }" l
  end.

(** ** Identities and generations *)
Definition id_eq (a b : Z) : bool := a =? b.
Definition id_ne (a b : Z) : bool := negb (a =? b).
Definition id_lt (a b : Z) : bool := a <? b.
Definition id_gt (a b : Z) : bool := b <? a.
Definition id_bool (a : Z) : bool := negb (is_nil a).
Definition id_to_string (a : Z) : string := dec a.
Definition generation_to_string (g : Z) : string := dec g.

(** [std::hash] of a wrapped integer is that of the integer. *)
Definition hash_id (hash64 : Z → Z) (a : Z) : Z := hash64 a.

(** ** Timestamps and evidence *)
Definition is_valid (t : Timestamp) : bool := ts_valid t.
Definition timestamp_eq (a b : Timestamp) : bool :=
  (unix_ns a =? unix_ns b) && Bool.eqb (ts_valid a) (ts_valid b).
Definition evidence_eq (a b : Evidence) : bool :=
  bool_decide (evidence_class a = evidence_class b) && (provenance a =? provenance b) &&
  bool_decide (ev_source a = ev_source b) && bool_decide (ev_note a = ev_note b).

(** ** What they promise *)

Section Accessors.
Context {A : Type}.
Implicit Types (r : Result A) (e : Error).

(** A value is returned or an exception with the error's text thrown, never
    both, and [has_value] tells which. *)
Lemma value_spec r :
  (has_value r = true ↔ ∃ a, value r = Got a) ∧
  (has_value r = false ↔ ∃ e, error r = Some e ∧
     value r = Thrown ("Result has no value: " +:+ error_to_string e)).
Proof. destruct r as [a|e]; simpl; naive_solver. Qed.

Lemma value_or_spec r (def : A) :
  value_or r def = match value r with Got a => a | Thrown _ => def end.
Proof. by destruct r. Qed.
End Accessors.

(** [Result<void>] is [Result unit], but that its [error()] can always be asked. *)
Lemma of_void_spec (v : VoidResult) :
  has_value (of_void v) = void_has_value v ∧
  (void_has_value v = false → error (of_void v) = Some (void_error v)).
Proof. destruct v as [[] e]; done. Qed.

(** Without context the text is [error_to_string]. *)
Lemma error_info_no_context (e : Error) :
  error_info_to_string (mkErrorInfo e ∅) = error_to_string e.
Proof.
  assert (∀ s : string, s +:+ "" = s) as H; [|apply H].
  induction s as [|a s IH]; [done|]. exact (f_equal (String.String a) IH).
Qed.

(** The order in which different entries are set does not show. *)
Lemma set_context_comm e n1 v1 n2 v2 :
  n1 ≠ n2 → set_context n1 v1 (set_context n2 v2 e) = set_context n2 v2 (set_context n1 v1 e).
Proof. intros Hn. unfold set_context. simpl. by rewrite insert_insert_ne. Qed.

Lemma id_order a b :
  (id_lt a b = true ∨ id_eq a b = true ∨ id_gt a b = true) ∧
  (id_lt a b = true → id_ne a b = true ∧ id_gt a b = false).
Proof.
  unfold id_lt, id_eq, id_gt, id_ne. rewrite !Z.ltb_lt, Z.eqb_eq. split; [lia|].
  intros H. rewrite negb_true_iff, Z.eqb_neq, Z.ltb_ge. lia.
Qed.

Lemma timestamp_eq_spec a b : timestamp_eq a b = true ↔ a = b.
Proof.
  unfold timestamp_eq. rewrite andb_true_iff, Z.eqb_eq, Bool.eqb_true_iff.
  destruct a, b; simpl. naive_solver.
Qed.

Lemma evidence_eq_spec a b : evidence_eq a b = true ↔ a = b.
Proof.
  unfold evidence_eq. rewrite !andb_true_iff, !bool_decide_eq_true, Z.eqb_eq.
  destruct a, b; simpl. naive_solver.
Qed.

Example error_info_text :
  error_info_to_string (set_context "b" "2" (set_context "a" "1"
    (mkErrorInfo (mkError ErrorCode.NOT_FOUND "x") ∅))) = "NOT_FOUND: x { a=1 b=2 }"%string.
Proof. vm_compute. reflexivity. Qed.
