(* ===== verification/World.v ===== *)
(** * Ambient effects: identity counters, the clock, the platform

    [fresh_id]/[fresh_generation] draw from one process-wide atomic counter per
    tag (identities.hpp); [now_timestamp] reads the system clock (time.hpp).
    Both are threaded through a state monad over [World].  [Platform] collects
    what the C++ standard leaves to the implementation and the program's
    behaviour depends on. *)

From S2P Require Import Prelude Records.

(** The identity tags whose counters the library advances. *)
Inductive Tag :=
| DeviceTag | LinkTag | TopologySnapshotTag | ObservationTag | MeasurementTag
| RouteDecisionTag | DeviceGenerationTag | LinkGenerationTag
| CoordinatorEpochTag | RouteGenerationTag.
#[export] Instance Tag_eq_dec : EqDecision Tag.
Proof. solve_decision. Defined.

(** The counters, and the clock: [clock n] is its [n]-th reading in
    nanoseconds, [ticks] the readings taken so far. *)
Record World := mkWorld {
  id_counter : Tag → Z;
  generation_counter : Tag → Z;
  clock : nat → Z;
  ticks : nat
}.

(** ** The monad: the state monad over [World] *)
Definition M (A : Type) : Type := World → A * World.
Definition bump (c : Tag → Z) (t : Tag) : Tag → Z :=
  λ t', if decide (t' = t) then wrap64 (c t + 1) else c t'.

(** [counter.fetch_add(1u) + 1u]. *)
Definition fresh_id (t : Tag) : M Z := λ w,
  (wrap64 (id_counter w t + 1),
   mkWorld (bump (id_counter w) t) (generation_counter w) (clock w) (ticks w)).

Definition fresh_generation (t : Tag) : M Z := λ w,
  (wrap64 (generation_counter w t + 1),
   mkWorld (id_counter w) (bump (generation_counter w) t) (clock w) (ticks w)).

Definition now_timestamp : M Timestamp := λ w,
  (mkTimestamp (clock w (ticks w)) true,
   mkWorld (id_counter w) (generation_counter w) (clock w) (S (ticks w))).

(** ** Platform *)

(** The order in which the arguments of a call are evaluated: unspecified in
    C++, relied upon by [Timestamp(r.u64(), r.u8() != 0u)]. *)
Inductive ArgOrder := LeftToRight | RightToLeft.

(** [moved_from s] is the value of a string that held [s] after it was moved
    from: "valid but unspecified". *)
Class Platform := {
  arg_order : ArgOrder;
  moved_from : string → string
}.

(** A fresh process. *)
Definition initial_world (clk : nat → Z) : World := mkWorld (λ _, 0) (λ _, 0) clk 0.

(** ** Facts *)

Lemma fresh_id_counter t w : id_counter (fresh_id t w).2 t = (fresh_id t w).1.
Proof. simpl. unfold bump. by rewrite decide_True. Qed.

(** [n] successive draws from a counter that does not run out. *)
Lemma repeat_fresh_id t n w :
  0 ≤ id_counter w t → id_counter w t + Z.of_nat n < two64 →
  (repeat_m n (fresh_id t) w).1 = seqZ (id_counter w t + 1) (Z.of_nat n).
Proof.
  revert w. induction n as [|n IH]; intros w H0 Hn; [done|].
  simpl. rewrite !bind_eq. simpl.
  assert (wrap64 (id_counter w t + 1) = id_counter w t + 1) as Hw
    by (apply wrap64_small; unfold u64; lia).
  rewrite IH; simpl; unfold bump; rewrite decide_True by done; rewrite Hw; [|lia..].
  rewrite (seqZ_cons (id_counter w t + 1)) by lia.
  f_equal. f_equal; lia.
Qed.

(** Fresh identities are never nil and never repeat, until 2^64 have been
    drawn. *)
Lemma fresh_ids_unique t n w :
  0 ≤ id_counter w t → id_counter w t + Z.of_nat n < two64 →
  NoDup (repeat_m n (fresh_id t) w).1 ∧
  Forall (λ i, is_nil i = false) (repeat_m n (fresh_id t) w).1.
Proof.
  intros H0 Hn. rewrite repeat_fresh_id by done. split; [apply NoDup_seqZ|].
  apply Forall_forall. intros i Hi%elem_of_seqZ. apply Z.eqb_neq. lia.
Qed.
