(* ===== verification/Registry.v ===== *)
(** * TopologyRegistry: state and mutations (registry.cpp, detail/state.hpp)

    The registry holds an immutable [State] behind a lock.  A mutation copies
    the current state, edits the copy and swaps it in under the unique lock,
    so each operation below is one atomic step: it returns its [Result] and
    the registry afterwards (the same registry on every error path).  Readers
    work on the [State] they loaded. *)

From S2P Require Import Prelude Enums Double Records World.

(** [TopologyRegistry::State]; the [unordered_map]s are finite maps. *)
Record State := mkState {
  topology_gen : Z;
  devices : gmap Z DeviceRecord;
  links : gmap Z LinkRecord;
  measurement_history : list MeasurementRecord;
  observations : list Observation
}.

Record Registry := mkRegistry { state_ : State; limits_ : Limits }.

(** ** Snapshots and accessors *)

Definition device_id_lt (a b : DeviceRecord) : bool := dev_id a <? dev_id b.
Definition link_id_lt (a b : LinkRecord) : bool := lk_id a <? lk_id b.

(** The values of the maps in id order: iteration then [std::sort]. *)
Definition sorted_devices (s : State) : list DeviceRecord :=
  stable_sort device_id_lt (map_to_list (devices s)).*2.
Definition sorted_links (s : State) : list LinkRecord :=
  stable_sort link_id_lt (map_to_list (links s)).*2.

Definition build_snapshot (s : State) : M TopologySnapshot :=
  let* sid := fresh_id TopologySnapshotTag in
  let* now := now_timestamp in
  ret (mkSnapshot (topology_gen s) sid (sorted_devices s) (sorted_links s) now).

Definition snapshot (r : Registry) : M TopologySnapshot := build_snapshot (state_ r).

Definition consistent_view (r : Registry) : M ConsistentView :=
  let* topo := build_snapshot (state_ r) in
  ret (mkView topo (measurement_history (state_ r))).

Definition topology_generation (r : Registry) : Z := topology_gen (state_ r).
Definition device_count (r : Registry) : Z := msize (devices (state_ r)).
Definition link_count (r : Registry) : Z := msize (links (state_ r)).
Definition measurement_count (r : Registry) : Z := zlen (measurement_history (state_ r)).
Definition device (r : Registry) (id : Z) : option DeviceRecord := devices (state_ r) !! id.
Definition link (r : Registry) (id : Z) : option LinkRecord := links (state_ r) !! id.

Definition recent_measurements (r : Registry) (max : Z) : list MeasurementRecord :=
  let h := measurement_history (state_ r) in
  if max =? 0 then []
  else let take := Z.min max (zlen h) in drop (Z.to_nat (zlen h - take)) h.

(** ** Helpers of the mutations *)

Definition device_equal (a b : DeviceRecord) : bool :=
  (dev_id a =? dev_id b) && bool_decide (dev_logical_name a = dev_logical_name b) &&
  bool_decide (dev_kind a = dev_kind b) &&
  bool_decide (dev_backend a = dev_backend b) &&
  bool_decide (dev_backend_instance a = dev_backend_instance b) &&
  bool_decide (dev_pci_identity a = dev_pci_identity b) &&
  bool_decide (dev_cuda_ordinal a = dev_cuda_ordinal b) &&
  bool_decide (dev_vendor a = dev_vendor b) &&
  bool_decide (dev_architecture a = dev_architecture b) &&
  bool_decide (dev_device_generation a = dev_device_generation b) &&
  equivalent (dev_capability a) (dev_capability b) &&
  bool_decide (dev_health a = dev_health b) &&
  bool_decide (dev_evidence a = dev_evidence b) && (dev_generation a =? dev_generation b) &&
  bool_decide (dev_owner_worker a = dev_owner_worker b) &&
  bool_decide (dev_owner_boot a = dev_owner_boot b).

Definition link_equal (a b : LinkRecord) : bool :=
  (lk_id a =? lk_id b) && (lk_source a =? lk_source b) && (lk_target a =? lk_target b) &&
  Bool.eqb (lk_directed a) (lk_directed b) &&
  bool_decide (lk_physical_identifier a = lk_physical_identifier b) &&
  bool_decide (lk_state a = lk_state b) &&
  bool_decide (lk_technology a = lk_technology b) &&
  equivalent (lk_capability a) (lk_capability b) &&
  (lk_generation a =? lk_generation b) &&
  bool_decide (lk_evidence a = lk_evidence b) &&
  bool_decide (lk_last_observation a = lk_last_observation b) &&
  Bool.eqb (lk_measurement_supported a) (lk_measurement_supported b) &&
  Bool.eqb (lk_degraded a) (lk_degraded b) &&
  bool_decide (lk_degradation_note a = lk_degradation_note b) &&
  (lk_topology_generation a =? lk_topology_generation b).

Definition make_observation (kind : string) (src tgt : Z) (ev : Evidence)
    (summary : string) : M Observation :=
  let* i := fresh_id ObservationTag in
  let* now := now_timestamp in
  ret (mkObservation i kind src tgt ev now summary false).

(** [push_back], then [pop_front] once if the bound is exceeded. *)
Definition push_bounded {A} (max : Z) (x : A) (l : list A) : list A :=
  let l' := l ++ [x] in
  if max <? zlen l' then tail l' else l'.

Definition set_devices (d : gmap Z DeviceRecord) (s : State) : State :=
  mkState (topology_gen s) d (links s) (measurement_history s) (observations s).
Definition set_links (l : gmap Z LinkRecord) (s : State) : State :=
  mkState (topology_gen s) (devices s) l (measurement_history s) (observations s).
Definition set_observations (o : list Observation) (s : State) : State :=
  mkState (topology_gen s) (devices s) (links s) (measurement_history s) o.
Definition set_measurements (m : list MeasurementRecord) (s : State) : State :=
  mkState (topology_gen s) (devices s) (links s) m (observations s).

Definition record_observation (lim : Limits) (o : Observation) (s : State) : State :=
  set_observations (push_bounded (max_observations lim) o (observations s)) s.

(** The generation advances and every link is stamped with it. *)
Definition advance (g : Z) (s : State) : State :=
  mkState g (devices s) (link_set_topology_generation g <$> links s)
    (measurement_history s) (observations s).

Definition commit (r : Registry) (s : State) : Result unit * Registry :=
  (Ok tt, mkRegistry s (limits_ r)).
Definition reject (r : Registry) (c : ErrorCode) (m : string) : M (Result unit * Registry) :=
  ret (err c m, r).

(** The common tail of the mutations that change the topology: record the
    observation, advance the generation, swap the state in. *)
Definition commit_topology (r : Registry) (next : State) (o : Observation) : Result unit * Registry :=
  commit r (advance (gen_next (topology_gen (state_ r)))
              (record_observation (limits_ r) o next)).

(** ** Construction *)
Definition new_registry (lim : Limits) : Registry :=
  mkRegistry (mkState 1 ∅ ∅ [] []) lim.

(** ** Mutations *)
Section Mutations.
Context {P : Platform}.

(** The evidence of a moved-from record: scalars copied, strings moved. *)
Definition moved_evidence (e : Evidence) : Evidence :=
  mkEvidence (evidence_class e) (provenance e)
    (moved_from (ev_source e)) (moved_from (ev_note e)).

Definition upsert_device (d : DeviceRecord) (r : Registry) : M (Result unit * Registry) :=
  let s := state_ r in
  if is_nil (dev_id d) || negb (gen_valid (dev_generation d)) then
    reject r ErrorCode.INVALID_ARGUMENT "device requires a valid id and generation"
  else match devices s !! dev_id d with
  | None =>
      if max_devices (limits_ r) <=? msize (devices s) then
        reject r ErrorCode.RESOURCE_LIMIT "max devices reached"
      else
        let* o := make_observation "device" (dev_id d) (dev_id d) (dev_evidence d)
                    ("device " +:+ dev_logical_name d) in
        ret (commit_topology r (set_devices (<[dev_id d := d]> (devices s)) s) o)
  | Some cur =>
      if dev_generation d <? dev_generation cur then
        reject r ErrorCode.STALE_GENERATION "device update is stale"
      else if dev_generation d =? dev_generation cur then
        if negb (device_equal d cur) then
          reject r ErrorCode.STALE_GENERATION
            "conflicting updates with identical device generation"
        else ret (Ok tt, r)
      else
        (* the record was moved into the map before these reads *)
        let* o := make_observation "device" (dev_id d) (dev_id d)
                    (moved_evidence (dev_evidence d))
                    ("device " +:+ moved_from (dev_logical_name d)) in
        ret (commit_topology r (set_devices (<[dev_id d := d]> (devices s)) s) o)
  end.

(** The links with neither end on the device. *)
Definition without_endpoint (d : Z) (ls : gmap Z LinkRecord) : gmap Z LinkRecord :=
  filter (λ kv, ¬ (lk_source kv.2 = d ∨ lk_target kv.2 = d)) ls.

Definition remove_device (d : Z) (r : Registry) : M (Result unit * Registry) :=
  let s := state_ r in
  match devices s !! d with
  | None => reject r ErrorCode.NOT_FOUND "device not present"
  | Some _ =>
      let next := set_devices (delete d (devices s))
                    (set_links (without_endpoint d (links s)) s) in
      let* o := make_observation "device" d d
                  (mkEvidence EvidenceClass.UNSUPPORTED Provenance.DERIVED "registry" "device removed")
                  "device removed" in
      ret (commit_topology r next o)
  end.

(** Whether a link joins the two devices, in either orientation. *)
Definition same_unordered (a b : Z) (l : LinkRecord) : bool :=
  ((lk_source l =? a) && (lk_target l =? b)) || ((lk_source l =? b) && (lk_target l =? a)).

Definition parallel_links (a b : Z) (ls : gmap Z LinkRecord) : Z :=
  msize (filter (λ kv, same_unordered a b kv.2 = true) ls).

Definition upsert_link (l : LinkRecord) (r : Registry) : M (Result unit * Registry) :=
  let s := state_ r in
  if is_nil (lk_id l) || negb (gen_valid (lk_generation l)) then
    reject r ErrorCode.INVALID_ARGUMENT "link requires a valid id and generation"
  else if lk_source l =? lk_target l then
    reject r ErrorCode.INVALID_TOPOLOGY "self-link is not permitted"
  else if bool_decide (devices s !! lk_source l = None) then
    reject r ErrorCode.INVALID_TOPOLOGY "link source device is unknown"
  else if bool_decide (devices s !! lk_target l = None) then
    reject r ErrorCode.INVALID_TOPOLOGY "link target device is unknown"
  else if max_links (limits_ r) <=? msize (links s) then
    reject r ErrorCode.RESOURCE_LIMIT "max links reached"
  else if max_parallel_links_per_pair (limits_ r) <=?
          parallel_links (lk_source l) (lk_target l) (links s) then
    reject r ErrorCode.RESOURCE_LIMIT "too many parallel links for pair"
  else match links s !! lk_id l with
  | None =>
      let* o := make_observation "link" (lk_source l) (lk_target l) (lk_evidence l)
                  ("link " +:+ lk_physical_identifier l) in
      ret (commit_topology r (set_links (<[lk_id l := l]> (links s)) s) o)
  | Some cur =>
      if lk_generation l <? lk_generation cur then
        reject r ErrorCode.STALE_GENERATION "link update is stale"
      else if lk_generation l =? lk_generation cur then
        if negb (link_equal l cur) then
          reject r ErrorCode.STALE_GENERATION
            "conflicting updates with identical link generation"
        else ret (Ok tt, r)
      else
        (* the record was moved into the map before these reads *)
        let* o := make_observation "link" (lk_source l) (lk_target l)
                    (moved_evidence (lk_evidence l))
                    ("link " +:+ moved_from (lk_physical_identifier l)) in
        ret (commit_topology r (set_links (<[lk_id l := l]> (links s)) s) o)
  end.
End Mutations.

Definition remove_link (l : Z) (r : Registry) : M (Result unit * Registry) :=
  let s := state_ r in
  match links s !! l with
  | None => reject r ErrorCode.NOT_FOUND "link not present"
  | Some cur =>
      let* o := make_observation "link" (lk_source cur) (lk_target cur)
                  (mkEvidence EvidenceClass.UNSUPPORTED Provenance.DERIVED "registry" "link removed")
                  "link removed" in
      ret (commit_topology r (set_links (delete l (links s)) s) o)
  end.

Definition update_link_state (l : Z) (st : LinkOperationalState) (ev : Evidence)
    (degraded : bool) (note : string) (r : Registry) : M (Result unit * Registry) :=
  let s := state_ r in
  match links s !! l with
  | None => reject r ErrorCode.NOT_FOUND "link not present"
  | Some cur =>
      let* now := now_timestamp in
      let lr := link_set_observed (gen_next (lk_generation cur)) ev now
                  (link_set_dynamic st degraded note cur) in
      let* o := make_observation "link_state" (lk_source lr) (lk_target lr) (lk_evidence lr)
                  ("link state=" +:+ LinkOperationalState.link_state_name st) in
      ret (commit_topology r (set_links (<[l := lr]> (links s)) s) o)
  end.

Definition update_device_health (d : Z) (h : DeviceHealthState) (ev : Evidence)
    (r : Registry) : M (Result unit * Registry) :=
  let s := state_ r in
  match devices s !! d with
  | None => reject r ErrorCode.NOT_FOUND "device not present"
  | Some cur =>
      let dr := device_set_observed ev (gen_next (dev_generation cur)) (device_set_health h cur) in
      let* o := make_observation "device_health" d d (dev_evidence dr)
                  ("health=" +:+ DeviceHealthState.device_health_name h) in
      ret (commit_topology r (set_devices (<[d := dr]> (devices s)) s) o)
  end.

Definition advance_topology (ev : Evidence) (r : Registry) : M (Result unit * Registry) :=
  let* o := make_observation "topology" 0 0 ev "topology advanced" in
  ret (commit_topology r (state_ r) o).

(** ** Evidence *)

Definition publish_observation (o : Observation) (r : Registry) : M (Result unit * Registry) :=
  let* i := if is_nil (obs_id o) then fresh_id ObservationTag else ret (obs_id o) in
  ret (commit r (record_observation (limits_ r) (obs_set_flags i false o) (state_ r))).

Definition publish_measurement (m : MeasurementRecord) (r : Registry) : M (Result unit * Registry) :=
  let* i := if is_nil (meas_id m) then fresh_id MeasurementTag else ret (meas_id m) in
  let s := state_ r in
  ret (commit r (set_measurements
    (push_bounded (max_measurement_history (limits_ r))
       (meas_set_flags i false false m) (measurement_history s)) s)).

Definition stale_measurement (m : MeasurementRecord) : MeasurementRecord :=
  meas_set_flags (meas_id m) true true m.
Definition stale_observation (o : Observation) : Observation :=
  obs_set_flags (obs_id o) true o.
Definition revalidate_link (note : string) (l : LinkRecord) : LinkRecord :=
  link_set_dynamic LinkOperationalState.REVALIDATION_REQUIRED false note l.
Definition revalidate_owned_device (d : DeviceRecord) : DeviceRecord :=
  if bool_decide (is_Some (dev_owner_worker d))
  then device_set_health DeviceHealthState.REVALIDATION_REQUIRED d else d.

Definition mark_dynamic_evidence_revalidation_required (r : Registry) : M Registry :=
  let s := state_ r in
  let next := mkState (topology_gen s)
    (revalidate_owned_device <$> devices s)
    (revalidate_link "revalidation required after authority restart" <$> links s)
    (stale_measurement <$> measurement_history s)
    (stale_observation <$> observations s) in
  let* o := make_observation "recovery" 0 0
              (mkEvidence EvidenceClass.UNSUPPORTED Provenance.PERSISTED "registry"
                 "dynamic evidence requires revalidation after restart")
              "dynamic evidence marked for revalidation" in
  ret (commit_topology r next o).2.

(** ** Durable state *)

Definition capture_durable_state (r : Registry) : M (Result DurableState) :=
  let s := state_ r in
  let* now := now_timestamp in
  ret (Ok (mkDurable durable_format_version (topology_gen s)
             (sorted_devices s) (sorted_links s) now)).

(** [emplace]: an existing key keeps its value. *)
Definition emplace {A} (k : Z) (x : A) (m : gmap Z A) : gmap Z A :=
  match m !! k with Some _ => m | None => <[k := x]> m end.

Fixpoint restore_devices (lim : Limits) (ds : list DeviceRecord)
    (acc : gmap Z DeviceRecord) : Result (gmap Z DeviceRecord) :=
  match ds with
  | [] => Ok acc
  | d :: ds' =>
      if max_devices lim <=? msize acc then
        err ErrorCode.RESOURCE_LIMIT "too many devices in durable state"
      else if is_nil (dev_id d) || negb (gen_valid (dev_generation d)) then
        err ErrorCode.INTEGRITY_FAILURE "invalid device in durable state"
      else restore_devices lim ds' (emplace (dev_id d) d acc)
  end.

Definition restored_link (l : LinkRecord) : LinkRecord :=
  revalidate_link "revalidation required after durable-state restore" l.

Fixpoint restore_links (lim : Limits) (dm : gmap Z DeviceRecord) (ls : list LinkRecord)
    (acc : gmap Z LinkRecord) : Result (gmap Z LinkRecord) :=
  match ls with
  | [] => Ok acc
  | l :: ls' =>
      if max_links lim <=? msize acc then
        err ErrorCode.RESOURCE_LIMIT "too many links in durable state"
      else if is_nil (lk_id l) || negb (gen_valid (lk_generation l)) ||
              (lk_source l =? lk_target l) then
        err ErrorCode.INTEGRITY_FAILURE "invalid link in durable state"
      else if bool_decide (dm !! lk_source l = None) || bool_decide (dm !! lk_target l = None) then
        err ErrorCode.INTEGRITY_FAILURE "link references unknown device"
      else restore_links lim dm ls' (emplace (lk_id l) (restored_link l) acc)
  end.

Definition restored_device (d : DeviceRecord) : DeviceRecord :=
  if bool_decide (is_Some (dev_owner_worker d)) || bool_decide (is_Some (dev_owner_boot d))
  then device_set_health DeviceHealthState.REVALIDATION_REQUIRED d else d.

Definition restore_durable_state (ds : DurableState) (r : Registry) : M (Result unit * Registry) :=
  if bool_decide (ds_format_version ds ≠ durable_format_version) then
    reject r ErrorCode.INTEGRITY_FAILURE "unsupported durable state version"
  else
    let g := if topology_gen (state_ r) <? ds_topology_generation ds
             then ds_topology_generation ds else topology_gen (state_ r) in
    match restore_devices (limits_ r) (ds_devices ds) ∅ with
    | Err e => ret (Err e, r)
    | Ok dm =>
        match restore_links (limits_ r) dm (ds_links ds) ∅ with
        | Err e => ret (Err e, r)
        | Ok lm =>
            let* o := make_observation "restore" 0 0
                        (mkEvidence EvidenceClass.UNSUPPORTED Provenance.PERSISTED "persistence"
                           "durable state restored; dynamic evidence requires revalidation")
                        "durable state restored" in
            ret (commit r (advance (gen_next g)
              (mkState g (restored_device <$> dm) lm [] [o])))
        end
    end.

(** ** The registry as a transition system *)

(** The mutating calls of the public interface. *)
Inductive Op :=
| UpsertDevice (d : DeviceRecord)
| RemoveDevice (d : Z)
| UpsertLink (l : LinkRecord)
| RemoveLink (l : Z)
| UpdateLinkState (l : Z) (st : LinkOperationalState) (ev : Evidence) (deg : bool) (note : string)
| UpdateDeviceHealth (d : Z) (h : DeviceHealthState) (ev : Evidence)
| AdvanceTopology (ev : Evidence)
| PublishObservation (o : Observation)
| PublishMeasurement (m : MeasurementRecord)
| MarkRevalidation
| RestoreDurable (ds : DurableState).

Definition run_op `{Platform} (op : Op) (r : Registry) : M (Result unit * Registry) :=
  match op with
  | UpsertDevice d => upsert_device d r
  | RemoveDevice d => remove_device d r
  | UpsertLink l => upsert_link l r
  | RemoveLink l => remove_link l r
  | UpdateLinkState l st ev deg note => update_link_state l st ev deg note r
  | UpdateDeviceHealth d h ev => update_device_health d h ev r
  | AdvanceTopology ev => advance_topology ev r
  | PublishObservation o => publish_observation o r
  | PublishMeasurement m => publish_measurement m r
  | MarkRevalidation => let* r' := mark_dynamic_evidence_revalidation_required r in ret (Ok tt, r')
  | RestoreDurable ds => restore_durable_state ds r
  end.

(** Writers are serialised by the unique lock: any interleaving of the threads'
    calls is one sequence of steps. *)
Inductive step `{Platform} : Registry * World → Registry * World → Prop :=
| step_op op r w res r' w' :
    run_op op r w = ((res, r'), w') → step (r, w) (r', w').

Definition reachable `{Platform} (lim : Limits) (r : Registry) : Prop :=
  ∃ w0 w, rtc step (new_registry lim, w0) (r, w).
