(* ===== verification/RegistryFacts.v ===== *)
(** * TopologyRegistry: invariant, effects of the operations, generations *)

From S2P Require Import Prelude Enums Double Records World Registry.

(** ** Equality tests *)

Lemma device_equal_spec a b : device_equal a b = true ↔ a = b.
Proof.
  unfold device_equal. destruct a, b; simpl.
  rewrite !andb_true_iff, !Z.eqb_eq, !bool_decide_eq_true, equivalent_spec.
  split; [intros; destruct_and!; by subst|intros [=]; by subst].
Qed.

Lemma link_equal_spec a b : link_equal a b = true ↔ a = b.
Proof.
  unfold link_equal. destruct a, b; simpl.
  rewrite !andb_true_iff, !Z.eqb_eq, !bool_decide_eq_true, !Bool.eqb_true_iff, equivalent_spec.
  split; [intros; destruct_and!; by subst|intros [=]; by subst].
Qed.

(** ** The well-formedness invariant *)

Definition device_ok (k : Z) (d : DeviceRecord) : Prop := dev_id d = k ∧ k ≠ 0.

(** A link sits under its own id, is no self-link, and has both ends among
    the devices. *)
Definition link_ok (dm : gmap Z DeviceRecord) (k : Z) (l : LinkRecord) : Prop :=
  lk_id l = k ∧ k ≠ 0 ∧ lk_source l ≠ lk_target l ∧
  is_Some (dm !! lk_source l) ∧ is_Some (dm !! lk_target l).

(** What holds of a state before it is stamped and published. *)
Record pre_ok (lim : Limits) (s : State) : Prop := {
  pre_devices : map_Forall device_ok (devices s);
  pre_links : map_Forall (link_ok (devices s)) (links s);
  pre_num_devices : msize (devices s) ≤ max_devices lim;
  pre_num_links : msize (links s) ≤ max_links lim;
  pre_history : zlen (measurement_history s) ≤ max_measurement_history lim;
  pre_observations : zlen (observations s) ≤ max_observations lim
}.

Definition stamped (s : State) : Prop :=
  map_Forall (λ _ l, lk_topology_generation l = topology_gen s) (links s).

Definition wf_state (lim : Limits) (s : State) : Prop := pre_ok lim s ∧ stamped s.
Definition wf (r : Registry) : Prop := wf_state (limits_ r) (state_ r).

(** Bounds a deployment must set for the history bounds to be meaningful. *)
Definition limits_ok (lim : Limits) : Prop :=
  0 ≤ max_devices lim ∧ 0 ≤ max_links lim ∧
  0 ≤ max_measurement_history lim ∧ 1 ≤ max_observations lim.

#[export] Instance limits_ok_dec lim : Decision (limits_ok lim).
Proof. unfold limits_ok. apply _. Defined.

(** ** Preservation by the helpers *)

Lemma zlen_push_bounded {A} max (x : A) l :
  zlen l ≤ max → 0 ≤ max → zlen (push_bounded max x l) ≤ max.
Proof.
  unfold push_bounded. intros Hl Hm. case_ifs; to_props.
  - destruct l as [|y l]; simpl; unfold zlen in *; simpl in *; try lia.
    rewrite length_app. simpl in *. lia.
  - lia.
Qed.

Lemma pre_ok_record lim o s :
  0 ≤ max_observations lim → pre_ok lim s → pre_ok lim (record_observation lim o s).
Proof. intros H0 []. split; simpl; try done. by apply zlen_push_bounded. Qed.

Lemma pre_ok_advance lim g s : pre_ok lim s → pre_ok lim (advance g s).
Proof.
  intros []. split; simpl; try done; [|by rewrite msize_fmap].
  apply map_Forall_fmap. eapply map_Forall_impl; [done|]. by intros k [].
Qed.

Lemma stamped_advance g s : stamped (advance g s).
Proof. apply map_Forall_fmap. intros k l Hl. done. Qed.

Lemma wf_commit_topology r next o :
  limits_ok (limits_ r) → pre_ok (limits_ r) next → wf (commit_topology r next o).2.
Proof.
  intros Hl Hp. split; [|apply stamped_advance].
  apply pre_ok_advance, pre_ok_record; [unfold limits_ok in Hl; lia|done].
Qed.

Lemma link_ok_insert_device dm d k l i :
  link_ok dm k l → link_ok (<[i:=d]> dm) k l.
Proof.
  intros (?&?&?&Hs&Ht). repeat split; auto; apply lookup_insert_is_Some';
    destruct (decide (i = lk_source l)), (decide (i = lk_target l)); auto.
Qed.

Lemma pre_ok_set_device lim s d :
  pre_ok lim s → dev_id d ≠ 0 → (is_Some (devices s !! dev_id d) ∨ msize (devices s) < max_devices lim) →
  pre_ok lim (set_devices (<[dev_id d:=d]> (devices s)) s).
Proof.
  intros [] Hd Hsize. split; simpl; try done.
  - by apply map_Forall_insert_2.
  - eapply map_Forall_impl; [done|]. intros. by apply link_ok_insert_device.
  - destruct (devices s !! dev_id d) as [cur|] eqn:E.
    + by erewrite msize_insert_Some.
    + rewrite msize_insert_None by done. destruct Hsize as [[? ?]|?]; [done|lia].
Qed.

Lemma pre_ok_set_link lim s l :
  pre_ok lim s → link_ok (devices s) (lk_id l) l →
  (is_Some (links s !! lk_id l) ∨ msize (links s) < max_links lim) →
  pre_ok lim (set_links (<[lk_id l:=l]> (links s)) s).
Proof.
  intros [] Hl Hsize. split; simpl; try done.
  - by apply map_Forall_insert_2.
  - destruct (links s !! lk_id l) as [cur|] eqn:E.
    + by erewrite msize_insert_Some.
    + rewrite msize_insert_None by done. destruct Hsize as [[? ?]|?]; [done|lia].
Qed.

Lemma without_endpoint_lookup d ls k l :
  without_endpoint d ls !! k = Some l ↔
  ls !! k = Some l ∧ lk_source l ≠ d ∧ lk_target l ≠ d.
Proof. unfold without_endpoint. rewrite map_lookup_filter_Some. simpl. tauto. Qed.

Lemma pre_ok_remove_device lim s d :
  pre_ok lim s →
  pre_ok lim (set_devices (delete d (devices s)) (set_links (without_endpoint d (links s)) s)).
Proof.
  intros []. split; simpl; try done.
  - by apply map_Forall_delete.
  - intros k l (Hk&Hs&Ht)%without_endpoint_lookup.
    destruct (pre_links0 k l Hk) as (?&?&?&?&?).
    repeat split; auto; by rewrite lookup_delete_ne by congruence.
  - etrans; [|done]. apply msize_subseteq, delete_subseteq.
  - etrans; [|done]. apply msize_subseteq, map_filter_subseteq.
Qed.

Lemma pre_ok_delete_link lim s l :
  pre_ok lim s → pre_ok lim (set_links (delete l (links s)) s).
Proof.
  intros []. split; simpl; try done.
  - by apply map_Forall_delete.
  - etrans; [|done]. apply msize_subseteq, delete_subseteq.
Qed.

(** Updates that keep every record's identity and ends. *)
Lemma pre_ok_fmap lim s f g h o :
  pre_ok lim s →
  (∀ d, dev_id (f d) = dev_id d) →
  (∀ l, lk_id (g l) = lk_id l ∧ lk_source (g l) = lk_source l ∧ lk_target (g l) = lk_target l) →
  pre_ok lim (mkState (topology_gen s) (f <$> devices s) (g <$> links s)
    (h <$> measurement_history s) (o <$> observations s)).
Proof.
  intros [] Hf Hg. split; simpl; rewrite ?msize_fmap; try done.
  - apply map_Forall_fmap. eapply map_Forall_impl; [done|].
    intros k d [<- ?]. split; simpl; auto.
  - apply map_Forall_fmap. eapply map_Forall_impl; [done|].
    intros k l (?&?&?&Hs&Ht). destruct (Hg l) as (Hi&Hs'&Ht').
    unfold link_ok; simpl. rewrite Hi, Hs', Ht', !lookup_fmap, !fmap_is_Some. auto.
  - unfold zlen in *. by rewrite length_fmap.
  - unfold zlen in *. by rewrite length_fmap.
Qed.

(** ** Restoring durable records *)

Lemma emplace_size {A} k (x : A) m max :
  msize m < max → msize (emplace k x m) ≤ max.
Proof.
  unfold emplace. intros H. destruct (m !! k) eqn:E; [lia|].
  rewrite msize_insert_None by done. lia.
Qed.

Lemma emplace_forall {A} (Q : Z → A → Prop) k x m :
  map_Forall Q m → Q k x → map_Forall Q (emplace k x m).
Proof.
  unfold emplace. intros Hm Hx. destruct (m !! k); [done|]. by apply map_Forall_insert_2.
Qed.

Lemma restore_devices_ok lim ds acc dm :
  restore_devices lim ds acc = Ok dm →
  map_Forall device_ok acc → msize acc ≤ max_devices lim →
  map_Forall device_ok dm ∧ msize dm ≤ max_devices lim.
Proof.
  revert acc. induction ds as [|d ds IH]; simpl; intros acc Hr Hacc Hsz.
  { by injection Hr as <-. }
  destruct (max_devices lim <=? msize acc) eqn:E1; [done|].
  destruct (is_nil (dev_id d) || negb (gen_valid (dev_generation d))) eqn:E2; [done|].
  unfold is_nil in E2. to_props. apply IH in Hr; [done| |].
  - by apply emplace_forall.
  - by apply emplace_size.
Qed.

Lemma restore_links_ok lim dm ls acc lm :
  restore_links lim dm ls acc = Ok lm →
  map_Forall (link_ok dm) acc → msize acc ≤ max_links lim →
  map_Forall (link_ok dm) lm ∧ msize lm ≤ max_links lim.
Proof.
  revert acc. induction ls as [|l ls IH]; simpl; intros acc Hr Hacc Hsz.
  { by injection Hr as <-. }
  destruct (max_links lim <=? msize acc) eqn:E1; [done|].
  destruct (is_nil (lk_id l) || negb (gen_valid (lk_generation l)) ||
            (lk_source l =? lk_target l)) eqn:E2; [done|].
  destruct (bool_decide (dm !! lk_source l = None) ||
            bool_decide (dm !! lk_target l = None)) eqn:E3; [done|].
  unfold is_nil in E2. to_props. apply IH in Hr; [done| |].
  - apply emplace_forall; [done|]. unfold link_ok; simpl.
    rewrite <-!not_eq_None_Some. auto.
  - by apply emplace_size.
Qed.

Lemma pre_ok_restored lim g dm lm o :
  limits_ok lim →
  map_Forall device_ok dm → msize dm ≤ max_devices lim →
  map_Forall (link_ok dm) lm → msize lm ≤ max_links lim →
  pre_ok lim (mkState g (restored_device <$> dm) lm [] [o]).
Proof.
  intros (?&?&?&?) Hd Hsd Hl Hsl.
  split; simpl; rewrite ?msize_fmap; try done.
  - apply map_Forall_fmap. eapply map_Forall_impl; [done|].
    intros k d [<- ?]. unfold device_ok, restored_device; simpl. by case_match.
  - eapply map_Forall_impl; [done|]. intros k l (?&?&?&?&?).
    unfold link_ok. rewrite !lookup_fmap, !fmap_is_Some. auto.
Qed.

(** ** What one call does

    Every call has one of five effects, whatever the operation: the theorems
    below argue by cases on the effect. *)
Inductive effect (op : Op) (r : Registry) : Result unit → Registry → Prop :=
| effect_error e : effect op r (Err e) r
| effect_noop : effect op r (Ok tt) r
| effect_topology next o :
    topology_gen next = topology_gen (state_ r) →
    (pre_ok (limits_ r) (state_ r) → pre_ok (limits_ r) next) →
    effect op r (Ok tt) (commit_topology r next o).2
| effect_evidence ms os :
    (zlen (measurement_history (state_ r)) ≤ max_measurement_history (limits_ r) →
     0 ≤ max_measurement_history (limits_ r) →
     zlen ms ≤ max_measurement_history (limits_ r)) →
    (zlen (observations (state_ r)) ≤ max_observations (limits_ r) →
     0 ≤ max_observations (limits_ r) →
     zlen os ≤ max_observations (limits_ r)) →
    effect op r (Ok tt)
      (mkRegistry (mkState (topology_gen (state_ r)) (devices (state_ r)) (links (state_ r)) ms os)
         (limits_ r))
| effect_restore ds g dm lm o :
    op = RestoreDurable ds →
    g = Z.max (topology_gen (state_ r)) (ds_topology_generation ds) →
    (limits_ok (limits_ r) → pre_ok (limits_ r) (mkState g (restored_device <$> dm) lm [] [o])) →
    effect op r (Ok tt)
      (mkRegistry (advance (gen_next g) (mkState g (restored_device <$> dm) lm [] [o])) (limits_ r)).

#[local] Hint Constructors effect : fabric.

Lemma commit_topology_eq r next o :
  commit_topology r next o = (Ok tt, (commit_topology r next o).2).
Proof. done. Qed.

(** Opens the body of an operation in a hypothesis, outermost guard first. *)
Ltac open_op H :=
  unfold reject, ret, bind, make_observation, fresh_id, now_timestamp, err in H; simpl in H;
  repeat (first
    [ match type of H with
      | (if ?b then _ else _) _ = _ => let E := fresh "Hg" in destruct b eqn:E; simpl in H
      | (match ?o with _ => _ end) _ = _ => let E := fresh "Hl" in destruct o eqn:E; simpl in H
      | (match (if ?b then _ else _) _ with _ => _ end) = _ =>
          let E := fresh "Hg" in destruct b eqn:E; simpl in H
      end ]);
  try rewrite commit_topology_eq in H; unfold commit in H; simplify_eq.

Section Effects.
Context `{Platform}.

Lemma upsert_device_effect d r w res r' w' :
  upsert_device d r w = ((res, r'), w') → effect (UpsertDevice d) r res r'.
Proof.
  unfold upsert_device. intros H1. open_op H1; try constructor; auto; intros Hp.
  - apply pre_ok_set_device; [done|unfold is_nil in *; by to_props|eauto].
  - apply pre_ok_set_device; [done|unfold is_nil in *; by to_props|to_props; auto].
Qed.

Lemma upsert_link_effect l r w res r' w' :
  upsert_link l r w = ((res, r'), w') → effect (UpsertLink l) r res r'.
Proof.
  unfold upsert_link. intros H1. open_op H1; try constructor; auto; intros Hp;
    unfold is_nil in *; to_props;
    (apply pre_ok_set_link; [done| |eauto]); unfold link_ok;
    rewrite <-!not_eq_None_Some; auto.
Qed.

Lemma remove_device_effect d r w res r' w' :
  remove_device d r w = ((res, r'), w') → effect (RemoveDevice d) r res r'.
Proof.
  unfold remove_device. intros H1. open_op H1; try constructor; auto; intros Hp.
  by apply pre_ok_remove_device.
Qed.

Lemma remove_link_effect l r w res r' w' :
  remove_link l r w = ((res, r'), w') → effect (RemoveLink l) r res r'.
Proof.
  unfold remove_link. intros H1. open_op H1; try constructor; auto; intros Hp.
  by apply pre_ok_delete_link.
Qed.

Lemma update_link_state_effect l st ev deg note r w res r' w' :
  update_link_state l st ev deg note r w = ((res, r'), w') → effect (UpdateLinkState l st ev deg note) r res r'.
Proof.
  unfold update_link_state. intros H1. open_op H1; try constructor; auto; intros Hp.
  destruct (pre_links _ _ Hp l _ Hl) as (<-&?&?&?&?).
  refine (pre_ok_set_link _ _ (link_set_observed _ _ _ (link_set_dynamic _ _ _ _)) Hp _ _);
    unfold link_ok; simpl; eauto.
Qed.

Lemma update_device_health_effect d h ev r w res r' w' :
  update_device_health d h ev r w = ((res, r'), w') → effect (UpdateDeviceHealth d h ev) r res r'.
Proof.
  unfold update_device_health. intros H1. open_op H1; try constructor; auto; intros Hp.
  destruct (pre_devices _ _ Hp d _ Hl) as (<-&?).
  refine (pre_ok_set_device _ _ (device_set_observed _ _ (device_set_health _ _)) Hp _ _);
    simpl; eauto.
Qed.

Lemma publish_observation_effect o r w res r' w' :
  publish_observation o r w = ((res, r'), w') → effect (PublishObservation o) r res r'.
Proof.
  unfold publish_observation. intros H1. open_op H1; apply effect_evidence; auto;
    intros; by apply zlen_push_bounded.
Qed.

Lemma publish_measurement_effect m r w res r' w' :
  publish_measurement m r w = ((res, r'), w') → effect (PublishMeasurement m) r res r'.
Proof.
  unfold publish_measurement. intros H1. open_op H1; apply effect_evidence; auto;
    intros; by apply zlen_push_bounded.
Qed.

Lemma restore_effect ds r w res r' w' :
  restore_durable_state ds r w = ((res, r'), w') → effect (RestoreDurable ds) r res r'.
Proof.
  unfold restore_durable_state. intros H1.
  destruct (bool_decide _); [open_op H1; constructor|].
  destruct (restore_devices _ _ _) as [dm|] eqn:Ed; [|open_op H1; constructor].
  destruct (restore_links _ _ _ _) as [lm|] eqn:El; [|open_op H1; constructor].
  unfold bind, make_observation, fresh_id, now_timestamp, ret, commit in H1. simpl in H1.
  simplify_eq. eapply effect_restore; [done| |].
  - case_match; to_props; lia.
  - intros Hl. unfold limits_ok in Hl.
    apply restore_devices_ok in Ed as [??]; [|by intros ??|change (msize ∅) with 0; lia].
    apply restore_links_ok in El as [??]; [|by intros ??|change (msize ∅) with 0; lia].
    by apply pre_ok_restored.
Qed.

Lemma run_op_effect op r w res r' w' :
  run_op op r w = ((res, r'), w') → effect op r res r'.
Proof.
  destruct op; simpl; eauto using upsert_device_effect, remove_device_effect,
    upsert_link_effect, remove_link_effect, update_link_state_effect,
    update_device_health_effect, publish_observation_effect,
    publish_measurement_effect, restore_effect.
  - unfold advance_topology. intros H1. open_op H1. by constructor.
  - unfold mark_dynamic_evidence_revalidation_required. intros H1. open_op H1.
    apply effect_topology; [done|]. intros Hp.
    apply (pre_ok_fmap _ _ revalidate_owned_device); [done| |done].
    intros d. unfold revalidate_owned_device. by case_bool_decide.
Qed.
End Effects.

(** ** Snapshots

    The values of a map whose keys are the ids, sorted by id: independent of
    the hash table's iteration order. *)
Section SortedValues.
Context {A : Type} (key : A → Z) (m : gmap Z A).
Hypothesis Hkey : map_Forall (λ k x, key x = k) m.

Let lt (a b : A) : bool := key a <? key b.
Let vals : list A := (map_to_list m).*2.

Lemma elem_of_vals x : x ∈ vals ↔ m !! key x = Some x.
Proof.
  unfold vals. rewrite list_elem_of_fmap. split.
  - intros ([k y] & -> & Hy%elem_of_map_to_list). simpl.
    by rewrite (Hkey _ _ Hy).
  - intros Hx. exists (key x, x). by rewrite elem_of_map_to_list.
Qed.

Lemma vals_distinct : NoDup vals.
Proof.
  unfold vals. apply NoDup_fmap_2_strong; [|apply NoDup_map_to_list].
  intros [k1 x1] [k2 x2] H1%elem_of_map_to_list H2%elem_of_map_to_list; simpl.
  intros ->. by rewrite <-(Hkey _ _ H1), <-(Hkey _ _ H2).
Qed.

Lemma vals_sort_canonical l : l ≡ₚ vals → stable_sort lt l = stable_sort lt vals.
Proof.
  intros Hp. symmetry. apply stable_sort_determined; unfold lt; [..|done].
  - intros a b. rewrite Z.ltb_lt, Z.ltb_ge. lia.
  - intros a b c. rewrite !Z.ltb_ge. lia.
  - intros a b Ha%elem_of_vals Hb%elem_of_vals. rewrite !Z.ltb_ge. intros H1 H2.
    assert (key a = key b) as E by lia. rewrite E in Ha. congruence.
Qed.

Lemma vals_sorted : StronglySorted (λ a b, key a < key b) (stable_sort lt vals).
Proof.
  assert (StronglySorted (λ a b, lt b a = false) (stable_sort lt vals)) as Hs.
  { apply (stable_sort_sorted lt (λ _, True)); unfold lt; [| |by apply Forall_true].
    - intros a b _ _. rewrite Z.ltb_lt, Z.ltb_ge. lia.
    - intros a b c _ _ _. rewrite !Z.ltb_ge. lia. }
  assert (NoDup (stable_sort lt vals)) as Hnd.
  { rewrite stable_sort_perm. apply vals_distinct. }
  assert (∀ x, x ∈ stable_sort lt vals → m !! key x = Some x) as Hin.
  { intros x. rewrite stable_sort_perm. apply elem_of_vals. }
  induction Hs as [|x l Hs IH Hx]; [constructor|].
  apply NoDup_cons in Hnd as [Hnx Hnd].
  constructor; [apply IH; set_solver|].
  rewrite Forall_forall in Hx |- *. intros y Hy. specialize (Hx y Hy).
  unfold lt in Hx. apply Z.ltb_ge in Hx.
  destruct (decide (key x = key y)) as [E|]; [|lia].
  assert (m !! key x = Some x) as H1 by (apply Hin; set_solver).
  assert (m !! key y = Some y) as H2 by (apply Hin; set_solver).
  rewrite E in H1. by simplify_eq.
Qed.

Lemma elem_of_vals_sort x : x ∈ stable_sort lt vals ↔ m !! key x = Some x.
Proof. rewrite stable_sort_perm. apply elem_of_vals. Qed.
End SortedValues.

Lemma zlen_vals {A} (m : gmap Z A) f : zlen (stable_sort f (map_to_list m).*2) = msize m.
Proof.
  unfold zlen, msize. by rewrite (stable_sort_perm f), length_fmap, length_map_to_list.
Qed.

Lemma wf_device_keys lim s : pre_ok lim s → map_Forall (λ k d, dev_id d = k) (devices s).
Proof. intros []. eapply map_Forall_impl; [done|]. by intros k d []. Qed.

Lemma wf_link_keys lim s : pre_ok lim s → map_Forall (λ k l, lk_id l = k) (links s).
Proof. intros []. eapply map_Forall_impl; [done|]. by intros k l []. Qed.

(** Membership in the snapshot lists. *)
Lemma elem_of_sorted_devices lim s d :
  pre_ok lim s → d ∈ sorted_devices s ↔ devices s !! dev_id d = Some d.
Proof. intros Hp. apply (elem_of_vals_sort dev_id), (wf_device_keys lim s Hp). Qed.

Lemma elem_of_sorted_links lim s l :
  pre_ok lim s → l ∈ sorted_links s ↔ links s !! lk_id l = Some l.
Proof. intros Hp. apply (elem_of_vals_sort lk_id), (wf_link_keys lim s Hp). Qed.

Lemma sorted_links_NoDup lim s : pre_ok lim s → NoDup (lk_id <$> sorted_links s).
Proof.
  intros Hp. pose proof (vals_sorted lk_id _ (wf_link_keys lim s Hp)) as Hs.
  unfold sorted_links. change (λ a b, lk_id a <? lk_id b) with link_id_lt in Hs.
  induction Hs as [|l ls Hs IH Hl]; [constructor|].
  rewrite fmap_cons. constructor; [|done].
  rewrite list_elem_of_fmap. intros (l' & He & Hl').
  rewrite Forall_forall in Hl. specialize (Hl l' Hl'). lia.
Qed.
