(* ===== verification/Fixtures.v ===== *)
(** * Concrete topologies the witnesses evaluate

    A three-accelerator fixture in the style of tests/adversarial_test.cpp
    and tests/smoke.cpp. *)

From S2P Require Import Prelude Enums Double Records World Registry.

(** Left-to-right evaluation; moved-from strings are empty. *)
Definition reference_platform : Platform :=
  {| arg_order := LeftToRight; moved_from := λ _, ""%string |}.

(** A fresh process whose clock ticks by one nanosecond. *)
Definition world0 : World := initial_world (λ n, 1000 + Z.of_nat n).

Definition synthetic_evidence : Evidence :=
  mkEvidence EvidenceClass.SYNTHETIC Provenance.SYNTHETIC_FIXTURE "adv" "synthetic".

Definition bw (b : Z) : Capability :=
  mkCapability InterconnectTechnology.UNKNOWN 0 0 b false MeasurementSupport.UNKNOWN 0 false.

Definition make_device (id : Z) (name : string) (gen : Z) : DeviceRecord :=
  mkDevice id name NodeKind.ACCELERATOR "" "" "" None "" "SYNTHETIC" ""
    (bw 400000000000) DeviceHealthState.PRESENT synthetic_evidence gen None None.

Definition make_link (id src tgt : Z) (st : LinkOperationalState) (gen : Z) : LinkRecord :=
  mkLink id src tgt false "NVLink" st InterconnectTechnology.NVLINK
    (bw 400000000000) gen synthetic_evidence default_timestamp true false "" 0.

(** The calls of a client, in order. *)
Fixpoint exec `{Platform} (ops : list Op) (r : Registry) : M Registry :=
  match ops with
  | [] => ret r
  | op :: ops' => let* '(_, r') := run_op op r in exec ops' r'
  end.

(** gpu1, gpu2, gpu3 with links 1-2, 2-3 and a direct 1-3. *)
Definition triangle : list Op :=
  [UpsertDevice (make_device 1 "gpu1" 1); UpsertDevice (make_device 2 "gpu2" 1);
   UpsertDevice (make_device 3 "gpu3" 1);
   UpsertLink (make_link 10 1 2 LinkOperationalState.UP 1);
   UpsertLink (make_link 11 2 3 LinkOperationalState.UP 1);
   UpsertLink (make_link 12 1 3 LinkOperationalState.UP 1)].

Definition triangle_registry : Registry :=
  (@exec reference_platform triangle (new_registry default_limits) world0).1.
Definition triangle_world : World :=
  (@exec reference_platform triangle (new_registry default_limits) world0).2.

Lemma exec_steps `{Platform} ops r w :
  rtc step (r, w) (exec ops r w).
Proof.
  revert r w. induction ops as [|op ops IH]; intros r w; [done|].
  simpl. rewrite bind_eq. destruct (run_op op r w) as [[res r'] w'] eqn:E. simpl.
  eapply rtc_l; [by eapply step_op|]. apply IH.
Qed.

Lemma triangle_reachable : @reachable reference_platform default_limits triangle_registry.
Proof.
  exists world0, triangle_world. unfold triangle_registry, triangle_world.
  rewrite <-surjective_pairing. apply exec_steps.
Qed.

(** The triangle with three measurements from 1 to 3: an old one, a newer one
    over a contended path, and one newer still that is not valid. *)
Definition measured_at (ns : Z) (bandwidth : Z) (contended valid : bool) : MeasurementRecord :=
  mkMeasurement 0 1 3 1048576 8 2 8 8388608 (d_of_Z bandwidth) (d_of_Z 1) true true contended
    "synthetic" "" synthetic_evidence (mkTimestamp ns true) valid false false None None.
Definition measured : list Op :=
  triangle ++ [PublishMeasurement (measured_at 10 500 false true);
               PublishMeasurement (measured_at 20 300 true true);
               PublishMeasurement (measured_at 30 900 false false)].
Definition measured_registry : Registry :=
  (@exec reference_platform measured (new_registry default_limits) world0).1.
Definition measured_world : World :=
  (@exec reference_platform measured (new_registry default_limits) world0).2.

(** Splits a call's outcome into its components, the result computed apart. *)
Lemma run_op_parts `{Platform} op r w res :
  (run_op op r w).1.1 = res →
  run_op op r w = ((res, (run_op op r w).1.2), (run_op op r w).2).
Proof. intros <-. by destruct (run_op op r w) as [[??]?]. Qed.

(** The registry after one call. *)
Definition after (op : Op) (r : Registry) (w : World) : Registry :=
  (@run_op reference_platform op r w).1.2.
