(* ===== verification/RegistryProps.v ===== *)
(** * TopologyRegistry: the properties of the mutations and snapshots *)

From S2P Require Import Prelude Enums Double Records World Registry RegistryFacts Fixtures.

(** ** Invariant and error paths *)

Lemma effect_wf op r res r' :
  limits_ok (limits_ r) → wf r → effect op r res r' → wf r' ∧ limits_ r' = limits_ r.
Proof.
  intros Hl Hwf He. destruct He; try done.
  - split; [|done]. apply wf_commit_topology; [done|]. destruct Hwf; auto.
  - split; [|done]. destruct Hwf as [[] Hst]. unfold limits_ok in Hl.
    split; [|done]. split; simpl; auto with lia.
  - split; [|done]. split; [|apply stamped_advance]. apply pre_ok_advance; auto.
Qed.

Lemma step_wf `{Platform} c c' :
  step c c' → limits_ok (limits_ c.1) → wf c.1 →
  wf c'.1 ∧ limits_ c'.1 = limits_ c.1.
Proof.
  intros Hs Hl Hwf. destruct Hs as [op r w res r' w' Hr].
  eapply effect_wf; eauto using run_op_effect.
Qed.

Lemma new_registry_wf lim : limits_ok lim → wf (new_registry lim).
Proof.
  unfold limits_ok. intros Hl. split; [split|]; simpl; try by intros ??.
  all: change (msize ∅) with 0 || change (zlen []) with 0; lia.
Qed.

Lemma steps_wf `{Platform} c c' :
  rtc step c c' → limits_ok (limits_ c.1) → wf c.1 → wf c'.1.
Proof.
  intros Hr. induction Hr as [|x y z Hxy _ IH]; [done|].
  intros Hlx Hwf. destruct (step_wf x y) as [? He]; auto.
  apply IH; [by rewrite He|done].
Qed.

(** C3.  Every registry state reachable from a fresh registry by any sequence
    of mutating calls is well formed: records sit under their own non-nil ids,
    no link is a self-link, both ends of every link are present devices (no
    dangling reference), every link carries the current topology generation,
    and the device, link, measurement and observation counts respect the
    limits. *)
Theorem registry_invariant `{Platform} (lim : Limits) (r : Registry) :
  limits_ok lim → reachable lim r → wf r.
Proof.
  intros Hl (w0 & w & Hs). apply (steps_wf _ _ Hs); [done|]. by apply new_registry_wf.
Qed.

Lemma registry_invariant_witness :
  limits_ok default_limits ∧ wf triangle_registry ∧ link_count triangle_registry = 3.
Proof.
  split; [by vm_compute|]. split; [|by vm_compute].
  apply (@registry_invariant reference_platform default_limits);
    [by vm_compute|apply triangle_reachable].
Defined.

(** C26.  A mutating call that returns an error leaves the registry exactly as
    it was (every error path returns before the swap). *)
Theorem failed_call_changes_nothing `{Platform} op r w e r' w' :
  run_op op r w = ((Err e, r'), w') → r' = r.
Proof. intros Hr%run_op_effect. by inversion Hr. Qed.

Lemma failed_call_changes_nothing_witness :
  after (RemoveDevice 9) triangle_registry triangle_world = triangle_registry.
Proof.
  eapply (@failed_call_changes_nothing reference_platform (RemoveDevice 9)).
  apply (run_op_parts (H := reference_platform)
    _ _ _ (Err (mkError ErrorCode.NOT_FOUND "device not present"))).
  vm_compute. reflexivity.
Defined.

(** ** Generations *)

Definition no_wrap (r : Registry) (op : Op) : Prop :=
  0 ≤ topology_gen (state_ r) < two64 - 1 ∧
  match op with
  | RestoreDurable ds => 0 ≤ ds_topology_generation ds < two64 - 1
  | _ => True
  end.

Lemma gen_next_small g : 0 ≤ g < two64 - 1 → gen_next g = g + 1.
Proof. intros Hg. apply wrap64_small. unfold u64. lia. Qed.

Lemma run_op_generation `{Platform} op r w res r' w' :
  run_op op r w = ((res, r'), w') → no_wrap r op →
  topology_gen (state_ r) ≤ topology_gen (state_ r') ∧
  (devices (state_ r') ≠ devices (state_ r) ∨ links (state_ r') ≠ links (state_ r) →
   topology_gen (state_ r) < topology_gen (state_ r')).
Proof.
  intros Hr%run_op_effect [Hg Hop].
  destruct Hr as [| |next o Hn _|ms os _ _|ds g dm lm o -> -> _]; simpl.
  - split; [lia|]. by intros [].
  - split; [lia|]. by intros [].
  - rewrite gen_next_small by done. lia.
  - split; [lia|]. by intros [].
  - rewrite gen_next_small by lia. lia.
Qed.

(** C29.  Below 2^64 - 1, the topology generation never moves backward, and it
    strictly advances on every call after which a device or a link is
    different. *)
Theorem topology_change_advances_generation `{Platform} op r w res r' w' :
  run_op op r w = ((res, r'), w') → no_wrap r op →
  topology_gen (state_ r) ≤ topology_gen (state_ r') ∧
  (devices (state_ r') ≠ devices (state_ r) ∨ links (state_ r') ≠ links (state_ r) →
   topology_gen (state_ r) < topology_gen (state_ r')).
Proof. apply run_op_generation. Qed.

Lemma topology_change_advances_generation_witness :
  topology_gen (state_ triangle_registry) <
  topology_gen (state_ (after (RemoveLink 10) triangle_registry triangle_world)).
Proof.
  eapply (@topology_change_advances_generation reference_platform (RemoveLink 10)).
  - apply (run_op_parts (H := reference_platform) _ _ _ (Ok tt)). by vm_compute.
  - split; [by vm_compute|done].
  - right. intros Heq%(f_equal (λ m, bool_decide (m !! 10 = None))). by vm_compute in Heq.
Defined.

(** The steps of a deployment whose generations stay below 2^64 - 1. *)
Inductive bounded_step `{Platform} : Registry * World → Registry * World → Prop :=
| bounded_step_op op r w res r' w' :
    run_op op r w = ((res, r'), w') → no_wrap r op → bounded_step (r, w) (r', w').

Lemma bounded_steps_monotone `{Platform} c c' :
  rtc bounded_step c c' → topology_gen (state_ c.1) ≤ topology_gen (state_ c'.1).
Proof.
  induction 1 as [|c1 c2 c3 H12 _ IH]; [done|].
  destruct H12 as [op r w res r' w' Hr Hn]. simpl in *.
  destruct (run_op_generation _ _ _ _ _ _ Hr Hn) as [? _]. lia.
Qed.

(** Once a device or a link differs, the generation has moved, for good. *)
Lemma bounded_steps_change `{Platform} c c' :
  rtc bounded_step c c' →
  devices (state_ c'.1) ≠ devices (state_ c.1) ∨ links (state_ c'.1) ≠ links (state_ c.1) →
  topology_gen (state_ c.1) < topology_gen (state_ c'.1).
Proof.
  induction 1 as [c|c1 c2 c3 H12 H23 IH]; [by intros []|]. intros Hne.
  pose proof (bounded_steps_monotone _ _ H23) as Hm.
  destruct H12 as [op r w res r' w' Hr Hn]. simpl in *.
  destruct (run_op_generation _ _ _ _ _ _ Hr Hn) as [Hge Hgt].
  destruct (decide (topology_gen (state_ r) = topology_gen (state_ r'))) as [E|]; [|lia].
  rewrite E. apply IH. destruct Hne as [Hd|Hl].
  - left. intros Heq. rewrite Heq in Hd. assert (devices (state_ r') ≠ devices (state_ r)); [done|].
    specialize (Hgt (or_introl H0)). lia.
  - right. intros Heq. rewrite Heq in Hl. specialize (Hgt (or_intror Hl)). lia.
Qed.

(** ** Upserts *)

Lemma opt_is_None_ne {A} (o : option A) : o ≠ None ↔ is_Some o.
Proof. by rewrite not_eq_None_Some. Qed.

Lemma upsert_device_cases `{Platform} d r w :
  let out := upsert_device d r w in
  (out.1.1 = Ok tt ↔
     dev_id d ≠ 0 ∧ dev_generation d ≠ 0 ∧
     match device r (dev_id d) with
     | None => device_count r < max_devices (limits_ r)
     | Some cur => dev_generation cur < dev_generation d ∨ d = cur
     end) ∧
  (out.1.1 = Ok tt →
     device out.1.2 (dev_id d) = Some d ∧
     ∀ i, i ≠ dev_id d → device out.1.2 i = device r i).
Proof.
  unfold upsert_device, device, device_count, is_nil, gen_valid. simpl.
  destruct (_ || _) eqn:Hv; to_props.
  { split; [|done]. split; [done|]. intros (?&?&_).
    apply Z.eqb_neq in H0, H1. by rewrite H0, H1 in Hv. }
  destruct (devices (state_ r) !! dev_id d) as [cur|] eqn:Hl.
  - destruct (_ <? _) eqn:Hlt; to_props.
    { split; [|done]. split; [done|]. intros (_&_&[?| ->]); lia. }
    destruct (_ =? _) eqn:Heq; to_props.
    + destruct (device_equal d cur) eqn:Hde; simpl.
      * apply device_equal_spec in Hde as ->. rewrite Hl. tauto.
      * split; [|done]. split; [done|]. intros (_&_&[?| ->]); [lia|].
        by rewrite (proj2 (device_equal_spec cur cur) eq_refl) in Hde.
    + simpl. rewrite lookup_insert_eq. split.
      * split; [|done]. intros _. repeat split; auto. lia.
      * intros _. split; [done|]. intros i Hi. by rewrite lookup_insert_ne.
  - destruct (_ <=? _) eqn:Hc; to_props; simpl.
    + split; [|done]. split; [done|]. intros (_&_&?). lia.
    + rewrite lookup_insert_eq. split; [done|]. intros _. split; [done|].
      intros i Hi. by rewrite lookup_insert_ne.
Qed.

(** C30.  [upsert_device] accepts exactly: a non-nil id and generation, and
    either a new id with room left, or a strictly newer generation, or a record
    identical to the stored one.  On acceptance the device is stored under its
    id and every other device is untouched. *)
Theorem upsert_device_spec `{Platform} d r w :
  let out := upsert_device d r w in
  (out.1.1 = Ok tt ↔
     dev_id d ≠ 0 ∧ dev_generation d ≠ 0 ∧
     match device r (dev_id d) with
     | None => device_count r < max_devices (limits_ r)
     | Some cur => dev_generation cur < dev_generation d ∨ d = cur
     end) ∧
  (out.1.1 = Ok tt →
     device out.1.2 (dev_id d) = Some d ∧
     ∀ i, i ≠ dev_id d → device out.1.2 i = device r i).
Proof. apply upsert_device_cases. Qed.

(** What [upsert_link] demands of a link before looking at its id. *)
Definition link_admissible (l : LinkRecord) (r : Registry) : Prop :=
  lk_id l ≠ 0 ∧ lk_generation l ≠ 0 ∧ lk_source l ≠ lk_target l ∧
  is_Some (device r (lk_source l)) ∧ is_Some (device r (lk_target l)) ∧
  link_count r < max_links (limits_ r) ∧
  parallel_links (lk_source l) (lk_target l) (links (state_ r)) <
    max_parallel_links_per_pair (limits_ r).

(** The admission guards, as one test. *)
Lemma upsert_link_guard `{Platform} l r w :
  ¬ link_admissible l r → ∃ e, (upsert_link l r w).1.1 = Err e.
Proof.
  unfold upsert_link, link_admissible, device, link_count, is_nil, gen_valid, reject, ret, err.
  intros Hn. simpl.
  destruct ((lk_id l =? 0) || negb (negb (lk_generation l =? 0))) eqn:?; [by eauto|].
  destruct (lk_source l =? lk_target l) eqn:?; [by eauto|].
  case_bool_decide; [by eauto|]. case_bool_decide; [by eauto|].
  destruct (max_links _ <=? _) eqn:?; [by eauto|].
  destruct (max_parallel_links_per_pair _ <=? _) eqn:?; [by eauto|].
  exfalso. to_props. apply Hn. rewrite <-!opt_is_None_ne. auto 10.
Qed.

Lemma upsert_link_admitted `{Platform} l r w :
  link_admissible l r →
  ((upsert_link l r w).1.1 = Ok tt ↔
   match link r (lk_id l) with
   | None => True
   | Some cur => lk_generation cur < lk_generation l ∨ l = cur
   end).
Proof.
  unfold upsert_link, link_admissible, link, device, link_count, is_nil, gen_valid, reject, ret, err.
  intros (Hi&Hg&Hst&Hs%opt_is_None_ne&Ht%opt_is_None_ne&Hc&Hp). simpl.
  apply Z.eqb_neq in Hi, Hg, Hst. rewrite Hi, Hg, Hst. simpl.
  rewrite !bool_decide_eq_false_2 by done.
  apply Z.leb_gt in Hc, Hp. rewrite Hc, Hp.
  destruct (links (state_ r) !! lk_id l) as [cur|] eqn:Hl; [|done].
  destruct (_ <? _) eqn:Hlt; to_props; simpl.
  { split; [done|]. intros [?| ->]; lia. }
  destruct (_ =? _) eqn:Heq; to_props; simpl.
  - destruct (link_equal l cur) eqn:Hle; simpl.
    + apply link_equal_spec in Hle. tauto.
    + split; [done|]. intros [?| ->]; [lia|].
      by rewrite (proj2 (link_equal_spec cur cur) eq_refl) in Hle.
  - split; [|done]. intros _. left. lia.
Qed.

Lemma upsert_link_cases `{Platform} l r w :
  (upsert_link l r w).1.1 = Ok tt ↔
  link_admissible l r ∧
  match link r (lk_id l) with
  | None => True
  | Some cur => lk_generation cur < lk_generation l ∨ l = cur
  end.
Proof.
  split.
  - intros Hok. assert (link_admissible l r) as Ha.
    { destruct (decide (link_admissible l r)) as [|Hn]; [done|].
      destruct (upsert_link_guard l r w Hn) as [e He]. by rewrite He in Hok. }
    split; [done|]. by apply (upsert_link_admitted l r w).
  - intros [Ha Hm]. by apply upsert_link_admitted.
Qed.

(** C31.  [upsert_link] accepts exactly the admissible links whose id is new, or
    whose generation is strictly newer than the stored one, or that equal the
    stored record; admissibility asks for non-nil id and generation, distinct
    present ends, and room in both the total and the per-pair bound. *)
Theorem upsert_link_accepts_iff `{Platform} l r w :
  (upsert_link l r w).1.1 = Ok tt ↔
  link_admissible l r ∧
  match link r (lk_id l) with
  | None => True
  | Some cur => lk_generation cur < lk_generation l ∨ l = cur
  end.
Proof. apply upsert_link_cases. Qed.

(** A full registry cannot be updated link-wise: once [max_links] links
    are stored, every [upsert_link] fails, also one that only brings a newer
    generation of a stored link; devices are different: a newer generation of
    a stored device is accepted however full the registry is. *)
Lemma full_registry_update_asymmetry `{Platform} r w :
  max_links (limits_ r) ≤ link_count r →
  (∀ l, ∃ e, (upsert_link l r w).1.1 = Err e) ∧
  (∀ d cur, dev_id d ≠ 0 → device r (dev_id d) = Some cur →
     0 ≤ dev_generation cur < dev_generation d → (upsert_device d r w).1.1 = Ok tt).
Proof.
  intros Hfull. split.
  - intros l. apply upsert_link_guard. unfold link_admissible. lia.
  - intros d cur Hi Hd Hg.
    unfold upsert_device, is_nil, gen_valid. unfold device in Hd. simpl.
    rewrite Hd, (proj2 (Z.eqb_neq _ _) Hi), (proj2 (Z.eqb_neq (dev_generation d) 0)) by lia.
    simpl. rewrite (proj2 (Z.ltb_ge _ _)), (proj2 (Z.eqb_neq (dev_generation d) _)) by lia.
    done.
Qed.

Definition tight_limits : Limits := mkLimits 3 3 16 16 256 1024 4096 0 0 32 64 256.
Definition tight_registry : Registry :=
  (@exec reference_platform triangle (new_registry tight_limits) world0).1.

Lemma full_registry_update_asymmetry_witness :
  (∃ e, (@upsert_link reference_platform (make_link 10 1 2 LinkOperationalState.DOWN 2)
           tight_registry world0).1.1 = Err e) ∧
  (@upsert_device reference_platform (make_device 1 "gpu1" 2) tight_registry world0).1.1 = Ok tt.
Proof.
  destruct (@full_registry_update_asymmetry reference_platform tight_registry world0) as [Hl Hd].
  - by vm_compute.
  - split; [apply Hl|].
    eapply Hd; [done|vm_compute; reflexivity|by vm_compute].
Defined.

Lemma upsert_link_stored `{Platform} l r w :
  link r (lk_id l) = None → (upsert_link l r w).1.1 = Ok tt →
  link (upsert_link l r w).1.2 (lk_id l) =
    Some (link_set_topology_generation (topology_generation (upsert_link l r w).1.2) l).
Proof.
  unfold upsert_link, link, reject, ret, err. intros Hn. simpl. rewrite Hn.
  repeat (case_match; simpl; try done). intros _.
  by rewrite lookup_fmap, lookup_insert_eq.
Qed.

(** Publishing twice is idempotent for devices and not for links: an
    accepted device is accepted again with no effect, but a newly accepted link
    is refused when the same record is sent again, because the stored copy was
    stamped with a topology generation the record does not carry. *)
Lemma replay_asymmetry `{Platform} r w w' :
  (∀ d, (upsert_device d r w).1.1 = Ok tt →
     (upsert_device d (upsert_device d r w).1.2 w').1 = (Ok tt, (upsert_device d r w).1.2)) ∧
  (∀ l, link r (lk_id l) = None → (upsert_link l r w).1.1 = Ok tt →
     lk_topology_generation l ≠ topology_generation (upsert_link l r w).1.2 →
     (upsert_link l (upsert_link l r w).1.2 w').1.1 ≠ Ok tt).
Proof.
  split.
  - intros d Hok.
    destruct (upsert_device_cases d r w) as [Hiff Hst].
    destruct (proj1 Hiff Hok) as (Hi&Hg&_). destruct (Hst Hok) as [Hd _].
    set (r' := (upsert_device d r w).1.2) in *. clearbody r'. clear Hiff Hst Hok.
    unfold upsert_device, is_nil, gen_valid. unfold device in Hd. simpl. rewrite Hd.
    rewrite (proj2 (Z.eqb_neq _ _) Hi), (proj2 (Z.eqb_neq _ _) Hg). simpl.
    by rewrite Z.ltb_irrefl, Z.eqb_refl, (proj2 (device_equal_spec d d) eq_refl).
  - intros l Hn Hok Hstamp Hagain.
    apply upsert_link_cases in Hagain as [_ Hm].
    rewrite upsert_link_stored in Hm by done. simpl in Hm.
    destruct Hm as [Hlt|Heq]; [lia|]. apply Hstamp. rewrite Heq at 1. done.
Qed.

Lemma replay_asymmetry_witness :
  (@upsert_link reference_platform (make_link 13 1 2 LinkOperationalState.UP 1)
     (after (UpsertLink (make_link 13 1 2 LinkOperationalState.UP 1))
        triangle_registry triangle_world) world0).1.1 ≠ Ok tt.
Proof.
  apply (proj2 (@replay_asymmetry reference_platform triangle_registry triangle_world world0)
           (make_link 13 1 2 LinkOperationalState.UP 1)).
  - by vm_compute.
  - by vm_compute.
  - by vm_compute.
Defined.

(** ** Snapshots *)

(** A snapshot is a function of the registry's contents: whatever order
    the hash tables enumerate their entries in, sorting yields the snapshot's
    device and link lists, in strictly increasing id order; the lists hold
    exactly the registry's records, at its generation. *)
Lemma snapshot_canonical r w :
  wf r →
  let snap := (snapshot r w).1 in
  snap_generation snap = topology_generation r ∧
  (∀ ds, ds ≡ₚ (map_to_list (devices (state_ r))).*2 →
     stable_sort device_id_lt ds = snap_devices snap) ∧
  (∀ ls, ls ≡ₚ (map_to_list (links (state_ r))).*2 →
     stable_sort link_id_lt ls = snap_links snap) ∧
  StronglySorted (λ a b, dev_id a < dev_id b) (snap_devices snap) ∧
  StronglySorted (λ a b, lk_id a < lk_id b) (snap_links snap) ∧
  (∀ d, d ∈ snap_devices snap ↔ device r (dev_id d) = Some d) ∧
  (∀ l, l ∈ snap_links snap ↔ link r (lk_id l) = Some l).
Proof.
  intros [Hp _]. simpl.
  pose proof (wf_device_keys _ _ Hp) as Hd. pose proof (wf_link_keys _ _ Hp) as Hl.
  repeat split.
  - intros ds. apply (vals_sort_canonical dev_id), Hd.
  - intros ls. apply (vals_sort_canonical lk_id), Hl.
  - apply (vals_sorted dev_id), Hd.
  - apply (vals_sorted lk_id), Hl.
  - by apply (elem_of_sorted_devices (limits_ r)).
  - by apply (elem_of_sorted_devices (limits_ r)).
  - by apply (elem_of_sorted_links (limits_ r)).
  - by apply (elem_of_sorted_links (limits_ r)).
Qed.

Lemma exec_wf `{Platform} ops r w :
  limits_ok (limits_ r) → wf r → wf (exec ops r w).1.
Proof. apply (steps_wf (r, w)), exec_steps. Qed.

Lemma triangle_wf : wf triangle_registry.
Proof. apply exec_wf; [by vm_compute|]. by apply new_registry_wf. Qed.

Lemma snapshot_canonical_witness :
  wf triangle_registry ∧
  ∀ ls, ls ≡ₚ (map_to_list (links (state_ triangle_registry))).*2 →
    lk_id <$> stable_sort link_id_lt ls = [10; 11; 12].
Proof.
  split; [apply triangle_wf|]. intros ls Hp.
  destruct (snapshot_canonical triangle_registry world0 triangle_wf) as (_&_&Hls&_).
  rewrite (Hls ls Hp). by vm_compute.
Defined.

(** ** Loss of authority and recovery *)

(** No link, measurement or worker-owned device of the state counts as fresh. *)
Definition nothing_fresh (r : Registry) : Prop :=
  map_Forall (λ _ l, lk_state l = LinkOperationalState.REVALIDATION_REQUIRED ∧
                     lk_degraded l = false) (links (state_ r)) ∧
  Forall (λ m, meas_stale m = true ∧ meas_revalidation_required m = true)
    (measurement_history (state_ r)) ∧
  map_Forall (λ _ d, is_Some (dev_owner_worker d) →
                     dev_health d = DeviceHealthState.REVALIDATION_REQUIRED) (devices (state_ r)).

Lemma links_advance g s k l :
  links (advance g s) !! k = Some l →
  ∃ l0, links s !! k = Some l0 ∧ l = link_set_topology_generation g l0.
Proof. simpl. rewrite lookup_fmap, fmap_Some. naive_solver. Qed.

Lemma revalidate_owned_device_owner d :
  dev_owner_worker (revalidate_owned_device d) = dev_owner_worker d.
Proof. unfold revalidate_owned_device. by case_bool_decide. Qed.

Lemma mark_nothing_fresh r w :
  nothing_fresh (mark_dynamic_evidence_revalidation_required r w).1.
Proof.
  split_and!; simpl.
  - intros k l Hl. rewrite lookup_fmap, fmap_Some in Hl. destruct Hl as (l1 & Hl & ->).
    rewrite lookup_fmap, fmap_Some in Hl. by destruct Hl as (l0 & _ & ->).
  - by apply Forall_fmap, Forall_true.
  - intros k d. rewrite lookup_fmap, fmap_Some. intros (d0 & _ & ->).
    rewrite revalidate_owned_device_owner. intros Ho. unfold revalidate_owned_device.
    by rewrite bool_decide_eq_true_2.
Qed.

(** After [mark_dynamic_evidence_revalidation_required] nothing counts as
    fresh: every link, whichever worker published it, is
    REVALIDATION_REQUIRED, every measurement is stale, every worker-owned
    device needs revalidation; identities, ends and owners are unchanged and
    the topology generation has moved. *)
Lemma mark_revalidation_total r w :
  let r' := (mark_dynamic_evidence_revalidation_required r w).1 in
  nothing_fresh r' ∧
  topology_generation r' = gen_next (topology_generation r) ∧
  (∀ k, lk_source <$> link r' k = lk_source <$> link r k) ∧
  (∀ k, lk_target <$> link r' k = lk_target <$> link r k) ∧
  (∀ k, dev_generation <$> device r' k = dev_generation <$> device r k) ∧
  (∀ k, dev_owner_worker <$> device r' k = dev_owner_worker <$> device r k).
Proof.
  assert (∀ d, dev_generation (revalidate_owned_device d) = dev_generation d) as Hd.
  { intros d. unfold revalidate_owned_device. by case_bool_decide. }
  split; [apply mark_nothing_fresh|]. split; [done|].
  unfold link, device; split_and!; intros k; simpl; rewrite !lookup_fmap.
  1,2: by destruct (links _ !! k).
  all: destruct (devices _ !! k) as [d|]; simpl; [|done].
  - by rewrite Hd.
  - by rewrite revalidate_owned_device_owner.
Qed.

Lemma restore_links_state lim dm ls acc lm :
  restore_links lim dm ls acc = Ok lm →
  map_Forall (λ _ l, lk_state l = LinkOperationalState.REVALIDATION_REQUIRED ∧
                     lk_degraded l = false) acc →
  map_Forall (λ _ l, lk_state l = LinkOperationalState.REVALIDATION_REQUIRED ∧
                     lk_degraded l = false) lm.
Proof.
  revert acc. induction ls as [|l ls IH]; simpl; intros acc Hr Hacc; [by simplify_eq|].
  unfold err in Hr. repeat (case_match; try done). apply (IH _ Hr).
  by apply emplace_forall.
Qed.

(** A successful [restore_durable_state], from whatever file contents,
    brings back no fresh dynamic evidence: links need revalidation,
    worker-owned devices need revalidation, no measurement survives; and the
    generation is above both the registry's and the file's. *)
Lemma restore_brings_nothing_fresh ds r w r' w' :
  restore_durable_state ds r w = ((Ok tt, r'), w') →
  nothing_fresh r' ∧ measurement_count r' = 0 ∧
  topology_generation r' =
    gen_next (Z.max (topology_generation r) (ds_topology_generation ds)).
Proof.
  unfold restore_durable_state. intros H1.
  destruct (bool_decide _); [done|].
  destruct (restore_devices _ _ _) as [dm|]; [|done].
  destruct (restore_links _ _ _ _) as [lm|] eqn:El; [|done].
  unfold bind, make_observation, fresh_id, now_timestamp, ret, commit in H1. simpl in H1.
  simplify_eq/=. apply restore_links_state in El; [|by intros ??].
  split; [split; [|split]|split]; simpl; [| |  |done|].
  - intros k l Hl. rewrite lookup_fmap, fmap_Some in Hl. destruct Hl as (l0 & Hl0 & ->). exact (El k l0 Hl0).
  - constructor.
  - intros k d. rewrite lookup_fmap, fmap_Some. intros (d0 & _ & ->).
    unfold restored_device. intros Ho.
    destruct (bool_decide (is_Some (dev_owner_worker d0)) ||
              bool_decide (is_Some (dev_owner_boot d0))) eqn:E; [done|].
    by apply orb_false_iff in E as [?%bool_decide_eq_false _].
  - unfold topology_generation. simpl. f_equal. case_match; to_props; lia.
Qed.

Lemma restore_brings_nothing_fresh_witness :
  let ds := match (capture_durable_state triangle_registry world0).1 with
            | Ok ds => ds | Err _ => mkDurable "" 0 [] [] default_timestamp end in
  let r' := after (RestoreDurable ds) (new_registry default_limits) world0 in
  nothing_fresh r' ∧ link_count r' = 3 ∧ topology_generation r' = 8.
Proof.
  intros ds r'. split; [|split; by vm_compute].
  pose proof (run_op_parts (H := reference_platform) (RestoreDurable ds)
    (new_registry default_limits) world0 (Ok tt)) as Hrun.
  eapply (restore_brings_nothing_fresh ds (new_registry default_limits) world0), Hrun.
  by vm_compute.
Defined.
