(* ===== verification/Histories.v ===== *)
(** * Bounded histories (registry.cpp)

    The measurement and observation histories keep a bounded number of entries,
    dropping the oldest.  The reference is the same registry with larger bounds:
    the bound of a history decides which suffix of it is kept and nothing else. *)

From S2P Require Import Prelude Enums Double Records World Registry RegistryFacts Fixtures.
From S2P Require Import RegistryProps.

(** ** The last entries of a list *)
Definition lastn {A} (n : Z) (l : list A) : list A := drop (Z.to_nat (zlen l - n)) l.

Lemma lastn_short {A} n (l : list A) : zlen l ≤ n → lastn n l = l.
Proof. intros H. unfold lastn. by replace (Z.to_nat (zlen l - n)) with 0%nat by lia. Qed.

Lemma lastn_fmap {A B} (f : A → B) n l : lastn n (f <$> l) = f <$> lastn n l.
Proof. unfold lastn, zlen. by rewrite length_fmap, fmap_drop. Qed.

Lemma zlen_lastn {A} n (l : list A) : 0 ≤ n → zlen (lastn n l) = Z.min n (zlen l).
Proof. intros Hn. unfold lastn, zlen. rewrite length_drop. lia. Qed.

Lemma lastn_lastn {A} m n (l : list A) : 0 ≤ m ≤ n → lastn m (lastn n l) = lastn m l.
Proof.
  intros H. unfold lastn at 1. rewrite zlen_lastn by lia. unfold lastn, zlen.
  rewrite drop_drop. f_equal. lia.
Qed.

Lemma tail_drop {A} (l : list A) : tail l = drop 1 l.
Proof. by destruct l. Qed.

(** Appending under a bound commutes with keeping the last entries. *)
Lemma push_lastn {A} m n (x : A) l :
  0 ≤ m ≤ n → zlen l ≤ n →
  push_bounded m x (lastn m l) = lastn m (push_bounded n x l).
Proof.
  intros Hm Hl. unfold push_bounded. rewrite !zlen_app, zlen_lastn by lia.
  change (zlen [x]) with 1. rewrite !tail_drop.
  destruct (Z.ltb_spec n (zlen l + 1)) as [Hn|Hn].
  - rewrite (proj2 (Z.ltb_lt _ _)) by lia. unfold lastn at 2. unfold zlen in *.
    rewrite length_drop, length_app, drop_drop. simpl length.
    unfold lastn, zlen. rewrite <-drop_app_le by lia. rewrite drop_drop. f_equal. lia.
  - destruct (Z.ltb_spec m (Z.min m (zlen l) + 1)) as [Hk|Hk].
    + unfold lastn, zlen in *. rewrite length_app. simpl length.
      rewrite <-drop_app_le by lia. rewrite drop_drop. f_equal. lia.
    + rewrite !lastn_short; [done|rewrite zlen_app; change (zlen [x]) with 1; lia|lia].
Qed.

(** ** Two registries that differ in their history bounds only *)

Definition with_history (m o : Z) (lim : Limits) : Limits :=
  mkLimits (max_devices lim) (max_links lim) (max_parallel_links_per_pair lim)
    (max_path_depth lim) (max_candidate_paths lim) m o (max_persisted_state_bytes lim)
    (max_frame_bytes lim) (max_workers lim) (max_tcp_clients lim) (max_queued_messages lim).

(** [r] keeps the last [m] measurements and [o] observations of [r']. *)
Record suffix_of (m o : Z) (r r' : Registry) : Prop := {
  su_limits : limits_ r = with_history m o (limits_ r');
  su_bounds : 0 ≤ m ≤ max_measurement_history (limits_ r') ∧
              1 ≤ o ≤ max_observations (limits_ r');
  su_state : state_ r =
    mkState (topology_gen (state_ r')) (devices (state_ r')) (links (state_ r'))
      (lastn m (measurement_history (state_ r'))) (lastn o (observations (state_ r')));
  su_measurements : zlen (measurement_history (state_ r')) ≤ max_measurement_history (limits_ r');
  su_observations : zlen (observations (state_ r')) ≤ max_observations (limits_ r')
}.

Section Histories.
Context {P : Platform}.

(** The two computations return the same, draw the same and leave registries
    so related. *)
Definition agree (m o : Z) (c c' : M (Result unit * Registry)) : Prop :=
  ∀ w, (c w).1.1 = (c' w).1.1 ∧ (c w).2 = (c' w).2 ∧ suffix_of m o (c w).1.2 (c' w).1.2.

Lemma agree_ret m o res r r' : suffix_of m o r r' → agree m o (ret (res, r)) (ret (res, r')).
Proof. intros H w. by split_and!. Qed.

Lemma agree_reject m o r r' c msg :
  suffix_of m o r r' → agree m o (reject r c msg) (reject r' c msg).
Proof. apply agree_ret. Qed.

Lemma agree_bind {A} m o (c : M A) f f' :
  (∀ a, agree m o (f a) (f' a)) → agree m o (bind c f) (bind c f').
Proof. intros H w. rewrite !bind_eq. apply H. Qed.

Section Bounds.
Context (m o : Z) (lim : Limits) (ms : list MeasurementRecord) (os : list Observation).
Context (Hb : 0 ≤ m ≤ max_measurement_history lim ∧ 1 ≤ o ≤ max_observations lim).
Context (Hm : zlen ms ≤ max_measurement_history lim) (Ho : zlen os ≤ max_observations lim).

Lemma agree_commit_topology g dm lm dm' lm' ob :
  let s ms os := mkState g dm lm ms os in
  let s' ms os := mkState g dm' lm' ms os in
  agree m o
    (ret (commit_topology (mkRegistry (s (lastn m ms) (lastn o os)) (with_history m o lim))
            (s' (lastn m ms) (lastn o os)) ob))
    (ret (commit_topology (mkRegistry (s ms os) lim) (s' ms os) ob)).
Proof.
  intros s s'. apply agree_ret. split; simpl; try done.
  - unfold advance, record_observation, set_observations. simpl. f_equal. apply push_lastn; [lia|done].
  - apply zlen_push_bounded; [done|lia].
Qed.
End Bounds.

Lemma restore_devices_history m o lim ds acc :
  restore_devices (with_history m o lim) ds acc = restore_devices lim ds acc.
Proof. revert acc. induction ds as [|d ds IH]; intros acc; [done|]. simpl. by rewrite IH. Qed.

Lemma restore_links_history m o lim dm ls acc :
  restore_links (with_history m o lim) dm ls acc = restore_links lim dm ls acc.
Proof. revert acc. induction ls as [|l ls IH]; intros acc; [done|]. simpl. by rewrite IH. Qed.

(** Follows the two runs of one operation, branch by branch. *)
#[local] Ltac both_sides :=
  cbn [state_ limits_ topology_gen devices links set_devices set_links measurement_history
       observations with_history max_devices max_links max_parallel_links_per_pair];
  cbv zeta;
  repeat match goal with
    | |- agree _ _ (if ?b then _ else _) _ => destruct b
    | |- agree _ _ (match ?x with _ => _ end) _ => destruct x
    | |- agree _ _ (bind _ _) _ => apply agree_bind; intros ?; cbv beta
    | |- agree _ _ (reject _ _ _) _ => by apply agree_reject
    | |- agree _ _ (ret (commit_topology _ _ _)) _ => by apply agree_commit_topology
    | |- agree _ _ (ret (Ok tt, _)) _ => by apply agree_ret
    end.

(** One call does the same on both. *)
Lemma run_op_suffix m o op r r' :
  suffix_of m o r r' → agree m o (run_op op r) (run_op op r').
Proof.
  intros Hr. pose proof Hr as [Hl Hb Hs Hm Ho].
  destruct r as [s l], r' as [[g d ls ms os] lim]. simpl in *. subst l s.
  destruct op; cbn [run_op].
  - unfold upsert_device. both_sides.
  - unfold remove_device. both_sides.
  - unfold upsert_link. both_sides.
  - unfold remove_link. both_sides.
  - unfold update_link_state. both_sides.
  - unfold update_device_health. both_sides.
  - unfold advance_topology. both_sides.
  - unfold publish_observation. both_sides. apply agree_ret.
    split; simpl; try done; [|apply zlen_push_bounded; [done|lia]].
    unfold record_observation, set_observations. simpl. f_equal. apply push_lastn; [lia|done].
  - unfold Registry.publish_measurement. both_sides. apply agree_ret.
    split; simpl; try done; [|apply zlen_push_bounded; [done|lia]].
    unfold set_measurements. simpl. f_equal. apply push_lastn; [lia|done].
  - intros w. rewrite !bind_eq. unfold mark_dynamic_evidence_revalidation_required.
    rewrite !bind_eq. cbv zeta. cbn [state_ topology_gen devices links measurement_history observations].
    rewrite <-!lastn_fmap. set (ob := make_observation _ _ _ _ _ w).
    assert (zlen (stale_measurement <$> ms) ≤ max_measurement_history lim ∧
      zlen (stale_observation <$> os) ≤ max_observations lim) as [Hm' Ho']
      by (unfold zlen in *; by rewrite !length_fmap).
    exact (agree_commit_topology m o lim _ _ Hb Hm' Ho' g d ls (revalidate_owned_device <$> d)
      (revalidate_link _ <$> ls) ob.1 ob.2).
  - unfold restore_durable_state. cbn [state_ limits_ topology_gen].
    rewrite restore_devices_history.
    destruct (bool_decide _); [by apply agree_reject|].
    destruct (restore_devices lim _ ∅) as [dm|e]; [|by apply agree_ret].
    rewrite restore_links_history. destruct (restore_links lim dm _ ∅) as [lm|e]; [|by apply agree_ret].
    apply agree_bind. intros ob. apply agree_ret. split; simpl; try done.
    + unfold advance. simpl. by rewrite !lastn_short by (unfold zlen; simpl; lia).
    + unfold zlen. simpl. lia.
    + unfold zlen. simpl. lia.
Qed.

(** The calls of a process, with their results. *)
Fixpoint run_ops (ops : list Op) (r : Registry) : M (list (Result unit) * Registry) :=
  match ops with
  | [] => ret ([], r)
  | op :: ops' =>
      let* '(res, r') := run_op op r in
      let* '(rs, r'') := run_ops ops' r' in
      ret (res :: rs, r'')
  end.

Lemma run_ops_suffix m o ops r r' w :
  suffix_of m o r r' →
  (run_ops ops r w).1.1 = (run_ops ops r' w).1.1 ∧ (run_ops ops r w).2 = (run_ops ops r' w).2 ∧
  suffix_of m o (run_ops ops r w).1.2 (run_ops ops r' w).1.2.
Proof.
  revert r r' w. induction ops as [|op ops IH]; intros r r' w Hr; [by split_and!|].
  cbn [run_ops]. rewrite !bind_eq. destruct (run_op_suffix m o op r r' Hr w) as (H1 & H2 & H3).
  destruct (run_op op r w) as [[res r1] w1], (run_op op r' w) as [[res' r1'] w1'].
  simpl in *. subst res' w1'. rewrite !bind_eq. destruct (IH r1 r1' w1 H3) as (H4 & H5 & H6).
  destruct (run_ops ops r1 w1) as [[rs r2] w2], (run_ops ops r1' w1) as [[rs' r2'] w2'].
  simpl in *. by subst.
Qed.

Lemma recent_measurements_lastn r n :
  0 ≤ n → recent_measurements r n = lastn n (measurement_history (state_ r)).
Proof.
  intros Hn. unfold recent_measurements, lastn. destruct (Z.eqb_spec n 0) as [->|].
  - rewrite drop_ge; [done|]. unfold zlen. lia.
  - f_equal. unfold zlen. lia.
Qed.
End Histories.

(** C27.  The bounds of the histories decide how much of them is kept and
    nothing else.  Take any sequence of calls on a new registry, and the same
    calls on one with larger history bounds (large enough to keep everything,
    say): every call returns the same result and draws the same identifiers,
    devices, links and generation agree throughout, and the smaller registry's
    measurements and observations are exactly the newest of the larger one's, as
    many as its bounds allow; up to that number [recent_measurements] answers
    the same on both. *)
Theorem bounded_history_equivalent `{Platform} lim m o ops w :
  0 ≤ m ≤ max_measurement_history lim → 1 ≤ o ≤ max_observations lim →
  let '((rs, small), w1) := run_ops ops (new_registry (with_history m o lim)) w in
  let '((rs', large), w2) := run_ops ops (new_registry lim) w in
  rs = rs' ∧ w1 = w2 ∧
  devices (state_ small) = devices (state_ large) ∧
  links (state_ small) = links (state_ large) ∧
  topology_generation small = topology_generation large ∧
  measurement_history (state_ small) = lastn m (measurement_history (state_ large)) ∧
  observations (state_ small) = lastn o (observations (state_ large)) ∧
  (∀ n, 0 ≤ n ≤ m → recent_measurements small n = recent_measurements large n).
Proof.
  intros Hm Ho.
  destruct (run_ops_suffix m o ops (new_registry (with_history m o lim)) (new_registry lim) w)
    as (H1 & H2 & Hs).
  { split; simpl; try done; [|unfold zlen; simpl; lia..].
    by rewrite !lastn_short by (unfold zlen; simpl; lia). }
  destruct (run_ops ops (new_registry (with_history m o lim)) w) as [[rs small] w1].
  destruct (run_ops ops (new_registry lim) w) as [[rs' large] w2]. simpl in *.
  destruct Hs as [_ _ Hst _ _]. unfold topology_generation. rewrite Hst. simpl.
  split_and!; try done. intros n Hn. rewrite !recent_measurements_lastn by lia.
  rewrite Hst. simpl. by rewrite lastn_lastn.
Qed.

(** Three measurements published into a history of two. *)
Definition three_measurements : list Op :=
  [PublishMeasurement default_measurement; PublishMeasurement default_measurement;
   MarkRevalidation; PublishMeasurement default_measurement].

Lemma bounded_history_equivalent_witness :
  let small := (@run_ops reference_platform three_measurements
    (new_registry (with_history 2 8 default_limits)) world0).1.2 in
  meas_id <$> measurement_history (state_ small) = [2; 3] ∧
  recent_measurements small 2 = recent_measurements
    (@run_ops reference_platform three_measurements (new_registry default_limits) world0).1.2 2.
Proof.
  split; [vm_compute; reflexivity|].
  pose proof (@bounded_history_equivalent reference_platform default_limits 2 8 three_measurements
    world0) as Hb.
  destruct (@run_ops reference_platform three_measurements
    (new_registry (with_history 2 8 default_limits)) world0) as [[rs small] w1].
  destruct (@run_ops reference_platform three_measurements (new_registry default_limits) world0)
    as [[rs' large] w2].
  destruct Hb as (_ & _ & _ & _ & _ & _ & _ & Hr); [vm_compute; split; discriminate..|].
  apply Hr. vm_compute. split; discriminate.
Defined.
