(* ===== verification/Paths.v ===== *)
(** * Path enumeration (path.cpp, first half): definitions

    Lookups in a snapshot, the adjacency built from it, the FNV-1a path
    identity, the depth-first enumeration with its visited set and truncation,
    and [TopologyRegistry::enumerate_paths]. *)

From S2P Require Import Prelude Enums Double Records World Registry.

(** ** Lookups in a snapshot: the first record with the id *)
Definition find_link (topo : TopologySnapshot) (id : Z) : option LinkRecord :=
  List.find (λ lk, lk_id lk =? id) (snap_links topo).
Definition find_device (topo : TopologySnapshot) (id : Z) : option DeviceRecord :=
  List.find (λ d, dev_id d =? id) (snap_devices topo).

(** ** Adjacency *)
Record Edge := mkEdge { edge_link : Z; edge_to : Z }.
#[export] Instance Edge_eq_dec : EqDecision Edge.
Proof. solve_decision. Defined.

(** [std::map<DeviceId, std::vector<Edge>>]. *)
Abbreviation Adjacency := (gmap Z (list Edge)).

(** [adj[d].push_back(e)]. *)
Definition push_edge (d : Z) (e : Edge) (adj : Adjacency) : Adjacency :=
  <[d := default [] (adj !! d) ++ [e]]> adj.

Definition add_link (adj : Adjacency) (lk : LinkRecord) : Adjacency :=
  let adj := push_edge (lk_source lk) (mkEdge (lk_id lk) (lk_target lk)) adj in
  if lk_directed lk then adj
  else push_edge (lk_target lk) (mkEdge (lk_id lk) (lk_source lk)) adj.

Definition edge_lt (a b : Edge) : bool :=
  if negb (edge_link a =? edge_link b) then edge_link a <? edge_link b
  else edge_to a <? edge_to b.

Definition build_adjacency (topo : TopologySnapshot) : Adjacency :=
  stable_sort edge_lt <$> foldl add_link ∅ (snap_links topo).

(** ** Path identity: FNV-1a over the ends and the link ids *)
Definition fnv_prime : Z := 1099511628211.
Definition fnv_basis : Z := 1469598103934665603.

Fixpoint mix_bytes (n : nat) (h v : Z) : Z :=
  match n with
  | O => h
  | S n' => mix_bytes n' (wrap64 (Z.lxor h (Z.land v 255) * fnv_prime)) (Z.shiftr v 8)
  end.
Definition mix (h v : Z) : Z := mix_bytes 8 h v.

Definition path_id (src tgt : Z) (elems : list PathElement) : Z :=
  foldl (λ h e, match e with LINK l => mix h l | DEVICE _ => h end)
    (mix (mix fnv_basis src) tgt) elems.

(** ** Depth-first enumeration *)
Definition element_is_nvlink (topo : TopologySnapshot) (el : PathElement) : bool :=
  match el with
  | LINK l => match find_link topo l with
              | Some lk => bool_decide (lk_technology lk = InterconnectTechnology.NVLINK)
              | None => false
              end
  | DEVICE _ => false
  end.

(** The [Path] recorded when the target is reached. *)
Definition make_path (topo : TopologySnapshot) (src tgt : Z) (elems : list PathElement) : Path :=
  let hops := zlen elems / 2 in
  mkPath (path_id src tgt elems) src tgt (hops =? 1) false elems hops
    (zlen (List.filter (element_is_nvlink topo) elems)).

Section Dfs.
Context (adj : Adjacency) (topo : TopologySnapshot) (src target : Z) (limits : Limits).

(** The loop over the edges of the current device, [rec] being the recursive
    call. *)
Fixpoint dfs_loop (rec : Z → list PathElement → gset Z → list Path → option (list Path))
    (elems : list PathElement) (visited : gset Z) (es : list Edge) (out : list Path)
    : option (list Path) :=
  match es with
  | [] => Some out
  | e :: es' =>
      if bool_decide (edge_to e ∈ visited) then dfs_loop rec elems visited es' out
      else if max_candidate_paths limits <=? zlen out then Some out
      else
        let elems' := elems ++ [LINK (edge_link e); DEVICE (edge_to e)] in
        if edge_to e =? target then
          dfs_loop rec elems visited es' (out ++ [make_path topo src target elems'])
        else if zlen elems' / 2 <? max_path_depth limits then
          match rec (edge_to e) elems' ({[edge_to e]} ∪ visited) out with
          | None => None
          | Some out' => dfs_loop rec elems visited es' out'
          end
        else dfs_loop rec elems visited es' out
  end.

(** [None] is running out of fuel; [fuel] bounds the recursion depth. *)
Fixpoint dfs (fuel : nat) (cur : Z) (elems : list PathElement) (visited : gset Z)
    (out : list Path) {struct fuel} : option (list Path) :=
  match fuel with
  | O => None
  | S fuel' =>
      if max_candidate_paths limits <=? zlen out then Some out
      else match adj !! cur with
      | None => Some out
      | Some edges => dfs_loop (dfs fuel') elems visited edges out
      end
  end.
End Dfs.

(** Recursion is at most [max_path_depth] deep below the first call. *)
Definition dfs_fuel (limits : Limits) : nat := S (Z.to_nat (max_path_depth limits)).

Definition element_is_switch (topo : TopologySnapshot) (el : PathElement) : bool :=
  match el with
  | DEVICE d => match find_device topo d with
                | Some rec => bool_decide (dev_kind rec = NodeKind.SWITCH)
                | None => false
                end
  | LINK _ => false
  end.

Definition set_switch_traversal (topo : TopologySnapshot) (p : Path) : Path :=
  mkPath (path_id_ p) (path_source p) (path_target p) (path_direct p)
    (existsb (element_is_switch topo) (path_elements p))
    (path_elements p) (path_hop_count p) (path_nvlink_segments p).

Definition enumerate_paths_impl (topo : TopologySnapshot) (src tgt : Z)
    (limits : Limits) : list Path :=
  if is_nil src || is_nil tgt || (src =? tgt) then []
  else
    match dfs (build_adjacency topo) topo src tgt limits (dfs_fuel limits)
            src [DEVICE src] {[src]} [] with
    | Some out => set_switch_traversal topo <$> out
    | None => []
    end.

(** ** [TopologyRegistry::enumerate_paths] *)
Definition enumerate_paths (source target : Z) (r : Registry) : M (Result (list Path)) :=
  if is_nil source || is_nil target then
    ret (err ErrorCode.INVALID_ARGUMENT "endpoint id required")
  else
    let* view := consistent_view r in
    if bool_decide (find_device (view_topology view) source = None) then
      ret (err ErrorCode.NOT_FOUND "source device unknown")
    else if bool_decide (find_device (view_topology view) target = None) then
      ret (err ErrorCode.NOT_FOUND "target device unknown")
    else ret (Ok (enumerate_paths_impl (view_topology view) source target (limits_ r))).
