(* ===== verification/PathsFacts.v ===== *)
(** * Path enumeration: specification and refinement

    The abstract specification [routes] lists the simple walks of the graph
    that reach the target, in the order of the adjacency lists.  The
    depth-first enumeration computes its longest prefix within
    [max_candidate_paths]. *)

From S2P Require Import Prelude Enums Double Records World Registry RegistryFacts Paths.

(** ** The abstract enumeration *)
Section Routes.
Context (adj : Adjacency) (target depth : Z).

(** The edge sequences from [cur] to the target through unvisited devices,
    with at most [depth] edges counting the [hops] before, or one edge. *)
Fixpoint routes (fuel : nat) (cur hops : Z) (visited : gset Z) : list (list Edge) :=
  match fuel with
  | O => []
  | S fuel' =>
      default [] (adj !! cur) ≫= λ e,
        if bool_decide (edge_to e ∈ visited) then []
        else if edge_to e =? target then [[e]]
        else if hops + 1 <? depth
             then cons e <$> routes fuel' (edge_to e) (hops + 1) ({[edge_to e]} ∪ visited)
             else []
  end.
End Routes.

(** The path elements of an edge sequence. *)
Definition edge_elements (es : list Edge) : list PathElement :=
  es ≫= λ e, [LINK (edge_link e); DEVICE (edge_to e)].

(** ** Refinement *)

Lemma take_app_take {A} n (l k : list A) : take n (take n l ++ k) = take n (l ++ k).
Proof.
  destruct (decide (length l ≤ n)%nat).
  - by rewrite (take_ge l) by done.
  - rewrite (take_app_le _ k) by (rewrite length_take; lia).
    rewrite (take_app_le l k) by lia. by rewrite take_take, Nat.min_id.
Qed.

Section Refinement.
Context (adj : Adjacency) (topo : TopologySnapshot) (src target : Z) (limits : Limits).
Let maxn := Z.to_nat (max_candidate_paths limits).
Let mk (elems : list PathElement) (es : list Edge) : Path :=
  make_path topo src target (elems ++ edge_elements es).
Let truncated (out : list Path) (elems : list PathElement) (ess : list (list Edge)) :=
  take maxn (out ++ (mk elems <$> ess)).

Lemma truncated_full out elems ess :
  zlen out ≤ max_candidate_paths limits → max_candidate_paths limits ≤ zlen out →
  truncated out elems ess = out.
Proof.
  unfold truncated, maxn, zlen. intros H1 H2. apply take_app_length'. lia.
Qed.

Lemma mk_cons elems e es :
  mk (elems ++ [LINK (edge_link e); DEVICE (edge_to e)]) es = mk elems (e :: es).
Proof. unfold mk. by rewrite <-(assoc_L (++)). Qed.

Lemma mk_cons_fmap elems e (ess : list (list Edge)) :
  mk elems <$> (cons e <$> ess) =
  mk (elems ++ [LINK (edge_link e); DEVICE (edge_to e)]) <$> ess.
Proof.
  rewrite <-list_fmap_compose. apply list_fmap_ext. intros _ es _. simpl.
  by rewrite mk_cons.
Qed.

Lemma truncated_len out elems ess :
  zlen (truncated out elems ess) ≤ Z.max 0 (max_candidate_paths limits).
Proof. unfold truncated, zlen. rewrite length_take. lia. Qed.

Lemma dfs_loop_routes rec elems visited fuel hops es out :
  zlen elems = 1 + 2 * hops →
  zlen out ≤ max_candidate_paths limits →
  (∀ e out', hops + 1 < max_path_depth limits →
     zlen out' ≤ max_candidate_paths limits →
     rec (edge_to e) (elems ++ [LINK (edge_link e); DEVICE (edge_to e)])
       ({[edge_to e]} ∪ visited) out' =
     Some (truncated out' (elems ++ [LINK (edge_link e); DEVICE (edge_to e)])
             (routes adj target (max_path_depth limits) fuel (edge_to e) (hops + 1)
                ({[edge_to e]} ∪ visited)))) →
  dfs_loop topo src target limits rec elems visited es out =
  Some (truncated out elems (es ≫= λ e,
    if bool_decide (edge_to e ∈ visited) then []
    else if edge_to e =? target then [[e]]
    else if hops + 1 <? max_path_depth limits
         then cons e <$> routes adj target (max_path_depth limits) fuel
                (edge_to e) (hops + 1) ({[edge_to e]} ∪ visited)
         else [])).
Proof.
  intros Hlen Hout Hrec. revert out Hout.
  induction es as [|e es IH]; intros out Hout; simpl.
  { f_equal. unfold truncated, maxn, zlen in *. simpl. rewrite app_nil_r, take_ge by lia. done. }
  case_bool_decide; [by apply IH|].
  destruct (_ <=? zlen out) eqn:Hfull; to_props.
  { by rewrite truncated_full. }
  assert (zlen (elems ++ [LINK (edge_link e); DEVICE (edge_to e)]) / 2 = hops + 1) as ->.
  { rewrite zlen_app, Hlen. change (zlen [_; _]) with 2.
    replace (1 + 2 * hops + 2) with (1 + (hops + 1) * 2) by lia.
    by rewrite Z.div_add by lia. }
  destruct (edge_to e =? target) eqn:Ht.
  { rewrite IH by (rewrite zlen_app; change (zlen [_]) with 1; lia).
    f_equal. unfold truncated. rewrite fmap_app, <-(assoc_L (++)). done. }
  destruct (_ <? _) eqn:Hd; to_props; [|by apply IH].
  rewrite Hrec by done. rewrite IH.
  - f_equal. unfold truncated. rewrite take_app_take, fmap_app, <-(assoc_L (++)).
    by rewrite mk_cons_fmap.
  - pose proof (truncated_len out (elems ++ [LINK (edge_link e); DEVICE (edge_to e)])
      (routes adj target (max_path_depth limits) fuel (edge_to e) (hops + 1)
         ({[edge_to e]} ∪ visited))). pose proof (zlen_nonneg out). lia.
Qed.

Lemma dfs_routes fuel cur elems visited hops out :
  zlen elems = 1 + 2 * hops →
  zlen out ≤ max_candidate_paths limits →
  (0 < fuel)%nat → max_path_depth limits - hops ≤ Z.of_nat fuel →
  dfs adj topo src target limits fuel cur elems visited out =
  Some (truncated out elems
          (routes adj target (max_path_depth limits) fuel cur hops visited)).
Proof.
  revert cur elems visited hops out.
  induction fuel as [|fuel IH]; intros cur elems visited hops out Hlen Hout Hf Hd; [lia|].
  simpl. destruct (_ <=? zlen out) eqn:Hfull; to_props; [by rewrite truncated_full|].
  destruct (adj !! cur) as [es|]; simpl.
  - apply dfs_loop_routes; [done..|]. intros e out' Hh Hout'.
    apply IH; [|done|lia|lia].
    rewrite zlen_app, Hlen. change (zlen [_; _]) with 2. lia.
  - f_equal. unfold truncated, maxn, zlen in *. simpl. rewrite app_nil_r, take_ge by lia. done.
Qed.
End Refinement.

(** ** Simple walks of a graph *)

(** [es] leads from [a] to [b] along edges of the graph [E]. *)
Fixpoint chain (E : Z → Edge → Prop) (a : Z) (es : list Edge) (b : Z) : Prop :=
  match es with
  | [] => a = b
  | e :: es' => E a e ∧ chain E (edge_to e) es' b
  end.

Lemma chain_iff (E E' : Z → Edge → Prop) a es b :
  (∀ a e, E a e ↔ E' a e) → chain E a es b ↔ chain E' a es b.
Proof.
  intros HE. revert a. induction es as [|e es IH]; intros a; simpl; [done|].
  by rewrite HE, IH.
Qed.

(** A non-empty walk ends in its last edge's device. *)
Lemma chain_last E a es b : chain E a es b → es ≠ [] → b ∈ edge_to <$> es.
Proof.
  revert a. induction es as [|e es IH]; intros a Hc Hne; [done|].
  destruct Hc as [_ Hc]. destruct es as [|e' es].
  - simpl in Hc. subst. left.
  - right. by apply (IH (edge_to e)).
Qed.

(** A walk that repeats no device, and uses at least one edge. *)
Definition simple_walk (E : Z → Edge → Prop) (a : Z) (es : list Edge) (b : Z) : Prop :=
  chain E a es b ∧ NoDup (a :: (edge_to <$> es)) ∧ es ≠ [].

Lemma simple_walk_ends E a es b : simple_walk E a es b → a ≠ b.
Proof.
  intros (Hc & Hnd & Hne) ->. apply NoDup_cons in Hnd as [Hn _].
  by apply Hn, (chain_last E b es b).
Qed.

Section RoutesFacts.
Context (adj : Adjacency) (target depth : Z).
Let E (a : Z) (e : Edge) : Prop := e ∈ default [] (adj !! a).

Lemma elem_of_routes fuel cur hops visited es :
  (0 < fuel)%nat → depth - hops ≤ Z.of_nat fuel →
  es ∈ routes adj target depth fuel cur hops visited ↔
  chain E cur es target ∧ NoDup (edge_to <$> es) ∧ es ≠ [] ∧
  (∀ e, e ∈ es → edge_to e ∉ visited) ∧
  (length es = 1%nat ∨ hops + zlen es ≤ depth).
Proof.
  revert cur hops visited es.
  induction fuel as [|fuel IH]; intros cur hops visited es Hf Hd; [lia|].
  simpl. rewrite list_elem_of_bind. split.
  - intros (e & Hes & He).
    case_bool_decide as Hv; [by apply elem_of_nil in Hes|].
    destruct (edge_to e =? target) eqn:Ht; to_props.
    + apply list_elem_of_singleton in Hes as ->. simpl. repeat split; auto.
      * apply NoDup_singleton.
      * by intros e' ->%list_elem_of_singleton.
    + destruct (_ <? _) eqn:Hh; to_props; [|by apply elem_of_nil in Hes].
      apply list_elem_of_fmap in Hes as (es' & -> & Hes).
      apply IH in Hes as (Hc & Hnd & Hne & Hvis & Hlen); [|lia..].
      simpl. repeat split; auto.
      * apply NoDup_cons. split; [|done].
        rewrite list_elem_of_fmap. intros (e' & Heq & He').
        apply (Hvis e' He'), elem_of_union_l, elem_of_singleton. congruence.
      * intros e' [->|He']%elem_of_cons; [done|].
        intros Hin. apply (Hvis e' He'). by apply elem_of_union_r.
      * right. unfold zlen in *. simpl. destruct Hlen; lia.
  - intros (Hc & Hnd & Hne & Hvis & Hlen).
    destruct es as [|e es]; [done|]. destruct Hc as [He Hc].
    exists e. split; [|done].
    rewrite bool_decide_eq_false_2 by (apply Hvis; left).
    simpl in Hnd. apply NoDup_cons in Hnd as [Hn Hnd].
    destruct (edge_to e =? target) eqn:Ht; to_props.
    + destruct es as [|e' es]; [left|]. exfalso. apply Hn. rewrite Ht.
      by apply (chain_last E (edge_to e)).
    + destruct es as [|e' es]; [done|].
      unfold zlen in Hlen. simpl in Hlen.
      rewrite (proj2 (Z.ltb_lt _ _)) by lia.
      apply list_elem_of_fmap_2, IH; [lia..|]. split_and!; [done..| |].
      * intros e0 He0 [Heq%elem_of_singleton|Hin]%elem_of_union.
        -- apply Hn. rewrite <-Heq. by apply list_elem_of_fmap_2.
        -- apply (Hvis e0); [by right|done].
      * right. unfold zlen. simpl in *. lia.
Qed.
End RoutesFacts.

(** ** Lexicographic order of the routes *)

Fixpoint lex_before (l k : list Edge) : Prop :=
  match l, k with
  | [], _ :: _ => True
  | x :: l', y :: k' => edge_lt x y = true ∨ (x = y ∧ lex_before l' k')
  | _, [] => False
  end.

Lemma edge_lt_asym a b : edge_lt a b = true → edge_lt b a = false.
Proof. unfold edge_lt. repeat case_match; rewrite ?negb_true_iff, ?negb_false_iff in *; to_props; lia. Qed.

Lemma edge_nlt_trans a b c : edge_lt b a = false → edge_lt c b = false → edge_lt c a = false.
Proof. unfold edge_lt. repeat case_match; rewrite ?negb_true_iff, ?negb_false_iff in *; to_props; lia. Qed.

Lemma edge_lt_total a b : edge_lt b a = false → a ≠ b → edge_lt a b = true.
Proof.
  destruct a as [l t], b as [l' t']. unfold edge_lt. simpl. intros H Hne.
  repeat case_match; rewrite ?negb_true_iff, ?negb_false_iff in *; to_props; try lia.
  assert (t ≠ t') by congruence. lia.
Qed.

Lemma lex_before_irrefl l : ¬ lex_before l l.
Proof.
  induction l as [|x l IH]; simpl; [tauto|]. intros [H|[_ H]]; [|done].
  pose proof (edge_lt_asym _ _ H). congruence.
Qed.

Lemma StronglySorted_lex_NoDup ls : StronglySorted lex_before ls → NoDup ls.
Proof.
  induction 1 as [|l ls _ IH Hl]; constructor; [|done].
  intros Hin. rewrite Forall_forall in Hl. by apply (lex_before_irrefl l), Hl.
Qed.

Lemma StronglySorted_app_lex l k :
  StronglySorted lex_before l → StronglySorted lex_before k →
  (∀ x y, x ∈ l → y ∈ k → lex_before x y) → StronglySorted lex_before (l ++ k).
Proof.
  intros Hl Hk Hlk. induction Hl as [|x l Hl IH Hx]; simpl; [done|].
  constructor; [apply IH; set_solver|].
  apply Forall_app. split; [done|]. apply Forall_forall. set_solver.
Qed.

Lemma StronglySorted_fmap_cons e ls :
  StronglySorted lex_before ls → StronglySorted lex_before (cons e <$> ls).
Proof.
  induction 1 as [|l ls _ IH Hl]; simpl; constructor; [done|].
  apply Forall_fmap. eapply Forall_impl; [done|]. simpl. auto.
Qed.

(** Blocks of routes, each starting with its edge, in the order of the edges. *)
Lemma StronglySorted_blocks (f : Edge → list (list Edge)) es :
  StronglySorted (λ a b, edge_lt a b = true) es →
  (∀ e, StronglySorted lex_before (f e)) →
  (∀ e l, l ∈ f e → head l = Some e) →
  StronglySorted lex_before (es ≫= f).
Proof.
  intros Hs Hf Hh. induction Hs as [|e es Hs IH He]; simpl; [constructor|].
  apply StronglySorted_app_lex; [done..|].
  intros x y Hx (e' & Hy & He')%list_elem_of_bind.
  apply Hh in Hx, Hy. destruct x as [|ex x], y as [|ey y]; simplify_eq/=.
  left. rewrite Forall_forall in He. auto.
Qed.

Lemma routes_sorted adj target depth fuel cur hops visited :
  (∀ a, StronglySorted (λ a b, edge_lt a b = true) (default [] (adj !! a))) →
  StronglySorted lex_before (routes adj target depth fuel cur hops visited).
Proof.
  intros Hadj. revert cur hops visited.
  induction fuel as [|fuel IH]; intros cur hops visited; simpl; [constructor|].
  apply StronglySorted_blocks; [done| |].
  - intros e. repeat case_match; try constructor; try constructor.
    by apply StronglySorted_fmap_cons.
  - intros e l. repeat case_match; [by intros ?%elem_of_nil|
      by intros ->%list_elem_of_singleton| |by intros ?%elem_of_nil].
    by intros (? & -> & _)%list_elem_of_fmap.
Qed.

(** ** The adjacency of a snapshot *)

(** The link can be traversed from [a] to [b]: along its direction, or either
    way when it is undirected. *)
Definition joins (lk : LinkRecord) (a b : Z) : Prop :=
  (lk_source lk = a ∧ lk_target lk = b) ∨
  (lk_directed lk = false ∧ lk_target lk = a ∧ lk_source lk = b).

(** [e] leaves [a] along the link. *)
Definition link_edge (lk : LinkRecord) (a : Z) (e : Edge) : Prop :=
  lk_id lk = edge_link e ∧ joins lk a (edge_to e).

Lemma push_edge_lookup d e adj a :
  default [] (push_edge d e adj !! a) =
  default [] (adj !! a) ++ (if decide (a = d) then [e] else []).
Proof.
  unfold push_edge. case_decide; subst.
  - by rewrite lookup_insert_eq.
  - by rewrite lookup_insert_ne, app_nil_r by done.
Qed.

Lemma elem_of_add_link adj lk a e :
  e ∈ default [] (add_link adj lk !! a) ↔ e ∈ default [] (adj !! a) ∨ link_edge lk a e.
Proof.
  unfold add_link, link_edge, joins. destruct e as [l t]. simpl.
  destruct (lk_directed lk); rewrite ?push_edge_lookup; simpl; repeat case_decide;
    rewrite ?elem_of_app, ?elem_of_cons, ?elem_of_nil; naive_solver.
Qed.

Lemma elem_of_fold_links ls adj a e :
  e ∈ default [] (foldl add_link adj ls !! a) ↔
  e ∈ default [] (adj !! a) ∨ ∃ lk, lk ∈ ls ∧ link_edge lk a e.
Proof.
  revert adj. induction ls as [|lk ls IH]; intros adj; simpl.
  - setoid_rewrite elem_of_nil. naive_solver.
  - rewrite IH, elem_of_add_link. setoid_rewrite elem_of_cons. naive_solver.
Qed.

Lemma build_adjacency_lookup topo a :
  default [] (build_adjacency topo !! a) =
  stable_sort edge_lt (default [] (foldl add_link ∅ (snap_links topo) !! a)).
Proof. unfold build_adjacency. rewrite lookup_fmap. by destruct (_ !! a). Qed.

Lemma elem_of_build_adjacency topo a e :
  e ∈ default [] (build_adjacency topo !! a) ↔
  ∃ lk, lk ∈ snap_links topo ∧ link_edge lk a e.
Proof.
  rewrite build_adjacency_lookup, stable_sort_perm, elem_of_fold_links, lookup_empty.
  simpl. rewrite elem_of_nil. naive_solver.
Qed.

(** A snapshot without duplicate link ids or self-links. *)
Definition links_distinct (ls : list LinkRecord) : Prop :=
  NoDup (lk_id <$> ls) ∧ Forall (λ lk, lk_source lk ≠ lk_target lk) ls.

Lemma add_link_NoDup adj lk a :
  lk_source lk ≠ lk_target lk →
  (∀ e, e ∈ default [] (adj !! a) → edge_link e ≠ lk_id lk) →
  NoDup (default [] (adj !! a)) → NoDup (default [] (add_link adj lk !! a)).
Proof.
  intros Hne Hfresh Hnd. unfold add_link.
  assert (∀ t, mkEdge (lk_id lk) t ∉ default [] (adj !! a)) as Hn.
  { intros t Ht. by apply (Hfresh _ Ht). }
  destruct (lk_directed lk); rewrite ?push_edge_lookup; repeat case_decide; simplify_eq;
    rewrite ?app_nil_r; try done; apply NoDup_app; (split_and!; [done| |apply NoDup_singleton]);
    intros e He ->%list_elem_of_singleton; by apply (Hn _ He).
Qed.

Lemma fold_links_NoDup ls adj a :
  links_distinct ls →
  (∀ e, e ∈ default [] (adj !! a) → edge_link e ∉ lk_id <$> ls) →
  NoDup (default [] (adj !! a)) → NoDup (default [] (foldl add_link adj ls !! a)).
Proof.
  revert adj. induction ls as [|lk ls IH]; intros adj [Hid Hne] Hfresh Hnd; simpl; [done|].
  rewrite fmap_cons in Hid, Hfresh.
  apply NoDup_cons in Hid as [Hn Hid]. apply Forall_cons in Hne as [Hne1 Hne].
  apply IH; [done| |].
  - intros e [He|[He _]]%elem_of_add_link; [|by rewrite <-He].
    intros Hin. apply (Hfresh e He). by right.
  - apply add_link_NoDup; [done| |done]. intros e He Heq.
    apply (Hfresh e He). rewrite Heq. left.
Qed.

Lemma stable_sort_edges_strict es :
  NoDup es → StronglySorted (λ a b, edge_lt a b = true) (stable_sort edge_lt es).
Proof.
  intros Hnd. assert (StronglySorted (λ a b, edge_lt b a = false) (stable_sort edge_lt es)) as Hs.
  { apply (stable_sort_sorted edge_lt (λ _, True)); [..|by apply Forall_true].
    - intros a b _ _. apply edge_lt_asym.
    - intros a b c _ _ _. apply edge_nlt_trans. }
  rewrite <-(stable_sort_perm edge_lt) in Hnd.
  induction Hs as [|e l Hs IH He]; [constructor|].
  apply NoDup_cons in Hnd as [Hn Hnd]. constructor; [auto|].
  rewrite Forall_forall in He |- *. intros e' He'.
  apply edge_lt_total; [auto|]. by intros ->.
Qed.

Lemma build_adjacency_sorted topo a :
  links_distinct (snap_links topo) →
  StronglySorted (λ a b, edge_lt a b = true) (default [] (build_adjacency topo !! a)).
Proof.
  intros Hd. rewrite build_adjacency_lookup. apply stable_sort_edges_strict.
  apply fold_links_NoDup; [done|..]; rewrite lookup_empty; simpl.
  - by intros e ?%elem_of_nil.
  - constructor.
Qed.

(** ** [enumerate_paths_impl] computes the specification *)

(** The path of an edge sequence. *)
Definition route_path (topo : TopologySnapshot) (src tgt : Z) (es : list Edge) : Path :=
  set_switch_traversal topo (make_path topo src tgt (DEVICE src :: edge_elements es)).

Lemma edge_elements_length es : zlen (edge_elements es) = 2 * zlen es.
Proof.
  unfold edge_elements, zlen.
  induction es as [|e es IH]; [done|]. rewrite bind_cons, length_app. simpl. lia.
Qed.

Lemma route_path_hops topo src tgt es : path_hop_count (route_path topo src tgt es) = zlen es.
Proof.
  unfold route_path, make_path. simpl. rewrite zlen_cons, edge_elements_length.
  replace (1 + 2 * zlen es) with (1 + zlen es * 2) by lia.
  by rewrite Z.div_add by lia.
Qed.

(** All the routes between two devices, shortest link ids first. *)
Definition all_routes (topo : TopologySnapshot) (src tgt : Z) (limits : Limits) : list (list Edge) :=
  if is_nil src || is_nil tgt || (src =? tgt) then []
  else routes (build_adjacency topo) tgt (max_path_depth limits) (dfs_fuel limits) src 0 {[src]}.

(** The fuel is always enough, and the result is the prefix of the routes
    that [max_candidate_paths] leaves room for. *)
Lemma enumerate_paths_impl_spec topo src tgt limits :
  0 ≤ max_candidate_paths limits →
  enumerate_paths_impl topo src tgt limits =
  take (Z.to_nat (max_candidate_paths limits))
    (route_path topo src tgt <$> all_routes topo src tgt limits).
Proof.
  intros Hm. unfold enumerate_paths_impl, all_routes. case_match.
  { by rewrite fmap_nil, take_nil. }
  rewrite (dfs_routes _ _ _ _ _ _ _ _ _ 0); unfold dfs_fuel; [| done..|lia|lia].
  rewrite app_nil_l, fmap_take, <-list_fmap_compose. done.
Qed.

Lemma elem_of_all_routes topo src tgt limits es :
  es ∈ all_routes topo src tgt limits ↔
  src ≠ 0 ∧ tgt ≠ 0 ∧
  simple_walk (λ a e, ∃ lk, lk ∈ snap_links topo ∧ link_edge lk a e) src es tgt ∧
  zlen es ≤ Z.max 1 (max_path_depth limits).
Proof.
  unfold all_routes, is_nil. case_match eqn:Hg.
  { rewrite elem_of_nil. split; [done|]. intros (Hs & Ht & Hw%simple_walk_ends & _).
    apply Z.eqb_neq in Hs, Ht, Hw. by rewrite Hs, Ht, Hw in Hg. }
  to_props. rewrite elem_of_routes by (unfold dfs_fuel; lia).
  unfold simple_walk. rewrite (chain_iff _ _ _ _ _ (elem_of_build_adjacency topo)), NoDup_cons.
  unfold zlen. split.
  - intros (Hc & Hnd & Hne & Hvis & Hlen). split_and!; try done; [|lia].
    rewrite list_elem_of_fmap. intros (e & Heq & He). apply (Hvis e He). set_solver.
  - intros (_ & _ & (Hc & [Hn Hnd] & Hne) & Hlen). split_and!; try done; [|destruct es; [done|]; simpl in *; lia].
    intros e He Heq%elem_of_singleton. apply Hn. rewrite <-Heq. by apply list_elem_of_fmap_2.
Qed.

Lemma all_routes_sorted topo src tgt limits :
  links_distinct (snap_links topo) →
  StronglySorted lex_before (all_routes topo src tgt limits).
Proof.
  intros Hd. unfold all_routes. case_match; [constructor|].
  apply routes_sorted. intros a. by apply build_adjacency_sorted.
Qed.
