(* ===== verification/Quality.v ===== *)
(** * Path quality and ranking policy (path.cpp, policy.cpp): definitions

    [PathQuality] (path_quality.hpp), [compute_quality] and
    [compute_path_quality] (path.cpp), and the policy types and the weighted
    score (policy.hpp, policy.cpp). *)

From S2P Require Import Prelude Enums Double Records World Registry Paths.

(** ** PathQuality *)
Record PathQuality := mkQuality {
  q_path : Z;
  q_source : Z;
  q_target : Z;
  q_hop_count : Z;
  q_nvlink_segments : Z;
  q_switch_traversal : bool;
  q_direct : bool;
  q_nominal_bandwidth_bps : Z;
  q_measured_bandwidth_bps : option double;
  q_measured_latency_seconds : option double;
  q_measurement_timestamp : Timestamp;
  q_active_links : Z;
  q_degraded_links : Z;
  q_down_links : Z;
  q_evidence_sufficient : bool;
  q_stale : bool;
  q_contended : bool;
  q_outcome : PathQualityOutcome;
  q_evidence : Evidence;
  q_topology_generation : Z;
  q_source_generation : Z;
  q_target_generation : Z
}.

(** ** The walk over the path's links

    The local variables of [compute_quality] its loop updates, with the
    counters of [q] it increments. *)
Record Walk := mkWalk {
  w_nvlink_segments : Z;
  w_active_links : Z;
  w_degraded_links : Z;
  w_down_links : Z;
  w_nominal : Z;
  w_have_nominal : bool;
  w_any_down : bool;
  w_any_unsupported : bool;
  w_any_reval : bool;
  w_any_degraded : bool;
  w_any_up : bool;
  w_any_synth : bool;
  w_any_unsup_ev : bool;
  w_any_unknown : bool;
  w_has_capability : bool
}.

(** A 32-bit counter, incremented when the condition holds. *)
Definition count_if (b : bool) (n : Z) : Z := if b then wrap32 (n + 1) else n.

Definition state_is_up (s : LinkOperationalState) : bool :=
  match s with
  | LinkOperationalState.UP | LinkOperationalState.PRESENT
  | LinkOperationalState.SUPPORTED => true
  | _ => false
  end.
Definition state_is_down (s : LinkOperationalState) : bool :=
  match s with
  | LinkOperationalState.DOWN | LinkOperationalState.ABSENT
  | LinkOperationalState.UNREACHABLE => true
  | _ => false
  end.
Definition state_is_reval (s : LinkOperationalState) : bool :=
  match s with
  | LinkOperationalState.REVALIDATION_REQUIRED | LinkOperationalState.STALE => true
  | _ => false
  end.
Definition link_is_degraded (l : LinkRecord) : bool :=
  lk_degraded l || bool_decide (lk_state l = LinkOperationalState.DEGRADED).

Definition link_nominal (l : LinkRecord) : Z := nominal_bandwidth_bps (lk_capability l).

(** The running minimum of the nominal bandwidths, 0 standing for none yet. *)
Definition min_nominal (nominal b : Z) : Z :=
  if 0 <? b then (if nominal =? 0 then b else Z.min nominal b) else nominal.

(** One link of the path that the snapshot has. *)
Definition walk_link (w : Walk) (l : LinkRecord) : Walk :=
  let up := state_is_up (lk_state l) in
  let degraded := link_is_degraded l in
  let down := state_is_down (lk_state l) in
  mkWalk
    (if bool_decide (lk_technology l = InterconnectTechnology.NVLINK)
     then wrap64 (w_nvlink_segments w + 1) else w_nvlink_segments w)
    (count_if up (w_active_links w))
    (count_if degraded (w_degraded_links w))
    (count_if down (w_down_links w))
    (min_nominal (w_nominal w) (link_nominal l))
    true
    (w_any_down w || down)
    (w_any_unsupported w || bool_decide (lk_state l = LinkOperationalState.UNSUPPORTED))
    (w_any_reval w || state_is_reval (lk_state l))
    (w_any_degraded w || degraded)
    (w_any_up w || up)
    (w_any_synth w || is_synthetic (lk_evidence l))
    (w_any_unsup_ev w || is_unsupported (lk_evidence l))
    (w_any_unknown w || bool_decide (lk_state l = LinkOperationalState.UNKNOWN))
    (w_has_capability w || (0 <? link_nominal l) ||
     bool_decide (interconnect (lk_capability l) ≠ InterconnectTechnology.UNKNOWN)).

(** One link of the path that the snapshot lacks. *)
Definition walk_missing (w : Walk) : Walk :=
  mkWalk (w_nvlink_segments w) (w_active_links w) (w_degraded_links w)
    (wrap32 (w_down_links w + 1)) (w_nominal w) (w_have_nominal w) true
    (w_any_unsupported w) (w_any_reval w) (w_any_degraded w) (w_any_up w)
    (w_any_synth w) (w_any_unsup_ev w) (w_any_unknown w) (w_has_capability w).

Definition walk_element (topo : TopologySnapshot) (w : Walk) (el : PathElement) : Walk :=
  match el with
  | DEVICE _ => w
  | LINK i => match find_link topo i with
              | Some l => walk_link w l
              | None => walk_missing w
              end
  end.

Definition initial_walk (nvlink_segments : Z) : Walk :=
  mkWalk nvlink_segments 0 0 0 0 false false false false false false false false false false.

(** ** The newest valid measurement between the path's ends *)
Definition usable_measurement (path : Path) (m : MeasurementRecord) : bool :=
  negb (negb (meas_valid m) || meas_stale m) &&
  ((meas_source m =? path_source path) && (meas_target m =? path_target path)).

Definition best_measurement (path : Path) (ms : list MeasurementRecord)
    : option MeasurementRecord :=
  foldl (λ best m,
    if usable_measurement path m then
      match best with
      | None => Some m
      | Some b => if unix_ns (meas_measured_at b) <? unix_ns (meas_measured_at m)
                  then Some m else best
      end
    else best) None ms.

(** ** [compute_quality] *)
Definition compute_quality (topo : TopologySnapshot) (measurements : list MeasurementRecord)
    (path : Path) : PathQuality :=
  let w := foldl (walk_element topo) (initial_walk (path_nvlink_segments path))
             (path_elements path) in
  let nominal := if w_have_nominal w && (0 <? w_nominal w) then w_nominal w else 0 in
  let best := best_measurement path measurements in
  let contended := match best with Some b => meas_contended b | None => false end in
  let any_unsup_ev := w_any_unsup_ev w ||
    match best with Some b => is_unsupported (meas_evidence b) | None => false end in
  let any_synth := w_any_synth w ||
    match best with Some b => is_synthetic (meas_evidence b) | None => false end in
  let ev_class :=
    if any_unsup_ev then EvidenceClass.UNSUPPORTED
    else if any_synth then EvidenceClass.SYNTHETIC
    else EvidenceClass.REAL in
  let outcome :=
    if w_any_down w || (path_hop_count path =? 0) then PathQualityOutcome.LINK_DOWN
    else if w_any_unsupported w then PathQualityOutcome.UNSUPPORTED
    else if w_any_reval w then PathQualityOutcome.REVALIDATION_REQUIRED
    else if contended then PathQualityOutcome.CONTENDED
    else if w_any_degraded w then PathQualityOutcome.DEGRADED
    else if w_any_unknown w || negb (w_has_capability w)
         then PathQualityOutcome.INSUFFICIENT_EVIDENCE
    else PathQualityOutcome.HEALTHY in
  let stale := w_any_reval w ||
    match best with Some b => meas_stale b | None => false end in
  mkQuality (path_id_ path) (path_source path) (path_target path) (path_hop_count path)
    (w_nvlink_segments w) (path_switch_traversal path) (path_direct path)
    nominal
    (meas_bandwidth_bps <$> best) (meas_latency_seconds <$> best)
    (match best with Some b => meas_measured_at b | None => default_timestamp end)
    (w_active_links w) (w_degraded_links w) (w_down_links w)
    (w_any_up w && (w_has_capability w || bool_decide (is_Some best)))
    stale contended outcome
    (mkEvidence ev_class Provenance.NONE "path" "aggregate of traversed link evidence")
    (snap_generation topo)
    (match find_device topo (path_source path) with Some d => dev_generation d | None => 0 end)
    (match find_device topo (path_target path) with Some d => dev_generation d | None => 0 end).

Definition compute_path_quality (path : Path) (r : Registry) : M (Result PathQuality) :=
  let* view := consistent_view r in
  if bool_decide (find_device (view_topology view) (path_source path) = None) ||
     bool_decide (find_device (view_topology view) (path_target path) = None) then
    ret (err ErrorCode.NOT_FOUND "path endpoint unknown")
  else ret (Ok (compute_quality (view_topology view) (view_measurements view) path)).

(** ** Policy *)
Record RouteFactor := mkFactor { factor_key : RouteFactorKey; factor_weight : double }.

Record HardConstraint := mkHard {
  require_supported_links : bool;
  require_current_topology : bool;
  require_fresh : bool;
  min_nominal_bandwidth_bps : option Z;
  min_measured_bandwidth_bps : option double;
  required_technology : option InterconnectTechnology;
  max_hops : option Z;
  require_direct : bool;
  exclude_degraded : bool;
  exclude_down : bool;
  exclude_contended : bool
}.
Definition default_hard : HardConstraint :=
  mkHard true true true None None None None false false true false.

Record RoutePolicy := mkPolicy {
  pol_id : Z;
  pol_name : string;
  pol_hard : HardConstraint;
  pol_ranking : list RouteFactor
}.

Definition default_policy : RoutePolicy :=
  mkPolicy 0 "default" default_hard
    [mkFactor RouteFactorKey.DIRECTNESS (d_of_Z 3);
     mkFactor RouteFactorKey.HOP_COUNT (d_of_Z 2);
     mkFactor RouteFactorKey.MEASURED_BANDWIDTH (d_of_Z 4);
     mkFactor RouteFactorKey.MEASURED_LATENCY (d_of_Z 1);
     mkFactor RouteFactorKey.DEGRADATION (d_of_Z 5);
     mkFactor RouteFactorKey.FRESHNESS (d_of_Z 1);
     mkFactor RouteFactorKey.CONFIDENCE (d_of_Z 1)].

(** ** Scores *)
Record FactorContext := mkContext { max_nominal_bps : double; max_measured_bps : double }.

Definition clamp01 (v : double) : double :=
  if dltb v d0 then d0 else if dgtb v d1 then d1 else v.

Definition confidence_value (ev : Evidence) : double :=
  match evidence_class ev with
  | EvidenceClass.REAL => d1
  | EvidenceClass.SYNTHETIC => d_half
  | EvidenceClass.UNSUPPORTED => d0
  | EvidenceClass.UNNAMED _ => d0
  end.

Definition route_factor_value (key : RouteFactorKey) (q : PathQuality)
    (ctx : FactorContext) : double :=
  match key with
  | RouteFactorKey.DIRECTNESS => if q_direct q then d1 else d0
  | RouteFactorKey.HOP_COUNT => ddiv d1 (d_of_Z (wrap64 (q_hop_count q + 1)))
  | RouteFactorKey.MEASURED_BANDWIDTH =>
      match q_measured_bandwidth_bps q with
      | None => d0
      | Some b => if dleb (max_measured_bps ctx) d0 then d0
                  else clamp01 (ddiv b (max_measured_bps ctx))
      end
  | RouteFactorKey.NOMINAL_BANDWIDTH =>
      if dleb (max_nominal_bps ctx) d0 then d0
      else clamp01 (ddiv (d_of_Z (q_nominal_bandwidth_bps q)) (max_nominal_bps ctx))
  | RouteFactorKey.MEASURED_LATENCY =>
      match q_measured_latency_seconds q with
      | None => d0
      | Some l => ddiv d1 (dadd d1 l)
      end
  | RouteFactorKey.DEGRADATION => if q_degraded_links q =? 0 then d1 else d0
  | RouteFactorKey.CONTENTION =>
      if bool_decide (q_outcome q = PathQualityOutcome.CONTENDED) then d0 else d1
  | RouteFactorKey.FRESHNESS => if q_stale q then d0 else d1
  | RouteFactorKey.CONFIDENCE => confidence_value (q_evidence q)
  | RouteFactorKey.POLICY_PREFERENCE => d_half
  end.

Definition score_path (policy : RoutePolicy) (q : PathQuality) (ctx : FactorContext) : double :=
  foldl (λ score f,
    dadd score (dmul (factor_weight f) (route_factor_value (factor_key f) q ctx)))
    d0 (pol_ranking policy).
