(* ===== verification/Route.v ===== *)
(** * Route governance (path.cpp, second half; route.hpp): definitions

    Eligibility of the candidate paths under the policy's hard constraints,
    scoring, ranking, and [decide_route], [is_route_executable],
    [revalidate_route], [explain_path], [observations_for]. *)

From S2P Require Import Prelude Enums Double Records World Registry Paths Quality.

(** ** RejectedCandidate and RouteDecision *)
Record RejectedCandidate := mkRejected {
  rc_path : Z;
  rc_reason : RouteRejectionReason;
  rc_detail : string
}.

Record RouteDecision := mkDecision {
  rd_id : Z;
  rd_source : Z;
  rd_target : Z;
  rd_topology_generation : Z;
  rd_source_generation : Z;
  rd_target_generation : Z;
  rd_route_generation : Z;
  rd_policy : Z;
  rd_candidates_considered : list Z;
  rd_rejected : list RejectedCandidate;
  rd_selected : option Z;
  rd_outcome : RouteDecisionOutcome;
  rd_evidence_references : list Z;
  rd_explanation : string;
  rd_created_at : Timestamp;
  rd_executable : bool
}.

(** ** Hard constraints

    Each check yields the reason and detail of a rejection; the code runs a
    check only while the candidate is eligible, so the first rejection wins. *)
Definition Rejection : Type := RouteRejectionReason * string.

Definition first_rejection (l : list (option Rejection)) : option Rejection :=
  foldr (λ o rest, match o with Some r => Some r | None => rest end) None l.

Definition reject_if (b : bool) (c : RouteRejectionReason) (s : string) : option Rejection :=
  if b then Some (c, s) else None.

Definition is_supported_state (s : LinkOperationalState) : bool :=
  match s with
  | LinkOperationalState.UP | LinkOperationalState.PRESENT
  | LinkOperationalState.SUPPORTED | LinkOperationalState.DEGRADED => true
  | _ => false
  end.

Definition unsupported_reason (s : LinkOperationalState) : RouteRejectionReason :=
  match s with
  | LinkOperationalState.DOWN | LinkOperationalState.ABSENT
  | LinkOperationalState.UNREACHABLE => RouteRejectionReason.LINK_DOWN
  | LinkOperationalState.UNSUPPORTED => RouteRejectionReason.LINK_UNSUPPORTED
  | LinkOperationalState.STALE => RouteRejectionReason.LINK_STALE_GENERATION
  | LinkOperationalState.REVALIDATION_REQUIRED => RouteRejectionReason.FRESHNESS_VIOLATION
  | _ => RouteRejectionReason.LINK_DOWN
  end.

Definition supported_element (topo : TopologySnapshot) (el : PathElement) : option Rejection :=
  match el with
  | DEVICE _ => None
  | LINK i =>
      match find_link topo i with
      | None => Some (RouteRejectionReason.LINK_DOWN, "link missing"%string)
      | Some l =>
          if is_supported_state (lk_state l) then None
          else Some (unsupported_reason (lk_state l), LinkOperationalState.link_state_name (lk_state l))
      end
  end.

Definition technology_element (topo : TopologySnapshot) (t : InterconnectTechnology)
    (el : PathElement) : option Rejection :=
  match el with
  | DEVICE _ => None
  | LINK i =>
      match find_link topo i with
      | None => Some (RouteRejectionReason.TECHNOLOGY_EXCLUDED, "technology mismatch"%string)
      | Some l =>
          reject_if (bool_decide (lk_technology l ≠ t))
            RouteRejectionReason.TECHNOLOGY_EXCLUDED "technology mismatch"
      end
  end.

Definition check_supported (topo : TopologySnapshot) (h : HardConstraint) (p : Path) : option Rejection :=
  if require_supported_links h
  then first_rejection (supported_element topo <$> path_elements p) else None.

Definition check_fresh (h : HardConstraint) (q : PathQuality) : option Rejection :=
  if require_fresh h then
    if bool_decide (q_outcome q = PathQualityOutcome.REVALIDATION_REQUIRED)
    then Some (RouteRejectionReason.FRESHNESS_VIOLATION, "revalidation required"%string)
    else reject_if (q_stale q) RouteRejectionReason.FRESHNESS_VIOLATION "stale evidence"
  else None.

Definition check_direct (h : HardConstraint) (p : Path) : option Rejection :=
  reject_if (require_direct h && negb (path_direct p)) RouteRejectionReason.NOT_DIRECT "not direct".

Definition check_nominal (h : HardConstraint) (q : PathQuality) : option Rejection :=
  match min_nominal_bandwidth_bps h with
  | None => None
  | Some m => reject_if (q_nominal_bandwidth_bps q <? m)
                RouteRejectionReason.MIN_CAPABILITY_UNMET "nominal bandwidth below minimum"
  end.

Definition check_measured (h : HardConstraint) (q : PathQuality) : option Rejection :=
  match min_measured_bandwidth_bps h with
  | None => None
  | Some m =>
      match q_measured_bandwidth_bps q with
      | None => Some (RouteRejectionReason.INSUFFICIENT_EVIDENCE, "no measured bandwidth"%string)
      | Some b => reject_if (dltb b m)
                    RouteRejectionReason.MIN_CAPABILITY_UNMET "measured bandwidth below minimum"
      end
  end.

Definition check_technology (topo : TopologySnapshot) (h : HardConstraint) (p : Path)
    : option Rejection :=
  match required_technology h with
  | None => None
  | Some t => first_rejection (technology_element topo t <$> path_elements p)
  end.

Definition check_hops (h : HardConstraint) (p : Path) : option Rejection :=
  match max_hops h with
  | None => None
  | Some m => reject_if (m <? path_hop_count p) RouteRejectionReason.PATH_TOO_DEEP "too many hops"
  end.

Definition check_degraded (h : HardConstraint) (q : PathQuality) : option Rejection :=
  reject_if (exclude_degraded h && (0 <? q_degraded_links q))
    RouteRejectionReason.LINK_DEGRADED_BELOW_MINIMUM "degraded links present".

Definition check_down (h : HardConstraint) (q : PathQuality) : option Rejection :=
  reject_if (exclude_down h && (0 <? q_down_links q))
    RouteRejectionReason.LINK_DOWN "down links present".

Definition check_contended (h : HardConstraint) (q : PathQuality) : option Rejection :=
  reject_if (exclude_contended h && q_contended q) RouteRejectionReason.POLICY_EXCLUDED "contended".

Definition check_candidate (topo : TopologySnapshot) (h : HardConstraint) (p : Path)
    (q : PathQuality) : option Rejection :=
  first_rejection
    [check_supported topo h p; check_fresh h q; check_direct h p; check_nominal h q;
     check_measured h q; check_technology topo h p; check_hops h p; check_degraded h q;
     check_down h q; check_contended h q].

(** ** The loop over the candidates *)
Record Eval := mkEval { ev_path : Path; ev_quality : PathQuality; ev_score : double }.

Record Sieve := mkSieve {
  sv_evals : list Eval;
  sv_rejected : list RejectedCandidate;
  sv_any_freshness : bool;
  sv_any_unsupported : bool
}.

Definition sieve_path (view : ConsistentView) (h : HardConstraint) (s : Sieve) (p : Path) : Sieve :=
  let topo := view_topology view in
  let q := compute_quality topo (view_measurements view) p in
  let fresh_violation := bool_decide (check_supported topo h p = None) &&
                         bool_decide (is_Some (check_fresh h q)) in
  match check_candidate topo h p q with
  | Some (reason, detail) =>
      mkSieve (sv_evals s)
        (sv_rejected s ++
           [mkRejected (path_id_ p) reason
              (if bool_decide (detail = "") then "rejected by policy" else detail)])
        (sv_any_freshness s || fresh_violation)
        (sv_any_unsupported s || bool_decide (q_outcome q = PathQualityOutcome.UNSUPPORTED))
  | None =>
      mkSieve (sv_evals s ++ [mkEval p q d0]) (sv_rejected s)
        (sv_any_freshness s) (sv_any_unsupported s)
  end.

Definition sieve (view : ConsistentView) (h : HardConstraint) (paths : list Path) : Sieve :=
  foldl (sieve_path view h) (mkSieve [] [] false false) paths.

(** ** Ranking *)
Definition opt_bw_higher (a b : option double) : bool :=
  match a, b with
  | Some _, None => true
  | None, Some _ => false
  | None, None => false
  | Some x, Some y => dgtb x y
  end.
Definition opt_lat_lower (a b : option double) : bool :=
  match a, b with
  | Some _, None => true
  | None, Some _ => false
  | None, None => false
  | Some x, Some y => dltb x y
  end.

(** The comparator of [std::stable_sort]. *)
Definition eval_before (a b : Eval) : bool :=
  let pa := ev_path a in let pb := ev_path b in
  let qa := ev_quality a in let qb := ev_quality b in
  if dneqb (ev_score a) (ev_score b) then dgtb (ev_score a) (ev_score b)
  else if negb (Bool.eqb (path_direct pa) (path_direct pb)) then path_direct pa
  else if negb (path_hop_count pa =? path_hop_count pb)
       then path_hop_count pa <? path_hop_count pb
  else if negb (q_nominal_bandwidth_bps qa =? q_nominal_bandwidth_bps qb)
       then q_nominal_bandwidth_bps qb <? q_nominal_bandwidth_bps qa
  else if opt_bw_higher (q_measured_bandwidth_bps qa) (q_measured_bandwidth_bps qb) then true
  else if opt_bw_higher (q_measured_bandwidth_bps qb) (q_measured_bandwidth_bps qa) then false
  else if opt_lat_lower (q_measured_latency_seconds qa) (q_measured_latency_seconds qb) then true
  else if opt_lat_lower (q_measured_latency_seconds qb) (q_measured_latency_seconds qa) then false
  else path_id_ pa <? path_id_ pb.

Definition factor_context (evals : list Eval) : FactorContext :=
  foldl (λ ctx e,
    mkContext
      (dmax (max_nominal_bps ctx) (d_of_Z (q_nominal_bandwidth_bps (ev_quality e))))
      (match q_measured_bandwidth_bps (ev_quality e) with
       | Some b => dmax (max_measured_bps ctx) b
       | None => max_measured_bps ctx
       end)) (mkContext d1 d1) evals.

Definition score_eval (policy : RoutePolicy) (ctx : FactorContext) (e : Eval) : Eval :=
  mkEval (ev_path e) (ev_quality e) (score_path policy (ev_quality e) ctx).

Definition rank (policy : RoutePolicy) (evals : list Eval) : list Eval :=
  stable_sort eval_before (score_eval policy (factor_context evals) <$> evals).

(** ** Explanations *)
Definition join_rejections (rejected : list RejectedCandidate) : string :=
  (foldl (λ '(out, first) rc,
     (out +:+ (if first : bool then "" else "; ") +:+
        RouteRejectionReason.rejection_reason_name (rc_reason rc) +:+ "(" +:+ dec (rc_path rc) +:+
        (if bool_decide (rc_detail rc = "") then "" else ": " +:+ rc_detail rc) +:+ ")",
      false))
     ("no eligible path; rejected: "%string, true) rejected).1.

Definition bool_name (b : bool) : string := if b then "true" else "false".

Definition selection_explanation (best : Eval) (rejected : list RejectedCandidate) : string :=
  "selected path " +:+ dec (path_id_ (ev_path best)) +:+
  " hops=" +:+ dec (path_hop_count (ev_path best)) +:+
  " directed=" +:+ bool_name (path_direct (ev_path best)) +:+
  " outcome=" +:+ PathQualityOutcome.path_quality_outcome_name (q_outcome (ev_quality best)) +:+
  " evidence=" +:+ EvidenceClass.evidence_class_name (evidence_class (q_evidence (ev_quality best))) +:+
  match rejected with [] => "" | _ => "; rejected=" +:+ join_rejections rejected end.

(** For every device of the path, its latest ["device"] observation. *)
Definition latest_device_observation (obs : list Observation) (d : Z) : option Observation :=
  List.find (λ o, (obs_source o =? d) && bool_decide (obs_kind o = "device")) (rev obs).

Definition collect_evidence (obs : list Observation) (p : Path) : list Z :=
  omap (λ el, match el with
              | DEVICE d => obs_id <$> latest_device_observation obs d
              | LINK _ => None
              end) (path_elements p).

(** ** [decide_route] *)
Definition outcome_of_quality (o : PathQualityOutcome) : RouteDecisionOutcome :=
  match o with
  | PathQualityOutcome.HEALTHY => RouteDecisionOutcome.ROUTE_ALLOWED
  | PathQualityOutcome.DEGRADED => RouteDecisionOutcome.ROUTE_ALLOWED_DEGRADED
  | PathQualityOutcome.CONTENDED => RouteDecisionOutcome.ROUTE_ALLOWED_DEGRADED
  | PathQualityOutcome.UNSUPPORTED => RouteDecisionOutcome.UNSUPPORTED
  | PathQualityOutcome.REVALIDATION_REQUIRED => RouteDecisionOutcome.REVALIDATION_REQUIRED
  | PathQualityOutcome.INSUFFICIENT_EVIDENCE => RouteDecisionOutcome.INSUFFICIENT_EVIDENCE
  | PathQualityOutcome.LINK_DOWN => RouteDecisionOutcome.NO_ROUTE
  | PathQualityOutcome.NO_PATH => RouteDecisionOutcome.NO_ROUTE
  end.

Definition outcome_executable (o : RouteDecisionOutcome) : bool :=
  match o with
  | RouteDecisionOutcome.ROUTE_ALLOWED | RouteDecisionOutcome.ROUTE_ALLOWED_DEGRADED => true
  | _ => false
  end.

(** The decision on a consistent view; [obs] is the observation history of
    the second read of the registry. *)
Definition decide_on_view (view : ConsistentView) (limits : Limits) (obs : list Observation)
    (did gen : Z) (now : Timestamp) (source target : Z) (policy : RoutePolicy) : RouteDecision :=
  let topo := view_topology view in
  match find_device topo source, find_device topo target with
  | None, _ =>
      mkDecision did source target 0 0 0 gen (pol_id policy) [] [] None
        RouteDecisionOutcome.NO_ROUTE [] "source endpoint not present in current topology" now false
  | Some _, None =>
      mkDecision did source target 0 0 0 gen (pol_id policy) [] [] None
        RouteDecisionOutcome.NO_ROUTE [] "target endpoint not present in current topology" now false
  | Some sd, Some td =>
      let decision := mkDecision did source target (snap_generation topo)
        (dev_generation sd) (dev_generation td) gen (pol_id policy) in
      let paths := enumerate_paths_impl topo source target limits in
      match paths with
      | [] => decision [] [] None RouteDecisionOutcome.NO_ROUTE []
                "no path exists between endpoints in current topology" now false
      | _ =>
          let candidates := path_id_ <$> paths in
          let s := sieve view (pol_hard policy) paths in
          match rank policy (sv_evals s) with
          | [] =>
              let outcome := if sv_any_unsupported s then RouteDecisionOutcome.UNSUPPORTED
                else if sv_any_freshness s then RouteDecisionOutcome.REVALIDATION_REQUIRED
                else RouteDecisionOutcome.POLICY_REJECTED in
              decision candidates (sv_rejected s) None outcome []
                (join_rejections (sv_rejected s)) now false
          | best :: _ =>
              let outcome := outcome_of_quality (q_outcome (ev_quality best)) in
              decision candidates (sv_rejected s) (Some (path_id_ (ev_path best))) outcome
                (collect_evidence obs (ev_path best))
                (selection_explanation best (sv_rejected s)) now (outcome_executable outcome)
          end
      end
  end.

(** [r] is the registry when the view is taken, [r'] when the observations
    are read: the lock is not held in between. *)
Definition decide_route (source target : Z) (policy : RoutePolicy) (r r' : Registry)
    : M (Result RouteDecision) :=
  let* did := fresh_id RouteDecisionTag in
  let* gen := fresh_generation RouteGenerationTag in
  let* now := now_timestamp in
  let* view := consistent_view r in
  ret (Ok (decide_on_view view (limits_ r) (observations (state_ r')) did gen now
             source target policy)).

(** ** Executability and revalidation *)
Definition executable_on (topo : TopologySnapshot) (d : RouteDecision) : bool :=
  if negb (rd_executable d) then false
  else if negb (snap_generation topo =? rd_topology_generation d) then false
  else match find_device topo (rd_source d), find_device topo (rd_target d) with
       | Some sd, Some td =>
           (dev_generation sd =? rd_source_generation d) &&
           (dev_generation td =? rd_target_generation d)
       | _, _ => false
       end.

Definition is_route_executable (d : RouteDecision) (r : Registry) : M bool :=
  if negb (rd_executable d) then ret false
  else let* view := consistent_view r in ret (executable_on (view_topology view) d).

Definition revalidate_route (d : RouteDecision) (r : Registry) : M (Result RouteDecision) :=
  let* ok := is_route_executable d r in
  if ok then ret (Ok d)
  else
    let* did := fresh_id RouteDecisionTag in
    let* gen := fresh_generation RouteGenerationTag in
    let* now := now_timestamp in
    ret (Ok (mkDecision did (rd_source d) (rd_target d) 0 0 0 gen (rd_policy d) [] [] None
      RouteDecisionOutcome.REVALIDATION_REQUIRED []
      "route decision is stale; fresh evidence or a new topology is required before routing may proceed"
      now false)).

(** ** Explanation of a path, and the observations behind a decision *)
Definition explain_element (topo : TopologySnapshot) (el : PathElement) : string :=
  match el with
  | DEVICE i =>
      " dev:" +:+ dec i +:+
      match find_device topo i with
      | Some d =>
          "(name=" +:+ dev_logical_name d +:+
          " health=" +:+ DeviceHealthState.device_health_name (dev_health d) +:+
          " ev=" +:+ EvidenceClass.evidence_class_name (evidence_class (dev_evidence d)) +:+ ")"
      | None => ""
      end
  | LINK i =>
      " link:" +:+ dec i +:+
      match find_link topo i with
      | Some l =>
          "(state=" +:+ LinkOperationalState.link_state_name (lk_state l) +:+
          " tech=" +:+ InterconnectTechnology.interconnect_technology_name (lk_technology l) +:+
          " ev=" +:+ EvidenceClass.evidence_class_name (evidence_class (lk_evidence l)) +:+ ")"
      | None => ""
      end
  end +:+ " ".

Definition explain_path (p : Path) (r : Registry) : M string :=
  let* view := consistent_view r in
  ret (foldl (λ out el, out +:+ explain_element (view_topology view) el)
    ("path " +:+ dec (path_id_ p) +:+ " from " +:+ dec (path_source p) +:+
     " to " +:+ dec (path_target p) +:+ " hops=" +:+ dec (path_hop_count p) +:+
     " direct=" +:+ bool_name (path_direct p)) (path_elements p)).

Definition observations_for (d : RouteDecision) (r : Registry) : list Observation :=
  omap (λ oid, List.find (λ o, obs_id o =? oid) (rev (observations (state_ r))))
    (rd_evidence_references d).
