(* ===== verification/RouteFacts.v ===== *)
(** * Views, path quality and the candidate sieve: lemmas

    Lookups in a view are lookups in the registry; the walk of
    [compute_quality] in closed form; what the sieve keeps and rejects. *)

From S2P Require Import Prelude Enums Double Records World Registry RegistryFacts Paths.
From S2P Require Import PathsFacts Quality Route.

(** ** Lookups in a view *)

Definition topology_of (r : Registry) (w : World) : TopologySnapshot :=
  view_topology (consistent_view r w).1.

Lemma consistent_view_eq r w :
  (consistent_view r w).1 = mkView (topology_of r w) (measurement_history (state_ r)).
Proof. done. Qed.

Lemma find_by_key {A} (key : A → Z) (m : gmap Z A) l i :
  map_Forall (λ k x, key x = k) m →
  (∀ x, x ∈ l ↔ m !! key x = Some x) →
  List.find (λ x, key x =? i) l = m !! i.
Proof.
  intros Hk Hl. destruct (List.find _ _) as [y|] eqn:Hf.
  - apply List.find_some in Hf as [Hin%list_elem_of_In Hy]. apply Z.eqb_eq in Hy as <-.
    symmetry. by apply Hl.
  - destruct (m !! i) as [x|] eqn:Hx; [|done]. exfalso.
    pose proof (Hk _ _ Hx) as Hki. simpl in Hki. subst i.
    apply Hl, list_elem_of_In in Hx.
    pose proof (List.find_none _ _ Hf _ Hx) as Hn. simpl in Hn. by rewrite Z.eqb_refl in Hn.
Qed.

Lemma find_link_view r w i : wf r → find_link (topology_of r w) i = link r i.
Proof.
  intros [Hp _]. apply (find_by_key lk_id); [by eapply wf_link_keys|].
  intros l. by apply (elem_of_sorted_links (limits_ r)).
Qed.

Lemma find_device_view r w i : wf r → find_device (topology_of r w) i = device r i.
Proof.
  intros [Hp _]. apply (find_by_key dev_id); [by eapply wf_device_keys|].
  intros d. by apply (elem_of_sorted_devices (limits_ r)).
Qed.

Lemma view_links_distinct r w : wf r → links_distinct (snap_links (topology_of r w)).
Proof.
  intros [Hp _]. split; [by apply (sorted_links_NoDup (limits_ r))|].
  apply Forall_forall. intros l Hl%(elem_of_sorted_links (limits_ r)); [|done].
  by destruct (pre_links _ _ Hp _ _ Hl) as (_&_&?&_).
Qed.

(** The edges of the registry's graph. *)
Definition hop_of (r : Registry) (a : Z) (e : Edge) : Prop :=
  ∃ lk, link r (edge_link e) = Some lk ∧ joins lk a (edge_to e).

Lemma view_edges r w a e : wf r →
  (∃ lk, lk ∈ snap_links (topology_of r w) ∧ link_edge lk a e) ↔ hop_of r a e.
Proof.
  intros [Hp _]. split.
  - intros (lk & Hlk%(elem_of_sorted_links (limits_ r)) & Hid & Hj); [|done].
    exists lk. rewrite <-Hid. done.
  - intros (lk & Hlk & Hj). exists lk.
    pose proof (wf_link_keys _ _ Hp _ _ Hlk) as Hid. simpl in Hid.
    split; [|by split]. apply (elem_of_sorted_links (limits_ r)); [done|].
    unfold link in Hlk. by rewrite Hid.
Qed.

Lemma device_nonnil r i d : wf r → device r i = Some d → i ≠ 0.
Proof. intros [Hp _] Hd. by destruct (pre_devices _ _ Hp _ _ Hd). Qed.

Lemma elem_of_view_routes r w src tgt es :
  wf r → is_Some (device r src) → is_Some (device r tgt) →
  es ∈ all_routes (topology_of r w) src tgt (limits_ r) ↔
  simple_walk (hop_of r) src es tgt ∧ zlen es ≤ Z.max 1 (max_path_depth (limits_ r)).
Proof.
  intros Hwf [sd Hs] [td Ht]. rewrite elem_of_all_routes.
  unfold simple_walk. rewrite (chain_iff _ (hop_of r)) by (intros; by apply view_edges).
  apply device_nonnil in Hs, Ht; try done. tauto.
Qed.

(** ** The walk of [compute_quality], in closed form *)

Lemma wrap32_wrap32_add a b : wrap32 (wrap32 a + b) = wrap32 (a + b).
Proof. unfold wrap32. by rewrite Zplus_mod_idemp_l. Qed.

Lemma wrap64_wrap64_add a b : wrap64 (wrap64 a + b) = wrap64 (a + b).
Proof. unfold wrap64. by rewrite Zplus_mod_idemp_l. Qed.

(** The link lookups along a path, in order. *)
Definition path_links (topo : TopologySnapshot) (els : list PathElement)
    : list (option LinkRecord) :=
  omap (λ el, match el with LINK i => Some (find_link topo i) | DEVICE _ => None end) els.

Definition walk_lookup (w : Walk) (o : option LinkRecord) : Walk :=
  match o with Some l => walk_link w l | None => walk_missing w end.

Lemma walk_elements topo els w :
  foldl (walk_element topo) w els = foldl walk_lookup w (path_links topo els).
Proof.
  revert w. induction els as [|[d|i] els IH]; intros w; simpl; [done|apply IH|].
  rewrite IH. by destruct (find_link topo i).
Qed.

Definition is_nvlink (l : LinkRecord) : bool :=
  bool_decide (lk_technology l = InterconnectTechnology.NVLINK).

(** A test on a lookup that a missing link fails, or passes. *)
Definition on_link (f : LinkRecord → bool) (o : option LinkRecord) : bool :=
  match o with Some l => f l | None => false end.
Definition on_link_or_missing (f : LinkRecord → bool) (o : option LinkRecord) : bool :=
  match o with Some l => f l | None => true end.

Definition zcount {A} (f : A → bool) (l : list A) : Z := zlen (List.filter f l).

Lemma zcount_cons {A} (f : A → bool) x l :
  zcount f (x :: l) = (if f x then 1 else 0) + zcount f l.
Proof. unfold zcount. simpl. destruct (f x); [by rewrite zlen_cons|lia]. Qed.

Lemma zcount_nonneg {A} (f : A → bool) l : 0 ≤ zcount f l.
Proof. apply zlen_nonneg. Qed.

Lemma zcount_zero {A} (f : A → bool) l : zcount f l = 0 ↔ existsb f l = false.
Proof.
  induction l as [|x l IH]; [done|]. rewrite zcount_cons. simpl.
  pose proof (zcount_nonneg f l). destruct (f x); simpl; [split; [lia|done]|].
  by rewrite Z.add_0_l.
Qed.

Section WalkFields.
Let walk := foldl walk_lookup.

(** A flag raised by any lookup that passes the test. *)
Lemma walk_flag (get : Walk → bool) (f : option LinkRecord → bool) :
  (∀ w o, get (walk_lookup w o) = get w || f o) →
  ∀ os w, get (walk w os) = get w || existsb f os.
Proof.
  intros Hstep os. induction os as [|o os IH]; intros w; simpl.
  - by rewrite orb_false_r.
  - unfold walk in *. simpl. by rewrite IH, Hstep, orb_assoc.
Qed.

(** A wrapping counter of the lookups that pass the test. *)
Lemma walk_count (wrap : Z → Z) (get : Walk → Z) (f : option LinkRecord → bool) :
  (∀ a b, wrap (wrap a + b) = wrap (a + b)) →
  (∀ w o, get (walk_lookup w o) = if f o then wrap (get w + 1) else get w) →
  ∀ os w, wrap (get (walk w os)) = wrap (get w + zcount f os).
Proof.
  intros Hwrap Hstep os. induction os as [|o os IH]; intros w; simpl.
  - unfold zcount, walk. simpl. by rewrite Z.add_0_r.
  - unfold walk in *. simpl. rewrite IH, Hstep, zcount_cons. destruct (f o).
    + by rewrite Hwrap, Z.add_assoc.
    + by rewrite Z.add_0_l.
Qed.
End WalkFields.

(** The state of the walk over the lookups [os]. *)
Lemma walk_any_down os w :
  w_any_down (foldl walk_lookup w os) =
  w_any_down w || existsb (on_link_or_missing (λ l, state_is_down (lk_state l))) os.
Proof. apply (walk_flag w_any_down). intros w' [l|]; simpl; [done|]. by rewrite orb_true_r. Qed.

Lemma walk_any_unsupported os w :
  w_any_unsupported (foldl walk_lookup w os) =
  w_any_unsupported w ||
  existsb (on_link (λ l, bool_decide (lk_state l = LinkOperationalState.UNSUPPORTED))) os.
Proof. apply (walk_flag w_any_unsupported). intros w' [l|]; simpl; [done|]. by rewrite orb_false_r. Qed.

Lemma walk_any_reval os w :
  w_any_reval (foldl walk_lookup w os) =
  w_any_reval w || existsb (on_link (λ l, state_is_reval (lk_state l))) os.
Proof. apply (walk_flag w_any_reval). intros w' [l|]; simpl; [done|]. by rewrite orb_false_r. Qed.

Lemma walk_any_degraded os w :
  w_any_degraded (foldl walk_lookup w os) =
  w_any_degraded w || existsb (on_link link_is_degraded) os.
Proof. apply (walk_flag w_any_degraded). intros w' [l|]; simpl; [done|]. by rewrite orb_false_r. Qed.

Lemma walk_any_unknown os w :
  w_any_unknown (foldl walk_lookup w os) =
  w_any_unknown w ||
  existsb (on_link (λ l, bool_decide (lk_state l = LinkOperationalState.UNKNOWN))) os.
Proof. apply (walk_flag w_any_unknown). intros w' [l|]; simpl; [done|]. by rewrite orb_false_r. Qed.

Lemma walk_has_capability os w :
  w_has_capability (foldl walk_lookup w os) =
  w_has_capability w || existsb (on_link (λ l, (0 <? link_nominal l) ||
    bool_decide (interconnect (lk_capability l) ≠ InterconnectTechnology.UNKNOWN))) os.
Proof.
  apply (walk_flag w_has_capability). intros w' [l|]; simpl; [by rewrite orb_assoc|].
  by rewrite orb_false_r.
Qed.

Lemma walk_have_nominal os w :
  w_have_nominal (foldl walk_lookup w os) = w_have_nominal w || existsb (on_link (λ _, true)) os.
Proof.
  apply (walk_flag w_have_nominal). intros w' [l|]; simpl; [by rewrite orb_true_r|].
  by rewrite orb_false_r.
Qed.

Lemma walk_nvlink_segments os w :
  wrap64 (w_nvlink_segments (foldl walk_lookup w os)) =
  wrap64 (w_nvlink_segments w + zcount (on_link is_nvlink) os).
Proof. apply walk_count; [apply wrap64_wrap64_add|]. by intros w' [l|]. Qed.

Lemma walk_degraded_links os w :
  wrap32 (w_degraded_links (foldl walk_lookup w os)) =
  wrap32 (w_degraded_links w + zcount (on_link link_is_degraded) os).
Proof. apply walk_count; [apply wrap32_wrap32_add|]. by intros w' [l|]. Qed.

Lemma walk_down_links os w :
  wrap32 (w_down_links (foldl walk_lookup w os)) =
  wrap32 (w_down_links w + zcount (on_link_or_missing (λ l, state_is_down (lk_state l))) os).
Proof. apply walk_count; [apply wrap32_wrap32_add|]. by intros w' [l|]. Qed.

(** The nominal bandwidth is the smallest positive one, 0 when there is none. *)
Definition is_bottleneck (n : Z) (os : list (option LinkRecord)) : Prop :=
  (∀ l, Some l ∈ os → 0 < link_nominal l → 0 < n ≤ link_nominal l) ∧
  (n = 0 ∨ ∃ l, Some l ∈ os ∧ link_nominal l = n ∧ 0 < n).

Lemma walk_nominal_acc os w :
  0 ≤ w_nominal w →
  let n := w_nominal (foldl walk_lookup w os) in
  0 ≤ n ∧ (0 < w_nominal w → 0 < n ≤ w_nominal w) ∧
  (∀ l, Some l ∈ os → 0 < link_nominal l → 0 < n ≤ link_nominal l) ∧
  (n = w_nominal w ∨ ∃ l, Some l ∈ os ∧ link_nominal l = n ∧ 0 < n).
Proof.
  revert w. induction os as [|o os IH]; intros w Hw; simpl.
  { split_and!; [lia|lia|by intros l ?%elem_of_nil|by left]. }
  assert (0 ≤ w_nominal (walk_lookup w o)) as Hw'.
  { destruct o; simpl; [|done]. unfold min_nominal. repeat case_match; to_props; lia. }
  destruct (IH _ Hw') as (H0 & Hle & Hall & Hex). clear IH Hw'.
  set (n := w_nominal (foldl walk_lookup (walk_lookup w o) os)) in *. clearbody n.
  destruct o as [l|]; simpl in *.
  - unfold min_nominal in *.
    destruct (0 <? link_nominal l) eqn:E1; [destruct (w_nominal w =? 0) eqn:E2|]; to_props;
    (split_and!; [lia|lia| |]).
    1,3,5: intros l' [[= ->]|?]%elem_of_cons ?; [lia|auto].
    all: destruct Hex as [->|(l' & ? & ? & ?)];
      [|right; exists l'; split; [by right|done]].
    + right. exists l. split; [by left|lia].
    + destruct (Z.min_spec (w_nominal w) (link_nominal l)) as [[? ->]|[? ->]]; [by left|].
      right. exists l. split; [by left|lia].
    + by left.
  - split_and!; [done|done| |].
    + intros l [|?]%elem_of_cons; [done|auto].
    + destruct Hex as [|(l & ? & ?)]; [by left|right; exists l; split; [by right|done]].
Qed.

(** ** Quality of a route *)

Lemma path_links_route topo src tgt es :
  path_links topo (path_elements (route_path topo src tgt es)) =
  (λ e, find_link topo (edge_link e)) <$> es.
Proof.
  unfold path_links. simpl. induction es as [|e es IH]; [done|]. simpl. f_equal. exact IH.
Qed.

Lemma route_path_nvlink topo src tgt es :
  path_nvlink_segments (route_path topo src tgt es) =
  zcount (on_link is_nvlink) ((λ e, find_link topo (edge_link e)) <$> es).
Proof.
  unfold route_path, make_path, zcount. simpl.
  induction es as [|e es IH]; [done|]. simpl.
  destruct (find_link topo (edge_link e)) as [l|]; simpl; [|exact IH].
  unfold is_nvlink. case_bool_decide; [|exact IH]. rewrite !zlen_cons. by rewrite IH.
Qed.

(** The measurement [compute_quality] uses is usable, and the newest. *)
Lemma best_measurement_acc p ms best :
  (∀ b, best = Some b → usable_measurement p b = true) →
  ∀ b, foldl (λ best m,
    if usable_measurement p m then
      match best with
      | None => Some m
      | Some b => if unix_ns (meas_measured_at b) <? unix_ns (meas_measured_at m)
                  then Some m else best
      end
    else best) best ms = Some b →
  usable_measurement p b = true ∧ (b ∈ ms ∨ best = Some b) ∧
  (∀ b0, best = Some b0 → unix_ns (meas_measured_at b0) ≤ unix_ns (meas_measured_at b)) ∧
  (∀ m, m ∈ ms → usable_measurement p m = true →
     unix_ns (meas_measured_at m) ≤ unix_ns (meas_measured_at b)).
Proof.
  revert best. induction ms as [|m ms IH]; intros best Hb b; simpl.
  { intros ->. split_and!; [auto|by right|by intros b0 [= ->]|by intros m ?%elem_of_nil]. }
  intros H. apply IH in H as (Hu & Hin & Hge & Hall); clear IH.
  - split_and!; [done| | |].
    + destruct Hin as [Hin|Hin]; [left; by right|].
      repeat case_match; simplify_eq; auto; left; by left.
    + intros b0 ->. destruct (usable_measurement p m); [|by apply Hge].
      destruct (_ <? _) eqn:Hlt; [|by apply Hge]. to_props. specialize (Hge _ eq_refl). lia.
    + intros m' [->|?]%elem_of_cons Hm'; [|auto]. rewrite Hm' in Hge.
      destruct best as [b0|]; [|by apply Hge].
      destruct (_ <? _) eqn:Hlt; to_props; specialize (Hge _ eq_refl); lia.
  - intros b0. repeat case_match; intros; simplify_eq; auto.
Qed.

Lemma best_measurement_spec p ms b :
  best_measurement p ms = Some b →
  usable_measurement p b = true ∧ b ∈ ms ∧
  ∀ m, m ∈ ms → usable_measurement p m = true →
    unix_ns (meas_measured_at m) ≤ unix_ns (meas_measured_at b).
Proof.
  intros (?&[?|?]&_&?)%best_measurement_acc; [done|done|by intros].
Qed.

(** A measurement that counts for a route from [src] to [tgt]. *)
Definition measures (src tgt : Z) (m : MeasurementRecord) : Prop :=
  meas_valid m = true ∧ meas_stale m = false ∧ meas_source m = src ∧ meas_target m = tgt.

Lemma usable_measures p m :
  usable_measurement p m = true ↔ measures (path_source p) (path_target p) m.
Proof.
  unfold usable_measurement, measures. rewrite !andb_true_iff, negb_true_iff, orb_false_iff,
    negb_false_iff, !Z.eqb_eq. tauto.
Qed.

(** [o] is the newest of the measurements of [ms] that count, the first of
    equally new ones; nothing when none counts. *)
Definition newest_measurement (ms : list MeasurementRecord) (src tgt : Z)
    (o : option MeasurementRecord) : Prop :=
  match o with
  | None => ∀ m, m ∈ ms → ¬ measures src tgt m
  | Some x => measures src tgt x ∧
      ∃ older others, ms = older ++ x :: others ∧
        (∀ m, m ∈ older → measures src tgt m →
           unix_ns (meas_measured_at m) < unix_ns (meas_measured_at x)) ∧
        (∀ m, m ∈ others → measures src tgt m →
           unix_ns (meas_measured_at m) ≤ unix_ns (meas_measured_at x))
  end.

(** There is one answer. *)
Lemma newest_measurement_unique ms src tgt o o' :
  newest_measurement ms src tgt o → newest_measurement ms src tgt o' → o = o'.
Proof.
  assert (∀ x, newest_measurement ms src tgt None → newest_measurement ms src tgt (Some x) → False)
    as Hnone.
  { intros x Hn (Hx & older & others & -> & _). eapply Hn, Hx. apply elem_of_app. right. left. }
  destruct o as [x|], o' as [y|]; intros Hx Hy; try done; try by exfalso; eapply Hnone.
  destruct Hx as (Mx & l1 & l2 & -> & Hx1 & Hx2), Hy as (My & k1 & k2 & E & Hy1 & Hy2).
  apply app_eq_inv in E as [(k & -> & E)|(k & -> & E)];
    (destruct k as [|z k]; injection E as <- ->; [done|]).
  - specialize (Hx1 y ltac:(apply elem_of_app; right; left) My).
    specialize (Hy2 x ltac:(apply elem_of_app; right; left) Mx). lia.
  - specialize (Hy1 x ltac:(apply elem_of_app; right; left) Mx).
    specialize (Hx2 y ltac:(apply elem_of_app; right; left) My). lia.
Qed.

(** [compute_quality] picks that one. *)
Lemma best_measurement_newest p ms :
  newest_measurement ms (path_source p) (path_target p) (best_measurement p ms).
Proof.
  induction ms as [|m ms IH] using rev_ind; [by intros m ?%elem_of_nil|].
  unfold best_measurement in *. rewrite foldl_app. simpl.
  destruct (foldl _ None ms) as [b|]; simpl in *; destruct (usable_measurement p m) eqn:Hu.
  - apply usable_measures in Hu. destruct IH as (Hb & older & others & -> & Ho & Hn).
    destruct (_ <? _) eqn:Hlt; to_props.
    + split; [done|]. exists (older ++ b :: others), []. split; [done|].
      split; [|by intros ? ?%elem_of_nil].
      intros x [Hx|[->|Hx]%elem_of_cons]%elem_of_app Mx; [specialize (Ho x Hx Mx); lia|lia|].
      specialize (Hn x Hx Mx). lia.
    + split; [done|]. exists older, (others ++ [m]). split; [by rewrite <-(assoc_L (++))|].
      split; [done|]. intros x [Hx| ->%list_elem_of_singleton]%elem_of_app Mx; [by apply Hn|lia].
  - destruct IH as (Hb & older & others & -> & Ho & Hn). split; [done|].
    exists older, (others ++ [m]). split; [by rewrite <-(assoc_L (++))|]. split; [done|].
    intros x [Hx| ->%list_elem_of_singleton]%elem_of_app Mx; [by apply Hn|].
    apply usable_measures in Mx. congruence.
  - apply usable_measures in Hu. split; [done|]. exists ms, []. split; [done|].
    split; [|by intros ? ?%elem_of_nil]. intros x Hx Mx. by destruct (IH x Hx).
  - intros x [Hx| ->%list_elem_of_singleton]%elem_of_app Mx; [by apply (IH x Hx)|].
    apply usable_measures in Mx. congruence.
Qed.

Lemma usable_not_stale p m : usable_measurement p m = true → meas_stale m = false.
Proof. unfold usable_measurement. intros. to_props. by destruct (meas_stale m), (meas_valid m). Qed.

Lemma quality_stale topo ms p :
  q_stale (compute_quality topo ms p) =
  existsb (on_link (λ l, state_is_reval (lk_state l))) (path_links topo (path_elements p)).
Proof.
  unfold compute_quality. simpl. rewrite walk_elements, walk_any_reval. simpl.
  destruct (best_measurement p ms) as [b|] eqn:Hb; [|by rewrite orb_false_r].
  apply best_measurement_spec in Hb as [->%usable_not_stale _]. by rewrite orb_false_r.
Qed.

Lemma quality_nominal topo ms p :
  is_bottleneck (q_nominal_bandwidth_bps (compute_quality topo ms p))
    (path_links topo (path_elements p)).
Proof.
  unfold compute_quality. simpl. rewrite walk_elements, walk_have_nominal. simpl.
  set (os := path_links topo (path_elements p)).
  destruct (walk_nominal_acc os (initial_walk (path_nvlink_segments p))) as (H0 & _ & Hall & Hex);
    [done|]. simpl in *.
  set (n := w_nominal _) in *. clearbody n. split.
  - intros l Hl Hpos. specialize (Hall l Hl Hpos).
    assert (existsb (on_link (λ _, true)) os = true) as ->.
    { apply existsb_exists. exists (Some l). by rewrite <-list_elem_of_In. }
    rewrite (proj2 (Z.ltb_lt _ _)) by lia. done.
  - destruct Hex as [->|(l & Hl & Hn & Hpos)]; [left; by case_match|].
    right. exists l. case_match; [done|]. exfalso.
    assert (existsb (on_link (λ _, true)) os = true) as E.
    { apply existsb_exists. exists (Some l). by rewrite <-list_elem_of_In. }
    rewrite E, (proj2 (Z.ltb_lt _ _)) in H by lia. done.
Qed.

(** The outcome, by priority. *)
Lemma quality_outcome topo ms p :
  let os := path_links topo (path_elements p) in
  q_outcome (compute_quality topo ms p) =
  if existsb (on_link_or_missing (λ l, state_is_down (lk_state l))) os || (path_hop_count p =? 0)
  then PathQualityOutcome.LINK_DOWN
  else if existsb (on_link (λ l, bool_decide (lk_state l = LinkOperationalState.UNSUPPORTED))) os
  then PathQualityOutcome.UNSUPPORTED
  else if existsb (on_link (λ l, state_is_reval (lk_state l))) os
  then PathQualityOutcome.REVALIDATION_REQUIRED
  else if match best_measurement p ms with Some b => meas_contended b | None => false end
  then PathQualityOutcome.CONTENDED
  else if existsb (on_link link_is_degraded) os then PathQualityOutcome.DEGRADED
  else if existsb (on_link (λ l, bool_decide (lk_state l = LinkOperationalState.UNKNOWN))) os ||
          negb (existsb (on_link (λ l, (0 <? link_nominal l) ||
            bool_decide (interconnect (lk_capability l) ≠ InterconnectTechnology.UNKNOWN))) os)
  then PathQualityOutcome.INSUFFICIENT_EVIDENCE
  else PathQualityOutcome.HEALTHY.
Proof.
  unfold compute_quality. simpl.
  by rewrite walk_elements, walk_any_down, walk_any_unsupported, walk_any_reval,
    walk_any_degraded, walk_any_unknown, walk_has_capability.
Qed.

(** The 32-bit counters, below their bound. *)
Lemma wrap32_zcount_zero {A} (f : A → bool) (l : list A) n :
  zlen l < two32 → wrap32 n = wrap32 (zcount f l) → n = 0 → existsb f l = false.
Proof.
  intros Hl Hw ->. apply zcount_zero. unfold wrap32, two32 in *.
  assert (zcount f l ≤ zlen l).
  { unfold zcount, zlen. pose proof (List.filter_length_le f l). lia. }
  pose proof (zcount_nonneg f l). rewrite Z.mod_0_l, (Z.mod_small (zcount f l)) in Hw; lia.
Qed.

Lemma quality_degraded_links topo ms p :
  wrap32 (q_degraded_links (compute_quality topo ms p)) =
  wrap32 (zcount (on_link link_is_degraded) (path_links topo (path_elements p))).
Proof. unfold compute_quality. simpl. by rewrite walk_elements, walk_degraded_links. Qed.

Lemma quality_down_links topo ms p :
  wrap32 (q_down_links (compute_quality topo ms p)) =
  wrap32 (zcount (on_link_or_missing (λ l, state_is_down (lk_state l)))
            (path_links topo (path_elements p))).
Proof. unfold compute_quality. simpl. by rewrite walk_elements, walk_down_links. Qed.

Lemma count_if_range b n : 0 ≤ n < two32 → 0 ≤ count_if b n < two32.
Proof.
  unfold count_if, wrap32. intros. destruct b; [|done]. apply Z.mod_pos_bound. unfold two32. lia.
Qed.

Lemma walk_counters_range os w :
  0 ≤ w_degraded_links w < two32 → 0 ≤ w_down_links w < two32 →
  0 ≤ w_degraded_links (foldl walk_lookup w os) < two32 ∧
  0 ≤ w_down_links (foldl walk_lookup w os) < two32.
Proof.
  revert w. induction os as [|[l|] os IH]; intros w Hd Hn; simpl; [done|..];
    apply IH; simpl; try done; try by apply count_if_range.
  apply Z.mod_pos_bound. unfold two32. lia.
Qed.

Lemma quality_counters_nonneg topo ms p :
  0 ≤ q_degraded_links (compute_quality topo ms p) ∧ 0 ≤ q_down_links (compute_quality topo ms p).
Proof.
  unfold compute_quality. simpl. rewrite walk_elements.
  destruct (walk_counters_range (path_links topo (path_elements p))
    (initial_walk (path_nvlink_segments p))); unfold two32 in *; simpl in *; lia.
Qed.

Lemma quality_measured topo ms p :
  q_measured_bandwidth_bps (compute_quality topo ms p) = meas_bandwidth_bps <$> best_measurement p ms.
Proof. done. Qed.

Lemma quality_contended topo ms p :
  q_contended (compute_quality topo ms p) =
  match best_measurement p ms with Some b => meas_contended b | None => false end.
Proof. done. Qed.

Lemma quality_nvlink_segments topo ms p :
  wrap64 (q_nvlink_segments (compute_quality topo ms p)) =
  wrap64 (path_nvlink_segments p + zcount (on_link is_nvlink) (path_links topo (path_elements p))).
Proof. unfold compute_quality. simpl. by rewrite walk_elements, walk_nvlink_segments. Qed.
