(* ===== verification/Ranking.v ===== *)
(** * Scores and ranking: lemmas

    The score is a non-negative number under the conditions of [scorable], so
    the comparator of [decide_route] is a strict weak order and the first
    element of the sorted candidates is a best one. *)

From S2P Require Import Prelude Enums Double Records World Registry Paths Quality Route.

(** ** Scores *)

(** Every ranking factor has a positive finite weight. *)
Definition scorable (pol : RoutePolicy) : Prop :=
  Forall (λ f, d_positive (factor_weight f) = true) (pol_ranking pol).

(** The quality of a measured or unmeasured path: finite measured bandwidth, no
    NaN or negative value. *)
Definition sane_quality (q : PathQuality) : Prop :=
  u64 (q_nominal_bandwidth_bps q) ∧
  (∀ b, q_measured_bandwidth_bps q = Some b → d_nonneg_finite b = true) ∧
  (∀ l, q_measured_latency_seconds q = Some l → d_nonneg l = true).

Lemma dmax_positive a b :
  d_positive a = true → d_nonneg_finite b = true → d_positive (dmax a b) = true.
Proof.
  unfold dmax, dltb. destruct a as [|[]| |[] ma ea], b as [[]|[]| |[] mb eb]; try done.
  intros _ _. by case_match.
Qed.

(** The maxima the scores divide by are positive. *)
Definition positive_context (ctx : FactorContext) : Prop :=
  d_positive (max_nominal_bps ctx) = true ∧ d_positive (max_measured_bps ctx) = true.

Lemma factor_context_positive evals :
  Forall (λ e, sane_quality (ev_quality e)) evals → positive_context (factor_context evals).
Proof.
  unfold factor_context. assert (positive_context (mkContext d1 d1)) as H0 by done.
  revert H0. generalize (mkContext d1 d1) as ctx. clear.
  induction evals as [|e evals IH]; intros ctx Hc Hs; simpl; [done|].
  apply Forall_cons in Hs as [(Hn & Hb & _) Hs]. apply IH; [|done].
  destruct Hc as [Hc1 Hc2]. split; simpl.
  - by apply dmax_positive, d_of_Z_finite.
  - destruct (q_measured_bandwidth_bps _) as [b|]; [|done]. by apply dmax_positive, Hb.
Qed.

Lemma clamp01_nonneg v : d_nonneg v = true → d_nonneg (clamp01 v) = true.
Proof. intros. unfold clamp01. by repeat case_match. Qed.

Lemma route_factor_nonneg key q ctx :
  positive_context ctx → sane_quality q → d_nonneg (route_factor_value key q ctx) = true.
Proof.
  intros [Hc1 Hc2] (Hn & Hb & Hl).
  assert (∀ b : bool, d_nonneg (if b then d1 else d0) = true) as H01 by by intros [].
  assert (∀ b : bool, d_nonneg (if b then d0 else d1) = true) as H10 by by intros [].
  destruct key; cbn [route_factor_value]; auto.
  - apply drecip_nonneg, d_of_Z_nonneg. pose proof (wrap64_u64 (q_hop_count q + 1)) as [? _]. done.
  - destruct (q_measured_bandwidth_bps q) as [b|]; [|done]. case_match; [done|].
    apply clamp01_nonneg, ddiv_nonneg; auto.
  - case_match; [done|]. apply clamp01_nonneg, ddiv_nonneg; auto using d_of_Z_finite.
  - destruct (q_measured_latency_seconds q) as [l|]; [|done].
    by apply drecip_nonneg, dadd_nonneg, Hl.
  - unfold confidence_value. by case_match.
Qed.

Lemma score_nonneg pol q ctx :
  scorable pol → positive_context ctx → sane_quality q →
  d_nonneg (score_path pol q ctx) = true.
Proof.
  unfold scorable, score_path. intros Hpol Hc Hq.
  assert (d_nonneg d0 = true) as H0 by done. revert H0. generalize d0.
  induction Hpol as [|f fs Hf _ IH]; intros acc Hacc; simpl; [done|].
  apply IH, dadd_nonneg; [done|]. by apply dmul_nonneg, route_factor_nonneg.
Qed.

(** ** The comparator *)

(** Present values come before absent ones. *)
Definition opt_compare (c : double → double → comparison) (a b : option double) : comparison :=
  match a, b with
  | Some x, Some y => c x y
  | Some _, None => Lt
  | None, Some _ => Gt
  | None, None => Eq
  end.
Definition opt_not_nan (a : option double) : Prop :=
  match a with Some x => not_nan x | None => True end.

#[export] Instance cmp_opt (c : double → double → comparison) :
  CmpOn not_nan c → CmpOn opt_not_nan (opt_compare c).
Proof.
  intros H. split.
  - intros [x|] [y|]; simpl; try done. apply (cmp_opp (c := c)).
  - intros [x|] [y|] [z|]; simpl; unfold comparison_le; try done.
    apply (cmp_le_trans (c := c)).
Qed.

(** The key of [direct]: direct paths first. *)
Definition direct_key (e : Eval) : Z := if path_direct (ev_path e) then 0 else 1.

Definition eval_compare : Eval → Eval → comparison := λ a b,
  lex (dcompare (ev_score b) (ev_score a))
  (lex (direct_key a ?= direct_key b)
  (lex (path_hop_count (ev_path a) ?= path_hop_count (ev_path b))
  (lex (q_nominal_bandwidth_bps (ev_quality b) ?= q_nominal_bandwidth_bps (ev_quality a))
  (lex (opt_compare (λ x y, dcompare y x) (q_measured_bandwidth_bps (ev_quality a))
          (q_measured_bandwidth_bps (ev_quality b)))
  (lex (opt_compare dcompare (q_measured_latency_seconds (ev_quality a))
          (q_measured_latency_seconds (ev_quality b)))
  (path_id_ (ev_path a) ?= path_id_ (ev_path b))))))).

(** No NaN among the values compared. *)
Definition rankable (e : Eval) : Prop :=
  not_nan (ev_score e) ∧ opt_not_nan (q_measured_bandwidth_bps (ev_quality e)) ∧
  opt_not_nan (q_measured_latency_seconds (ev_quality e)).

Lemma cmp_on_key {B} (P : B → Prop) (c : B → B → comparison) (f : Eval → B) :
  CmpOn P c → (∀ e, rankable e → P (f e)) → CmpOn rankable (λ a b, c (f a) (f b)).
Proof. intros H Hf. by eapply (cmp_weaken (λ e, P (f e))); [apply cmp_key|]. Qed.

#[export] Instance eval_compare_order : CmpOn rankable eval_compare.
Proof.
  unfold eval_compare. repeat apply cmp_lex.
  - apply (cmp_on_key not_nan (λ x y, dcompare y x) ev_score); [by apply cmp_flip, _|by intros e []].
  - apply (cmp_on_key (λ _, True) Z.compare direct_key); [apply _|done].
  - apply (cmp_on_key (λ _, True) Z.compare (λ e, path_hop_count (ev_path e))); [apply _|done].
  - apply (cmp_on_key (λ _, True) (λ x y, y ?= x)
      (λ e, q_nominal_bandwidth_bps (ev_quality e))); [by apply cmp_flip, cmp_Z|done].
  - apply (cmp_on_key opt_not_nan (opt_compare (λ x y, dcompare y x))
      (λ e, q_measured_bandwidth_bps (ev_quality e))); [apply cmp_opt, cmp_flip, _|by intros e (_&?&_)].
  - apply (cmp_on_key opt_not_nan (opt_compare dcompare)
      (λ e, q_measured_latency_seconds (ev_quality e))); [apply _|by intros e (_&_&?)].
  - apply (cmp_on_key (λ _, True) Z.compare (λ e, path_id_ (ev_path e))); [apply _|done].
Qed.

Definition is_lt (c : comparison) : bool := match c with Lt => true | _ => false end.

Lemma is_lt_lex c1 c2 :
  is_lt (lex c1 c2) = match c1 with Lt => true | Eq => is_lt c2 | Gt => false end.
Proof. by destruct c1. Qed.

(** The stages of the comparator, each a test that the keys differ followed by
    one of which comes first. *)
Lemma stage_score x y k : not_nan x → not_nan y →
  (if dneqb x y then dgtb x y else k) =
  match dcompare y x with Lt => true | Eq => k | Gt => false end.
Proof.
  intros Hx Hy. unfold dneqb, dgtb. change SFltb with dltb. change SFeqb with deqb.
  pose proof (deqb_compare x y Hx Hy) as He. pose proof (dltb_compare y x Hy Hx) as Hl.
  rewrite (cmp_opp (P := not_nan) (c := dcompare) y x) in He by done.
  destruct (dcompare y x) eqn:E; simpl in *.
  - by rewrite (proj2 He).
  - rewrite (proj2 Hl) by done. destruct (deqb x y); [|done]. by specialize (proj1 He eq_refl).
  - destruct (deqb x y) eqn:E1; [by specialize (proj1 He eq_refl)|].
    simpl. destruct (dltb y x); [|done]. by specialize (proj1 Hl eq_refl).
Qed.

Lemma stage_Z x y k :
  (if negb (x =? y) then x <? y else k) =
  match x ?= y with Lt => true | Eq => k | Gt => false end.
Proof. unfold Z.ltb. rewrite Z.eqb_compare. by destruct (x ?= y). Qed.

Lemma stage_Z_down x y k :
  (if negb (x =? y) then y <? x else k) =
  match y ?= x with Lt => true | Eq => k | Gt => false end.
Proof. rewrite Z.eqb_sym. apply stage_Z. Qed.

Lemma stage_opt (higher : option double → option double → bool) c a b k :
  (∀ a b, opt_not_nan a → opt_not_nan b → higher a b = is_lt (opt_compare c a b)) →
  CmpOn not_nan c → opt_not_nan a → opt_not_nan b →
  (if higher a b then true else if higher b a then false else k) =
  match opt_compare c a b with Lt => true | Eq => k | Gt => false end.
Proof.
  intros Hh Hc Ha Hb. rewrite !Hh by done.
  rewrite (cmp_opp (P := opt_not_nan) (c := opt_compare c) a b) by done.
  by destruct (opt_compare c a b).
Qed.

Lemma opt_bw_higher_compare a b : opt_not_nan a → opt_not_nan b →
  opt_bw_higher a b = is_lt (opt_compare (λ x y, dcompare y x) a b).
Proof.
  destruct a as [x|], b as [y|]; simpl; try done. intros Hx Hy. unfold dgtb.
  pose proof (dltb_compare y x Hy Hx) as H. unfold dltb in H.
  destruct (SFltb y x), (dcompare y x); naive_solver.
Qed.

Lemma opt_lat_lower_compare a b : opt_not_nan a → opt_not_nan b →
  opt_lat_lower a b = is_lt (opt_compare dcompare a b).
Proof.
  destruct a as [x|], b as [y|]; simpl; try done. intros Hx Hy.
  pose proof (dltb_compare x y Hx Hy) as H.
  destruct (dltb x y), (dcompare x y); naive_solver.
Qed.

Lemma eval_before_compare a b :
  rankable a → rankable b → eval_before a b = is_lt (eval_compare a b).
Proof.
  intros (Hsa & Hba & Hla) (Hsb & Hbb & Hlb).
  unfold eval_before, eval_compare. rewrite stage_score, !is_lt_lex by done.
  rewrite !stage_Z, !stage_Z_down.
  rewrite (stage_opt opt_bw_higher (λ x y, dcompare y x)); [|apply opt_bw_higher_compare|
    apply cmp_flip, _|done..].
  rewrite (stage_opt opt_lat_lower dcompare); [|apply opt_lat_lower_compare|apply _|done..].
  unfold direct_key.
  destruct (path_direct (ev_path a)), (path_direct (ev_path b)); done.
Qed.

(** ** Ranking *)

Lemma eval_before_asym a b :
  rankable a → rankable b → eval_before a b = true → eval_before b a = false.
Proof.
  intros Ha Hb. rewrite !eval_before_compare by done.
  rewrite (cmp_opp (P := rankable) (c := eval_compare) a b) by done.
  by destruct (eval_compare a b).
Qed.

Lemma eval_nbefore_trans a b c :
  rankable a → rankable b → rankable c →
  eval_before b a = false → eval_before c b = false → eval_before c a = false.
Proof.
  intros Ha Hb Hc. rewrite !eval_before_compare by done.
  rewrite (cmp_opp (P := rankable) (c := eval_compare) a b),
    (cmp_opp (P := rankable) (c := eval_compare) b c),
    (cmp_opp (P := rankable) (c := eval_compare) a c) by done.
  pose proof (cmp_le_trans (P := rankable) (c := eval_compare) a b c Ha Hb Hc) as H.
  unfold comparison_le in H.
  destruct (eval_compare a b), (eval_compare b c), (eval_compare a c); naive_solver.
Qed.

Lemma rank_perm pol evals :
  rank pol evals ≡ₚ score_eval pol (factor_context evals) <$> evals.
Proof. apply stable_sort_perm. Qed.

Lemma rank_nil pol evals : rank pol evals = [] ↔ evals = [].
Proof.
  split; [|by intros ->]. intros H. pose proof (rank_perm pol evals) as Hp.
  rewrite H in Hp. apply Permutation_nil_l in Hp. symmetry in Hp. by apply fmap_nil_inv in Hp.
Qed.

Lemma scored_rankable pol evals :
  scorable pol → Forall (λ e, sane_quality (ev_quality e)) evals →
  Forall rankable (score_eval pol (factor_context evals) <$> evals).
Proof.
  intros Hpol Hs. pose proof (factor_context_positive evals Hs) as Hc.
  apply Forall_fmap. eapply Forall_impl; [exact Hs|]. intros e (Hn & Hb & Hl).
  split_and!; simpl.
  - apply d_nonneg_not_nan, score_nonneg; [done..|]. by split_and!.
  - destruct (q_measured_bandwidth_bps _); [|done].
    by apply d_nonneg_not_nan, d_nonneg_finite_nonneg, Hb.
  - destruct (q_measured_latency_seconds _); [|done]. by apply d_nonneg_not_nan, Hl.
Qed.

Lemma rank_sorted pol evals :
  scorable pol → Forall (λ e, sane_quality (ev_quality e)) evals →
  StronglySorted (λ a b, eval_before b a = false) (rank pol evals).
Proof.
  intros Hpol Hs. apply (stable_sort_sorted eval_before rankable).
  - apply eval_before_asym.
  - apply eval_nbefore_trans.
  - by apply scored_rankable.
Qed.

Lemma eval_before_irrefl e : rankable e → eval_before e e = false.
Proof. intros He. by rewrite eval_before_compare, (cmp_refl rankable eval_compare) by done. Qed.

(** What goes before includes everything with a greater score. *)
Lemma eval_before_score a b :
  rankable a → rankable b → eval_before a b = false → dgtb (ev_score a) (ev_score b) = false.
Proof.
  intros (Ha & _) (Hb & _). unfold eval_before. rewrite stage_score by done.
  unfold dgtb. change SFltb with dltb. intros H.
  pose proof (dltb_compare (ev_score b) (ev_score a) Hb Ha) as Hl.
  destruct (dltb _ _); [|done]. by rewrite (proj1 Hl eq_refl) in H.
Qed.
