(* ===== verification/Eligibility.v ===== *)
(** * Eligibility: what the candidate checks establish

    [hard_ok] states the policy's hard constraints on the registry itself, edge
    by edge; a candidate no check rejects satisfies them. *)

From S2P Require Import Prelude Enums Double Records World Registry RegistryFacts Paths.
From S2P Require Import PathsFacts Quality Route RouteFacts.

(** ** The sieve *)

Definition quality_of (view : ConsistentView) (p : Path) : PathQuality :=
  compute_quality (view_topology view) (view_measurements view) p.

Definition rejection_of (view : ConsistentView) (h : HardConstraint) (p : Path)
    : option Rejection :=
  check_candidate (view_topology view) h p (quality_of view p).

(** Some supported candidate fails the freshness check. *)
Definition fresh_violation (view : ConsistentView) (h : HardConstraint) (p : Path) : bool :=
  bool_decide (check_supported (view_topology view) h p = None) &&
  bool_decide (is_Some (check_fresh h (quality_of view p))).

Definition rejected_of (p : Path) (r : Rejection) : RejectedCandidate :=
  mkRejected (path_id_ p) r.1 (if bool_decide (r.2 = "") then "rejected by policy" else r.2).

#[local] Arguments compute_quality : simpl never.
#[local] Arguments quality_of : simpl never.
#[local] Arguments check_candidate : simpl never.
#[local] Arguments check_supported : simpl never.
#[local] Arguments check_fresh : simpl never.

Lemma sieve_fold view h paths s :
  let s' := foldl (sieve_path view h) s paths in
  sv_evals s' = sv_evals s ++
    ((λ p, mkEval p (quality_of view p) d0) <$> filter (λ p, rejection_of view h p = None) paths) ∧
  sv_rejected s' = sv_rejected s ++
    omap (λ p, rejected_of p <$> rejection_of view h p) paths ∧
  sv_any_freshness s' = sv_any_freshness s ||
    existsb (λ p, bool_decide (is_Some (rejection_of view h p)) && fresh_violation view h p) paths ∧
  sv_any_unsupported s' = sv_any_unsupported s ||
    existsb (λ p, bool_decide (is_Some (rejection_of view h p)) &&
      bool_decide (q_outcome (quality_of view p) = PathQualityOutcome.UNSUPPORTED)) paths.
Proof.
  revert s. induction paths as [|p paths IH]; intros s; simpl.
  { by rewrite !app_nil_r, !orb_false_r. }
  destruct (IH (sieve_path view h s p)) as (He & Hr & Hf & Hu). clear IH.
  simpl in *. rewrite He, Hr, Hf, Hu. clear He Hr Hf Hu.
  unfold sieve_path, fresh_violation, rejected_of.
  change (compute_quality _ _ p) with (quality_of view p).
  change (check_candidate _ _ p _) with (rejection_of view h p).
  rewrite filter_cons. destruct (rejection_of view h p) as [[reason detail]|] eqn:E; simpl.
  - split_and!; [done|by rewrite <-(assoc_L (++))|by rewrite orb_assoc|by rewrite orb_assoc].
  - split_and!; [by rewrite <-(assoc_L (++))|done..].
Qed.

Lemma sieve_evals view h paths :
  sv_evals (sieve view h paths) =
  (λ p, mkEval p (quality_of view p) d0) <$> filter (λ p, rejection_of view h p = None) paths.
Proof. apply (sieve_fold view h paths). Qed.

Lemma sieve_rejected view h paths :
  sv_rejected (sieve view h paths) = omap (λ p, rejected_of p <$> rejection_of view h p) paths.
Proof. apply (sieve_fold view h paths). Qed.

Lemma sieve_any_freshness view h paths :
  sv_any_freshness (sieve view h paths) =
  existsb (λ p, bool_decide (is_Some (rejection_of view h p)) && fresh_violation view h p) paths.
Proof. apply (sieve_fold view h paths). Qed.

(** ** First rejections *)

Lemma first_rejection_None l : first_rejection l = None ↔ Forall (λ o, o = None) l.
Proof.
  induction l as [|[r|] l IH]; simpl.
  - split; [by constructor|done].
  - rewrite Forall_cons. naive_solver.
  - rewrite Forall_cons, IH. naive_solver.
Qed.

Lemma reject_if_None b c s : reject_if b c s = None ↔ b = false.
Proof. by destruct b. Qed.

(** A check over the links of a route, seen from its edges. *)
Lemma element_checks_None (f : PathElement → option Rejection) topo src tgt es :
  (∀ d, f (DEVICE d) = None) →
  first_rejection (f <$> path_elements (route_path topo src tgt es)) = None ↔
  ∀ e, e ∈ es → f (LINK (edge_link e)) = None.
Proof.
  intros Hd. rewrite first_rejection_None, Forall_fmap. simpl. rewrite Forall_cons. simpl.
  rewrite Hd. unfold edge_elements. induction es as [|e es IH]; simpl.
  - split; [by intros _ e ?%elem_of_nil|by repeat constructor].
  - rewrite !Forall_cons. simpl. rewrite Hd. setoid_rewrite elem_of_cons. naive_solver.
Qed.

(** ** The hard constraints on a route of the registry

    Written on the registry's links and measurements, not on what
    [compute_quality] makes of them.  ([require_current_topology] is read
    nowhere in the code: a decision is always made on the current topology.) *)
Definition supported_states : list LinkOperationalState :=
  [LinkOperationalState.UP; LinkOperationalState.PRESENT; LinkOperationalState.SUPPORTED;
   LinkOperationalState.DEGRADED].
Definition stale_states : list LinkOperationalState :=
  [LinkOperationalState.STALE; LinkOperationalState.REVALIDATION_REQUIRED].
Definition down_states : list LinkOperationalState :=
  [LinkOperationalState.DOWN; LinkOperationalState.ABSENT; LinkOperationalState.UNREACHABLE].

Record hard_ok (r : Registry) (h : HardConstraint) (src tgt : Z) (es : list Edge) : Prop := {
  ok_supported : require_supported_links h = true → ∀ e, e ∈ es →
    ∃ l, link r (edge_link e) = Some l ∧ lk_state l ∈ supported_states;
  ok_fresh : require_fresh h = true → ∀ e l, e ∈ es → link r (edge_link e) = Some l →
    lk_state l ∉ stale_states;
  ok_direct : require_direct h = true → length es = 1%nat;
  ok_nominal : ∀ m, min_nominal_bandwidth_bps h = Some m →
    ∃ b, is_bottleneck b ((λ e, link r (edge_link e)) <$> es) ∧ m ≤ b;
  ok_measured : ∀ m, min_measured_bandwidth_bps h = Some m →
    ∃ x, newest_measurement (measurement_history (state_ r)) src tgt (Some x) ∧
      dltb (meas_bandwidth_bps x) m = false;
  ok_technology : ∀ t, required_technology h = Some t → ∀ e, e ∈ es →
    ∃ l, link r (edge_link e) = Some l ∧ lk_technology l = t;
  ok_hops : ∀ m, max_hops h = Some m → zlen es ≤ m;
  ok_degraded : exclude_degraded h = true → ∀ e l, e ∈ es → link r (edge_link e) = Some l →
    lk_degraded l = false ∧ lk_state l ≠ LinkOperationalState.DEGRADED;
  ok_down : exclude_down h = true → ∀ e, e ∈ es →
    ∃ l, link r (edge_link e) = Some l ∧ lk_state l ∉ down_states;
  ok_contended : exclude_contended h = true → ∀ x,
    newest_measurement (measurement_history (state_ r)) src tgt (Some x) →
    meas_contended x = false
}.

Lemma supported_state_in st : is_supported_state st = true ↔ st ∈ supported_states.
Proof. unfold supported_states. rewrite !elem_of_cons, elem_of_nil. destruct st; naive_solver. Qed.
Lemma reval_state_in st : state_is_reval st = false → st ∉ stale_states.
Proof. unfold stale_states. rewrite !elem_of_cons, elem_of_nil. destruct st; naive_solver. Qed.
Lemma down_state_in st : state_is_down st = false → st ∉ down_states.
Proof. unfold down_states. rewrite !elem_of_cons, elem_of_nil. destruct st; naive_solver. Qed.

Lemma existsb_edges_false topo (f : option LinkRecord → bool) es :
  existsb f ((λ e, find_link topo (edge_link e)) <$> es) = false ↔
  ∀ e, e ∈ es → f (find_link topo (edge_link e)) = false.
Proof.
  induction es as [|e es IH]; simpl.
  - split; [by intros _ e ?%elem_of_nil|done].
  - rewrite orb_false_iff, IH. setoid_rewrite elem_of_cons. naive_solver.
Qed.

Section HardOk.
Context (r : Registry) (w : World) (Hwf : wf r) (src tgt : Z) (es : list Edge).
Let view := (consistent_view r w).1.
Let topo := topology_of r w.
Let p := route_path topo src tgt es.
Let q := quality_of view p.

Lemma find_edge e : find_link topo (edge_link e) = link r (edge_link e).
Proof. by apply find_link_view. Qed.

Lemma check_supported_edges h :
  check_supported topo h p = None → require_supported_links h = true → ∀ e, e ∈ es →
  ∃ l, link r (edge_link e) = Some l ∧ lk_state l ∈ supported_states.
Proof.
  unfold check_supported. intros Hc Hh. rewrite Hh in Hc.
  intros e He. apply (proj1 (element_checks_None _ topo src tgt es (λ _, eq_refl)) Hc) in He.
  simpl in He. rewrite find_edge in He. destruct (link r (edge_link e)) as [l|]; [|done].
  exists l. split; [done|]. apply supported_state_in. by destruct (is_supported_state (lk_state l)).
Qed.

Lemma eligible_supported h :
  rejection_of view h p = None → require_supported_links h = true → ∀ e, e ∈ es →
  ∃ l, link r (edge_link e) = Some l ∧ lk_state l ∈ supported_states.
Proof.
  unfold rejection_of, check_candidate. rewrite first_rejection_None, !Forall_cons.
  intros (Hsup & _). by apply check_supported_edges.
Qed.

Lemma check_technology_edges h t :
  check_technology topo h p = None → required_technology h = Some t → ∀ e, e ∈ es →
  ∃ l, link r (edge_link e) = Some l ∧ lk_technology l = t.
Proof.
  unfold check_technology. intros Hc Hh. rewrite Hh in Hc.
  intros e He. apply (proj1 (element_checks_None _ topo src tgt es (λ _, eq_refl)) Hc) in He.
  simpl in He. rewrite find_edge in He. destruct (link r (edge_link e)) as [l|]; [|done].
  exists l. split; [done|]. apply reject_if_None, bool_decide_eq_false in He.
  by apply dec_stable.
Qed.

(** The measurement [compute_quality] uses for the route. *)
Lemma quality_newest :
  newest_measurement (measurement_history (state_ r)) src tgt
    (best_measurement p (measurement_history (state_ r))).
Proof. apply (best_measurement_newest p). Qed.

Lemma check_measured_history h m :
  check_measured h q = None → min_measured_bandwidth_bps h = Some m →
  ∃ x, newest_measurement (measurement_history (state_ r)) src tgt (Some x) ∧
    dltb (meas_bandwidth_bps x) m = false.
Proof.
  unfold check_measured. intros Hc Hh. rewrite Hh in Hc. subst q.
  unfold quality_of in Hc. rewrite quality_measured in Hc. pose proof quality_newest as Hn.
  change (view_measurements view) with (measurement_history (state_ r)) in Hc.
  destruct (best_measurement _ _) as [b|]; simpl in Hc; [|done].
  apply reject_if_None in Hc. by exists b.
Qed.

Lemma quality_links :
  path_links topo (path_elements p) = (λ e, find_link topo (edge_link e)) <$> es.
Proof. apply path_links_route. Qed.

Lemma quality_counter_zero n (f : option LinkRecord → bool) :
  zlen es < two32 → 0 ≤ n → (0 <? n) = false →
  wrap32 n = wrap32 (zcount f (path_links topo (path_elements p))) →
  ∀ e, e ∈ es → f (link r (edge_link e)) = false.
Proof.
  intros Hlen Hn Hz Hw e He. to_props. rewrite quality_links in Hw.
  apply wrap32_zcount_zero in Hw; [|by unfold zlen in *; rewrite length_fmap|lia].
  rewrite <-find_edge. by apply (proj1 (existsb_edges_false topo f es)).
Qed.

Lemma eligible_hard_ok h :
  zlen es < two32 → rejection_of view h p = None → hard_ok r h src tgt es.
Proof.
  unfold rejection_of, check_candidate. change (view_topology view) with topo.
  change (quality_of view p) with q. intros Hlen. rewrite first_rejection_None, !Forall_cons.
  intros (Hsup & Hfresh & Hdir & Hnom & Hmeas & Htech & Hhops & Hdeg & Hdown & Hcont & _).
  apply reject_if_None in Hdir, Hdeg, Hdown, Hcont.
  split.
  - by apply check_supported_edges.
  - unfold check_fresh. intros Hh e l He Hl. unfold check_fresh in Hfresh. rewrite Hh in Hfresh.
    case_bool_decide; [done|]. apply reject_if_None in Hfresh. subst q.
    unfold quality_of in Hfresh. rewrite quality_stale in Hfresh.
    change (view_topology view) with topo in Hfresh. rewrite quality_links in Hfresh.
    pose proof (proj1 (existsb_edges_false topo _ es) Hfresh e He) as Hf.
    rewrite find_edge, Hl in Hf. by apply reval_state_in.
  - intros Hh. rewrite Hh in Hdir. simpl in Hdir. apply negb_false_iff, Z.eqb_eq in Hdir.
    pose proof (route_path_hops topo src tgt es) as Hp. unfold route_path in Hp. simpl in Hp.
    unfold zlen in *. lia.
  - intros m Hh. unfold check_nominal in Hnom. rewrite Hh in Hnom.
    apply reject_if_None in Hnom. exists (q_nominal_bandwidth_bps q). split; [|to_props; lia].
    assert ((λ e, link r (edge_link e)) <$> es = path_links topo (path_elements p)) as ->.
    { rewrite quality_links. apply list_fmap_ext. intros _ e _. by rewrite find_edge. }
    apply quality_nominal.
  - intros m. by apply check_measured_history.
  - intros t. by apply check_technology_edges.
  - intros m Hh. unfold check_hops in Hhops. rewrite Hh in Hhops.
    apply reject_if_None in Hhops. subst p. rewrite route_path_hops in Hhops. to_props. lia.
  - intros Hh e l He Hl. rewrite Hh, andb_true_l in Hdeg.
    pose proof (quality_counter_zero _ (on_link link_is_degraded) Hlen
      (proj1 (quality_counters_nonneg _ _ _)) Hdeg (quality_degraded_links _ _ _) e He) as Hf.
    rewrite Hl in Hf. apply orb_false_iff in Hf as [? ?%bool_decide_eq_false]. done.
  - intros Hh e He. rewrite Hh, andb_true_l in Hdown.
    pose proof (quality_counter_zero _ (on_link_or_missing (λ l, state_is_down (lk_state l))) Hlen
      (proj2 (quality_counters_nonneg _ _ _)) Hdown (quality_down_links _ _ _) e He) as Hf.
    destruct (link r (edge_link e)) as [l|]; [|done]. exists l. split; [done|].
    by apply down_state_in.
  - intros Hh x Hx. rewrite Hh, andb_true_l in Hcont. subst q. unfold quality_of in Hcont.
    rewrite quality_contended in Hcont.
    pose proof (newest_measurement_unique _ _ _ _ _ quality_newest Hx) as E.
    change (view_measurements view) with (measurement_history (state_ r)) in Hcont.
    change (route_path _ src tgt es) with p in Hcont. by rewrite E in Hcont.
Qed.
End HardOk.

(** ** A simple walk is no longer than the number of devices *)

Lemma chain_devices r a es b e :
  wf r → chain (hop_of r) a es b → e ∈ es → is_Some (device r (edge_to e)).
Proof.
  intros [Hp _]. revert a. induction es as [|e' es IH]; intros a Hc; [by intros ?%elem_of_nil|].
  destruct Hc as [(l & Hl & Hj) Hc]. intros [->|He]%elem_of_cons; [|by eapply IH].
  destruct (pre_links _ _ Hp _ _ Hl) as (_&_&_&Hs&Ht).
  destruct Hj as [[_ <-]|(_&_&<-)]; done.
Qed.

Lemma simple_walk_length r a es b :
  wf r → simple_walk (hop_of r) a es b → zlen es ≤ device_count r.
Proof.
  intros Hwf (Hc & Hnd & _). apply NoDup_cons in Hnd as [_ Hnd].
  unfold zlen, device_count, msize.
  rewrite <-(length_fmap edge_to), <-(size_list_to_set (C := gset Z)) by done.
  rewrite <-size_dom. apply inj_le, subseteq_size. intros i Hi.
  apply elem_of_list_to_set, list_elem_of_fmap in Hi as (e & -> & He).
  apply elem_of_dom. by apply (chain_devices r a es b).
Qed.
