(* ===== verification/RouteProps.v ===== *)
(** * Paths, quality and routes: the properties *)

From S2P Require Import Prelude Enums Double Records World Registry RegistryFacts Fixtures.
From S2P Require Import RegistryProps Paths PathsFacts Quality Route RouteFacts Ranking.
From S2P Require Import Eligibility.

#[local] Arguments compute_quality : simpl never.
#[local] Arguments check_candidate : simpl never.

(** ** Path enumeration *)

Lemma enumerate_paths_ok src tgt r w :
  wf r → is_Some (device r src) → is_Some (device r tgt) →
  (enumerate_paths src tgt r w).1 =
  Ok (enumerate_paths_impl (topology_of r w) src tgt (limits_ r)).
Proof.
  intros Hwf Hs Ht. destruct Hs as [sd Hs], Ht as [td Ht].
  pose proof (device_nonnil _ _ _ Hwf Hs) as Hns. pose proof (device_nonnil _ _ _ Hwf Ht) as Hnt.
  unfold enumerate_paths, is_nil.
  rewrite (proj2 (Z.eqb_neq _ _) Hns), (proj2 (Z.eqb_neq _ _) Hnt). simpl. rewrite bind_eq.
  fold (topology_of r w). rewrite !find_device_view, Hs, Ht by done. done.
Qed.

Lemma enumerate_paths_inv src tgt r w ps :
  wf r → (enumerate_paths src tgt r w).1 = Ok ps →
  is_Some (device r src) ∧ is_Some (device r tgt) ∧
  ps = enumerate_paths_impl (topology_of r w) src tgt (limits_ r).
Proof.
  intros Hwf. unfold enumerate_paths. case_match; [done|]. rewrite bind_eq.
  fold (topology_of r w). rewrite !find_device_view by done.
  case_bool_decide; [done|]. case_bool_decide; [done|]. intros [= <-].
  by rewrite <-!not_eq_None_Some.
Qed.

(** C5.  [enumerate_paths] returns exactly the simple paths between two present
    devices, along the direction of directed links, of at most
    [max_path_depth] hops (one hop is always allowed), in lexicographic order
    of their link ids, cut to the first [max_candidate_paths]: nothing is
    missing below the cut, nothing is repeated. *)
Theorem enumerate_paths_exact src tgt r w :
  wf r → 0 ≤ max_candidate_paths (limits_ r) →
  is_Some (device r src) → is_Some (device r tgt) →
  ∃ rs : list (list Edge),
    (enumerate_paths src tgt r w).1 =
      Ok (take (Z.to_nat (max_candidate_paths (limits_ r)))
            (route_path (topology_of r w) src tgt <$> rs)) ∧
    (∀ es, es ∈ rs ↔ simple_walk (hop_of r) src es tgt ∧
                     zlen es ≤ Z.max 1 (max_path_depth (limits_ r))) ∧
    StronglySorted lex_before rs ∧ NoDup rs.
Proof.
  intros Hwf Hm Hs Ht. exists (all_routes (topology_of r w) src tgt (limits_ r)).
  pose proof (all_routes_sorted (topology_of r w) src tgt (limits_ r)
    (view_links_distinct r w Hwf)) as Hsort.
  split_and!; [|intros es; by apply elem_of_view_routes|done|by apply StronglySorted_lex_NoDup].
  by rewrite enumerate_paths_ok, enumerate_paths_impl_spec.
Qed.

Lemma enumerate_paths_exact_witness :
  (∃ rs : list (list Edge), (∀ es, es ∈ rs ↔ simple_walk (hop_of triangle_registry) 1 es 3 ∧
     zlen es ≤ Z.max 1 16) ∧ NoDup rs) ∧
  match (enumerate_paths 1 3 triangle_registry triangle_world).1 with
  | Ok ps => path_elements <$> ps
  | Err _ => []
  end = [[DEVICE 1; LINK 10; DEVICE 2; LINK 11; DEVICE 3]; [DEVICE 1; LINK 12; DEVICE 3]].
Proof.
  split; [|by vm_compute].
  destruct (enumerate_paths_exact 1 3 triangle_registry triangle_world) as (rs & _ & Hrs & _ & Hn).
  - apply triangle_wf.
  - by vm_compute.
  - by eexists; vm_compute.
  - by eexists; vm_compute.
  - by exists rs.
Defined.

(** The depth-first search terminates: from any device of any topology,
    with any visited set and any limits, the recursion is at most
    [max_path_depth] deep, and the fuel the model gives it is never used up. *)
Lemma dfs_terminates adj topo src tgt cur visited limits :
  0 ≤ max_candidate_paths limits →
  ∃ out, dfs adj topo src tgt limits (dfs_fuel limits) cur [DEVICE src] visited [] = Some out ∧
         zlen out ≤ max_candidate_paths limits.
Proof.
  intros Hm. eexists. split.
  - apply (dfs_routes _ _ _ _ _ _ _ _ _ 0); unfold dfs_fuel; [done..|lia|lia].
  - unfold zlen. rewrite length_take. lia.
Qed.

Lemma dfs_terminates_witness :
  ∃ out, dfs (build_adjacency (topology_of triangle_registry triangle_world))
    (topology_of triangle_registry triangle_world) 1 3 default_limits (dfs_fuel default_limits)
    1 [DEVICE 1] {[1]} [] = Some out ∧ zlen out ≤ 256.
Proof. apply (dfs_terminates _ _ 1 3 1 {[1]} default_limits). by vm_compute. Defined.

(** ** Path quality *)

(** An enumerated path is the path of a simple walk of the registry. *)
Lemma enumerated_route src tgt r w p :
  wf r → is_Some (device r src) → is_Some (device r tgt) →
  0 ≤ max_candidate_paths (limits_ r) →
  p ∈ enumerate_paths_impl (topology_of r w) src tgt (limits_ r) →
  ∃ es, p = route_path (topology_of r w) src tgt es ∧
    simple_walk (hop_of r) src es tgt ∧ zlen es ≤ Z.max 1 (max_path_depth (limits_ r)).
Proof.
  intros Hwf Hs Ht Hm. rewrite enumerate_paths_impl_spec by done.
  intros (i & Hin%list_elem_of_lookup_2 & _)%elem_of_take.
  apply list_elem_of_fmap in Hin as (es & -> & Hes).
  exists es. split; [done|]. by apply (elem_of_view_routes r w).
Qed.

Lemma compute_path_quality_ok p r w sd td :
  wf r → device r (path_source p) = Some sd → device r (path_target p) = Some td →
  (compute_path_quality p r w).1 = Ok (quality_of (consistent_view r w).1 p).
Proof.
  intros Hwf Hs Ht. unfold compute_path_quality. rewrite bind_eq.
  fold (topology_of r w). by rewrite !find_device_view, Hs, Ht by done.
Qed.

(** The links of a route, looked up in any view of the registry. *)
Lemma route_links r w w' src tgt es :
  wf r → path_links (topology_of r w') (path_elements (route_path (topology_of r w) src tgt es)) =
  (λ e, link r (edge_link e)) <$> es.
Proof.
  intros Hwf. change (path_elements (route_path (topology_of r w) src tgt es)) with
    (path_elements (route_path (topology_of r w') src tgt es)).
  rewrite path_links_route. apply list_fmap_ext. intros _ e _. by apply find_link_view.
Qed.

Lemma quality_of_route src tgt r w w' ps p :
  wf r → 0 ≤ max_candidate_paths (limits_ r) →
  (enumerate_paths src tgt r w).1 = Ok ps → p ∈ ps →
  ∃ es, p = route_path (topology_of r w) src tgt es ∧ simple_walk (hop_of r) src es tgt ∧
    (compute_path_quality p r w').1 = Ok (quality_of (consistent_view r w').1 p).
Proof.
  intros Hwf Hm (Hs & Ht & ->)%enumerate_paths_inv Hp; [|done].
  destruct (enumerated_route src tgt r w p) as (es & -> & Hw & _); [done..|].
  exists es. split_and!; [done..|]. destruct Hs as [sd Hs], Ht as [td Ht].
  by apply (compute_path_quality_ok _ _ _ sd td).
Qed.

Lemma state_is_reval_iff st :
  state_is_reval st = true ↔
  st = LinkOperationalState.STALE ∨ st = LinkOperationalState.REVALIDATION_REQUIRED.
Proof. destruct st; simpl; naive_solver. Qed.

Lemma existsb_lookups_false (f : option LinkRecord → bool) r es :
  existsb f ((λ e, link r (edge_link e)) <$> es) = false ↔
  ∀ e, e ∈ es → f (link r (edge_link e)) = false.
Proof.
  induction es as [|e es IH]; simpl.
  - split; [by intros _ e ?%elem_of_nil|done].
  - rewrite orb_false_iff, IH. setoid_rewrite elem_of_cons. naive_solver.
Qed.

Lemma existsb_lookups_true (f : LinkRecord → bool) r es :
  existsb (on_link f) ((λ e, link r (edge_link e)) <$> es) = true ↔
  ∃ e l, e ∈ es ∧ link r (edge_link e) = Some l ∧ f l = true.
Proof.
  rewrite existsb_exists. split.
  - intros (o & (e & -> & He)%list_elem_of_In%list_elem_of_fmap & Ho).
    destruct (link r (edge_link e)) as [l|] eqn:Hl; [|done]. by exists e, l.
  - intros (e & l & He & Hl & Hf). exists (Some l). split; [|done].
    apply list_elem_of_In, list_elem_of_fmap. by exists e.
Qed.

(** C25.  The quality of an enumerated path, computed on the same registry:
    the nominal bandwidth is the bottleneck (the smallest positive nominal
    bandwidth of its links, 0 if none has one); the measured bandwidth and
    latency, their timestamp and the contention flag are those of the newest
    valid, fresh measurement between its ends in the registry's history (the
    first of equally new ones), and absent exactly when there is none; and it is
    stale exactly when one of its links is STALE or REVALIDATION_REQUIRED. *)
Theorem path_quality_aggregates src tgt r w w' ps p :
  wf r → 0 ≤ max_candidate_paths (limits_ r) →
  (enumerate_paths src tgt r w).1 = Ok ps → p ∈ ps →
  ∃ q es o, (compute_path_quality p r w').1 = Ok q ∧
    path_elements p = DEVICE src :: edge_elements es ∧ q_hop_count q = zlen es ∧
    is_bottleneck (q_nominal_bandwidth_bps q) ((λ e, link r (edge_link e)) <$> es) ∧
    newest_measurement (measurement_history (state_ r)) src tgt o ∧
    q_measured_bandwidth_bps q = meas_bandwidth_bps <$> o ∧
    q_measured_latency_seconds q = meas_latency_seconds <$> o ∧
    q_measurement_timestamp q = from_option meas_measured_at default_timestamp o ∧
    q_contended q = from_option meas_contended false o ∧
    (q_stale q = true ↔ ∃ e l, e ∈ es ∧ link r (edge_link e) = Some l ∧
       (lk_state l = LinkOperationalState.STALE ∨
        lk_state l = LinkOperationalState.REVALIDATION_REQUIRED)).
Proof.
  intros Hwf Hm Hps Hp. destruct (quality_of_route src tgt r w w' ps p) as (es & -> & _ & Hq);
    [done..|].
  eexists _, es, (best_measurement _ _). split; [exact Hq|]. split; [done|].
  change (view_topology _) with (topology_of r w').
  split; [apply route_path_hops|]. split.
  { rewrite <-(route_links r w w' src tgt es Hwf). apply quality_nominal. }
  split; [apply (best_measurement_newest (route_path (topology_of r w) src tgt es))|].
  split; [done|]. split; [done|]. split; [unfold quality_of; simpl; by case_match|].
  split; [unfold quality_of; simpl; by case_match|].
  unfold quality_of. rewrite quality_stale. change (view_topology _) with (topology_of r w').
  rewrite route_links, existsb_lookups_true by done. by setoid_rewrite state_is_reval_iff.
Qed.

Definition no_path : Path := mkPath 0 0 0 false false [] 0 0.
Definition triangle_paths : list Path :=
  match (enumerate_paths 1 3 triangle_registry triangle_world).1 with Ok ps => ps | Err _ => [] end.
Definition triangle_path : Path := default no_path (head triangle_paths).

Lemma triangle_paths_ok :
  (enumerate_paths 1 3 triangle_registry triangle_world).1 = Ok triangle_paths.
Proof. by vm_compute. Qed.

Lemma triangle_path_in : triangle_path ∈ triangle_paths.
Proof. apply (list_elem_of_lookup_2 _ 0). by vm_compute. Qed.

(** On the measured triangle: the valid measurement of time 20 counts. *)
Definition measured_paths : list Path :=
  match (enumerate_paths 1 3 measured_registry measured_world).1 with Ok ps => ps | Err _ => [] end.
Definition measured_path : Path := default no_path (head measured_paths).

Lemma measured_wf : wf measured_registry.
Proof. apply exec_wf; [by vm_compute|]. by apply new_registry_wf. Qed.

Lemma path_quality_aggregates_witness :
  ∃ q es o, (compute_path_quality measured_path measured_registry measured_world).1 = Ok q ∧
    is_bottleneck (q_nominal_bandwidth_bps q)
      ((λ e, link measured_registry (edge_link e)) <$> es) ∧
    newest_measurement (measurement_history (state_ measured_registry)) 1 3 o ∧
    q_measured_bandwidth_bps q = meas_bandwidth_bps <$> o ∧
    meas_bandwidth_bps <$> best_measurement measured_path
      (measurement_history (state_ measured_registry)) = Some (d_of_Z 300).
Proof.
  destruct (path_quality_aggregates 1 3 measured_registry measured_world measured_world
    measured_paths measured_path) as (q & es & o & Hq & _ & _ & Hb & Ho & Hm & _).
  - apply measured_wf.
  - by vm_compute.
  - by vm_compute.
  - apply (list_elem_of_lookup_2 _ 0). by vm_compute.
  - exists q, es, o. split; [exact Hq|]. split; [exact Hb|]. split; [exact Ho|]. split; [exact Hm|].
    vm_compute. reflexivity.
Defined.

(** [compute_quality] starts its NVLink counter from the path's own and
    counts the links again: for an enumerated path the reported
    [nvlink_segments] is twice the path's (modulo 2^64). *)
Lemma nvlink_segments_counted_twice src tgt r w w' ps p q :
  wf r → 0 ≤ max_candidate_paths (limits_ r) →
  (enumerate_paths src tgt r w).1 = Ok ps → p ∈ ps →
  (compute_path_quality p r w').1 = Ok q →
  wrap64 (q_nvlink_segments q) = wrap64 (2 * path_nvlink_segments p).
Proof.
  intros Hwf Hm Hps Hp Hq. destruct (quality_of_route src tgt r w w' ps p) as (es & -> & _ & Hq');
    [done..|].
  rewrite Hq' in Hq. injection Hq as <-.
  unfold quality_of. rewrite quality_nvlink_segments. change (view_topology _) with (topology_of r w').
  rewrite route_path_nvlink, route_links by done. f_equal.
  assert ((λ e, find_link (topology_of r w) (edge_link e)) <$> es =
          (λ e, link r (edge_link e)) <$> es) as ->; [|lia].
  apply list_fmap_ext. intros _ e _. by apply find_link_view.
Qed.

Definition triangle_quality : PathQuality :=
  quality_of (consistent_view triangle_registry triangle_world).1 triangle_path.

Lemma nvlink_segments_counted_twice_witness :
  path_nvlink_segments triangle_path = 2 ∧
  wrap64 (q_nvlink_segments triangle_quality) = wrap64 (2 * path_nvlink_segments triangle_path).
Proof.
  split; [by vm_compute|].
  apply (nvlink_segments_counted_twice 1 3 triangle_registry triangle_world triangle_world
    triangle_paths triangle_path triangle_quality).
  - apply triangle_wf.
  - by vm_compute.
  - apply triangle_paths_ok.
  - apply triangle_path_in.
  - by vm_compute.
Defined.

(** The states a link of a HEALTHY path may be in. *)
Definition healthy_link (l : LinkRecord) : Prop :=
  state_is_down (lk_state l) = false ∧ lk_state l ≠ LinkOperationalState.UNSUPPORTED ∧
  state_is_reval (lk_state l) = false ∧ lk_state l ≠ LinkOperationalState.UNKNOWN ∧
  link_is_degraded l = false.

Definition link_has_capability (l : LinkRecord) : Prop :=
  0 < link_nominal l ∨ interconnect (lk_capability l) ≠ InterconnectTechnology.UNKNOWN.

(** The outcome HEALTHY, for an enumerated path: every link is present and
    none is down, unsupported, awaiting revalidation, unknown or degraded; at
    least one link has some capability information; the newest usable
    measurement is not contended.  Nothing else is asked: in particular an
    INCOMPATIBLE link does not make a path unhealthy. *)
Lemma healthy_iff src tgt r w w' ps p q :
  wf r → 0 ≤ max_candidate_paths (limits_ r) →
  (enumerate_paths src tgt r w).1 = Ok ps → p ∈ ps →
  (compute_path_quality p r w').1 = Ok q →
  ∃ es, path_elements p = DEVICE src :: edge_elements es ∧
    (q_outcome q = PathQualityOutcome.HEALTHY ↔
     (∀ e, e ∈ es → ∃ l, link r (edge_link e) = Some l ∧ healthy_link l) ∧
     (∃ e l, e ∈ es ∧ link r (edge_link e) = Some l ∧ link_has_capability l) ∧
     q_contended q = false).
Proof.
  intros Hwf Hm Hps Hp Hq. destruct (quality_of_route src tgt r w w' ps p) as (es & -> & Hw & Hq');
    [done..|].
  rewrite Hq' in Hq. injection Hq as <-. exists es. split; [done|].
  unfold quality_of. rewrite quality_outcome, quality_contended.
  change (view_topology _) with (topology_of r w').
  rewrite route_links by done. set (os := _ <$> es).
  assert ((path_hop_count (route_path (topology_of r w) src tgt es) =? 0) = false) as ->.
  { rewrite route_path_hops. destruct Hw as (_ & _ & Hne). apply Z.eqb_neq.
    destruct es; [done|]. rewrite zlen_cons. pose proof (zlen_nonneg es). lia. }
  rewrite orb_false_r. split.
  - intros H.
    destruct (existsb (on_link_or_missing _) os) eqn:H1; [done|].
    destruct (existsb (on_link (λ l, bool_decide (_ = LinkOperationalState.UNSUPPORTED))) os)
      eqn:H2; [done|].
    destruct (existsb (on_link (λ l, state_is_reval _)) os) eqn:H3; [done|].
    destruct (match best_measurement _ _ with Some _ => _ | None => _ end) eqn:H4; [done|].
    destruct (existsb (on_link link_is_degraded) os) eqn:H5; [done|].
    destruct (_ || _) eqn:H6; [done|]. apply orb_false_iff in H6 as [H6 H7%negb_false_iff].
    subst os. rewrite existsb_lookups_false in H1, H2, H3, H5, H6.
    split_and!; [|..|done].
    + intros e He. specialize (H1 e He). specialize (H2 e He). specialize (H3 e He).
      specialize (H5 e He). specialize (H6 e He).
      destruct (link r (edge_link e)) as [l|]; [|done]. exists l. simpl in *. to_props.
      split; [done|]. by split_and!.
    + apply existsb_lookups_true in H7 as (e & l & He & Hl & Hc). exists e, l.
      split_and!; [done..|]. unfold link_has_capability.
      apply orb_true_iff in Hc as [Hc|Hc]; to_props; auto.
  - intros (Hall & (e & l & He & Hl & Hc) & Hcont).
    assert (∀ f, (∀ l, healthy_link l → f (Some l) = false) → existsb f os = false) as Hf.
    { intros f Hf. apply existsb_lookups_false. intros e' He'.
      destruct (Hall e' He') as (l' & -> & Hl'). auto. }
    assert (existsb (on_link (λ l, (0 <? link_nominal l) ||
      bool_decide (interconnect (lk_capability l) ≠ InterconnectTechnology.UNKNOWN))) os = true) as ->.
    { apply existsb_lookups_true. exists e, l. split_and!; [done..|]. apply orb_true_iff.
      destruct Hc as [Hc|Hc]; [left; by apply Z.ltb_lt|right; by apply bool_decide_eq_true_2]. }
    rewrite Hcont.
    rewrite !Hf; [done|..]; intros l' (Hd & Hu & Hr & Hk & Hg); simpl; try done;
      by apply bool_decide_eq_false_2.
Qed.

Lemma healthy_iff_witness :
  ∃ es, path_elements triangle_path = DEVICE 1 :: edge_elements es ∧
    ∀ e, e ∈ es → ∃ l, link triangle_registry (edge_link e) = Some l ∧ healthy_link l.
Proof.
  destruct (healthy_iff 1 3 triangle_registry triangle_world triangle_world
    triangle_paths triangle_path triangle_quality) as (es & Hes & Hiff).
  - apply triangle_wf.
  - by vm_compute.
  - apply triangle_paths_ok.
  - apply triangle_path_in.
  - by vm_compute.
  - exists es. split; [exact Hes|]. apply Hiff. by vm_compute.
Defined.
