(* ===== verification/Governance.v ===== *)
(** * Route governance: the properties *)

From S2P Require Import Prelude Enums Double Records World Registry RegistryFacts Fixtures.
From S2P Require Import RegistryProps Paths PathsFacts Quality Route RouteFacts Ranking.
From S2P Require Import Eligibility RouteProps.

#[local] Arguments compute_quality : simpl never.
#[local] Arguments check_candidate : simpl never.

(** ** Taking a decision apart *)

(** [decide_route] is [decide_on_view] on the view of [r]. *)
Lemma decide_route_view src tgt pol r r' w :
  ∃ w1 did gen now,
    (decide_route src tgt pol r r' w).1 =
    Ok (decide_on_view (consistent_view r w1).1 (limits_ r) (observations (state_ r'))
          did gen now src tgt pol).
Proof. repeat eexists. Qed.

(** The eligible candidates, scored, and the best of them. *)
Definition eligible_evals (view : ConsistentView) (h : HardConstraint) (paths : list Path)
    : list Eval :=
  (λ p, mkEval p (quality_of view p) d0) <$> filter (λ p, rejection_of view h p = None) paths.

Definition scored (view : ConsistentView) (pol : RoutePolicy) (paths : list Path) (p : Path) : Eval :=
  score_eval pol (factor_context (eligible_evals view (pol_hard pol) paths))
    (mkEval p (quality_of view p) d0).

(** What a decision on present ends says, in terms of the candidates. *)
Lemma decide_on_view_cases view limits obs did gen now src tgt pol sd td :
  let topo := view_topology view in
  let paths := enumerate_paths_impl topo src tgt limits in
  let d := decide_on_view view limits obs did gen now src tgt pol in
  find_device topo src = Some sd → find_device topo tgt = Some td →
  rd_source d = src ∧ rd_target d = tgt ∧
  rd_topology_generation d = snap_generation topo ∧
  rd_source_generation d = dev_generation sd ∧ rd_target_generation d = dev_generation td ∧
  rd_candidates_considered d = path_id_ <$> paths ∧
  rd_rejected d = omap (λ p, rejected_of p <$> rejection_of view (pol_hard pol) p) paths ∧
  match rank pol (eligible_evals view (pol_hard pol) paths) with
  | [] => rd_selected d = None ∧ rd_executable d = false ∧ rd_evidence_references d = [] ∧
      (rd_outcome d = RouteDecisionOutcome.REVALIDATION_REQUIRED →
       sv_any_freshness (sieve view (pol_hard pol) paths) = true)
  | best :: _ =>
      rd_selected d = Some (path_id_ (ev_path best)) ∧
      rd_outcome d = outcome_of_quality (q_outcome (ev_quality best)) ∧
      rd_executable d = outcome_executable (rd_outcome d) ∧
      rd_evidence_references d = collect_evidence obs (ev_path best)
  end.
Proof.
  intros topo paths d Hs Ht. subst d. unfold decide_on_view. fold topo. rewrite Hs, Ht.
  fold paths. destruct paths as [|p0 ps] eqn:Hps.
  { simpl. split_and!; done. }
  rewrite <-Hps. rewrite sieve_evals, sieve_rejected.
  fold (eligible_evals view (pol_hard pol) paths).
  destruct (rank pol (eligible_evals view (pol_hard pol) paths)) as [|best rest]; simpl.
  - split_and!; try done. destruct (sv_any_unsupported _); [done|].
    by destruct (sv_any_freshness _).
  - by split_and!.
Qed.

Lemma decide_on_view_absent view limits obs did gen now src tgt pol :
  let topo := view_topology view in
  let d := decide_on_view view limits obs did gen now src tgt pol in
  find_device topo src = None ∨ find_device topo tgt = None →
  rd_outcome d = RouteDecisionOutcome.NO_ROUTE ∧ rd_selected d = None ∧
  rd_executable d = false ∧ rd_candidates_considered d = [] ∧ rd_rejected d = [].
Proof.
  intros topo d H. subst d. unfold decide_on_view. fold topo.
  destruct (find_device topo src); [|by split_and!].
  destruct (find_device topo tgt); [|by split_and!]. by destruct H.
Qed.

Lemma elem_of_rank pol view paths e :
  e ∈ rank pol (eligible_evals view (pol_hard pol) paths) ↔
  ∃ p, e = scored view pol paths p ∧ p ∈ paths ∧ rejection_of view (pol_hard pol) p = None.
Proof.
  rewrite rank_perm, list_elem_of_fmap. unfold eligible_evals at 2, scored. split.
  - intros (e' & -> & (p & -> & [? ?]%list_elem_of_filter)%list_elem_of_fmap). by exists p.
  - intros (p & -> & Hp & Hr). eexists. split; [done|].
    apply list_elem_of_fmap. exists p. split; [done|]. by apply list_elem_of_filter.
Qed.

(** A selection is the path of a simple walk that no check rejects. *)
Lemma selected_candidate src tgt pol r r' w d i :
  wf r → 0 ≤ max_candidate_paths (limits_ r) →
  (decide_route src tgt pol r r' w).1 = Ok d → rd_selected d = Some i →
  ∃ w1 sd td es, let view := (consistent_view r w1).1 in
    let p := route_path (topology_of r w1) src tgt es in
    device r src = Some sd ∧ device r tgt = Some td ∧
    simple_walk (hop_of r) src es tgt ∧ zlen es ≤ Z.max 1 (max_path_depth (limits_ r)) ∧
    rejection_of view (pol_hard pol) p = None ∧
    i = path_id_ p ∧ rd_outcome d = outcome_of_quality (q_outcome (quality_of view p)) ∧
    rd_executable d = outcome_executable (rd_outcome d) ∧
    rd_source d = src ∧ rd_target d = tgt ∧
    rd_topology_generation d = topology_generation r ∧
    rd_source_generation d = dev_generation sd ∧ rd_target_generation d = dev_generation td ∧
    rd_evidence_references d = collect_evidence (observations (state_ r')) p ∧
    ∃ rest, rank pol (eligible_evals view (pol_hard pol)
      (enumerate_paths_impl (topology_of r w1) src tgt (limits_ r))) =
      scored view pol (enumerate_paths_impl (topology_of r w1) src tgt (limits_ r)) p :: rest.
Proof.
  intros Hwf Hm Hd Hsel.
  destruct (decide_route_view src tgt pol r r' w) as (w1 & did & gen & now & Heq).
  rewrite Heq in Hd. apply Ok_inj in Hd. subst d. clear Heq.
  set (view := (consistent_view r w1).1) in *. set (obs := observations (state_ r')) in *.
  change (view_topology view) with (topology_of r w1).
  pose proof (find_device_view r w1 src Hwf) as Hs. pose proof (find_device_view r w1 tgt Hwf) as Ht.
  destruct (device r src) as [sd|] eqn:Hsd.
  2: { destruct (decide_on_view_absent view (limits_ r) obs did gen now src tgt pol)
         as (_ & Hn & _); [by left|]. by rewrite Hsel in Hn. }
  destruct (device r tgt) as [td|] eqn:Htd.
  2: { destruct (decide_on_view_absent view (limits_ r) obs did gen now src tgt pol)
         as (_ & Hn & _); [by right|]. by rewrite Hsel in Hn. }
  destruct (decide_on_view_cases view (limits_ r) obs did gen now src tgt pol sd td)
    as (H1 & H2 & H3 & H4 & H5 & _ & _ & Hcase); [done..|].
  change (view_topology view) with (topology_of r w1) in *.
  set (paths := enumerate_paths_impl (topology_of r w1) src tgt (limits_ r)) in *.
  destruct (rank pol (eligible_evals view (pol_hard pol) paths)) as [|best rest] eqn:Hrank.
  { destruct Hcase as [Hn _]. by rewrite Hsel in Hn. }
  destruct Hcase as (Hb & Ho & He & Hrefs).
  assert (best ∈ rank pol (eligible_evals view (pol_hard pol) paths)) as Hin
    by (rewrite Hrank; left).
  apply elem_of_rank in Hin as (p & -> & Hp & Hrej).
  destruct (enumerated_route src tgt r w1 p) as (es & -> & Hw & Hl);
    [done|by rewrite Hsd|by rewrite Htd|done|done|].
  exists w1, sd, td, es. rewrite Hb in Hsel. injection Hsel as <-.
  split_and!; try done. by exists rest.
Qed.

(** ** Soundness of an executable decision *)

(** The states of a link a route may use when nothing else is demanded. *)
Definition routable_link (l : LinkRecord) : Prop :=
  lk_state l ∉ down_states ∧ lk_state l ≠ LinkOperationalState.UNSUPPORTED ∧
  lk_state l ∉ stale_states.

(** An executable outcome rules out the three bad outcomes of the quality. *)
Lemma executable_quality r w src tgt es :
  wf r →
  outcome_executable (outcome_of_quality (q_outcome (quality_of (consistent_view r w).1
    (route_path (topology_of r w) src tgt es)))) = true →
  ∀ e, e ∈ es → ∃ l, link r (edge_link e) = Some l ∧ routable_link l.
Proof.
  intros Hwf. unfold quality_of. rewrite quality_outcome.
  change (view_topology _) with (topology_of r w). rewrite route_links by done.
  destruct (existsb (on_link_or_missing _) _) eqn:H1; [done|]. rewrite orb_false_l.
  destruct (_ =? 0); [done|].
  destruct (existsb (on_link (λ l, bool_decide (_ = LinkOperationalState.UNSUPPORTED))) _)
    eqn:H2; [done|].
  destruct (existsb (on_link (λ l, state_is_reval _)) _) eqn:H3; [done|].
  rewrite existsb_lookups_false in H1, H2, H3. intros _ e He.
  specialize (H1 e He). specialize (H2 e He). specialize (H3 e He).
  destruct (link r (edge_link e)) as [l|]; [|done]. exists l. simpl in *. to_props.
  split; [done|]. split_and!; [by apply down_state_in|done|by apply reval_state_in].
Qed.

Lemma executable_selected src tgt pol r r' w d :
  (decide_route src tgt pol r r' w).1 = Ok d → rd_executable d = true → is_Some (rd_selected d).
Proof.
  intros Hd Hx. destruct (decide_route_view src tgt pol r r' w) as (w1 & did & gen & now & Heq).
  rewrite Heq in Hd. apply Ok_inj in Hd. subst d. clear Heq.
  set (view := (consistent_view r w1).1) in *.
  destruct (find_device (view_topology view) src) as [sd|] eqn:Hs.
  2: { by rewrite (proj1 (proj2 (proj2 (decide_on_view_absent view _ _ _ _ _ _ _ pol
    (or_introl Hs))))) in Hx. }
  destruct (find_device (view_topology view) tgt) as [td|] eqn:Ht.
  2: { by rewrite (proj1 (proj2 (proj2 (decide_on_view_absent view _ _ _ _ _ _ _ pol
    (or_intror Ht))))) in Hx. }
  destruct (decide_on_view_cases view (limits_ r) (observations (state_ r')) did gen now
    src tgt pol sd td) as (_&_&_&_&_&_&_&Hcase); [done..|].
  destruct (rank _ _).
  - destruct Hcase as (_ & H2 & _). by rewrite H2 in Hx.
  - destruct Hcase as (-> & _). by eexists.
Qed.

(** The route behind an executable decision, and that no check rejects it. *)
Lemma executable_walk src tgt pol r r' w d :
  wf r → 0 ≤ max_candidate_paths (limits_ r) →
  (decide_route src tgt pol r r' w).1 = Ok d → rd_executable d = true →
  ∃ w1 es, simple_walk (hop_of r) src es tgt ∧
    zlen es ≤ Z.max 1 (max_path_depth (limits_ r)) ∧
    rejection_of (consistent_view r w1).1 (pol_hard pol)
      (route_path (topology_of r w1) src tgt es) = None ∧
    rd_selected d = Some (path_id src tgt (DEVICE src :: edge_elements es)) ∧
    (∀ e, e ∈ es → ∃ l, link r (edge_link e) = Some l ∧ routable_link l) ∧
    rd_topology_generation d = topology_generation r ∧
    dev_generation <$> device r src = Some (rd_source_generation d) ∧
    dev_generation <$> device r tgt = Some (rd_target_generation d).
Proof.
  intros Hwf Hm Hd Hx. destruct (executable_selected _ _ _ _ _ _ _ Hd Hx) as [i Hsel].
  destruct (selected_candidate src tgt pol r r' w d i) as (w1 & sd & td & es & Hs & Ht & Hw & Hl &
    Hrej & -> & Ho & He & _ & _ & Hg & Hgs & Hgt & _); [done..|].
  exists w1, es. rewrite He, Ho in Hx. rewrite Hs, Ht, Hgs, Hgt.
  split_and!; try done. by apply (executable_quality r w1 src tgt).
Qed.

(** C1.  An executable decision is backed by a route of the very state it was
    made on: its selected path is a simple path from source to target, every
    link of it is present, not down, not unsupported and not awaiting
    revalidation, and every hard constraint the policy sets holds of it
    (supported and fresh links, directness, the bottleneck bandwidth, the
    bandwidth and the contention flag of the newest valid measurement between
    the ends, technology, hops, degradation); the decision records the
    generations of that state.  (The device limit is below 2^32 and the candidate
    limit not negative.  The flag [require_current_topology] constrains nothing:
    no code reads it.) *)
Theorem executable_route_sound src tgt pol r r' w d :
  wf r → max_devices (limits_ r) < two32 → 0 ≤ max_candidate_paths (limits_ r) →
  (decide_route src tgt pol r r' w).1 = Ok d → rd_executable d = true →
  ∃ es, simple_walk (hop_of r) src es tgt ∧
    zlen es ≤ Z.max 1 (max_path_depth (limits_ r)) ∧
    rd_selected d = Some (path_id src tgt (DEVICE src :: edge_elements es)) ∧
    (∀ e, e ∈ es → ∃ l, link r (edge_link e) = Some l ∧ routable_link l) ∧
    hard_ok r (pol_hard pol) src tgt es ∧
    rd_topology_generation d = topology_generation r ∧
    dev_generation <$> device r src = Some (rd_source_generation d) ∧
    dev_generation <$> device r tgt = Some (rd_target_generation d).
Proof.
  intros Hwf Hdev Hm Hd Hx.
  destruct (executable_walk src tgt pol r r' w d) as (w1 & es & Hw & Hl & Hrej & Hs & Hlinks & Hg);
    [done..|].
  exists es. split_and!; try done; try apply Hg.
  apply (eligible_hard_ok r w1); [done| |done].
  apply Z.le_lt_trans with (max_devices (limits_ r)); [|done].
  etrans; [by apply (simple_walk_length r src es tgt)|].
  destruct Hwf as [[] _]. done.
Qed.

Definition triangle_decision : RouteDecision :=
  match (decide_route 1 3 default_policy triangle_registry triangle_registry triangle_world).1 with
  | Ok d => d
  | Err _ => mkDecision 0 0 0 0 0 0 0 0 [] [] None RouteDecisionOutcome.NO_ROUTE [] ""
               default_timestamp false
  end.

Lemma triangle_decision_ok :
  (decide_route 1 3 default_policy triangle_registry triangle_registry triangle_world).1 =
  Ok triangle_decision.
Proof. by vm_compute. Qed.

(** A policy with every constraint but directness set, on a triangle whose
    newest measurement from 1 to 3 is over an uncontended path. *)
Definition strict_policy : RoutePolicy :=
  mkPolicy 1 "strict" (mkHard true true true (Some 1) (Some (d_of_Z 200))
    (Some InterconnectTechnology.NVLINK) (Some 3) false true true true) (pol_ranking default_policy).
Definition quiet : list Op :=
  triangle ++ [PublishMeasurement (measured_at 10 500 true true);
               PublishMeasurement (measured_at 20 300 false true)].
Definition quiet_registry : Registry :=
  (@exec reference_platform quiet (new_registry default_limits) world0).1.
Definition quiet_decision : RouteDecision :=
  match (decide_route 1 3 strict_policy quiet_registry quiet_registry world0).1 with
  | Ok d => d | Err _ => triangle_decision
  end.

Lemma executable_route_sound_witness :
  ∃ es, simple_walk (hop_of quiet_registry) 1 es 3 ∧
    hard_ok quiet_registry (pol_hard strict_policy) 1 3 es ∧
    rd_selected quiet_decision = Some (path_id 1 3 (DEVICE 1 :: edge_elements es)).
Proof.
  destruct (executable_route_sound 1 3 strict_policy quiet_registry quiet_registry
    world0 quiet_decision) as (es & Hw & _ & Hs & _ & Hok & _).
  - apply exec_wf; [by vm_compute|]. by apply new_registry_wf.
  - by vm_compute.
  - by vm_compute.
  - by vm_compute.
  - by vm_compute.
  - exists es. split_and!; assumption.
Defined.

(** ** Optimality *)

(** The nominal bandwidths of the links are 64-bit. *)
Definition links_u64 (r : Registry) : Prop :=
  map_Forall (λ _ l, u64 (link_nominal l)) (links (state_ r)).

(** Measured values a worker can sensibly report: finite non-negative
    bandwidth, non-negative latency, no NaN. *)
Definition sane_history (ms : list MeasurementRecord) : Prop :=
  Forall (λ m, d_nonneg_finite (meas_bandwidth_bps m) = true ∧
               d_nonneg (meas_latency_seconds m) = true) ms.

Lemma sane_route_quality r w src tgt es :
  wf r → links_u64 r → sane_history (measurement_history (state_ r)) →
  sane_quality (quality_of (consistent_view r w).1 (route_path (topology_of r w) src tgt es)).
Proof.
  intros Hwf Hu Hs. unfold sane_history in Hs. rewrite Forall_forall in Hs.
  set (p := route_path _ src tgt es). split_and!.
  - pose proof (quality_nominal (topology_of r w) (measurement_history (state_ r)) p) as [_ Hn].
    unfold quality_of. change (view_topology _) with (topology_of r w).
    change (view_measurements _) with (measurement_history (state_ r)).
    destruct Hn as [->|(l & Hl & <- & _)]; [done|].
    subst p. rewrite route_links in Hl by done.
    apply list_elem_of_fmap in Hl as (e & He & _). by apply (Hu (edge_link e)).
  - intros b Hb. unfold quality_of in Hb. rewrite quality_measured in Hb.
    destruct (best_measurement p _) as [m|] eqn:Hm; [|done].
    apply best_measurement_spec in Hm as (_ & Hin & _). simplify_eq/=. by apply Hs.
  - intros b Hb. unfold quality_of in Hb.
    change (meas_latency_seconds <$> best_measurement p (measurement_history (state_ r)) = Some b) in Hb.
    destruct (best_measurement p _) as [m|] eqn:Hm; [|done].
    apply best_measurement_spec in Hm as (_ & Hin & _). simplify_eq/=. by apply Hs.
Qed.

(** C2.  The selected path is a best one: under a policy with positive finite
    weights and measurements that are finite and non-negative, no eligible
    candidate goes before it in the order of the scores and tie-breaks (score,
    directness, hops, nominal bandwidth, measured bandwidth, latency, id), in
    particular none has a greater score. *)
Theorem selected_route_optimal src tgt pol r r' w d i :
  wf r → 0 ≤ max_candidate_paths (limits_ r) → links_u64 r →
  sane_history (measurement_history (state_ r)) → scorable pol →
  (decide_route src tgt pol r r' w).1 = Ok d → rd_selected d = Some i →
  ∃ w1 best, let view := (consistent_view r w1).1 in
    let paths := enumerate_paths_impl (view_topology view) src tgt (limits_ r) in
    best ∈ paths ∧ i = path_id_ best ∧ rejection_of view (pol_hard pol) best = None ∧
    ∀ p, p ∈ paths → rejection_of view (pol_hard pol) p = None →
      eval_before (scored view pol paths p) (scored view pol paths best) = false ∧
      dgtb (ev_score (scored view pol paths p)) (ev_score (scored view pol paths best)) = false.
Proof.
  intros Hwf Hm Hu Hs Hpol Hd Hsel.
  destruct (selected_candidate src tgt pol r r' w d i) as (w1 & sd & td & es & Hsd & Htd & _ & _ &
    Hrej & -> & _ & _ & _ & _ & _ & _ & _ & _ & rest & Hrank); [done..|].
  set (view := (consistent_view r w1).1) in *.
  set (paths := enumerate_paths_impl (topology_of r w1) src tgt (limits_ r)) in *.
  set (best := route_path (topology_of r w1) src tgt es) in *.
  exists w1, best. change (view_topology view) with (topology_of r w1). fold paths.
  assert (Forall (λ e, sane_quality (ev_quality e)) (eligible_evals view (pol_hard pol) paths)) as Hsane.
  { apply Forall_fmap, Forall_forall. intros p [_ Hp]%list_elem_of_filter. simpl.
    destruct (enumerated_route src tgt r w1 p) as (es' & -> & _); [done|by rewrite Hsd|
      by rewrite Htd|done|done|]. by apply sane_route_quality. }
  pose proof (rank_sorted pol _ Hpol Hsane) as Hsort. rewrite Hrank in Hsort.
  apply StronglySorted_inv in Hsort as [_ Hfirst]. rewrite Forall_forall in Hfirst.
  assert (∀ p, p ∈ paths → rejection_of view (pol_hard pol) p = None →
    rankable (scored view pol paths p)) as Hrk.
  { intros p Hp Hr. pose proof (scored_rankable pol _ Hpol Hsane) as Hall.
    rewrite Forall_forall in Hall. apply Hall. rewrite <-rank_perm.
    apply elem_of_rank. by exists p. }
  assert (scored view pol paths best ∈ rank pol (eligible_evals view (pol_hard pol) paths)) as Hin
    by (rewrite Hrank; left).
  apply elem_of_rank in Hin as (p' & Heq%(f_equal ev_path) & Hbest & _). simpl in Heq.
  rewrite <-Heq in Hbest. clear p' Heq.
  split_and!; [done..|]. intros p Hp Hr.
  assert (eval_before (scored view pol paths p) (scored view pol paths best) = false) as Hnb.
  { assert (scored view pol paths p ∈ rank pol (eligible_evals view (pol_hard pol) paths)) as Hin
      by (apply elem_of_rank; by exists p).
    rewrite Hrank in Hin. apply elem_of_cons in Hin as [->|Hin]; [|by apply Hfirst].
    by apply eval_before_irrefl, Hrk. }
  split; [done|]. by apply eval_before_score; [apply Hrk..|].
Qed.

Lemma default_policy_scorable : scorable default_policy.
Proof. by repeat constructor. Qed.

#[local] Instance u64_dec v : Decision (u64 v).
Proof. unfold u64. apply _. Defined.

Lemma triangle_links_u64 : links_u64 triangle_registry.
Proof. unfold links_u64. apply (bool_decide_unpack _). vm_compute. exact I. Qed.

Lemma triangle_sane : sane_history (measurement_history (state_ triangle_registry)).
Proof.
  assert (measurement_history (state_ triangle_registry) = []) as -> by (vm_compute; reflexivity).
  constructor.
Qed.

Definition triangle_selected : Z := default 0 (rd_selected triangle_decision).

Lemma triangle_selected_ok : rd_selected triangle_decision = Some triangle_selected.
Proof. vm_compute. reflexivity. Qed.

Lemma selected_route_optimal_witness :
  ∃ w1 best, let view := (consistent_view triangle_registry w1).1 in
    let paths := enumerate_paths_impl (view_topology view) 1 3 (limits_ triangle_registry) in
    triangle_selected = path_id_ best ∧
    ∀ p, p ∈ paths → rejection_of view (pol_hard default_policy) p = None →
      dgtb (ev_score (scored view default_policy paths p))
           (ev_score (scored view default_policy paths best)) = false.
Proof.
  destruct (selected_route_optimal 1 3 default_policy triangle_registry triangle_registry
    triangle_world triangle_decision triangle_selected) as (w1 & best & _ & Hi & _ & Hall).
  - apply triangle_wf.
  - by vm_compute.
  - apply triangle_links_u64.
  - apply triangle_sane.
  - apply default_policy_scorable.
  - apply triangle_decision_ok.
  - apply triangle_selected_ok.
  - exists w1, best. split; [exact Hi|]. intros p Hp Hr. exact (proj2 (Hall p Hp Hr)).
Defined.

(** ** Every candidate is accounted for *)

Lemma check_candidate_reason topo h p q reason detail :
  check_candidate topo h p q = Some (reason, detail) → reason ≠ RouteRejectionReason.NONE.
Proof.
  assert (∀ (f : PathElement → option Rejection) (els : list PathElement), (∀ el c s, f el = Some (c, s) → c ≠ RouteRejectionReason.NONE) →
    ∀ c s, first_rejection (f <$> els : list (option Rejection)) = Some (c, s) →
    c ≠ RouteRejectionReason.NONE) as Hfirst.
  { intros f els Hf. induction els as [|el els IH]; intros c s; simpl; [done|].
    destruct (f el) as [[c' s']|] eqn:E; [|apply IH]. intros [= <- <-]. by eapply Hf. }
  assert (∀ b c s c' s', c ≠ RouteRejectionReason.NONE → reject_if b c s = Some (c', s') →
    c' ≠ RouteRejectionReason.NONE) as Hif.
  { intros [] c s c' s' Hc H; simpl in H; congruence. }
  intros H. unfold check_candidate in H.
  assert (∀ (o : option Rejection) rest,
    (∀ c s, o = Some (c, s) → c ≠ RouteRejectionReason.NONE) →
    (first_rejection rest = Some (reason, detail) → reason ≠ RouteRejectionReason.NONE) →
    first_rejection (o :: rest) = Some (reason, detail) → reason ≠ RouteRejectionReason.NONE) as Hcons.
  { intros [[c s]|] rest Ho Hr Hx; simpl in Hx; [simplify_eq; by eapply Ho|auto]. }
  revert H. repeat (apply Hcons); [| | | | | | | | | |done]; intros c s.
  - unfold check_supported. case_match; [|done]. apply Hfirst. intros [d|i] c' s'; simpl; [done|].
    repeat case_match; try done; intros; simplify_eq; try done. unfold unsupported_reason.
    by case_match.
  - unfold check_fresh. repeat case_match; try done; [by intros [= <- <-]|by apply Hif].
  - by apply Hif.
  - unfold check_nominal. case_match; [by apply Hif|done].
  - unfold check_measured. repeat case_match; try done; [by apply Hif|by intros [= <- <-]].
  - unfold check_technology. case_match; [|done]. apply Hfirst. intros [d|j] c' s'; simpl; [done|].
    case_match; [by apply Hif|by intros [= <- <-]].
  - unfold check_hops. case_match; [by apply Hif|done].
  - by apply Hif.
  - by apply Hif.
  - by apply Hif.
Qed.

(** C33.  Nothing is dropped silently: with both ends present, every enumerated
    path is listed as considered; exactly the paths a hard constraint rejects
    are listed as rejected, in order, each with a reason other than NONE; and
    no path is selected only when all are rejected. *)
Theorem every_candidate_judged src tgt pol r r' w d :
  wf r → is_Some (device r src) → is_Some (device r tgt) →
  (decide_route src tgt pol r r' w).1 = Ok d →
  ∃ w1, let view := (consistent_view r w1).1 in
    let paths := enumerate_paths_impl (view_topology view) src tgt (limits_ r) in
    rd_candidates_considered d = path_id_ <$> paths ∧
    rc_path <$> rd_rejected d =
      path_id_ <$> filter (λ p, rejection_of view (pol_hard pol) p ≠ None) paths ∧
    Forall (λ rc, rc_reason rc ≠ RouteRejectionReason.NONE) (rd_rejected d) ∧
    (rd_selected d = None ↔ ∀ p, p ∈ paths → rejection_of view (pol_hard pol) p ≠ None).
Proof.
  intros Hwf [sd Hs] [td Ht] Hd.
  destruct (decide_route_view src tgt pol r r' w) as (w1 & did & gen & now & Heq).
  rewrite Heq in Hd. apply Ok_inj in Hd. subst d. clear Heq. exists w1. cbv zeta.
  rewrite <-(find_device_view r w1) in Hs, Ht by done.
  set (view := (consistent_view r w1).1) in *. change (view_topology view) with (topology_of r w1).
  destruct (decide_on_view_cases view (limits_ r) (observations (state_ r')) did gen now
    src tgt pol sd td Hs Ht) as (_&_&_&_&_& -> & -> &Hcase).
  change (view_topology view) with (topology_of r w1) in *.
  set (paths := enumerate_paths_impl (topology_of r w1) src tgt (limits_ r)) in *.
  split_and!; [done| | |].
  - clear Hcase. generalize paths as ps. clear paths.
    induction ps as [|p ps IH]; [reflexivity|]. simpl. rewrite filter_cons.
    destruct (decide (rejection_of view (pol_hard pol) p ≠ None)) as [Hrj|Hrj];
      destruct (rejection_of view (pol_hard pol) p) as [rj|]; simpl; try done.
    + f_equal. exact IH.
    + by destruct Hrj.
  - apply Forall_forall. intros rc (p & _ & Hrc)%list_elem_of_omap.
    destruct (rejection_of view (pol_hard pol) p) as [[c s]|] eqn:E; [|done].
    simplify_eq/=. by eapply check_candidate_reason.
  - destruct (rank pol (eligible_evals view (pol_hard pol) paths)) as [|best rest] eqn:Hr.
    + destruct Hcase as [-> _]. split; [|done]. intros _ p Hp Hn.
      assert (scored view pol paths p ∈ rank pol (eligible_evals view (pol_hard pol) paths)) as Hin
        by (apply elem_of_rank; by exists p).
      rewrite Hr in Hin. by apply elem_of_nil in Hin.
    + destruct Hcase as [-> _]. split; [done|]. intros Hall.
      assert (best ∈ rank pol (eligible_evals view (pol_hard pol) paths)) as Hin
        by (rewrite Hr; left).
      apply elem_of_rank in Hin as (p & _ & Hp & Hn). by apply Hall in Hp.
Qed.

Lemma every_candidate_judged_witness :
  ∃ w1, rd_candidates_considered triangle_decision =
    path_id_ <$> enumerate_paths_impl (view_topology (consistent_view triangle_registry w1).1)
      1 3 (limits_ triangle_registry).
Proof.
  destruct (every_candidate_judged 1 3 default_policy triangle_registry triangle_registry
    triangle_world triangle_decision) as (w1 & Hc & _).
  - apply triangle_wf.
  - by eexists; vm_compute.
  - by eexists; vm_compute.
  - apply triangle_decision_ok.
  - by exists w1.
Defined.

(** ** Currency of decisions *)

Lemma is_route_executable_eq d r w :
  wf r →
  (is_route_executable d r w).1 = true ↔
  rd_executable d = true ∧ topology_generation r = rd_topology_generation d ∧
  dev_generation <$> device r (rd_source d) = Some (rd_source_generation d) ∧
  dev_generation <$> device r (rd_target d) = Some (rd_target_generation d).
Proof.
  intros Hwf. unfold is_route_executable.
  destruct (rd_executable d) eqn:He; cbn [negb]; [|simpl; naive_solver].
  rewrite bind_eq. unfold ret. cbn [fst]. fold (topology_of r w).
  unfold executable_on. rewrite He. cbn [negb].
  change (snap_generation (topology_of r w)) with (topology_gen (state_ r)).
  rewrite !find_device_view by done. unfold topology_generation.
  destruct (topology_gen (state_ r) =? rd_topology_generation d) eqn:Hg; simpl; to_props;
    [|naive_solver].
  destruct (device r (rd_source d)) as [sd|]; simpl; [|by split; [|intros (_&_&[=]&_)]].
  destruct (device r (rd_target d)) as [td|]; simpl; [|by split; [|intros (_&_&_&[=])]].
  rewrite andb_true_iff, !Z.eqb_eq. split; [by intros [-> ->]|by intros (_&_&[=]&[=])].
Qed.

Lemma decision_records src tgt pol r r' w d :
  wf r → 0 ≤ max_candidate_paths (limits_ r) →
  (decide_route src tgt pol r r' w).1 = Ok d → rd_executable d = true →
  topology_generation r = rd_topology_generation d ∧
  dev_generation <$> device r (rd_source d) = Some (rd_source_generation d) ∧
  dev_generation <$> device r (rd_target d) = Some (rd_target_generation d).
Proof.
  intros Hwf Hm Hd Hx. destruct (executable_selected _ _ _ _ _ _ _ Hd Hx) as [i Hsel].
  destruct (selected_candidate src tgt pol r r' w d i) as (w1 & sd & td & es & Hs & Ht & _ & _ &
    _ & _ & _ & _ & -> & -> & -> & -> & -> & _); [done..|]. rewrite Hs, Ht. done.
Qed.

(** C32.  A decision is executable on the registry it was made on exactly when
    it says so, for as long as no call changes that registry. *)
Theorem fresh_decision_executes src tgt pol r r' w d w' :
  wf r → 0 ≤ max_candidate_paths (limits_ r) →
  (decide_route src tgt pol r r' w).1 = Ok d →
  (is_route_executable d r w').1 = rd_executable d.
Proof.
  intros Hwf Hm Hd. destruct (rd_executable d) eqn:Hx.
  - apply is_route_executable_eq; [done|]. split; [done|]. by eapply decision_records.
  - unfold is_route_executable. by rewrite Hx.
Qed.

Lemma fresh_decision_executes_witness :
  (is_route_executable triangle_decision triangle_registry world0).1 = true.
Proof.
  rewrite (fresh_decision_executes 1 3 default_policy triangle_registry triangle_registry
    triangle_world triangle_decision world0).
  - by vm_compute.
  - apply triangle_wf.
  - by vm_compute.
  - apply triangle_decision_ok.
Defined.

(** C6.  Once any device or link of the topology has changed, a decision made
    before never becomes executable again, whatever calls follow, as long as
    the generations stay below 2^64 - 1. *)
Theorem stale_decision_never_executes `{Platform} src tgt pol r r' w d w1 r1 w2 r2 w3 :
  wf r → limits_ok (limits_ r) → 0 ≤ max_candidate_paths (limits_ r) →
  (decide_route src tgt pol r r' w).1 = Ok d →
  rtc bounded_step (r, w1) (r1, w2) →
  devices (state_ r1) ≠ devices (state_ r) ∨ links (state_ r1) ≠ links (state_ r) →
  rtc bounded_step (r1, w2) (r2, w3) →
  ∀ w4, (is_route_executable d r2 w4).1 = false.
Proof.
  intros Hwf Hlim Hm Hd H01 Hne H12 w4.
  apply not_true_is_false. intros Hx.
  assert (wf r2) as Hwf2.
  { assert (rtc step (r, w1) (r2, w3)) as Hst.
    { apply (rtc_subrel bounded_step); [|by etrans].
      intros c c' [op ra wa res rb wb Hr _]. by eapply step_op. }
    by apply (steps_wf _ _ Hst). }
  apply is_route_executable_eq in Hx as (Hx & Hg & _); [|done].
  destruct (decision_records _ _ _ _ _ _ _ Hwf Hm Hd Hx) as [Hg0 _].
  pose proof (bounded_steps_change _ _ H01 Hne) as Hlt.
  pose proof (bounded_steps_monotone _ _ H12) as Hle. simpl in *.
  unfold topology_generation in *. lia.
Qed.

Lemma after_bounded_step op r w :
  no_wrap r op →
  @bounded_step reference_platform (r, w) (after op r w, (@run_op reference_platform op r w).2).
Proof.
  intros Hn. eapply (@bounded_step_op reference_platform); [|exact Hn].
  by apply (run_op_parts (H := reference_platform)).
Qed.

(** A link taken down and up again: the topology looks as it did, the decision
    stays stale. *)
Definition op_down : Op :=
  UpdateLinkState 12 LinkOperationalState.DOWN synthetic_evidence false "".
Definition op_up : Op :=
  UpdateLinkState 12 LinkOperationalState.UP synthetic_evidence false "".
Definition triangle_down : Registry := after op_down triangle_registry triangle_world.
Definition triangle_down_world : World :=
  (@run_op reference_platform op_down triangle_registry triangle_world).2.

Lemma stale_decision_never_executes_witness :
  (is_route_executable triangle_decision (after op_up triangle_down triangle_down_world) world0).1
  = false.
Proof.
  eapply (@stale_decision_never_executes reference_platform 1 3 default_policy
    triangle_registry triangle_registry triangle_world triangle_decision triangle_world
    triangle_down triangle_down_world).
  - apply triangle_wf.
  - by vm_compute.
  - by vm_compute.
  - apply triangle_decision_ok.
  - apply rtc_once, after_bounded_step. by vm_compute.
  - right. intros Heq%(f_equal (λ m, lk_state <$> m !! 12)). by vm_compute in Heq.
  - apply rtc_once, after_bounded_step. by vm_compute.
Defined.

(** ** Outcomes *)

Lemma supported_not_reval s : is_supported_state s = true → state_is_reval s = false.
Proof. by destruct s. Qed.

Lemma path_links_elem topo els o :
  o ∈ path_links topo els → ∃ i, LINK i ∈ els ∧ o = find_link topo i.
Proof.
  unfold path_links. intros ([d|i] & Hel & Ho)%list_elem_of_omap; [done|].
  exists i. split; [done|congruence].
Qed.

(** Links in supported states leave nothing for the freshness check. *)
Lemma supported_no_reval topo h p :
  require_supported_links h = true → check_supported topo h p = None →
  existsb (on_link (λ l, state_is_reval (lk_state l))) (path_links topo (path_elements p)) = false.
Proof.
  unfold check_supported. intros -> Hc%first_rejection_None.
  rewrite Forall_fmap, Forall_forall in Hc. apply not_true_is_false.
  intros (o & Ho%list_elem_of_In & Hr)%existsb_exists.
  apply path_links_elem in Ho as (i & Hi & ->). specialize (Hc _ Hi). simpl in Hc.
  destruct (find_link topo i) as [l|]; [|done]. simpl in Hr.
  destruct (is_supported_state (lk_state l)) eqn:Hs; [|done].
  by rewrite (supported_not_reval _ Hs) in Hr.
Qed.

Lemma rejection_supported view h p :
  rejection_of view h p = None → check_supported (view_topology view) h p = None.
Proof.
  unfold rejection_of, check_candidate. intros H%first_rejection_None.
  by apply Forall_cons in H as [? _].
Qed.

Lemma outcome_not_reval view h p :
  require_supported_links h = true → check_supported (view_topology view) h p = None →
  q_outcome (quality_of view p) ≠ PathQualityOutcome.REVALIDATION_REQUIRED ∧
  q_stale (quality_of view p) = false.
Proof.
  intros Hh Hc. unfold quality_of. rewrite quality_stale, quality_outcome.
  rewrite (supported_no_reval _ h) by done. split; [|done].
  destruct (_ || _); [done|]. destruct (existsb _ _); [done|].
  by repeat case_match.
Qed.

Lemma no_fresh_violation view h p :
  require_supported_links h = true → fresh_violation view h p = false.
Proof.
  intros Hh. unfold fresh_violation. case_bool_decide as Hc; [|done]. simpl.
  destruct (outcome_not_reval view h p Hh Hc) as [Ho Hs].
  apply bool_decide_eq_false_2. unfold check_fresh. destruct (require_fresh h); [|by intros []].
  rewrite bool_decide_eq_false_2 by done. rewrite Hs. by intros [].
Qed.

(** As long as supported links are required, as the default policy does,
    [decide_route] never answers REVALIDATION_REQUIRED: a link awaiting
    revalidation is rejected as unsupported before freshness is looked at, and
    the outcome is POLICY_REJECTED (or UNSUPPORTED) instead. *)
Lemma supported_policy_never_asks_revalidation src tgt pol r r' w d :
  require_supported_links (pol_hard pol) = true →
  (decide_route src tgt pol r r' w).1 = Ok d →
  rd_outcome d ≠ RouteDecisionOutcome.REVALIDATION_REQUIRED.
Proof.
  intros Hh Hd. destruct (decide_route_view src tgt pol r r' w) as (w1 & did & gen & now & Heq).
  rewrite Heq in Hd. apply Ok_inj in Hd. subst d. clear Heq.
  set (view := (consistent_view r w1).1). set (obs := observations (state_ r')).
  destruct (find_device (view_topology view) src) as [sd|] eqn:Hs.
  2: { destruct (decide_on_view_absent view (limits_ r) obs did gen now src tgt pol)
         as [-> _]; [by left|done]. }
  destruct (find_device (view_topology view) tgt) as [td|] eqn:Ht.
  2: { destruct (decide_on_view_absent view (limits_ r) obs did gen now src tgt pol)
         as [-> _]; [by right|done]. }
  destruct (decide_on_view_cases view (limits_ r) obs did gen now src tgt pol sd td Hs Ht)
    as (_&_&_&_&_&_&_&Hcase).
  set (paths := enumerate_paths_impl _ _ _ _) in *.
  destruct (rank pol (eligible_evals view (pol_hard pol) paths)) as [|best rest] eqn:Hr.
  - destruct Hcase as (_ & _ & _ & Hf). intros Ho. specialize (Hf Ho).
    rewrite sieve_any_freshness in Hf. apply existsb_exists in Hf as (p & _ & Hp).
    by rewrite no_fresh_violation, andb_false_r in Hp.
  - destruct Hcase as (_ & -> & _).
    assert (best ∈ rank pol (eligible_evals view (pol_hard pol) paths)) as Hin
      by (rewrite Hr; left).
    apply elem_of_rank in Hin as (p & -> & _ & Hn).
    change (ev_quality (scored view pol paths p)) with (quality_of view p).
    destruct (outcome_not_reval view (pol_hard pol) p Hh) as [Ho _];
      [by apply rejection_supported|].
    by destruct (q_outcome (quality_of view p)).
Qed.

(** Every link of the triangle awaiting revalidation. *)
Definition triangle_restarted : Registry := after MarkRevalidation triangle_registry triangle_world.
Definition restarted_decision : RouteDecision :=
  match (decide_route 1 3 default_policy triangle_restarted triangle_restarted world0).1 with
  | Ok d => d | Err _ => triangle_decision end.

Lemma supported_policy_never_asks_revalidation_witness :
  rd_outcome restarted_decision ≠ RouteDecisionOutcome.REVALIDATION_REQUIRED ∧
  rd_outcome restarted_decision = RouteDecisionOutcome.POLICY_REJECTED.
Proof.
  split; [|vm_compute; reflexivity].
  apply (supported_policy_never_asks_revalidation 1 3 default_policy triangle_restarted
    triangle_restarted world0); [reflexivity|]. vm_compute. reflexivity.
Defined.

(** [revalidate_route] never revives a stale decision: it returns the
    decision itself when it is executable now, and otherwise a fresh decision
    for the same ends that selects nothing, says REVALIDATION_REQUIRED and is
    not executable, on any registry. *)
Lemma revalidate_route_spec d r w :
  match (is_route_executable d r w).1 with
  | true => (revalidate_route d r w).1 = Ok d
  | false => ∃ d', (revalidate_route d r w).1 = Ok d' ∧
      rd_source d' = rd_source d ∧ rd_target d' = rd_target d ∧ rd_selected d' = None ∧
      rd_outcome d' = RouteDecisionOutcome.REVALIDATION_REQUIRED ∧
      ∀ r' w', (is_route_executable d' r' w').1 = false
  end.
Proof.
  unfold revalidate_route. rewrite bind_eq.
  destruct (is_route_executable d r w) as [[] w1]; [done|].
  simpl. eexists. by split_and!.
Qed.
