(* ===== verification/Concurrency.v ===== *)
(** * The registry under concurrent callers (registry.hpp, registry.cpp)

    [TopologyRegistry] is called from any number of threads.  A mutating call
    takes the unique lock, copies the published state, edits the copy, swaps it
    in and releases the lock; a reading call takes the shared lock for as long
    as it needs to copy the pointer ([read_state]) and then works on its
    private snapshot.  Here each of these is a step of its own ([lock_step]).
    The atomic machine ([atomic_step]) is what the rest of the development
    assumes: a mutation is one step, and so is each load of a reading call. *)

From S2P Require Import Prelude Enums Double Records World Registry RegistryFacts Fixtures.
From S2P Require Import RegistryProps Paths Quality Route RouteFacts.

(** ** The calls *)

(** The const member functions. *)
Inductive Query :=
| TopologyGeneration | DeviceCount | LinkCount | MeasurementCount
| Snapshot | View | DeviceOf (id : Z) | LinkOf (id : Z) | RecentMeasurements (max : Z)
| EnumeratePaths (source target : Z) | PathQualityOf (p : Path)
| DecideRoute (source target : Z) (policy : RoutePolicy)
| IsRouteExecutable (d : RouteDecision) | RevalidateRoute (d : RouteDecision)
| CaptureDurable | ExplainPath (p : Path) | ObservationsFor (d : RouteDecision).

Inductive Call := Mutate (op : Op) | Ask (q : Query).

Inductive Answer :=
| Done (res : Result unit)
| Number (n : Z)
| ASnapshot (s : TopologySnapshot)
| AView (v : ConsistentView)
| ADevice (d : option DeviceRecord)
| ALink (l : option LinkRecord)
| AMeasurements (ms : list MeasurementRecord)
| APaths (ps : Result (list Path))
| AQuality (q : Result PathQuality)
| ADecision (d : Result RouteDecision)
| AExecutable (b : bool)
| ADurable (d : Result DurableState)
| AText (s : string)
| AObservations (os : list Observation).

(** The view of a state, but for the identity and time of its snapshot. *)
Definition view_of (s : State) : ConsistentView :=
  mkView (mkSnapshot (topology_gen s) 0 (sorted_devices s) (sorted_links s) default_timestamp)
    (measurement_history s).

(** Whether [decide_route] gets as far as its second [read_state]. *)
Definition selects (lim : Limits) (source target : Z) (policy : RoutePolicy) (s : State) : bool :=
  bool_decide (is_Some (rd_selected
    (decide_on_view (view_of s) lim [] 0 0 default_timestamp source target policy))).

(** Whether a reading call that has loaded [seen] loads the state again. *)
Definition wants_load (lim : Limits) (q : Query) (seen : list State) : bool :=
  match seen with
  | [] =>
      match q with
      | EnumeratePaths source target => negb (is_nil source || is_nil target)
      | IsRouteExecutable d | RevalidateRoute d => rd_executable d
      | _ => true
      end
  | [s] =>
      match q with
      | DecideRoute source target policy => selects lim source target policy s
      | _ => false
      end
  | _ => false
  end.

(** The registry as its [i]-th load gave it; irrelevant when there was none. *)
Definition loaded (lim : Limits) (seen : list State) (i : nat) : Registry :=
  mkRegistry (default (state_ (new_registry lim)) (seen !! i)) lim.

(** What a reading call computes from its loads. *)
Definition answer (lim : Limits) (q : Query) (seen : list State) : M Answer :=
  let r := loaded lim seen 0 in
  match q with
  | TopologyGeneration => ret (Number (topology_generation r))
  | DeviceCount => ret (Number (device_count r))
  | LinkCount => ret (Number (link_count r))
  | MeasurementCount => ret (Number (measurement_count r))
  | Snapshot => let* s := snapshot r in ret (ASnapshot s)
  | View => let* v := consistent_view r in ret (AView v)
  | DeviceOf id => ret (ADevice (device r id))
  | LinkOf id => ret (ALink (link r id))
  | RecentMeasurements max => ret (AMeasurements (recent_measurements r max))
  | EnumeratePaths source target => let* ps := enumerate_paths source target r in ret (APaths ps)
  | PathQualityOf p => let* x := compute_path_quality p r in ret (AQuality x)
  | DecideRoute source target policy =>
      let* d := decide_route source target policy r (loaded lim seen 1) in ret (ADecision d)
  | IsRouteExecutable d => let* b := is_route_executable d r in ret (AExecutable b)
  | RevalidateRoute d => let* x := revalidate_route d r in ret (ADecision x)
  | CaptureDurable => let* x := capture_durable_state r in ret (ADurable x)
  | ExplainPath p => let* x := explain_path p r in ret (AText x)
  | ObservationsFor d => ret (AObservations (observations_for d r))
  end.

Inductive Event := Invoked (i : nat) (c : Call) | Returned (i : nat) (a : Answer).

(** A call of [restore_durable_state] that returns before it takes the lock. *)
Definition refused_outright (op : Op) : option (Result unit) :=
  match op with
  | RestoreDurable ds =>
      if bool_decide (ds_format_version ds ≠ durable_format_version)
      then Some (err ErrorCode.INTEGRITY_FAILURE "unsupported durable state version") else None
  | _ => None
  end.

(** ** The lock-level machine *)

(** Where a thread is: in no call; in a mutation, before the lock, holding it,
    with its copy, with its edited copy and result, after the swap; in a
    reading call, between its loads, holding the shared lock, with the pointer
    copied and the lock still held; about to return. *)
Inductive Thread :=
| Idle
| Called (op : Op)
| Locked (op : Op)
| Copied (op : Op) (next : State)
| Edited (op : Op) (copy next : State) (res : Result unit)
| Swapped (res : Result unit)
| Gathering (q : Query) (seen : list State)
| Sharing (q : Query) (seen : list State)
| Loaded (q : Query) (seen : list State)
| Answered (a : Answer).

(** [state_], [mu_] and the threads. *)
Record Machine := mkMachine {
  published : State;
  exclusive : bool;
  sharers : nat;
  threads : list Thread
}.

Definition begin (c : Call) : Thread :=
  match c with Mutate op => Called op | Ask q => Gathering q [] end.

Section LockLevel.
Context {P : Platform} (lim : Limits).

(** Identifiers and timestamps drawn by other threads fall between the draws
    of a call.  A call draws each kind of identifier at most once, so what it
    draws is what some [World] would have given it on its own. *)
Inductive lock_step : Machine → option Event → Machine → Prop :=
| ls_invoke s x n ts i c :
    ts !! i = Some Idle →
    lock_step (mkMachine s x n ts) (Some (Invoked i c)) (mkMachine s x n (<[i := begin c]> ts))
| ls_refuse s x n ts i op res :
    ts !! i = Some (Called op) → refused_outright op = Some res →
    lock_step (mkMachine s x n ts) None (mkMachine s x n (<[i := Answered (Done res)]> ts))
| ls_lock s ts i op :
    ts !! i = Some (Called op) → refused_outright op = None →
    lock_step (mkMachine s false 0 ts) None (mkMachine s true 0 (<[i := Locked op]> ts))
| ls_copy s x n ts i op :
    ts !! i = Some (Locked op) →
    lock_step (mkMachine s x n ts) None (mkMachine s x n (<[i := Copied op s]> ts))
| ls_edit s x n ts i op copy res r' w w' :
    ts !! i = Some (Copied op copy) → run_op op (mkRegistry copy lim) w = ((res, r'), w') →
    lock_step (mkMachine s x n ts) None
      (mkMachine s x n (<[i := Edited op copy (state_ r') res]> ts))
| ls_swap s x n ts i op copy next res :
    (* on a path without a swap, [next] is [copy] *)
    ts !! i = Some (Edited op copy next res) →
    lock_step (mkMachine s x n ts) None (mkMachine next x n (<[i := Swapped res]> ts))
| ls_unlock s x n ts i res :
    ts !! i = Some (Swapped res) →
    lock_step (mkMachine s x n ts) None (mkMachine s false n (<[i := Answered (Done res)]> ts))
| ls_share s n ts i q seen :
    ts !! i = Some (Gathering q seen) → wants_load lim q seen = true →
    lock_step (mkMachine s false n ts) None (mkMachine s false (S n) (<[i := Sharing q seen]> ts))
| ls_load s x n ts i q seen :
    ts !! i = Some (Sharing q seen) →
    lock_step (mkMachine s x n ts) None (mkMachine s x n (<[i := Loaded q (seen ++ [s])]> ts))
| ls_unshare s x n ts i q seen :
    ts !! i = Some (Loaded q seen) →
    lock_step (mkMachine s x (S n) ts) None (mkMachine s x n (<[i := Gathering q seen]> ts))
| ls_answer s x n ts i q seen a w w' :
    ts !! i = Some (Gathering q seen) → wants_load lim q seen = false →
    answer lim q seen w = (a, w') →
    lock_step (mkMachine s x n ts) None (mkMachine s x n (<[i := Answered a]> ts))
| ls_return s x n ts i a :
    ts !! i = Some (Answered a) →
    lock_step (mkMachine s x n ts) (Some (Returned i a)) (mkMachine s x n (<[i := Idle]> ts)).

(** A new registry and [n] threads. *)
Definition lock_start (n : nat) : Machine :=
  mkMachine (state_ (new_registry lim)) false 0 (replicate n Idle).

Definition lock_reachable (m : Machine) : Prop := ∃ n tr, run lock_step (lock_start n) tr m.

(** ** The atomic machine *)

Inductive AThread :=
| AIdle
| APending (op : Op)
| AReading (q : Query) (seen : list State)
| AAnswered (a : Answer).

Record Atomic := mkAtomic { at_registry : Registry; at_threads : list AThread }.

Definition abegin (c : Call) : AThread :=
  match c with Mutate op => APending op | Ask q => AReading q [] end.

Inductive atomic_step : Atomic → option Event → Atomic → Prop :=
| as_invoke r ts i c :
    ts !! i = Some AIdle →
    atomic_step (mkAtomic r ts) (Some (Invoked i c)) (mkAtomic r (<[i := abegin c]> ts))
| as_mutate r ts i op res r' w w' :
    ts !! i = Some (APending op) → run_op op r w = ((res, r'), w') →
    atomic_step (mkAtomic r ts) None (mkAtomic r' (<[i := AAnswered (Done res)]> ts))
| as_load r ts i q seen :
    ts !! i = Some (AReading q seen) → wants_load lim q seen = true →
    atomic_step (mkAtomic r ts) None
      (mkAtomic r (<[i := AReading q (seen ++ [state_ r])]> ts))
| as_answer r ts i q seen a w w' :
    ts !! i = Some (AReading q seen) → wants_load lim q seen = false →
    answer lim q seen w = (a, w') →
    atomic_step (mkAtomic r ts) None (mkAtomic r (<[i := AAnswered a]> ts))
| as_return r ts i a :
    ts !! i = Some (AAnswered a) →
    atomic_step (mkAtomic r ts) (Some (Returned i a)) (mkAtomic r (<[i := AIdle]> ts)).

Definition atomic_start (n : nat) : Atomic := mkAtomic (new_registry lim) (replicate n AIdle).
End LockLevel.
