(* ===== verification/ConcurrencyProps.v ===== *)
(** * The registry under concurrent callers: properties *)

From S2P Require Import Prelude Enums Double Records World Registry RegistryFacts Fixtures.
From S2P Require Import RegistryProps Paths Quality Route RouteFacts Concurrency.

Section Props.
Context {P : Platform} (lim : Limits).

Implicit Types (t : Thread) (m : Machine) (s : State).

(** ** The lock invariant *)

(** The thread is inside the section the unique (shared) lock protects. *)
Definition excl t : nat :=
  match t with Locked _ | Copied _ _ | Edited _ _ _ _ | Swapped _ => 1 | _ => 0 end.
Definition shares t : nat := match t with Sharing _ _ | Loaded _ _ => 1 | _ => 0 end.

(** The copy under edit is the published state, and what is about to be swapped
    in is what the call makes of it. *)
Definition thread_ok s t : Prop :=
  match t with
  | Copied _ copy => copy = s
  | Edited op copy next res =>
      copy = s ∧
      ∃ w w', run_op op (mkRegistry copy lim) w = ((res, mkRegistry next lim), w')
  | Sharing q seen => wants_load lim q seen = true
  | _ => True
  end.

Record lock_ok m : Prop := {
  lo_excl : sum_list_with excl (threads m) = Nat.b2n (exclusive m);
  lo_shares : sum_list_with shares (threads m) = sharers m;
  lo_apart : exclusive m = true → sharers m = 0%nat;
  lo_threads : ∀ i t, threads m !! i = Some t → thread_ok (published m) t
}.

Lemma run_op_limits op r w res r' w' :
  run_op op r w = ((res, r'), w') → limits_ r' = limits_ r.
Proof. intros He%run_op_effect. by destruct He. Qed.

Lemma thread_ok_other s s' t : excl t = 0%nat → thread_ok s t → thread_ok s' t.
Proof. by destruct t. Qed.

(** One thread moves on, the published state stays. *)
Lemma lock_ok_move s x n x' n' ts i t t' :
  lock_ok (mkMachine s x n ts) → ts !! i = Some t → thread_ok s t' →
  (Nat.b2n x' + excl t = Nat.b2n x + excl t')%nat →
  (n' + shares t = n + shares t')%nat →
  (x' = true → n' = 0%nat) →
  lock_ok (mkMachine s x' n' (<[i:=t']> ts)).
Proof.
  intros [He Hs Ha Ht] Hi Hok Hx Hn Hapart. simpl in *. split; simpl; try done.
  - pose proof (sum_insert excl ts i t t' Hi). lia.
  - pose proof (sum_insert shares ts i t t' Hi). lia.
  - intros j tj [(-> & <- & _)|[_ Hj]]%list_lookup_insert_Some; [done|]. by eapply Ht.
Qed.

Lemma lock_ok_sharer s x n ts i t :
  lock_ok (mkMachine s x n ts) → ts !! i = Some t → shares t = 1%nat → x = false.
Proof.
  intros [He Hs Ha _] Hi Hsh. simpl in *. destruct x; [|done]. specialize (Ha eq_refl). subst n.
  by rewrite (sum_zero _ _ _ _ Ha Hi) in Hsh.
Qed.

Lemma lock_ok_swap s x n ts i op copy next res :
  lock_ok (mkMachine s x n ts) → ts !! i = Some (Edited op copy next res) →
  lock_ok (mkMachine next x n (<[i:=Swapped res]> ts)).
Proof.
  intros [He Hs Ha Ht] Hi. simpl in *. split; simpl; try done.
  - pose proof (sum_insert excl ts i _ (Swapped res) Hi). simpl in *. lia.
  - pose proof (sum_insert shares ts i _ (Swapped res) Hi). simpl in *. lia.
  - intros j tj [(-> & <- & _)|[Hne Hj]]%list_lookup_insert_Some; [done|].
    apply (thread_ok_other s); [|by eapply Ht].
    pose proof (sum_two excl ts i j _ _ Hne Hi Hj). simpl in *. destruct x; simpl in *; lia.
Qed.

#[local] Ltac move_on :=
  eapply lock_ok_move; simpl; try eassumption; try done; try (simpl; lia); try (match goal with H : lock_ok _ |- _ => exact (lo_apart _ H) end).

Lemma lock_step_ok m e m' : lock_step lim m e m' → lock_ok m → lock_ok m'.
Proof.
  intros Hs Hok. destruct Hs as [s x n ts i c Hi| |s ts i op Hi|s x n ts i op Hi
    |s x n ts i op copy res r' w w' Hi Hr| |s x n ts i res Hi|s n ts i q seen Hi Hw
    |s x n ts i q seen Hi|s x n ts i q seen Hi| |].
  - by destruct c; move_on.
  - move_on.
  - move_on.
  - move_on.
  - pose proof (lo_threads _ Hok _ _ Hi) as Hc. simpl in Hc. subst copy. move_on.
    split; [done|]. exists w, w'. rewrite Hr.
    apply run_op_limits in Hr. destruct r'. simpl in *. by subst.
  - by eapply lock_ok_swap.
  - assert (x = true) as ->.
    { destruct x; [done|]. pose proof (sum_zero excl ts i _ (lo_excl _ Hok) Hi). done. }
    move_on.
  - move_on.
  - move_on.
  - assert (x = false) as -> by (by eapply lock_ok_sharer). move_on.
  - move_on.
  - move_on.
Qed.

Lemma lock_start_ok n : lock_ok (lock_start lim n).
Proof.
  assert (∀ f : Thread → nat, f Idle = 0%nat → sum_list_with f (replicate n Idle) = 0%nat) as Hz.
  { intros f Hf. induction n as [|n' IH]; [done|]. simpl. rewrite Hf, IH. done. }
  split; simpl; try by apply Hz.
  - done.
  - by intros i t [-> _]%lookup_replicate.
Qed.

Lemma lock_reachable_ok m : lock_reachable lim m → lock_ok m.
Proof.
  intros (n & tr & Hr). eapply run_invariant; [|done|apply lock_start_ok].
  intros ???. apply lock_step_ok.
Qed.
(** ** Refinement of the atomic machine *)

Definition abstract t : AThread :=
  match t with
  | Idle => AIdle
  | Called op | Locked op | Copied op _ | Edited op _ _ _ => APending op
  | Swapped res => AAnswered (Done res)
  | Gathering q seen | Sharing q seen | Loaded q seen => AReading q seen
  | Answered a => AAnswered a
  end.

Definition represents m (a : Atomic) : Prop :=
  lock_ok m ∧ a = mkAtomic (mkRegistry (published m) lim) (abstract <$> threads m).

Lemma refused_run_op op res r w :
  refused_outright op = Some res → run_op op r w = ((res, r), w).
Proof.
  destruct op; try done. simpl. unfold restore_durable_state.
  case_bool_decide; [|done]. by intros [= <-].
Qed.

(** The thread takes no step of the atomic machine. *)
Lemma abstract_stutter (ts : list Thread) i t t' :
  ts !! i = Some t → abstract t' = abstract t → abstract <$> <[i:=t']> ts = abstract <$> ts.
Proof.
  intros Hi He. rewrite list_fmap_insert, He. apply list_insert_id.
  by rewrite list_lookup_fmap, Hi.
Qed.

Lemma abstract_lookup (ts : list Thread) i t : ts !! i = Some t → (abstract <$> ts) !! i = Some (abstract t).
Proof. intros Hi. by rewrite list_lookup_fmap, Hi. Qed.

(** Every step at the lock level is a step of the atomic machine, or none: a
    mutation takes effect at its swap, a load when the pointer is copied. *)
Lemma lock_step_simulated m e m' a :
  lock_step lim m e m' → represents m a →
  ∃ a', run (atomic_step lim) a (option_list e) a' ∧ represents m' a'.
Proof.
  intros Hs [Hok ->]. pose proof (lock_step_ok _ _ _ Hs Hok) as Hok'.
  eexists. split; [|split; [done|reflexivity]].
  destruct Hs as [s x n ts i c Hi|s x n ts i op res Hi Hr|s ts i op Hi|s x n ts i op Hi
    |s x n ts i op copy res r' w w' Hi Hr|s x n ts i op copy next res Hi|s x n ts i res Hi
    |s n ts i q seen Hi Hw|s x n ts i q seen Hi|s x n ts i q seen Hi
    |s x n ts i q seen a w w' Hi Hw Ha|s x n ts i a Hi];
    pose proof (abstract_lookup _ _ _ Hi) as Hai; cbn [published threads abstract] in *;
    try (rewrite (abstract_stutter _ _ _ _ Hi) by done; apply run_refl);
    rewrite list_fmap_insert; apply run_once.
  - replace (abstract (begin c)) with (abegin c) by (by destruct c). by apply as_invoke.
  - eapply (as_mutate _ _ _ _ _ _ _ (initial_world (λ _, 0))); [done|by apply refused_run_op].
  - destruct (lo_threads _ Hok _ _ Hi) as (-> & w & w' & Hr). by eapply as_mutate.
  - eapply as_load; [done|]. by apply (lo_threads _ Hok _ _ Hi).
  - by eapply as_answer.
  - by eapply as_return.
Qed.

Lemma represents_start n : represents (lock_start lim n) (atomic_start lim n).
Proof.
  split; [apply lock_start_ok|]. unfold atomic_start. simpl. by rewrite fmap_replicate.
Qed.

Lemma lock_runs_atomic n tr m :
  run (lock_step lim) (lock_start lim n) tr m →
  ∃ a, run (atomic_step lim) (atomic_start lim n) tr a ∧ represents m a.
Proof.
  intros Hr. eapply simulation; [|done|apply represents_start].
  intros ????. apply lock_step_simulated.
Qed.

(** ** The states the calls work on *)

(** [s'] was published after [s]: calls lead from one to the other. *)
Definition later : State → State → Prop :=
  rtc (λ s s', ∃ op w res r' w',
    run_op op (mkRegistry s lim) w = ((res, r'), w') ∧ s' = state_ r').

(** The loads of a reading call, oldest first. *)
Definition loads t : list State :=
  match t with Gathering _ seen | Sharing _ seen | Loaded _ seen => seen | _ => [] end.

Definition loads_ok s t : Prop :=
  Forall (wf_state lim) (loads t) ∧ StronglySorted later (loads t) ∧
  Forall (λ x, later x s) (loads t).

Definition states_ok m : Prop :=
  wf_state lim (published m) ∧ ∀ i t, threads m !! i = Some t → loads_ok (published m) t.

Lemma loads_ok_nil s t : loads t = [] → loads_ok s t.
Proof. unfold loads_ok. intros ->. by repeat constructor. Qed.

Lemma loads_ok_later s s' t : later s s' → loads_ok s t → loads_ok s' t.
Proof.
  unfold loads_ok. intros Hl (Hw & Hs & Hf). split_and!; [done..|]. eapply Forall_impl; [done|].
  intros x Hx. cbv beta. unfold later in *. by etrans.
Qed.

Lemma states_ok_move s x n x' n' ts i t :
  states_ok (mkMachine s x n ts) → loads_ok s t →
  states_ok (mkMachine s x' n' (<[i:=t]> ts)).
Proof.
  intros [Hw Hl] Ht. split; [done|]. simpl in *.
  intros j tj [(-> & <- & _)|[_ Hj]]%list_lookup_insert_Some; [done|]. by eapply Hl.
Qed.

Lemma run_op_state_wf op s w res s' w' :
  limits_ok lim → wf_state lim s →
  run_op op (mkRegistry s lim) w = ((res, mkRegistry s' lim), w') → wf_state lim s'.
Proof.
  intros Hl Hwf Hr%run_op_effect. by destruct (effect_wf op (mkRegistry s lim) res (mkRegistry s' lim) Hl Hwf Hr).
Qed.

Lemma lock_step_states m e m' :
  limits_ok lim → lock_step lim m e m' → lock_ok m → states_ok m → states_ok m'.
Proof.
  intros Hlim Hs Hok Hst.
  destruct Hs as [s x n ts i c Hi| | | | |s x n ts i op copy next res Hi| |s n ts i q seen Hi
    |s x n ts i q seen Hi|s x n ts i q seen Hi| |];
    try (eapply states_ok_move; [done|]; by apply loads_ok_nil).
  - eapply states_ok_move; [done|]. apply loads_ok_nil. by destruct c.
  - destruct (lo_threads _ Hok _ _ Hi) as (-> & w & w' & Hr). destruct Hst as [Hw Hl]. simpl in *.
    assert (later s next) as Hlt by (apply rtc_once; by exists op, w, res, (mkRegistry next lim), w').
    split; [by eapply run_op_state_wf|]. simpl.
    intros j tj [(-> & <- & _)|[_ Hj]]%list_lookup_insert_Some; [by apply loads_ok_nil|].
    by eapply loads_ok_later, Hl.
  - eapply states_ok_move; [done|]. by apply (proj2 Hst i (Gathering q seen)).
  - eapply states_ok_move; [done|]. destruct (proj2 Hst i _ Hi) as (Hw & Hss & Hf). simpl in *.
    split_and!; simpl.
    + apply Forall_app. split; [done|]. constructor; [apply Hst|constructor].
    + apply StronglySorted_app_2; [|done|by repeat constructor].
      intros x1 x2 Hx1 ->%list_elem_of_singleton. by apply (proj1 (Forall_forall _ _) Hf).
    + apply Forall_app. split; [done|]. constructor; [apply rtc_refl|constructor].
  - eapply states_ok_move; [done|]. by apply (proj2 Hst i (Loaded q seen)).
Qed.

Lemma lock_reachable_states m : limits_ok lim → lock_reachable lim m → states_ok m.
Proof.
  intros Hlim (n & tr & Hr).
  apply (run_invariant (lock_step lim) (λ x, lock_ok x ∧ states_ok x) (lock_start lim n) tr m);
    [|done|split; [apply lock_start_ok|]].
  - intros x e y Hs [Hx Hy]. split; [by eapply lock_step_ok|by eapply lock_step_states].
  - split; [by apply (new_registry_wf lim)|]. intros i t [-> _]%lookup_replicate.
    by apply loads_ok_nil.
Qed.

(** ** Every call returns *)

(** A step other than the start of a new call. *)
Definition serve m m' : Prop :=
  ∃ e, lock_step lim m e m' ∧ ∀ i c, e ≠ Some (Invoked i c).

Definition quiescent m : Prop :=
  exclusive m = false ∧ sharers m = 0%nat ∧ Forall (λ t, t = Idle) (threads m).

(** Steps a thread has before it, at most. *)
Definition remaining t : nat :=
  match t with
  | Idle => 0 | Answered _ => 1 | Swapped _ => 2 | Edited _ _ _ _ => 3 | Copied _ _ => 4
  | Locked _ => 5 | Called _ => 6
  | Gathering _ seen => 2 + 3 * (2 - length seen)
  | Sharing _ seen => 1 + 3 * (2 - length seen)
  | Loaded _ seen => 3 + 3 * (2 - length seen)
  end.

Definition remaining_all m : nat := sum_list_with remaining (threads m).

Lemma wants_load_short q seen : wants_load lim q seen = true → (length seen < 2)%nat.
Proof. destruct seen as [|s [|s' seen]]; simpl; [lia|lia|done]. Qed.

Lemma serve_remaining m m' : lock_ok m → serve m m' → (remaining_all m' < remaining_all m)%nat.
Proof.
  intros Hok (e & Hs & He). unfold remaining_all.
  destruct Hs as [? ? ? ? i c|s x n ts i op res Hi|s ts i op Hi|s x n ts i op Hi
    |s x n ts i op copy res r' w w' Hi Hr|s x n ts i op copy next res Hi|s x n ts i res Hi
    |s n ts i q seen Hi Hw|s x n ts i q seen Hi|s x n ts i q seen Hi
    |s x n ts i q seen a w w' Hi Hw Ha|s x n ts i a Hi]; [by destruct (He i c)|..];
    pose proof (λ t', sum_insert remaining ts i _ t' Hi) as Hsum;
    cbn [threads]; match goal with |- context [<[i:=?t']> ts] => specialize (Hsum t') end;
    simpl in Hsum; try lia.
  - (* a load taken *) rewrite length_app in Hsum. simpl in Hsum.
    pose proof (wants_load_short _ _ (lo_threads _ Hok _ _ Hi)). lia.
Qed.

Definition idle t : bool := match t with Idle => true | _ => false end.

(** Whether the thread waits for the lock. *)
Definition waiting t : bool :=
  match t with
  | Called op => bool_decide (refused_outright op = None)
  | Gathering q seen => wants_load lim q seen
  | _ => false
  end.

(** A thread in a call that does not wait for the lock can go on. *)
Lemma busy_serves m i t :
  lock_ok m → threads m !! i = Some t → t ≠ Idle → waiting t = false → ∃ m', serve m m'.
Proof.
  intros Hok Hi Hne Hw. destruct m as [s x n ts]. simpl in *.
  assert (∀ m' e, lock_step lim (mkMachine s x n ts) e m' → (∀ j c, e ≠ Some (Invoked j c)) →
    ∃ m', serve (mkMachine s x n ts) m') as Hgo by (intros m' e ? ?; exists m', e; done).
  destruct t; try done; simpl in Hw.
  - destruct (refused_outright op) as [res|] eqn:Hr; [|done].
    by eapply Hgo; [by eapply ls_refuse|].
  - by eapply Hgo; [by eapply ls_copy|].
  - destruct (run_op op (mkRegistry next lim) (initial_world (λ _, 0))) as [[res r'] w'] eqn:Hr.
    by eapply Hgo; [by eapply ls_edit|].
  - by eapply Hgo; [by eapply ls_swap|].
  - by eapply Hgo; [by eapply ls_unlock|].
  - destruct (answer lim q seen (initial_world (λ _, 0))) as [a w'] eqn:Ha.
    by eapply Hgo; [by eapply ls_answer|].
  - by eapply Hgo; [by eapply ls_load|].
  - destruct n as [|n].
    { by pose proof (sum_zero shares ts i _ (lo_shares _ Hok) Hi). }
    by eapply Hgo; [by eapply ls_unshare|].
  - by eapply Hgo; [by eapply ls_return|].
Qed.

(** With nobody in the critical sections, a waiting thread gets the lock. *)
Lemma waiting_serves m i t :
  exclusive m = false → sharers m = 0%nat → threads m !! i = Some t → waiting t = true →
  ∃ m', serve m m'.
Proof.
  destruct m as [s x n ts]. simpl. intros -> -> Hi Hw. destruct t; try done; simpl in Hw.
  - apply bool_decide_eq_true in Hw. eexists _, _. split; [by eapply ls_lock|done].
  - eexists _, _. split; [by eapply ls_share|done].
Qed.

Lemma sum_all_zero {A} (f : A → nat) l :
  (∀ i x, l !! i = Some x → f x = 0%nat) → sum_list_with f l = 0%nat.
Proof.
  induction l as [|x l IH]; intros Hf; [done|]. simpl. rewrite (Hf 0%nat x) by done.
  apply IH. intros i y Hy. by apply (Hf (S i)).
Qed.

Lemma lock_progress m : lock_ok m → quiescent m ∨ ∃ m', serve m m'.
Proof.
  intros Hok.
  destruct (decide (Exists (λ t, excl t + shares t ≠ 0)%nat (threads m))) as [He|Hfree].
  { right. apply Exists_exists in He as (t & [i Hi]%list_elem_of_lookup & Ht).
    apply (busy_serves m i t); [done|done|by intros ->|by destruct t]. }
  assert (∀ i t, threads m !! i = Some t → excl t = 0%nat ∧ shares t = 0%nat) as Hz.
  { intros i t Hi. destruct (decide (excl t + shares t = 0)%nat); [lia|].
    destruct Hfree. apply Exists_exists. exists t. split; [by eapply list_elem_of_lookup_2|done]. }
  assert (exclusive m = false) as Hx.
  { pose proof (lo_excl _ Hok) as H. rewrite sum_all_zero in H by (intros; by eapply Hz).
    by destruct (exclusive m). }
  assert (sharers m = 0%nat) as Hn.
  { rewrite <-(lo_shares _ Hok). apply sum_all_zero. intros. by eapply Hz. }
  destruct (decide (Exists (λ t, idle t = false) (threads m))) as [He|Hi].
  - right. apply Exists_exists in He as (t & [i Hi]%list_elem_of_lookup & Ht).
    destruct (waiting t) eqn:Hw; [|by apply (busy_serves m i t); [done|done|intros ->|]].
    by eapply waiting_serves.
  - left. split_and!; [done..|]. apply Forall_forall. intros t Ht.
    destruct (idle t) eqn:E; [by destruct t|]. destruct Hi. apply Exists_exists. by exists t.
Qed.
End Props.

(** ** What a reading call loads is what it needs *)

(** The selection does not depend on the decision's identity and time, on the
    snapshot's, or on the observations. *)
Lemma selected_view s lim sid taken src tgt pol obs did gen now :
  let snap := mkSnapshot (topology_gen s) sid (sorted_devices s) (sorted_links s) taken in
  rd_selected (decide_on_view (mkView snap (measurement_history s)) lim obs did gen now src tgt pol)
  = rd_selected (decide_on_view (view_of s) lim [] 0 0 default_timestamp src tgt pol).
Proof.
  intros snap. unfold decide_on_view. set (v := mkView snap (measurement_history s)).
  assert (find_device (view_topology v) = find_device (view_topology (view_of s))) as -> by done.
  assert (∀ a b, enumerate_paths_impl (view_topology v) a b lim =
    enumerate_paths_impl (view_topology (view_of s)) a b lim) as He by (intros; reflexivity).
  assert (∀ h ps, sieve v h ps = sieve (view_of s) h ps) as Hs by (intros; reflexivity).
  rewrite He, !Hs. by repeat case_match.
Qed.

Lemma unselected_obs view lim obs obs' did gen now src tgt pol :
  rd_selected (decide_on_view view lim obs did gen now src tgt pol) = None →
  decide_on_view view lim obs did gen now src tgt pol =
  decide_on_view view lim obs' did gen now src tgt pol.
Proof. unfold decide_on_view. by repeat case_match. Qed.

(** Once a call wants no further load, no further load matters. *)
Lemma answer_loads lim q seen more w :
  wants_load lim q seen = false → answer lim q (seen ++ more) w = answer lim q seen w.
Proof.
  destruct seen as [|s [|s' seen]]; [| |done].
  - destruct q; simpl; intros Hw; try done; unfold answer; rewrite !bind_eq.
    + apply negb_false_iff in Hw. unfold enumerate_paths. by rewrite Hw.
    + unfold is_route_executable. by rewrite Hw.
    + unfold revalidate_route, is_route_executable. by rewrite Hw.
  - destruct q; try done. simpl. unfold selects. intros Hw%bool_decide_eq_false.
    rewrite !bind_eq. unfold decide_route. rewrite !bind_eq. simpl. do 3 f_equal.
    apply unselected_obs. apply eq_None_not_Some. intros [i E]. apply Hw. exists i.
    etrans; [symmetry; apply (selected_view s lim)|exact E].
Qed.

(** ** Executable schedules *)
Section Schedules.
Context {P : Platform} (lim : Limits).

(** Thread [i] makes a call, or takes its next step. *)
Inductive Move := Start (i : nat) (c : Call) | Go (i : nat).

(** The next step of a thread, if it can take one now. *)
Definition advance_thread (i : nat) (t : Thread) (m : Machine) : option (option Event * Machine) :=
  let put t' := mkMachine (published m) (exclusive m) (sharers m) (<[i := t']> (threads m)) in
  match t with
  | Idle => None
  | Called op =>
      match refused_outright op with
      | Some res => Some (None, put (Answered (Done res)))
      | None =>
          if exclusive m || negb (bool_decide (sharers m = 0%nat)) then None
          else Some (None, mkMachine (published m) true 0 (<[i := Locked op]> (threads m)))
      end
  | Locked op => Some (None, put (Copied op (published m)))
  | Copied op copy =>
      let '((res, r'), _) := run_op op (mkRegistry copy lim) world0 in
      Some (None, put (Edited op copy (state_ r') res))
  | Edited op copy next res =>
      Some (None, mkMachine next (exclusive m) (sharers m) (<[i := Swapped res]> (threads m)))
  | Swapped res =>
      Some (None, mkMachine (published m) false (sharers m)
        (<[i := Answered (Done res)]> (threads m)))
  | Gathering q seen =>
      if wants_load lim q seen then
        if exclusive m then None
        else Some (None, mkMachine (published m) false (S (sharers m))
               (<[i := Sharing q seen]> (threads m)))
      else let '(a, _) := answer lim q seen world0 in Some (None, put (Answered a))
  | Sharing q seen => Some (None, put (Loaded q (seen ++ [published m])))
  | Loaded q seen =>
      match sharers m with
      | O => None
      | S n => Some (None, mkMachine (published m) (exclusive m) n
                 (<[i := Gathering q seen]> (threads m)))
      end
  | Answered a => Some (Some (Returned i a), put Idle)
  end.

Definition move (v : Move) (m : Machine) : option (option Event * Machine) :=
  match v with
  | Start i c =>
      match threads m !! i with
      | Some Idle => Some (Some (Invoked i c),
          mkMachine (published m) (exclusive m) (sharers m) (<[i := begin c]> (threads m)))
      | _ => None
      end
  | Go i => t ← threads m !! i; advance_thread i t m
  end.

Fixpoint drive (vs : list Move) (m : Machine) : option (list Event * Machine) :=
  match vs with
  | [] => Some ([], m)
  | v :: vs' =>
      '(e, m1) ← move v m; '(tr, m2) ← drive vs' m1; Some (option_list e ++ tr, m2)
  end.

Lemma move_step v m e m' : move v m = Some (e, m') → lock_step lim m e m'.
Proof.
  destruct m as [s x n ts]. destruct v as [i c|i]; simpl.
  - destruct (ts !! i) as [[]|] eqn:Hi; intros; simplify_eq. by apply ls_invoke.
  - destruct (ts !! i) as [t|] eqn:Hi; [|done]. simpl. unfold advance_thread.
    destruct t; simpl; intros Hm; repeat case_match; to_props; simplify_eq;
      econstructor; eauto.
Qed.

Lemma drive_run vs m tr m' : drive vs m = Some (tr, m') → run (lock_step lim) m tr m'.
Proof.
  revert m tr. induction vs as [|v vs IH]; intros m tr; simpl; [intros; simplify_eq; constructor|].
  destruct (move v m) as [[e m1]|] eqn:Hv; [|done]. simpl.
  destruct (drive vs m1) as [[tr1 m2]|] eqn:Hd; [|done]. simpl. intros [= <- <-].
  eapply run_step; [by eapply move_step|by apply IH].
Qed.
End Schedules.

(** C4.  [TopologyRegistry] is linearizable: whatever any number of threads do,
    at the level of locks, copies and swaps, the calls they make and the
    answers they get are those of a run in which every mutation is one atomic
    step, every load of a reading call is one atomic step, and both happen
    between the call and its return; and the published state is that run's
    registry.  (So no update is lost, and reasoning about the registry as a
    sequence of atomic calls is sound.) *)
Theorem registry_linearizable `{Platform} lim n tr m :
  run (lock_step lim) (lock_start lim n) tr m →
  ∃ a, run (atomic_step lim) (atomic_start lim n) tr a ∧
    at_registry a = mkRegistry (published m) lim.
Proof.
  intros Hr. destruct (lock_runs_atomic lim n tr m Hr) as (a & Ha & _ & ->).
  by eexists.
Qed.

(** C13.  The lock discipline, in every state concurrent callers can reach: at
    most one thread is in a mutation's critical section, and no other thread
    reads the pointer meanwhile; the copy it edits is the published state; the
    published state is well formed, and so is every state a reading call
    works on; and the states a call loads one after the other were published
    in that order. *)
Theorem registry_lock_invariant `{Platform} lim m :
  limits_ok lim → lock_reachable lim m →
  (∀ i j ti tj, threads m !! i = Some ti → threads m !! j = Some tj → excl ti = 1%nat →
     shares tj = 0%nat ∧ (excl tj = 1%nat → i = j)) ∧
  (∀ i op copy, threads m !! i = Some (Copied op copy) → copy = published m) ∧
  wf_state lim (published m) ∧
  (∀ i t, threads m !! i = Some t →
     Forall (wf_state lim) (loads t) ∧ StronglySorted (later lim) (loads t ++ [published m])).
Proof.
  intros Hlim Hr. pose proof (lock_reachable_ok lim m Hr) as Hok.
  destruct (lock_reachable_states lim m Hlim Hr) as [Hwf Hl].
  split_and!; [|by intros i op copy Hi%(lo_threads _ _ Hok)|done|].
  - intros i j ti tj Hi Hj He. assert (exclusive m = true) as Hx.
    { pose proof (lo_excl _ _ Hok) as Hs. destruct (exclusive m); [done|].
      by rewrite (sum_zero _ _ _ _ Hs Hi) in He. }
    split.
    + pose proof (lo_shares _ _ Hok) as Hs. rewrite (lo_apart _ _ Hok Hx) in Hs.
      by eapply sum_zero.
    + intros Hej. destruct (decide (i = j)) as [|Hne]; [done|].
      pose proof (sum_two excl _ i j ti tj Hne Hi Hj) as Hs.
      rewrite (lo_excl _ _ Hok), Hx in Hs. simpl in Hs. lia.
  - intros i t Hi. destruct (Hl i t Hi) as (Hw & Hs & Hf). split; [done|].
    apply StronglySorted_app_2; [|done|by repeat constructor].
    intros x1 x2 Hx1 ->%list_elem_of_singleton. by apply (proj1 (Forall_forall _ _) Hf).
Qed.

(** C12.  The registry's locking cannot deadlock, and every call returns: from
    any state concurrent callers can reach, if no further call is made, every
    schedule of the threads ends with the lock free and no call open. *)
Theorem registry_calls_return `{Platform} lim m :
  lock_reachable lim m → inevitable (serve lim) quiescent m.
Proof.
  intros Hr%lock_reachable_ok.
  apply (inevitable_measure _ (lock_ok lim) _ remaining_all).
  - intros x Hx. by apply lock_progress.
  - intros x y Hx Hs. split; [|by eapply serve_remaining]. destruct Hs as (e & Hs & _).
    by eapply lock_step_ok.
  - done.
Qed.

(** Two threads on a new registry: one publishes a device while the other asks
    for the topology generation; the second loads the state before the swap
    and answers after the first has returned. *)
Definition overlap : list Move :=
  [Start 0 (Mutate (UpsertDevice (make_device 1 "gpu1" 1))); Start 1 (Ask TopologyGeneration);
   Go 1; Go 1; Go 1; Go 0; Go 0; Go 0; Go 0; Go 0; Go 0; Go 1; Go 1].
Definition overlap_run : option (list Event * Machine) :=
  @drive reference_platform default_limits overlap (lock_start default_limits 2).
Definition overlap_trace : list Event :=
  [Invoked 0 (Mutate (UpsertDevice (make_device 1 "gpu1" 1))); Invoked 1 (Ask TopologyGeneration);
   Returned 0 (Done (Ok tt)); Returned 1 (Number 1)].
Definition overlap_end : Machine := default (lock_start default_limits 2) (snd <$> overlap_run).

Lemma overlap_runs :
  run (@lock_step reference_platform default_limits) (lock_start default_limits 2)
    overlap_trace overlap_end.
Proof. apply (drive_run default_limits overlap). vm_compute. reflexivity. Qed.

(** The state while the publisher holds its copy and the reader its load. *)
Definition overlap_middle : Machine :=
  default (lock_start default_limits 2) (snd <$>
    @drive reference_platform default_limits (take 8 overlap) (lock_start default_limits 2)).

Lemma overlap_middle_reachable : @lock_reachable reference_platform default_limits overlap_middle.
Proof.
  exists 2%nat, (take 2 overlap_trace). apply (drive_run default_limits (take 8 overlap)).
  vm_compute. reflexivity.
Qed.

Lemma registry_linearizable_witness :
  ∃ a, run (@atomic_step reference_platform default_limits) (atomic_start default_limits 2)
         overlap_trace a ∧ topology_generation (at_registry a) = 2.
Proof.
  destruct (@registry_linearizable reference_platform default_limits 2 overlap_trace overlap_end)
    as (a & Ha & He); [exact overlap_runs|].
  exists a. split; [exact Ha|]. rewrite He. vm_compute. reflexivity.
Defined.

Lemma registry_lock_invariant_witness :
  exclusive overlap_middle = true ∧ wf_state default_limits (published overlap_middle).
Proof.
  split; [vm_compute; reflexivity|].
  eapply (@registry_lock_invariant reference_platform default_limits overlap_middle).
  - vm_compute. repeat split; discriminate.
  - exact overlap_middle_reachable.
Defined.

Lemma registry_calls_return_witness :
  inevitable (@serve reference_platform default_limits) quiescent overlap_middle.
Proof. apply registry_calls_return, overlap_middle_reachable. Defined.
