(* ===== verification/ConcurrentReads.v ===== *)
(** * What concurrent readers are told (tests/race_test.cpp)

    The reading calls of the route machinery, run while any other threads
    change the registry: each answers for a well-formed state that was
    published, not for a mixture. *)

From S2P Require Import Prelude Enums Double Records World Registry RegistryFacts Fixtures.
From S2P Require Import RegistryProps Paths PathsFacts Quality Route RouteFacts Ranking.
From S2P Require Import Eligibility RouteProps Governance Concurrency ConcurrencyProps.

Section Reads.
Context {P : Platform} (lim : Limits).

(** A thread about to answer: the states it has loaded were published, in the
    order it loaded them, and they are well formed. *)
Lemma reader_loads m i q seen :
  limits_ok lim → lock_reachable lim m → threads m !! i = Some (Gathering q seen) →
  ∀ s, s ∈ seen → wf (mkRegistry s lim) ∧ later lim s (published m).
Proof.
  intros Hlim Hr Hi s Hs. destruct (lock_reachable_states lim m Hlim Hr) as [_ Hl].
  destruct (Hl i _ Hi) as (Hw & _ & Hf). simpl in *.
  split; [by apply (proj1 (Forall_forall _ _) Hw)|by apply (proj1 (Forall_forall _ _) Hf)].
Qed.

Lemma enumerated_paths s src tgt w ps :
  let r := mkRegistry s lim in
  wf r → 0 ≤ max_candidate_paths lim → (enumerate_paths src tgt r w).1 = Ok ps →
  zlen ps ≤ max_candidate_paths lim ∧
  ∀ p, p ∈ ps → ∃ es, simple_walk (hop_of r) src es tgt ∧
    path_elements p = DEVICE src :: edge_elements es.
Proof.
  intros r Hwf Hm (Hs & Ht & ->)%enumerate_paths_inv; [|done].
  rewrite enumerate_paths_impl_spec by done. split.
  - unfold zlen. rewrite length_take. simpl. lia.
  - intros p (k & Hin%list_elem_of_lookup_2 & _)%elem_of_take.
    apply list_elem_of_fmap in Hin as (es & -> & Hes). exists es. split; [|done].
    by apply (elem_of_view_routes r w).
Qed.

(** No dangling or degenerate link, no duplicate. *)
Definition snapshot_consistent (snap : TopologySnapshot) : Prop :=
  NoDup (lk_id <$> snap_links snap) ∧
  ∀ l, l ∈ snap_links snap →
    lk_source l ≠ lk_target l ∧ lk_topology_generation l = snap_generation snap ∧
    lk_source l ∈ dev_id <$> snap_devices snap ∧ lk_target l ∈ dev_id <$> snap_devices snap.

Lemma snapshot_is_consistent r w : wf r → snapshot_consistent (snapshot r w).1.
Proof.
  intros [Hp Hst]. split; [by apply (sorted_links_NoDup (limits_ r))|].
  intros l Hl%(elem_of_sorted_links (limits_ r)); [|done].
  destruct (pre_links _ _ Hp _ _ Hl) as (_ & _ & Hne & [a Ha] & [b Hb]).
  assert (∀ k d, devices (state_ r) !! k = Some d → k ∈ dev_id <$> sorted_devices (state_ r)) as Hin.
  { intros k d Hk. destruct (pre_devices _ _ Hp _ _ Hk) as [<- _]. apply list_elem_of_fmap_2.
    by apply (elem_of_sorted_devices (limits_ r)). }
  split_and!; [done|by apply (Hst _ _ Hl)|by eapply Hin..].
Qed.
End Reads.

(** C15.  Readers in a race: while any number of threads change the registry in
    any interleaving, a thread that enumerates paths gets at most
    [max_candidate_paths] of them, each a simple walk of one published state; a
    thread that asks for a snapshot gets one with no dangling, degenerate,
    duplicate or mis-stamped link; and a thread that asks for a route gets an
    executable decision only with a simple walk of one published state, whose
    links are present and usable in that state, and that state's generation. *)
Theorem concurrent_reads_sound `{Platform} lim m i q seen w a w' :
  limits_ok lim → 0 ≤ max_candidate_paths lim → lock_reachable lim m →
  threads m !! i = Some (Gathering q seen) → wants_load lim q seen = false →
  answer lim q seen w = (a, w') →
  match q, a with
  | EnumeratePaths src tgt, APaths (Ok ps) =>
      ∃ s, s ∈ seen ∧ later lim s (published m) ∧ zlen ps ≤ max_candidate_paths lim ∧
        ∀ p, p ∈ ps → ∃ es, simple_walk (hop_of (mkRegistry s lim)) src es tgt ∧
          path_elements p = DEVICE src :: edge_elements es
  | Snapshot, ASnapshot snap =>
      snapshot_consistent snap ∧
      ∃ s, s ∈ seen ∧ later lim s (published m) ∧ snap_generation snap = topology_gen s ∧
        snap_devices snap = sorted_devices s ∧ snap_links snap = sorted_links s
  | DecideRoute src tgt _, ADecision (Ok d) =>
      rd_executable d = true →
      ∃ s es, s ∈ seen ∧ later lim s (published m) ∧
        rd_topology_generation d = topology_gen s ∧
        simple_walk (hop_of (mkRegistry s lim)) src es tgt ∧
        rd_selected d = Some (path_id src tgt (DEVICE src :: edge_elements es)) ∧
        ∀ e, e ∈ es → ∃ l, links s !! edge_link e = Some l ∧ routable_link l
  | _, _ => True
  end.
Proof.
  intros Hlim Hm Hr Hi Hw Ha. pose proof (reader_loads lim m i q seen Hlim Hr Hi) as Hl.
  apply (f_equal fst) in Ha. cbn [fst] in Ha. destruct q; try done.
  - assert (ASnapshot (snapshot (loaded lim seen 0) w).1 = a) as <- by done.
    destruct seen as [|s seen]; [done|]. destruct (Hl s) as [Hwf Hlt]; [left|].
    split; [exact (snapshot_is_consistent (mkRegistry s lim) w Hwf)|].
    exists s. split_and!; [left|done..].
  - assert (APaths (enumerate_paths source target (loaded lim seen 0) w).1 = a) as <-
      by (rewrite <-Ha; unfold answer; by rewrite bind_eq).
    destruct (enumerate_paths source target (loaded lim seen 0) w).1 as [ps|e] eqn:He; [|done].
    destruct seen as [|s seen].
    { unfold enumerate_paths in He. simpl in Hw. apply negb_false_iff in Hw. by rewrite Hw in He. }
    destruct (Hl s) as [Hwf Hlt]; [left|]. exists s. split; [left|]. split; [done|].
    by apply (enumerated_paths lim s source target w ps).
  - assert (ADecision (decide_route source target policy (loaded lim seen 0)
      (loaded lim seen 1) w).1 = a) as <- by (rewrite <-Ha; unfold answer; by rewrite bind_eq).
    destruct (decide_route source target policy (loaded lim seen 0) (loaded lim seen 1) w).1
      as [d|e] eqn:He; [|done]. intros Hx.
    destruct seen as [|s seen]; [done|]. destruct (Hl s) as [Hwf Hlt]; [left|].
    destruct (executable_walk source target policy (mkRegistry s lim) _ w d Hwf Hm He Hx)
      as (w1 & es & Hwalk & _ & _ & Hsel & Hlinks & Hg & _).
    exists s, es. split; [left|]. by split_and!.
Qed.

(** One thread publishes two devices and a link; another asks for a route and
    loads the state; before it loads again, the first takes the link down. *)
Definition call (i : nat) (op : Op) : list Move := Start i (Mutate op) :: replicate 6 (Go i).
Definition race : list Move :=
  call 0 (UpsertDevice (make_device 1 "gpu1" 1)) ++
  call 0 (UpsertDevice (make_device 2 "gpu2" 1)) ++
  call 0 (UpsertLink (make_link 10 1 2 LinkOperationalState.UP 1)) ++
  Start 1 (Ask (DecideRoute 1 2 default_policy)) :: replicate 3 (Go 1) ++
  call 0 (UpdateLinkState 10 LinkOperationalState.DOWN default_evidence false "") ++
  replicate 3 (Go 1).
Definition race_end : list Event * Machine :=
  default ([], lock_start default_limits 2)
    (@drive reference_platform default_limits race (lock_start default_limits 2)).
Definition race_query : Query := DecideRoute 1 2 default_policy.
Definition race_seen : list State :=
  match threads race_end.2 !! 1%nat with Some (Gathering _ seen) => seen | _ => [] end.
Definition race_decision : RouteDecision :=
  match (answer default_limits race_query race_seen world0).1 with
  | ADecision (Ok d) => d
  | _ => triangle_decision
  end.

(** The decision is executable and mentions the link, which is down by now. *)
Lemma concurrent_reads_sound_witness :
  lk_state <$> links (published race_end.2) !! 10 = Some LinkOperationalState.DOWN ∧
  ∃ s es, s ∈ race_seen ∧ simple_walk (hop_of (mkRegistry s default_limits)) 1 es 2 ∧
    rd_selected race_decision = Some (path_id 1 2 (DEVICE 1 :: edge_elements es)).
Proof.
  split; [vm_compute; reflexivity|].
  destruct (@concurrent_reads_sound reference_platform default_limits race_end.2 1 race_query
    race_seen world0 (ADecision (Ok race_decision))
    (answer default_limits race_query race_seen world0).2)
    as (s & es & Hs & _ & _ & Hw & Hsel & _).
  - vm_compute. repeat split; discriminate.
  - vm_compute. discriminate.
  - exists 2%nat, race_end.1. apply (drive_run default_limits race). vm_compute. reflexivity.
  - vm_compute. reflexivity.
  - vm_compute. reflexivity.
  - vm_compute. reflexivity.
  - vm_compute. reflexivity.
  - exists s, es. split; [exact Hs|]. split; [exact Hw|exact Hsel].
Defined.
