(* ===== verification/Bytes.v ===== *)
(** * Bytes: little-endian codecs, bounded readers, CRC-32

    A [std::vector<std::uint8_t>] is a [list Z] of values below 256.  The
    put_* functions and the bounds-checked reader of protocol.cpp and of
    serialization.cpp are the same code up to the string functions; they are
    modelled once here. *)

From S2P Require Import Prelude.
From Stdlib Require Import Ascii.

Definition bytes_ok (l : list Z) : Prop := Forall u8 l.
#[export] Instance u8_dec v : Decision (u8 v).
Proof. unfold u8. apply _. Defined.
#[export] Instance bytes_ok_dec l : Decision (bytes_ok l).
Proof. unfold bytes_ok. apply _. Defined.

(** ** Little-endian integers *)

(** [static_cast<std::uint8_t>((v >> (8 * i)) & 0xFFu)] for [i = 0 .. n-1]. *)
Fixpoint put_le (n : nat) (v : Z) : list Z :=
  match n with
  | O => []
  | S n' => Z.land v 255 :: put_le n' (Z.shiftr v 8)
  end.

(** The bytes or-ed together, byte [i] shifted left by [8 * i]. *)
Fixpoint get_le (l : list Z) : Z :=
  match l with
  | [] => 0
  | b :: l' => Z.lor b (Z.shiftl (get_le l') 8)
  end.

Definition put_u8 (v : Z) : list Z := put_le 1 v.
Definition put_u16 (v : Z) : list Z := put_le 2 v.
Definition put_u32 (v : Z) : list Z := put_le 4 v.
Definition put_u64 (v : Z) : list Z := put_le 8 v.
Definition put_bool (b : bool) : list Z := put_u8 (if b then 1 else 0).

#[global] Arguments put_u8 _ : simpl never.
#[global] Arguments put_u16 _ : simpl never.
#[global] Arguments put_u32 _ : simpl never.
#[global] Arguments put_u64 _ : simpl never.
#[global] Arguments put_bool _ : simpl never.

(** ** Strings of bytes *)
Definition byte_of_char (a : ascii) : Z := Z.of_N (N_of_ascii a).
Definition char_of_byte (b : Z) : ascii := ascii_of_N (Z.to_N b).
Definition bytes_of_string (s : string) : list Z := byte_of_char <$> String.list_ascii_of_string s.
Definition string_of_bytes (l : list Z) : string := String.string_of_list_ascii (char_of_byte <$> l).
Definition slen (s : string) : Z := zlen (bytes_of_string s).

(** ** The bounds-checked reader *)
Record Reader := mkReader { rd_bytes : list Z; rd_pos : Z; rd_bad : bool }.

Definition reader (b : list Z) : Reader := mkReader b 0 false.
Definition remaining (n : Z) (r : Reader) : bool := rd_pos r + n <=? zlen (rd_bytes r).
Definition set_bad (r : Reader) : Reader := mkReader (rd_bytes r) (rd_pos r) true.
Definition skip (n : Z) (r : Reader) : Reader :=
  mkReader (rd_bytes r) (rd_pos r + n) (rd_bad r).

(** The [n] bytes at the position. *)
Definition peek (n : nat) (r : Reader) : list Z := take n (drop (Z.to_nat (rd_pos r)) (rd_bytes r)).

(** Reads [n] bytes as an integer; a read past the end raises [bad], yields 0
    and does not move. *)
Definition read_le (n : nat) : Reader → Z * Reader := λ r,
  if remaining (Z.of_nat n) r then (get_le (peek n r), skip (Z.of_nat n) r)
  else (0, set_bad r).
Definition read_u8 := read_le 1.
Definition read_u16 := read_le 2.
Definition read_u32 := read_le 4.
Definition read_u64 := read_le 8.
Definition read_bool : Reader → bool * Reader :=
  let* v := read_u8 in ret (negb (v =? 0)).
Definition read_bad : Reader → bool * Reader := λ r, (rd_bad r, r).

(** A string after its 16-bit length; [too_long] is the reader's own bound. *)
Definition read_str_bounded (too_long : Z → bool) : Reader → string * Reader :=
  let* n := read_u16 in
  λ r, if rd_bad r || too_long n || negb (remaining n r) then (""%string, set_bad r)
       else (string_of_bytes (peek (Z.to_nat n) r), skip n r).

(** An optional value after its presence byte. *)
Definition read_opt {A} (m : Reader → A * Reader) : Reader → option A * Reader :=
  let* present := read_bool in
  if present then (let* v := m in ret (Some v)) else ret None.
Definition put_opt {A} (put : A → list Z) (o : option A) : list Z :=
  put_bool (bool_decide (is_Some o)) ++ match o with Some v => put v | None => [] end.

(** ** CRC-32 (reflected, polynomial 0xEDB88320) *)
Definition crc_poly : Z := 3988292384.

(** One of the eight inner steps: the mask selects the polynomial when the low
    bit is set. *)
Definition crc_step (crc : Z) : Z :=
  Z.lxor (Z.shiftr crc 1) (if Z.testbit crc 0 then crc_poly else 0).
Definition crc_byte (crc b : Z) : Z := Nat.iter 8 crc_step (Z.lxor crc b).
Definition crc32 (data : list Z) : Z := Z.lxor (foldl crc_byte 4294967295 data) 4294967295.

Example crc32_check : crc32 (bytes_of_string "123456789") = 3421780262.
Proof. reflexivity. Qed.

(** ** Little-endian round trips *)

Lemma put_le_length n v : length (put_le n v) = n.
Proof. revert v. induction n as [|n IH]; intros v; simpl; auto. Qed.

Lemma put_le_ok n v : bytes_ok (put_le n v).
Proof.
  revert v. induction n as [|n IH]; intros v; simpl; constructor; [|apply IH].
  change 255 with (Z.ones 8). rewrite Z.land_ones by lia. apply Z.mod_pos_bound. lia.
Qed.

Lemma byte_lor b v : u8 b → Z.lor b (Z.shiftl v 8) = b + 256 * v.
Proof.
  intros Hb. pose proof (Z.add_lor_land b (Z.shiftl v 8)) as Hadd.
  assert (Z.land b (Z.shiftl v 8) = 0) as Hland.
  { apply Z.bits_inj'. intros i Hi. rewrite Z.land_spec, Z.bits_0.
    destruct (decide (i < 8)).
    - by rewrite (Z.shiftl_spec_low v 8 i), andb_false_r by lia.
    - rewrite Z.bits_above_log2; [done|unfold u8 in Hb; lia|].
      destruct (decide (b = 0)) as [->|]; [simpl; lia|].
      apply Z.log2_lt_pow2; unfold u8 in Hb; [lia|].
      apply Z.lt_le_trans with (2 ^ 8); [lia|]. apply Z.pow_le_mono_r; lia. }
  rewrite Hland in Hadd. rewrite (Z.shiftl_mul_pow2 v 8) in * by lia. lia.
Qed.

Lemma get_put_le n v : 0 ≤ v < 2 ^ (8 * Z.of_nat n) → get_le (put_le n v) = v.
Proof.
  revert v. induction n as [|n IH]; intros v Hv; simpl; [simpl in Hv; lia|].
  rewrite IH.
  - rewrite byte_lor.
    + change 255 with (Z.ones 8). rewrite Z.land_ones, Z.shiftr_div_pow2 by lia.
      pose proof (Z.div_mod v (2 ^ 8)). lia.
    + change 255 with (Z.ones 8). rewrite Z.land_ones by lia. apply Z.mod_pos_bound. lia.
  - rewrite Z.shiftr_div_pow2 by lia. split; [apply Z.div_pos; lia|].
    apply Z.div_lt_upper_bound; [lia|].
    replace (8 * Z.of_nat (S n)) with (8 + 8 * Z.of_nat n) in Hv by lia.
    rewrite Z.pow_add_r in Hv by lia. lia.
Qed.

Lemma get_le_range l : bytes_ok l → 0 ≤ get_le l < 2 ^ (8 * zlen l).
Proof.
  induction 1 as [|b l Hb Hl IH]; simpl; [done|].
  rewrite byte_lor, zlen_cons by done.
  replace (8 * (1 + zlen l)) with (8 + 8 * zlen l) by lia.
  rewrite Z.pow_add_r by (pose proof (zlen_nonneg l); lia).
  unfold u8 in Hb. lia.
Qed.

Lemma put_get_le l : bytes_ok l → put_le (length l) (get_le l) = l.
Proof.
  induction 1 as [|b l Hb Hl IH]; simpl; [done|].
  rewrite byte_lor by done. unfold u8 in Hb.
  change 255 with (Z.ones 8). rewrite Z.land_ones, Z.shiftr_div_pow2 by lia.
  replace (b + 256 * get_le l) with (b + get_le l * 2 ^ 8) by lia.
  rewrite Z.mod_add, Z.div_add by lia.
  rewrite (Z.mod_small b), (Z.div_small b) by lia. by rewrite Z.add_0_l, IH.
Qed.

Lemma get_le_inj l k : bytes_ok l → bytes_ok k → length l = length k → get_le l = get_le k → l = k.
Proof.
  intros Hl Hk Hlen Heq. rewrite <-(put_get_le l), <-(put_get_le k) by done. by rewrite Hlen, Heq.
Qed.

(** ** Strings *)

Lemma byte_of_char_ok a : u8 (byte_of_char a).
Proof.
  unfold u8, byte_of_char. pose proof (N_ascii_bounded a). lia.
Qed.

Lemma bytes_of_string_ok s : bytes_ok (bytes_of_string s).
Proof. apply Forall_fmap, Forall_true. intros a. apply byte_of_char_ok. Qed.

Lemma string_of_bytes_of_string s : string_of_bytes (bytes_of_string s) = s.
Proof.
  unfold string_of_bytes, bytes_of_string. rewrite <-list_fmap_compose.
  rewrite (list_fmap_ext _ id).
  - by rewrite list_fmap_id, String.string_of_list_ascii_of_string.
  - intros _ a _. unfold compose, char_of_byte, byte_of_char.
    by rewrite N2Z.id, ascii_N_embedding.
Qed.

Lemma bytes_of_string_of_bytes l : bytes_ok l → bytes_of_string (string_of_bytes l) = l.
Proof.
  intros Hl. unfold bytes_of_string, string_of_bytes.
  rewrite String.list_ascii_of_string_of_list_ascii, <-list_fmap_compose.
  induction Hl as [|b l Hb Hl IH]; [done|]. rewrite fmap_cons, IH. f_equal.
  unfold compose, char_of_byte, byte_of_char, u8 in *.
  rewrite N_ascii_embedding by lia. lia.
Qed.
