(* ===== verification/BytesFacts.v ===== *)
(** * Bytes: codec composition and error detection

    [reads m bs a] says that the reader action [m] consumes exactly [bs],
    wherever it stands in the input, and yields [a]; it composes along the
    monad, so a record's decoder is shown to read its encoder by walking the
    fields.  The CRC is injective in each single byte. *)

From S2P Require Import Prelude Bytes.

(** ** Reading what was written *)

Definition reads {A} (m : Reader → A * Reader) (bs : list Z) (a : A) : Prop :=
  ∀ pre post,
    m (mkReader (pre ++ bs ++ post) (zlen pre) false) =
    (a, mkReader (pre ++ bs ++ post) (zlen pre + zlen bs) false).

Lemma reads_ret {A} (a : A) : reads (ret a) [] a.
Proof. intros pre post. unfold ret. by rewrite Z.add_0_r. Qed.

Lemma reads_bind {A B} (m : Reader → A * Reader) (k : A → Reader → B * Reader) b1 b2 a b :
  reads m b1 a → reads (k a) b2 b → reads (bind m k) (b1 ++ b2) b.
Proof.
  intros Hm Hk pre post. rewrite bind_eq, <-(assoc_L (++) b1), Hm. simpl.
  specialize (Hk (pre ++ b1) post). rewrite zlen_app, <-!(assoc_L (++)) in Hk.
  rewrite Hk, zlen_app. by rewrite Z.add_assoc.
Qed.

(** The last action of a decoder. *)
Lemma reads_last {A B} (m : Reader → A * Reader) (f : A → B) b1 a :
  reads m b1 a → reads (let* x := m in ret (f x)) b1 (f a).
Proof.
  intros Hm. rewrite <-(app_nil_r b1). eapply reads_bind; [done|apply reads_ret].
Qed.

Lemma reads_last_eq {A B} (m : Reader → A * Reader) (f : A → B) b1 a b :
  reads m b1 a → f a = b → reads (let* x := m in ret (f x)) b1 b.
Proof. intros Hm <-. by apply (reads_last m f). Qed.

Lemma peek_middle n pre bs post pos bad :
  length bs = n → pos = zlen pre → peek n (mkReader (pre ++ bs ++ post) pos bad) = bs.
Proof.
  intros <- ->. unfold peek, zlen. simpl. rewrite Nat2Z.id, drop_app_length.
  by rewrite take_app_length.
Qed.

Lemma remaining_middle n pre bs post pos bad :
  zlen bs = n → pos = zlen pre → remaining n (mkReader (pre ++ bs ++ post) pos bad) = true.
Proof.
  intros <- ->. unfold remaining. simpl. rewrite !zlen_app. apply Z.leb_le.
  pose proof (zlen_nonneg post). lia.
Qed.

Lemma reads_le n v :
  0 ≤ v < 2 ^ (8 * Z.of_nat n) → reads (read_le n) (put_le n v) v.
Proof.
  intros Hv pre post. unfold read_le.
  assert (zlen (put_le n v) = Z.of_nat n) as Hlen by (unfold zlen; by rewrite put_le_length).
  rewrite remaining_middle, peek_middle, get_put_le by (done || apply put_le_length).
  unfold skip. simpl. by rewrite Hlen.
Qed.

Lemma reads_u8 v : u8 v → reads read_u8 (put_u8 v) v.
Proof. intros Hv. by apply reads_le. Qed.
Lemma reads_u16 v : 0 ≤ v < 65536 → reads read_u16 (put_u16 v) v.
Proof. intros Hv. by apply reads_le. Qed.
Lemma reads_u32 v : u32 v → reads read_u32 (put_u32 v) v.
Proof. intros Hv. by apply reads_le. Qed.
Lemma reads_u64 v : u64 v → reads read_u64 (put_u64 v) v.
Proof. intros Hv. by apply reads_le. Qed.

Lemma reads_bool b : reads read_bool (put_bool b) b.
Proof.
  unfold read_bool, put_bool.
  replace b with (negb ((if b then 1 else 0) =? 0)) at 2 by by destruct b.
  apply (reads_last read_u8 (λ v, negb (v =? 0))), reads_u8. unfold u8. destruct b; lia.
Qed.

Lemma reads_opt {A} (m : Reader → A * Reader) (put : A → list Z) o :
  (∀ v, o = Some v → reads m (put v) v) → reads (read_opt m) (put_opt put o) o.
Proof.
  intros H. unfold read_opt, put_opt. eapply reads_bind; [apply reads_bool|].
  destruct o as [v|]; simpl; [|apply reads_ret].
  apply (reads_last m Some). by apply H.
Qed.

(** A string no longer than the reader's bound. *)
Lemma reads_str_bounded too_long s :
  slen s < 65536 → too_long (slen s) = false →
  reads (read_str_bounded too_long) (put_u16 (slen s) ++ bytes_of_string s) s.
Proof.
  intros Hs Hl. unfold read_str_bounded. eapply reads_bind.
  - apply reads_u16. unfold slen in *. pose proof (zlen_nonneg (bytes_of_string s)). lia.
  - intros pre post. simpl. rewrite Hl, remaining_middle by done. simpl.
    rewrite peek_middle by (unfold slen, zlen; rewrite ?Nat2Z.id; done).
    by rewrite string_of_bytes_of_string.
Qed.

(** ** CRC-32 *)

Lemma lxor_bound n a b :
  0 ≤ n → 0 ≤ a < 2 ^ n → 0 ≤ b < 2 ^ n → 0 ≤ Z.lxor a b < 2 ^ n.
Proof.
  intros Hn Ha Hb. assert (0 ≤ Z.lxor a b) as H0 by (apply Z.lxor_nonneg; lia).
  split; [done|].
  destruct (decide (Z.lxor a b = 0)) as [->|Hne]; [lia|].
  apply Z.log2_lt_pow2; [lia|].
  assert (∀ x, 0 ≤ x < 2 ^ n → Z.log2 x < n ∨ x = 0) as Hlog.
  { intros x Hx. destruct (decide (x = 0)); [by right|left]. apply Z.log2_lt_pow2; lia. }
  pose proof (Z.log2_lxor a b) as Hl.
  destruct (Hlog a Ha) as [?| ->], (Hlog b Hb) as [?| ->];
    rewrite ?Z.lxor_0_l, ?Z.lxor_0_r in *; simpl in *; lia.
Qed.

Lemma u32_pow v : u32 v ↔ 0 ≤ v < 2 ^ 32.
Proof. done. Qed.

Lemma shiftr1_bound c : 0 ≤ c < 2 ^ 32 → 0 ≤ Z.shiftr c 1 < 2 ^ 31.
Proof.
  intros Hc. rewrite Z.shiftr_div_pow2 by lia. change (2 ^ 1) with 2.
  split; [apply Z.div_pos; lia|]. apply Z.div_lt_upper_bound; lia.
Qed.

Lemma crc_step_range c : 0 ≤ c < 2 ^ 32 → 0 ≤ crc_step c < 2 ^ 32.
Proof.
  intros Hc. pose proof (shiftr1_bound c Hc). unfold crc_step, crc_poly.
  apply lxor_bound; [lia..|]. case_match; lia.
Qed.

(** The polynomial's top bit records the bit shifted out. *)
Lemma crc_step_top c : 0 ≤ c < 2 ^ 32 → Z.testbit (crc_step c) 31 = Z.testbit c 0.
Proof.
  intros Hc. unfold crc_step. rewrite Z.lxor_spec, Z.shiftr_spec by lia.
  assert (Z.testbit c (31 + 1) = false) as ->.
  { destruct (decide (c = 0)) as [->|]; [done|].
    apply Z.bits_above_log2; [lia|]. apply Z.log2_lt_pow2; simpl; lia. }
  by destruct (Z.testbit c 0).
Qed.

Lemma crc_step_inj a b :
  0 ≤ a < 2 ^ 32 → 0 ≤ b < 2 ^ 32 → crc_step a = crc_step b → a = b.
Proof.
  intros Ha Hb Heq. pose proof (crc_step_top a Ha) as Hta. pose proof (crc_step_top b Hb) as Htb.
  rewrite Heq, Htb in Hta. unfold crc_step in Heq. rewrite Hta in Heq.
  set (p := if Z.testbit a 0 then crc_poly else 0) in *.
  assert (Z.shiftr a 1 = Z.shiftr b 1) as Hs.
  { rewrite <-(Z.lxor_0_r (Z.shiftr a 1)), <-(Z.lxor_nilpotent p), <-Z.lxor_assoc, Heq.
    by rewrite Z.lxor_assoc, Z.lxor_nilpotent, Z.lxor_0_r. }
  rewrite <-!Z.div2_spec in Hs. rewrite (Z.div2_odd a), (Z.div2_odd b), Hs.
  rewrite <-!Z.bit0_odd. by rewrite Hta.
Qed.

Lemma crc_steps n a b :
  0 ≤ a < 2 ^ 32 → 0 ≤ b < 2 ^ 32 →
  0 ≤ Nat.iter n crc_step a < 2 ^ 32 ∧
  (Nat.iter n crc_step a = Nat.iter n crc_step b → a = b).
Proof.
  intros Ha Hb. induction n as [|n IH]; simpl; [done|].
  destruct IH as [IHr IHi]. split; [by apply crc_step_range|].
  intros Heq. apply IHi. apply crc_step_inj; [done| |done].
  clear -Hb. induction n as [|n IH]; simpl; [done|by apply crc_step_range].
Qed.

Lemma lxor_cancel_l c a b : Z.lxor c a = Z.lxor c b → a = b.
Proof.
  intros H. rewrite <-(Z.lxor_0_l a), <-(Z.lxor_nilpotent c), Z.lxor_assoc, H.
  by rewrite <-Z.lxor_assoc, Z.lxor_nilpotent, Z.lxor_0_l.
Qed.

Lemma u8_pow v : u8 v → 0 ≤ v < 2 ^ 32.
Proof. unfold u8. lia. Qed.

Lemma crc_byte_range c b : 0 ≤ c < 2 ^ 32 → u8 b → 0 ≤ crc_byte c b < 2 ^ 32.
Proof.
  intros Hc Hb%u8_pow. unfold crc_byte.
  apply (proj1 (crc_steps 8 (Z.lxor c b) 0 (lxor_bound 32 c b ltac:(lia) Hc Hb) ltac:(lia))).
Qed.

Lemma crc_byte_iter c b : crc_byte c b = Nat.iter 8 crc_step (Z.lxor c b).
Proof. reflexivity. Qed.

Lemma crc_byte_inj_crc c c' b :
  0 ≤ c < 2 ^ 32 → 0 ≤ c' < 2 ^ 32 → u8 b → crc_byte c b = crc_byte c' b → c = c'.
Proof.
  intros Hc Hc' Hb%u8_pow Heq. rewrite !crc_byte_iter in Heq.
  apply crc_steps in Heq; [|apply lxor_bound; lia..].
  apply (lxor_cancel_l b). by rewrite (Z.lxor_comm b c), (Z.lxor_comm b c').
Qed.

Lemma crc_byte_inj_byte c b b' :
  0 ≤ c < 2 ^ 32 → u8 b → u8 b' → crc_byte c b = crc_byte c b' → b = b'.
Proof.
  intros Hc Hb%u8_pow Hb'%u8_pow Heq. rewrite !crc_byte_iter in Heq.
  apply crc_steps in Heq; [|apply lxor_bound; lia..].
  by apply lxor_cancel_l in Heq.
Qed.

Lemma crc_fold_range l c : 0 ≤ c < 2 ^ 32 → bytes_ok l → 0 ≤ foldl crc_byte c l < 2 ^ 32.
Proof.
  intros Hc Hl. revert c Hc. induction Hl as [|b l Hb _ IH]; intros c Hc; simpl; [done|].
  by apply IH, crc_byte_range.
Qed.

Lemma crc_fold_inj l c c' :
  0 ≤ c < 2 ^ 32 → 0 ≤ c' < 2 ^ 32 → bytes_ok l →
  foldl crc_byte c l = foldl crc_byte c' l → c = c'.
Proof.
  intros Hc Hc' Hl. revert c c' Hc Hc'. induction Hl as [|b l Hb _ IH]; intros c c' Hc Hc'; simpl;
    [done|].
  intros Heq. apply IH in Heq; [|by apply crc_byte_range..].
  by apply crc_byte_inj_crc in Heq.
Qed.

Lemma crc32_range l : bytes_ok l → u32 (crc32 l).
Proof.
  intros Hl. apply u32_pow. unfold crc32. apply lxor_bound; [lia|apply crc_fold_range; [lia|done]|lia].
Qed.

(** Changing one byte changes the checksum. *)
Lemma crc32_single_byte pre b b' post :
  bytes_ok pre → u8 b → u8 b' → bytes_ok post →
  crc32 (pre ++ b :: post) = crc32 (pre ++ b' :: post) → b = b'.
Proof.
  intros Hpre Hb Hb' Hpost. unfold crc32. rewrite !foldl_app. simpl. intros Heq.
  assert (0 ≤ foldl crc_byte 4294967295 pre < 2 ^ 32) as Hc by (apply crc_fold_range; [lia|done]).
  rewrite (Z.lxor_comm _ 4294967295), (Z.lxor_comm (foldl _ (crc_byte _ b') _) 4294967295) in Heq.
  apply lxor_cancel_l, crc_fold_inj in Heq; [|by apply crc_byte_range..|done].
  by apply crc_byte_inj_byte in Heq.
Qed.

(** ** Sealed byte strings: a prefix followed by its checksum *)

Definition sealed (bs : list Z) : Prop :=
  ∃ p, bytes_ok p ∧ bs = p ++ put_u32 (crc32 p).

Lemma put_u32_crc_inj p q : bytes_ok p → bytes_ok q →
  put_u32 (crc32 p) = put_u32 (crc32 q) → crc32 p = crc32 q.
Proof.
  intros Hp%crc32_range Hq%crc32_range Heq%(f_equal get_le).
  unfold put_u32 in Heq. by rewrite !get_put_le in Heq.
Qed.

Lemma app_split {A} (a b c d : list A) :
  a ++ b = c ++ d → (length c ≤ length a)%nat → ∃ k, a = c ++ k ∧ d = k ++ b.
Proof.
  intros Heq Hlen. exists (drop (length c) a). split.
  - apply (f_equal (take (length c))) in Heq.
    rewrite take_app_le, take_app_length in Heq by done.
    rewrite <-Heq at 1. by rewrite take_drop.
  - apply (f_equal (drop (length c))) in Heq.
    rewrite drop_app_le, drop_app_length in Heq by done. done.
Qed.

(** Two sealed strings that differ in one byte at most are equal. *)
Lemma sealed_single_byte pre b b' post :
  sealed (pre ++ b :: post) → sealed (pre ++ b' :: post) → b = b'.
Proof.
  intros (p & Hp & Heq) (p' & Hp' & Heq').
  assert (length p = length p') as Hlen.
  { pose proof (f_equal length Heq) as H1. pose proof (f_equal length Heq') as H2.
    rewrite !length_app in H1, H2. simpl in *. lia. }
  destruct (decide (length p ≤ length pre)%nat) as [Hle|Hgt].
  - apply app_split in Heq as (k & -> & Hk); [|done].
    apply app_split in Heq' as (k' & Hpre & Hk'); [|lia].
    apply app_inj_1 in Hpre as [-> ->]; [|done].
    rewrite Hk in Hk'. by apply app_inv_head in Hk' as [= ?].
  - symmetry in Heq, Heq'.
    apply app_split in Heq as (k & -> & Hk); [|lia].
    apply app_split in Heq' as (k' & -> & Hk'); [|lia].
    rewrite !length_app in *.
    destruct k as [|b0 q], k' as [|b0' q']; simpl in *; [lia..|]. simplify_eq.
    rename H0 into Hpost. apply app_inj_2 in Hpost as [-> Hcrc]; [|done].
    apply put_u32_crc_inj in Hcrc; [|done..].
    apply Forall_app in Hp as [Hpre [Hb Hq]%Forall_cons].
    apply Forall_app in Hp' as [_ [Hb' _]%Forall_cons]. by apply crc32_single_byte in Hcrc.
Qed.
