(* ===== verification/ByteLoops.v ===== *)
(** * The byte loops as they are written (serialization.cpp, protocol.cpp)

    serialization.cpp has a [Writer], a [Reader] and a [crc32] of its own, next
    to those of protocol.cpp; the development models both by the definitions of
    [Bytes].  Here are the loops themselves, on machine words, and that they
    compute what [Bytes] says. *)

From S2P Require Import Prelude Bytes BytesFacts.

(** ** Writing: [b] is the vector so far *)

Definition byte_cast (v : Z) : Z := wrap8 v.

Definition Writer_u8 (b : list Z) (v : Z) : list Z := b ++ [v].
Definition Writer_u16 (b : list Z) (v : Z) : list Z :=
  (b ++ [byte_cast v]) ++ [byte_cast (Z.shiftr v 8)].

(** [for (int i = 0; i < n; ++i) b.push_back((v >> (8 * i)) & 0xFF)]. *)
Definition push_shifted (n : nat) (b : list Z) (v : Z) : list Z :=
  foldl (λ b i, b ++ [byte_cast (Z.land (Z.shiftr v (8 * i)) 255)]) b (seqZ 0 (Z.of_nat n)).
Definition Writer_u32 := push_shifted 4.
Definition Writer_u64 := push_shifted 8.

(** ** Reading [n] bytes from [pos] on, in bounds *)
Definition or_shifted (n : nat) (b : list Z) (pos : Z) : Z :=
  foldl (λ v i, Z.lor v (Z.shiftl (default 0 (b !! Z.to_nat (pos + i))) (8 * i))) 0
    (seqZ 0 (Z.of_nat n)).

(** ** The checksum, on 32-bit words *)

(** [static_cast<std::uint32_t>(-(static_cast<std::int32_t>(crc & 1u)))]. *)
Definition low_bit_mask (crc : Z) : Z := wrap32 (- Z.land crc 1).

Definition crc_round (crc : Z) : Z :=
  Z.lxor (Z.shiftr crc 1) (Z.land crc_poly (low_bit_mask crc)).

(** [~crc] of a 32-bit word. *)
Definition not32 (v : Z) : Z := wrap32 (Z.lnot v).

Definition crc32_words (data : list Z) : Z :=
  not32 (foldl (λ crc d, foldl (λ crc _, crc_round crc) (Z.lxor crc d) (seqZ 0 8))
           4294967295 data).

(** ** They agree *)

Lemma byte_cast_land v : byte_cast (Z.land v 255) = Z.land v 255.
Proof.
  unfold byte_cast, wrap8. change 255 with (Z.ones 8). rewrite Z.land_ones by lia.
  change 256 with (2 ^ 8). apply Z.mod_mod. lia.
Qed.

Lemma push_shifted_from n b v k : 0 ≤ k →
  foldl (λ b i, b ++ [byte_cast (Z.land (Z.shiftr v (8 * i)) 255)]) b (seqZ k (Z.of_nat n)) =
  b ++ put_le n (Z.shiftr v (8 * k)).
Proof.
  revert b k. induction n as [|n IH]; intros b k Hk; [by rewrite app_nil_r|].
  rewrite seqZ_cons by lia. cbn [foldl put_le]. replace (Z.pred (Z.of_nat (S n))) with (Z.of_nat n) by lia.
  rewrite IH by lia. rewrite byte_cast_land, <-(assoc_L (++)). simpl. do 3 f_equal.
  rewrite Z.shiftr_shiftr by lia. f_equal. lia.
Qed.

Lemma push_shifted_put n b v : push_shifted n b v = b ++ put_le n v.
Proof. unfold push_shifted. rewrite push_shifted_from by lia. by rewrite Z.shiftr_0_r. Qed.

Lemma Writer_u16_put b v : 0 ≤ v < 65536 → Writer_u16 b v = b ++ put_u16 v.
Proof.
  intros Hv. unfold Writer_u16, byte_cast, wrap8, put_u16. cbn [put_le].
  rewrite <-(assoc_L (++)). change 255 with (Z.ones 8). by rewrite !Z.land_ones by lia.
Qed.

Lemma or_shifted_from n b pos k acc :
  0 ≤ pos → 0 ≤ k → pos + k + Z.of_nat n ≤ zlen b →
  foldl (λ v i, Z.lor v (Z.shiftl (default 0 (b !! Z.to_nat (pos + i))) (8 * i))) acc
    (seqZ k (Z.of_nat n)) =
  Z.lor acc (Z.shiftl (get_le (take n (drop (Z.to_nat (pos + k)) b))) (8 * k)).
Proof.
  revert k acc. induction n as [|n IH]; intros k acc Hp Hk Hb.
  { simpl. by rewrite Z.shiftl_0_l, Z.lor_0_r. }
  rewrite seqZ_cons by lia. cbn [foldl]. replace (Z.pred (Z.of_nat (S n))) with (Z.of_nat n) by lia.
  rewrite IH by lia.
  destruct (b !! Z.to_nat (pos + k)) as [x|] eqn:Hx.
  2: { apply lookup_ge_None in Hx. unfold zlen in Hb. lia. }
  rewrite (drop_S _ _ _ Hx). cbn [take get_le default from_option id].
  rewrite Z.shiftl_lor, Z.shiftl_shiftl, Z.lor_assoc by lia.
  do 2 f_equal; [|lia]. do 3 f_equal. lia.
Qed.

(** The loop reads what [read_le] reads. *)
Lemma or_shifted_get n (r : Reader) :
  0 ≤ rd_pos r → remaining (Z.of_nat n) r = true →
  or_shifted n (rd_bytes r) (rd_pos r) = (read_le n r).1.
Proof.
  intros Hp Hr. unfold read_le. rewrite Hr. unfold remaining in Hr. to_props.
  unfold or_shifted. rewrite or_shifted_from by lia. rewrite Z.lor_0_l, Z.shiftl_0_r, Z.add_0_r. done.
Qed.

Lemma crc_round_step c : crc_round c = crc_step c.
Proof.
  unfold crc_round, crc_step, low_bit_mask. f_equal. change 1 with (Z.ones 1) at 1.
  rewrite Z.land_ones by lia. rewrite <-Z.bit0_mod. destruct (Z.testbit c 0); reflexivity.
Qed.

Lemma not32_lxor v : 0 ≤ v < 2 ^ 32 → not32 v = Z.lxor v 4294967295.
Proof.
  intros Hv. unfold not32, wrap32. change two32 with (2 ^ 32). change 4294967295 with (Z.ones 32).
  apply Z.bits_inj'. intros i Hi. rewrite Z.lxor_spec.
  destruct (Z.ltb_spec i 32) as [Hlt|Hge].
  - rewrite Z.mod_pow2_bits_low, Z.lnot_spec, Z.ones_spec_low by lia. by destruct (Z.testbit v i).
  - rewrite Z.mod_pow2_bits_high, Z.ones_spec_high by lia.
    destruct (decide (v = 0)) as [->|Hne]; [by rewrite Z.bits_0|].
    rewrite Z.bits_above_log2; [done|lia|]. apply Z.log2_lt_pow2; [lia|].
    apply Z.lt_le_trans with (2 ^ 32); [lia|]. apply Z.pow_le_mono_r; lia.
Qed.

Lemma crc32_words_crc32 data : bytes_ok data → crc32_words data = crc32 data.
Proof.
  intros Hd. unfold crc32_words, crc32.
  assert (∀ c, foldl (λ crc d, foldl (λ crc _, crc_round crc) (Z.lxor crc d) (seqZ 0 8)) c data =
    foldl crc_byte c data) as ->.
  { clear Hd. induction data as [|d data IH]; intros c; [done|]. cbn [foldl]. rewrite IH. f_equal.
    change (seqZ 0 8) with [0; 1; 2; 3; 4; 5; 6; 7]. cbn [foldl]. unfold crc_byte. simpl Nat.iter.
    by rewrite !crc_round_step. }
  apply not32_lxor. apply crc_fold_range; [lia|done].
Qed.

(** C28.  The hand-written byte loops of the two codecs are the reference
    functions the rest of the development uses: appending a word byte by byte
    with shifts and casts appends its little-endian bytes, or-ing shifted bytes
    together within bounds reads what the bounded reader reads, and the
    checksum computed on 32-bit words with the negated-bit mask is the CRC-32
    both codecs verify. *)
Theorem byte_loops_agree b v data (r : Reader) n :
  (0 ≤ v < 65536 → Writer_u16 b v = b ++ put_u16 v) ∧
  Writer_u32 b v = b ++ put_u32 v ∧ Writer_u64 b v = b ++ put_u64 v ∧
  (0 ≤ rd_pos r → remaining (Z.of_nat n) r = true →
   or_shifted n (rd_bytes r) (rd_pos r) = (read_le n r).1) ∧
  (bytes_ok data → crc32_words data = crc32 data).
Proof.
  split_and!.
  - apply Writer_u16_put.
  - apply push_shifted_put.
  - apply push_shifted_put.
  - apply or_shifted_get.
  - apply crc32_words_crc32.
Qed.

Lemma byte_loops_agree_witness :
  crc32_words [49; 50; 51] = crc32 [49; 50; 51] ∧ or_shifted 4 [1; 2; 3; 4] 0 = 67305985.
Proof.
  destruct (byte_loops_agree [] 0 [49; 50; 51] (reader [1; 2; 3; 4]) 4) as (_ & _ & _ & Hr & Hc).
  split.
  - apply Hc. repeat constructor; discriminate.
  - exact (Hr (Z.le_refl 0) eq_refl).
Defined.
