(* ===== verification/Text.v ===== *)
(** * Numbers as text

    What the program uses of [std::to_string], [snprintf] and [strtoull], and
    [Timestamp::to_string] (time.hpp). *)

From S2P Require Import Prelude Enums Double Records Bytes.
From Stdlib Require Import Ascii.

(** ** Printing *)

(** [%d] of an [int], [%0<w>d], [%0<w>x] (of a non-negative value): the sign
    counts in the width. *)
Fixpoint zeros (n : nat) : string :=
  match n with O => "" | S n' => String "0" (zeros n') end.
Definition pad0 (w : nat) (s : string) : string := zeros (w - String.length s) +:+ s.
Definition fmt_d (v : Z) : string := if v <? 0 then "-" +:+ dec (- v) else dec v.
Definition fmt_0d (w : nat) (v : Z) : string :=
  if v <? 0 then "-" +:+ pad0 (w - 1) (dec (- v)) else pad0 w (dec v).

Definition hex_char (d : Z) : ascii :=
  match d with
  | 0 => "0" | 1 => "1" | 2 => "2" | 3 => "3" | 4 => "4" | 5 => "5" | 6 => "6" | 7 => "7"
  | 8 => "8" | 9 => "9" | 10 => "a" | 11 => "b" | 12 => "c" | 13 => "d" | 14 => "e" | _ => "f"
  end%char.
(** The last [w] hexadecimal digits, and the text without leading zeros. *)
Fixpoint hex_digits (w : nat) (v : Z) : string :=
  match w with
  | O => ""
  | S w' => hex_digits w' (Z.shiftr v 4) +:+ String (hex_char (Z.land v 15)) ""
  end.
Definition hex (v : Z) : string := hex_digits (S (Z.to_nat (Z.log2 v / 4))) v.
Definition fmt_0x (w : nat) (v : Z) : string := pad0 w (hex v).

(** What [snprintf] leaves in a buffer of [n] bytes. *)
Definition snprintf (n : nat) (s : string) : string := String.substring 0 (n - 1) s.

(** [s.c_str()] as C functions see it: up to the first null character. *)
Fixpoint c_str (s : string) : string :=
  match s with
  | EmptyString => EmptyString
  | String c s' => if Ascii.eqb c "000" then EmptyString else String c (c_str s')
  end.

Definition nl : string := String "010" "".

(** ** Reading: [strtoul], [strtoull] in base 10 *)

Definition digit_value (c : ascii) : option Z :=
  let n := byte_of_char c - 48 in if (0 <=? n) && (n <? 10) then Some n else None.

(** The value of the leading digits, after [acc], and the rest. *)
Fixpoint read_digits (acc : Z) (s : string) : Z * string :=
  match s with
  | "" => (acc, "")
  | String c s' =>
      match digit_value c with
      | Some d => read_digits (10 * acc + d) s'
      | None => (acc, s)
      end
  end%string.

Definition is_space (c : ascii) : bool :=
  let n := byte_of_char c in (n =? 32) || ((9 <=? n) && (n <=? 13)).
Fixpoint skip_spaces (s : string) : string :=
  match s with
  | String c s' => if is_space c then skip_spaces s' else s
  | EmptyString => s
  end.

(** Whether there is a minus sign, and what follows the sign. *)
Definition split_sign (s : string) : bool * string :=
  match s with
  | String "-" s' => (true, s')
  | String "+" s' => (false, s')
  | s' => (false, s')
  end%char.

(** [umax] is the largest value of the result type; too large a number gives
    it, and a minus sign negates in that type. *)
Definition strtoul (umax : Z) (s : string) : Z :=
  let '(neg, s) := split_sign (skip_spaces s) in
  let v := (read_digits 0 s).1 in
  if umax <? v then umax else if neg : bool then (- v) mod (umax + 1) else v.
Definition strtoull : string → Z := strtoul (two64 - 1).

(** ** [Timestamp::to_string] *)

(** [std::tm], and what [localtime_r] makes of seconds since the epoch. *)
Record tm := mkTm {
  tm_year : Z; tm_mon : Z; tm_mday : Z; tm_hour : Z; tm_min : Z; tm_sec : Z
}.

Definition timestamp_to_string (localtime : Z → tm) (t : Timestamp) : string :=
  if negb (ts_valid t) then "invalid"
  else
    let secs := Z.quot (unix_ns t) 1000000000 in
    let ms := Z.quot (Z.rem (unix_ns t) 1000000000) 1000000 in
    let tmv := localtime secs in
    snprintf 40
      (fmt_0d 4 (tm_year tmv + 1900) +:+ "-" +:+ fmt_0d 2 (tm_mon tmv + 1) +:+ "-" +:+
       fmt_0d 2 (tm_mday tmv) +:+ "T" +:+ fmt_0d 2 (tm_hour tmv) +:+ ":" +:+
       fmt_0d 2 (tm_min tmv) +:+ ":" +:+ fmt_0d 2 (tm_sec tmv) +:+ "." +:+ fmt_0d 3 ms).

(** ** Round trips *)

Lemma append_cons c (s t : string) : String c s +:+ t = String c (s +:+ t).
Proof. done. Qed.

Lemma append_nil_l (s : string) : "" +:+ s = s.
Proof. done. Qed.

Lemma append_nil_r (s : string) : s +:+ "" = s.
Proof. induction s as [|c s IH]; [done|by rewrite append_cons, IH]. Qed.

Lemma append_assoc (s t u : string) : (s +:+ t) +:+ u = s +:+ (t +:+ u).
Proof. induction s as [|c s IH]; [done|by rewrite !append_cons, IH]. Qed.

Lemma digit_value_char (x : N) : (x < 10)%N → digit_value (pretty_N_char x) = Some (Z.of_N x).
Proof.
  intros Hx. assert (x = 0 ∨ x = 1 ∨ x = 2 ∨ x = 3 ∨ x = 4 ∨ x = 5 ∨ x = 6 ∨ x = 7 ∨ x = 8 ∨
    x = 9)%N as Hc by lia. by destruct_or! Hc; subst.
Qed.

Lemma read_pretty_go x s :
  read_digits 0 (pretty_N_go x s) = read_digits (Z.of_N x) s.
Proof.
  revert s. induction (N.lt_wf_0 x) as [x _ IH]; intros s.
  destruct (decide (x = 0)%N) as [->|Hx]; [done|].
  rewrite pretty_N_go_step by lia. rewrite IH by (apply N.div_lt; lia). simpl.
  rewrite digit_value_char by (apply N.mod_lt; lia). f_equal.
  rewrite N2Z.inj_div, N2Z.inj_mod. change (Z.of_N 10) with 10.
  pose proof (Z.div_mod (Z.of_N x) 10 ltac:(lia)). lia.
Qed.

(** Reading back a printed number, whatever follows that is no digit. *)
Lemma read_digits_dec v rest :
  0 ≤ v → (∀ c s, rest = String c s → digit_value c = None) →
  read_digits 0 (dec v +:+ rest) = (v, rest).
Proof.
  intros Hv Hrest. unfold dec, pretty, pretty_N.
  assert (∀ acc, read_digits acc rest = (acc, rest)) as Hstop.
  { intros acc. destruct rest as [|c s]; [done|]. simpl. by rewrite (Hrest c s). }
  case_decide as Hz.
  - simpl. rewrite Hstop. f_equal. change (0 = v). lia.
  - assert (∀ x s, pretty_N_go x s +:+ rest = pretty_N_go x (s +:+ rest)) as Happ.
    { intros x. induction (N.lt_wf_0 x) as [x _ IH]; intros s.
      destruct (decide (x = 0)%N) as [->|Hx]; [done|].
      rewrite (pretty_N_go_step x s), (pretty_N_go_step x (s +:+ rest)) by lia.
      by rewrite IH by (apply N.div_lt; lia). }
    rewrite Happ. simpl. rewrite read_pretty_go, Hstop. f_equal. lia.
Qed.

(** The first character of a printed number is a digit, and no 0 but in 0. *)
Lemma dec_head v :
  ∃ c s, dec v = String c s ∧ is_Some (digit_value c) ∧ (c = "0"%char → s = EmptyString).
Proof.
  unfold dec, pretty, pretty_N. case_decide as Hz; [by repeat eexists|].
  assert (∀ x, (0 < x < 10)%N →
    is_Some (digit_value (pretty_N_char x)) ∧ pretty_N_char x ≠ "0"%char) as Hchar.
  { intros x Hx. rewrite digit_value_char by lia. split; [done|]. intros H.
    apply (pretty_N_char_inj x 0) in H; lia. }
  assert (∀ x s, (0 < x)%N → ∃ c' s', pretty_N_go x s = String c' s' ∧
    is_Some (digit_value c') ∧ c' ≠ "0"%char) as H.
  { intros x. induction (N.lt_wf_0 x) as [x _ IH]; intros s Hx. rewrite pretty_N_go_step by lia.
    destruct (decide (x / 10 = 0)%N) as [Hd|Hd];
      [|apply IH; [apply N.div_lt; lia|by apply N.neq_0_lt_0]].
    rewrite Hd, pretty_N_go_0. apply N.div_small_iff in Hd; [|done].
    rewrite N.mod_small by done. destruct (Hchar x ltac:(lia)). eauto. }
  destruct (H (Z.to_N v) EmptyString) as (c & s & -> & Hc & Hn); [lia|].
  exists c, s. split; [done|]. split; [done|]. by intros ->.
Qed.

Lemma digit_start c s :
  is_Some (digit_value c) →
  skip_spaces (String c s) = String c s ∧ split_sign (String c s) = (false, String c s).
Proof.
  intros [d Hd]. unfold digit_value in Hd. by destruct c as [[] [] [] [] [] [] [] []].
Qed.

Lemma strtoul_dec umax v : 0 ≤ v ≤ umax → strtoul umax (dec v) = v.
Proof.
  intros Hv. unfold strtoul. destruct (dec_head v) as (c & s & Hd & Hc & _).
  destruct (digit_start c s Hc) as [Hsk Hsg]. rewrite Hd, Hsk, Hsg, <-Hd.
  pose proof (read_digits_dec v "" ltac:(lia) ltac:(done)) as Hr.
  rewrite append_nil_r in Hr. rewrite Hr. simpl.
  rewrite (proj2 (Z.ltb_ge _ _)) by lia. done.
Qed.

(** [std::to_string] then [strtoull] is the identity. *)
Lemma strtoull_dec v : u64 v → strtoull (dec v) = v.
Proof. intros Hv. apply strtoul_dec. unfold u64 in Hv. lia. Qed.

(** ** Text without null characters *)

Fixpoint no_nul (s : string) : bool :=
  match s with EmptyString => true | String c s' => negb (Ascii.eqb c "000") && no_nul s' end.

Lemma no_nul_append s t : no_nul (s +:+ t) = no_nul s && no_nul t.
Proof.
  induction s as [|c s IH]; [done|]. rewrite append_cons. cbn [no_nul]. by rewrite IH, andb_assoc.
Qed.

Lemma no_nul_app s t : no_nul s → no_nul t → no_nul (s +:+ t).
Proof. rewrite no_nul_append. intros. by apply andb_True. Qed.

Lemma c_str_no_nul s : no_nul s → c_str s = s.
Proof.
  induction s as [|c s IH]; [done|]. cbn [no_nul c_str]. intros [Hc Hs]%andb_True.
  destruct (Ascii.eqb c "000"); [done|]. by rewrite IH.
Qed.

Lemma no_nul_pretty x s : no_nul s → no_nul (pretty_N_go x s).
Proof.
  revert s. induction (N.lt_wf_0 x) as [x _ IH]. intros s Hs.
  destruct (decide (x = 0%N)) as [->|Hx]; [by rewrite pretty_N_go_0|].
  rewrite pretty_N_go_step by lia. apply IH; [by apply N.div_lt; lia|].
  cbn [no_nul]. apply andb_True. split; [|done].
  unfold pretty_N_char. repeat case_match; exact I.
Qed.

Lemma no_nul_dec v : no_nul (dec v).
Proof.
  unfold dec, pretty, pretty_N. destruct (decide _); [exact I|]. by apply no_nul_pretty.
Qed.
