(* ===== verification/Json.v ===== *)
(** * JSON text

    [jesc] (tools/nvlink_fabric_inspect.cpp) and the part of the JSON grammar
    (RFC 8259) its output lies in: strings, non-negative integers and objects,
    without white space.  The parser is the specification the tool's output is
    held against. *)

From S2P Require Import Prelude Bytes Text.
From Stdlib Require Import Ascii.

(** The double quote. *)
Definition dq : ascii := "034".
Definition quote : string := String dq "".

(** ** [jesc] *)

(** The value of a [char], as [unsigned char]. *)
Definition jesc_char (c : ascii) : string :=
  if Ascii.eqb c dq then String "\" quote
  else if Ascii.eqb c "\" then "\\"
  else if Ascii.eqb c "010" then "\n"
  else if Ascii.eqb c "013" then "\r"
  else if Ascii.eqb c "009" then "\t"
  else if byte_of_char c <? 32 then snprintf 8 ("\u" +:+ fmt_0x 4 (byte_of_char c))
  else String c "".

Fixpoint jesc (s : string) : string :=
  match s with
  | EmptyString => ""
  | String c s' => jesc_char c +:+ jesc s'
  end.

(** ** Values and their text *)
#[warnings="-register-all"]
Inductive json := JString (s : string) | JNumber (v : Z) | JObject (members : list (string * json)).

Definition jstring (s : string) : string := quote +:+ jesc s +:+ quote.
Definition comma (b : bool) : string := if b then "," else "".

Section Members.
Context (value : json → string).
Fixpoint members (first : bool) (ms : list (string * json)) : string :=
  match ms with
  | [] => "}"
  | (k, v) :: ms' =>
      comma (negb first) +:+ jstring k +:+ ":" +:+ value v +:+ members false ms'
  end.
End Members.

Fixpoint render (j : json) : string :=
  match j with
  | JString s => jstring s
  | JNumber v => dec v
  | JObject ms => "{" +:+ members render true ms
  end.

(** ** Parsing *)

Definition hex_value (c : ascii) : option Z :=
  let n := byte_of_char c in
  if (48 <=? n) && (n <=? 57) then Some (n - 48)
  else if (97 <=? n) && (n <=? 102) then Some (n - 87)
  else if (65 <=? n) && (n <=? 70) then Some (n - 55)
  else None.

Definition hex4 (a b c d : ascii) : option Z :=
  match hex_value a, hex_value b, hex_value c, hex_value d with
  | Some a, Some b, Some c, Some d => Some (4096 * a + 256 * b + 16 * c + d)
  | _, _, _, _ => None
  end.

(** The character a one-letter escape stands for. *)
Definition short_escape (c : ascii) : option ascii :=
  if Ascii.eqb c dq then Some dq
  else if Ascii.eqb c "\" then Some "\"%char
  else if Ascii.eqb c "/" then Some "/"%char
  else if Ascii.eqb c "b" then Some "008"%char
  else if Ascii.eqb c "f" then Some "012"%char
  else if Ascii.eqb c "n" then Some "010"%char
  else if Ascii.eqb c "r" then Some "013"%char
  else if Ascii.eqb c "t" then Some "009"%char
  else None.

Definition cons_char (c : ascii) (r : option (string * string)) : option (string * string) :=
  match r with Some (s, rest) => Some (String c s, rest) | None => None end.

(** The string up to its closing quote, and what follows; a raw control
    character is refused, and so is an escape above the ASCII range. *)
Fixpoint read_string (s : string) : option (string * string) :=
  match s with
  | EmptyString => None
  | String c s1 =>
      if Ascii.eqb c dq then Some (EmptyString, s1)
      else if Ascii.eqb c "\" then
        match s1 with
        | String "u" (String a (String b (String c (String d s2)))) =>
            match hex4 a b c d with
            | Some v => if v <? 128 then cons_char (ascii_of_N (Z.to_N v)) (read_string s2) else None
            | None => None
            end
        | String e s2 =>
            match short_escape e with
            | Some c => cons_char c (read_string s2)
            | None => None
            end
        | EmptyString => None
        end
      else if byte_of_char c <? 32 then None
      else cons_char c (read_string s1)
  end.

Definition is_digit (c : ascii) : bool := match digit_value c with Some _ => true | None => false end.

(** A number: no sign, and no leading zero but in 0 itself. *)
Definition read_number (s : string) : option (Z * string) :=
  match s with
  | String "0" (String c _) => if is_digit c then None else Some (read_digits 0 s)
  | String c _ => if is_digit c then Some (read_digits 0 s) else None
  | EmptyString => None
  end.

(** [fuel] bounds the nesting and the number of members. *)
Fixpoint parse (fuel : nat) (s : string) : option (json * string) :=
  match fuel with
  | O => None
  | S fuel' =>
      match s with
      | EmptyString => None
      | String c s1 =>
          if Ascii.eqb c dq then
            match read_string s1 with Some (v, rest) => Some (JString v, rest) | None => None end
          else if Ascii.eqb c "{" then
            match s1 with
            | String "}" rest => Some (JObject [], rest)
            | _ => match parse_members fuel' s1 with
                   | Some (ms, rest) => Some (JObject ms, rest)
                   | None => None
                   end
            end
          else match read_number s with Some (v, rest) => Some (JNumber v, rest) | None => None end
      end
  end
with parse_members (fuel : nat) (s : string) : option (list (string * json) * string) :=
  match fuel with
  | O => None
  | S fuel' =>
      match s with
      | String c s1 =>
          if negb (Ascii.eqb c dq) then None
          else match read_string s1 with
          | Some (k, String ":" s2) =>
              match parse fuel' s2 with
              | Some (v, String "}" rest) => Some ([(k, v)], rest)
              | Some (v, String "," s3) =>
                  match parse_members fuel' s3 with
                  | Some (ms, rest) => Some ((k, v) :: ms, rest)
                  | None => None
                  end
              | _ => None
              end
          | _ => None
          end
      | EmptyString => None
      end
  end.

(** The whole text is one JSON value. *)
Definition parses_to (s : string) (j : json) : Prop := ∃ fuel, parse fuel s = Some (j, EmptyString).

(** ** Every rendered value parses back *)

Lemma json_members_ind (Q : json → Prop) :
  (∀ s, Q (JString s)) → (∀ v, Q (JNumber v)) →
  (∀ ms, Forall (λ m, Q m.2) ms → Q (JObject ms)) → ∀ j, Q j.
Proof.
  intros Hs Hn Ho. fix IH 1. intros [s|v|ms]; [apply Hs|apply Hn|]. apply Ho.
  induction ms as [|[k v] ms IHms]; constructor; [apply IH|apply IHms].
Qed.

(** Numbers are non-negative. *)
Fixpoint json_ok (j : json) : Prop :=
  match j with
  | JString _ => True
  | JNumber v => 0 ≤ v
  | JObject ms => foldr (λ m p, json_ok m.2 ∧ p) True ms
  end.

Fixpoint json_size (j : json) : nat :=
  match j with
  | JObject ms => S (foldr (λ m n, S (json_size m.2 + n)) 0 ms)
  | _ => 1
  end%nat.

Lemma read_string_char c t : read_string (jesc_char c +:+ t) = cons_char c (read_string t).
Proof. destruct c as [[] [] [] [] [] [] [] []]; reflexivity. Qed.

(** [jesc] between quotes is read back, whatever follows. *)
Lemma read_string_jesc s rest : read_string (jesc s +:+ String dq rest) = Some (s, rest).
Proof.
  induction s as [|c s IH]; [done|]. cbn [jesc].
  by rewrite append_assoc, read_string_char, IH.
Qed.

(** What can follow a number. *)
Definition delimited (rest : string) : Prop := ∀ c s, rest = String c s → digit_value c = None.

Lemma read_number_dec v rest :
  0 ≤ v → delimited rest → read_number (dec v +:+ rest) = Some (v, rest).
Proof.
  intros Hv Hr. pose proof (read_digits_dec v rest Hv Hr) as Hd.
  destruct (dec_head v) as (c & s & Hdec & [d Hc] & Hz).
  rewrite Hdec in *. rewrite append_cons in *. unfold read_number, is_digit.
  assert (read_digits 0 (String c (s +:+ rest)) = (v, rest)) as Hread by done.
  destruct (decide (c = "0"%char)) as [->|Hne].
  - rewrite (Hz eq_refl) in *. change (EmptyString +:+ rest) with rest in *. destruct rest as [|c' s'] eqn:E.
    + by rewrite Hread.
    + cbv beta iota. rewrite (Hr c' s') by done. by rewrite Hread.
  - rewrite Hc, Hread. destruct c as [[] [] [] [] [] [] [] []]; done.
Qed.

Lemma parse_number fuel v rest :
  0 ≤ v → delimited rest → parse (S fuel) (dec v +:+ rest) = Some (JNumber v, rest).
Proof.
  intros Hv Hr. pose proof (read_number_dec v rest Hv Hr) as Hn.
  destruct (dec_head v) as (c & s & Hdec & [d Hc] & _). rewrite Hdec, append_cons in *.
  cbn [parse]. rewrite Hn.
  destruct (Ascii.eqb_spec c dq) as [->|_]; [done|].
  destruct (Ascii.eqb_spec c "{") as [->|_]; [done|]. done.
Qed.

Lemma members_false_delimited ms rest : delimited (members render false ms +:+ rest).
Proof. intros c s. destruct ms as [|[k v] ms]; simpl; intros [= <- _]; done. Qed.

(** The members after an opening brace or a comma. *)
Lemma parse_members_render ms : Forall (λ m : string * json, json_ok m.2 → ∀ fuel rest,
    (json_size m.2 ≤ fuel)%nat → delimited rest →
    parse fuel (render m.2 +:+ rest) = Some (m.2, rest)) ms →
  foldr (λ m p, json_ok m.2 ∧ p) True ms → ms ≠ [] →
  ∀ fuel rest, (foldr (λ m n, S (json_size m.2 + n)) 0 ms ≤ fuel)%nat →
  parse_members fuel (members render true ms +:+ rest) = Some (ms, rest).
Proof.
  induction 1 as [|[k v] ms Hv _ IH]; [done|]. intros [Hok Hoks] _ fuel rest Hf.
  cbn [fst snd foldr] in *. destruct fuel as [|fuel]; [lia|].
  cbn [members negb comma]. unfold jstring, quote.
  rewrite !append_assoc, !append_cons, !append_nil_l.
  cbn [parse_members]. rewrite Ascii.eqb_refl. cbn [negb].
  rewrite read_string_jesc. cbv beta iota.
  rewrite Hv; [|done|lia|apply members_false_delimited].
  destruct ms as [|[k' v'] ms]; [done|].
  specialize (IH Hoks ltac:(done) fuel rest ltac:(simpl in *; lia)).
  cbn [members negb comma] in *. rewrite !append_assoc, !append_cons, !append_nil_l in *.
  cbv beta iota. by rewrite IH.
Qed.

Lemma parse_render j : json_ok j → ∀ fuel rest,
  (json_size j ≤ fuel)%nat → delimited rest → parse fuel (render j +:+ rest) = Some (j, rest).
Proof.
  induction j as [s|v|ms IH] using json_members_ind; intros Hok fuel rest Hf Hr;
    (destruct fuel as [|fuel]; [simpl in Hf; lia|]).
  - cbn [render]. unfold jstring, quote. rewrite !append_assoc, append_cons, append_nil_l.
    cbn [parse]. rewrite Ascii.eqb_refl, append_cons, append_nil_l. by rewrite read_string_jesc.
  - by apply parse_number.
  - cbn [render]. rewrite append_assoc, append_cons, append_nil_l. cbn [parse].
    destruct ms as [|m ms]; [done|].
    pose proof (parse_members_render (m :: ms) IH Hok ltac:(done) fuel rest) as Hm.
    rewrite Hm by (simpl in *; lia). destruct m as [k v]. cbn [members negb comma].
    unfold jstring, quote. by rewrite !append_assoc, !append_cons, !append_nil_l.
Qed.

(** A rendered value is a JSON text, of that value and no other. *)
Lemma render_parses j : json_ok j → parses_to (render j) j.
Proof.
  intros Hj. exists (json_size j). rewrite <-(append_nil_r (render j)).
  by apply parse_render.
Qed.
