(* ===== verification/Protocol.v ===== *)
(** * Framed coordinator/worker protocol (protocol.hpp, protocol.cpp)

    Frame layout: magic 4, version 1, type 1, payload length 4, payload,
    CRC-32 4. *)

From S2P Require Import Prelude Enums Records Bytes BytesFacts.

(** ** Messages *)
Inductive MessageType :=
| HELLO | REGISTER | PUBLISH_DEVICE | PUBLISH_LINK | PUBLISH_TOPOLOGY
| PUBLISH_MEASUREMENT | READY | QUERY | ROUTE | HEARTBEAT | GOODBYE
| UNNAMED_MESSAGE (b : Z).
#[export] Instance MessageType_eq_dec : EqDecision MessageType.
Proof. solve_decision. Defined.

Definition message_type_to_u8 (t : MessageType) : Z :=
  match t with
  | HELLO => 1 | REGISTER => 2 | PUBLISH_DEVICE => 3 | PUBLISH_LINK => 4
  | PUBLISH_TOPOLOGY => 5 | PUBLISH_MEASUREMENT => 6 | READY => 7 | QUERY => 8
  | ROUTE => 9 | HEARTBEAT => 10 | GOODBYE => 11 | UNNAMED_MESSAGE b => b
  end.
Definition message_type_of_u8 (b : Z) : MessageType :=
  match b with
  | 1 => HELLO | 2 => REGISTER | 3 => PUBLISH_DEVICE | 4 => PUBLISH_LINK
  | 5 => PUBLISH_TOPOLOGY | 6 => PUBLISH_MEASUREMENT | 7 => READY | 8 => QUERY
  | 9 => ROUTE | 10 => HEARTBEAT | 11 => GOODBYE | _ => UNNAMED_MESSAGE b
  end.
Definition message_type_name (t : MessageType) : string :=
  match t with
  | HELLO => "HELLO" | REGISTER => "REGISTER" | PUBLISH_DEVICE => "PUBLISH_DEVICE"
  | PUBLISH_LINK => "PUBLISH_LINK" | PUBLISH_TOPOLOGY => "PUBLISH_TOPOLOGY"
  | PUBLISH_MEASUREMENT => "PUBLISH_MEASUREMENT" | READY => "READY" | QUERY => "QUERY"
  | ROUTE => "ROUTE" | HEARTBEAT => "HEARTBEAT" | GOODBYE => "GOODBYE"
  | UNNAMED_MESSAGE _ => "UNKNOWN"
  end.

Record Frame := mkFrame { fr_type : MessageType; fr_payload : list Z }.

Definition kMagic : Z := 0x46564E4E.
Definition kVersion : Z := 1.
Definition kHeaderNoPayload : Z := 4 + 1 + 1 + 4.
Definition kCrcBytes : Z := 4.

Definition valid_type (t : Z) : bool :=
  (message_type_to_u8 HELLO <=? t) && (t <=? message_type_to_u8 GOODBYE) && negb (t =? 0).

(** ** Strings of the payloads *)

(** [put_str]: at most 65535 bytes, length and contents cut alike. *)
Definition put_str (s : string) : list Z :=
  let b := bytes_of_string s in
  let len := if zlen b <=? 65535 then zlen b else 65535 in
  put_u16 len ++ take (Z.to_nat len) b.

(** [PayloadReader::str]: no bound of its own. *)
Definition read_str : Reader → string * Reader := read_str_bounded (λ _, false).

(** ** Frames *)
Definition frame_prefix (f : Frame) : list Z :=
  put_u32 kMagic ++ put_u8 kVersion ++ put_u8 (message_type_to_u8 (fr_type f)) ++
  put_u32 (zlen (fr_payload f)) ++ fr_payload f.

Definition encode_frame (f : Frame) (max_bytes : Z) : Result (list Z) :=
  if max_bytes <? zlen (fr_payload f) + kHeaderNoPayload + kCrcBytes then
    err ErrorCode.RESOURCE_LIMIT "frame payload exceeds bound"
  else Ok (frame_prefix f ++ put_u32 (crc32 (frame_prefix f))).

(** [bytes[pos]], for positions below the length. *)
Definition byte_at (bytes : list Z) (pos : nat) : Z := default 0 (bytes !! pos).
(** Four bytes from [pos] on, or-ed together. *)
Definition u32_at (bytes : list Z) (pos : nat) : Z := get_le (take 4 (drop pos bytes)).

Definition decode_frame (bytes : list Z) (max_bytes : Z) : Result Frame :=
  if zlen bytes <? kHeaderNoPayload + kCrcBytes then
    err ErrorCode.PROTOCOL_ERROR "frame shorter than header+checksum"
  else
    let magic := u32_at bytes 0 in
    if negb (magic =? kMagic) then err ErrorCode.PROTOCOL_ERROR "bad magic"
    else
      let version := byte_at bytes 4 in
      if negb (version =? kVersion) then
        err ErrorCode.PROTOCOL_ERROR "unsupported protocol version"
      else
        let type_byte := byte_at bytes 5 in
        if negb (valid_type type_byte) then err ErrorCode.PROTOCOL_ERROR "invalid message type"
        else
          let payload_len := u32_at bytes 6 in
          let frame_size := kHeaderNoPayload + payload_len + kCrcBytes in
          if max_bytes <? frame_size then
            err ErrorCode.RESOURCE_LIMIT "frame exceeds configured bound"
          else if zlen bytes <? frame_size then err ErrorCode.PROTOCOL_ERROR "truncated frame"
          else if negb (zlen bytes =? frame_size) then
            err ErrorCode.PROTOCOL_ERROR "trailing bytes after frame"
          else
            let expected := crc32 (take (Z.to_nat (frame_size - kCrcBytes)) bytes) in
            let stored := u32_at bytes (Z.to_nat (frame_size - 4)) in
            if negb (stored =? expected) then
              err ErrorCode.PROTOCOL_ERROR "frame checksum mismatch"
            else
              Ok (mkFrame (message_type_of_u8 type_byte)
                    (take (Z.to_nat payload_len) (drop (Z.to_nat kHeaderNoPayload) bytes))).

(** ** Facts *)

Definition frame_wf (f : Frame) : Prop :=
  valid_type (message_type_to_u8 (fr_type f)) = true ∧
  message_type_of_u8 (message_type_to_u8 (fr_type f)) = fr_type f ∧
  bytes_ok (fr_payload f).

Lemma valid_type_round b : message_type_to_u8 (message_type_of_u8 b) = b.
Proof. unfold message_type_of_u8. repeat case_match; done. Qed.

Lemma valid_type_of_u8 b : valid_type b = true →
  message_type_of_u8 (message_type_to_u8 (message_type_of_u8 b)) = message_type_of_u8 b.
Proof. by rewrite valid_type_round. Qed.

(** A byte string of at least fourteen bytes, cut into the fields. *)
Lemma frame_fields bytes :
  14 ≤ zlen bytes →
  ∃ (m : list Z) (v t : Z) (l p c : list Z), bytes = m ++ v :: t :: l ++ p ++ c ∧
    length m = 4%nat ∧ length l = 4%nat ∧ length c = 4%nat.
Proof.
  unfold zlen. intros Hlen.
  assert (∀ n (b : list Z), (n ≤ length b)%nat → ∃ x y, b = x ++ y ∧ length x = n) as Hcut.
  { intros n b Hn. exists (take n b), (drop n b). rewrite take_drop, length_take. split; [done|lia]. }
  destruct (Hcut 4%nat bytes) as (m & b1 & -> & Hm); [lia|]. rewrite length_app in Hlen.
  destruct b1 as [|v [|t b2]]; simpl in Hlen; [lia..|].
  destruct (Hcut 4%nat b2) as (l & b3 & -> & Hl); [lia|]. rewrite length_app in Hlen.
  destruct (Hcut (length b3 - 4)%nat b3) as (p & c & -> & Hp); [lia|].
  exists m, v, t, l, p, c. split_and!; try done. rewrite length_app in *. lia.
Qed.

Section Parts.
Context (m : list Z) (v t : Z) (l p c : list Z).
Hypotheses (Hm : length m = 4%nat) (Hl : length l = 4%nat) (Hc : length c = 4%nat).
Let bytes := m ++ v :: t :: l ++ p ++ c.

Lemma parts_len : zlen bytes = 14 + zlen p.
Proof. unfold bytes, zlen. rewrite length_app. simpl. rewrite !length_app. lia. Qed.

Lemma parts_magic : u32_at bytes 0 = get_le m.
Proof. unfold u32_at, bytes. rewrite drop_0, <-Hm. by rewrite take_app_length. Qed.

Lemma parts_version : byte_at bytes 4 = v.
Proof. unfold byte_at, bytes. by rewrite lookup_app_r, Hm by lia. Qed.

Lemma parts_type : byte_at bytes 5 = t.
Proof. unfold byte_at, bytes. by rewrite lookup_app_r, Hm by lia. Qed.

Lemma parts_drop6 : drop 6 bytes = l ++ p ++ c.
Proof. unfold bytes. rewrite drop_app_ge, Hm by lia. done. Qed.

Lemma parts_length : u32_at bytes 6 = get_le l.
Proof. unfold u32_at. rewrite parts_drop6, <-Hl. by rewrite take_app_length. Qed.

Lemma parts_payload n : n = length p → take n (drop 10 bytes) = p.
Proof.
  intros ->. change 10%nat with (6 + 4)%nat. rewrite <-drop_drop, parts_drop6, <-Hl.
  by rewrite drop_app_length, take_app_length.
Qed.

Lemma parts_prefix n : n = (10 + length p)%nat → take n bytes = m ++ v :: t :: l ++ p.
Proof.
  intros ->. unfold bytes.
  replace (m ++ v :: t :: l ++ p ++ c) with ((m ++ v :: t :: l ++ p) ++ c)
    by (rewrite <-(assoc_L (++)); simpl; by rewrite <-(assoc_L (++))).
  apply take_app_length'. rewrite length_app. simpl. rewrite length_app. lia.
Qed.

Lemma parts_stored n : n = (10 + length p)%nat → u32_at bytes n = get_le c.
Proof.
  intros ->. unfold u32_at. change (10 + length p)%nat with (6 + (4 + length p))%nat.
  rewrite <-drop_drop, parts_drop6.
  rewrite (assoc_L (++)), drop_app_length', take_ge by (rewrite ?length_app; lia). done.
Qed.

(** The decoder accepts exactly when every field is right. *)
Lemma decode_parts max f :
  decode_frame bytes max = Ok f ↔
  get_le m = kMagic ∧ v = kVersion ∧ valid_type t = true ∧ get_le l = zlen p ∧
  14 + zlen p ≤ max ∧ get_le c = crc32 (m ++ v :: t :: l ++ p) ∧
  f = mkFrame (message_type_of_u8 t) p.
Proof.
  unfold decode_frame, kHeaderNoPayload, kCrcBytes.
  rewrite parts_len, parts_magic, parts_version, parts_type, parts_length.
  pose proof (zlen_nonneg p) as Hp0. rewrite (proj2 (Z.ltb_ge _ _)) by lia.
  destruct (get_le m =? kMagic) eqn:E1; simpl; to_props; [|naive_solver].
  destruct (v =? kVersion) eqn:E2; simpl; to_props; [|naive_solver].
  destruct (valid_type t) eqn:E3; simpl; [|naive_solver].
  destruct (max <? _) eqn:E4; simpl; to_props.
  { split; [done|]. intros (_&_&_&?&?&_). lia. }
  destruct (14 + zlen p <? _) eqn:E5; simpl; to_props.
  { split; [done|]. intros (_&_&_&?&_). lia. }
  destruct (_ =? _) eqn:E6; simpl; to_props.
  2: { split; [done|]. intros (_&_&_&?&_). lia. }
  assert (get_le l = zlen p) as Hlen by lia.
  unfold zlen in *.
  rewrite parts_prefix, parts_stored, parts_payload by lia.
  destruct (get_le c =? _) eqn:E7; simpl; to_props; [|naive_solver].
  split; [|naive_solver]. intros [= <-]. split_and!; auto; lia.
Qed.
End Parts.

Lemma frame_prefix_parts f :
  frame_prefix f = put_u32 kMagic ++ kVersion :: Z.land (message_type_to_u8 (fr_type f)) 255 ::
    put_u32 (zlen (fr_payload f)) ++ fr_payload f.
Proof. done. Qed.

Lemma valid_type_u8 t : valid_type t = true → u8 t.
Proof. unfold valid_type, u8. simpl. intros. to_props. lia. Qed.

Lemma land_255_small v : u8 v → Z.land v 255 = v.
Proof.
  unfold u8. intros. change 255 with (Z.ones 8). rewrite Z.land_ones by lia. by apply Z.mod_small.
Qed.

Lemma frame_prefix_ok f : bytes_ok (fr_payload f) → bytes_ok (frame_prefix f).
Proof.
  intros H. unfold frame_prefix. repeat (apply Forall_app; split); try apply put_le_ok. done.
Qed.
