(* ===== verification/ProtocolProps.v ===== *)
(** * The frame codec: properties *)

From S2P Require Import Prelude Enums Records Bytes BytesFacts Protocol.

Lemma decode_frame_iff bs max f :
  bytes_ok bs → max < two32 →
  decode_frame bs max = Ok f ↔ frame_wf f ∧ encode_frame f max = Ok bs.
Proof.
  intros Hok Hmax. split.
  - intros Hd. assert (14 ≤ zlen bs) as Hlen.
    { unfold decode_frame, kHeaderNoPayload, kCrcBytes in Hd.
      destruct (zlen bs <? _) eqn:E; [done|]. to_props. lia. }
    destruct (frame_fields bs Hlen) as (m & v & t & l & p & c & -> & Hm & Hl & Hc).
    apply decode_parts in Hd as (Hmag & -> & Ht & Hpl & Hsz & Hcrc & ->); [|done..].
    apply Forall_app in Hok as [Hokm [_ [Hokt [Hokl [Hokp Hokc]%Forall_app]%Forall_app]%Forall_cons]%Forall_cons].
    split; [split_and!; simpl; [by rewrite valid_type_round|by apply valid_type_of_u8|done]|].
    unfold encode_frame, kHeaderNoPayload, kCrcBytes. cbn [fr_payload].
    rewrite (proj2 (Z.ltb_ge _ _)) by lia. f_equal. rewrite frame_prefix_parts. cbn [fr_type fr_payload].
    rewrite valid_type_round, (land_255_small t) by done.
    assert (put_u32 kMagic = m) as -> by (unfold put_u32; rewrite <-Hmag, <-Hm; by apply put_get_le).
    assert (put_u32 (zlen p) = l) as -> by (unfold put_u32; rewrite <-Hpl, <-Hl; by apply put_get_le).
    rewrite <-Hcrc. assert (put_u32 (get_le c) = c) as -> by
      (unfold put_u32; rewrite <-Hc; by apply put_get_le).
    rewrite <-(assoc_L (++)). cbn [app]. by rewrite <-(assoc_L (++)).
  - intros [(Ht & Hr & Hp) He]. unfold encode_frame, kHeaderNoPayload, kCrcBytes in He.
    destruct (max <? _) eqn:E; [done|]. to_props. apply Ok_inj in He. subst bs.
    rewrite frame_prefix_parts at 1. rewrite <-(assoc_L (++)). cbn [app]. rewrite <-(assoc_L (++)).
    unfold two32 in Hmax. pose proof (zlen_nonneg (fr_payload f)).
    apply decode_parts; [apply put_le_length..|]. rewrite land_255_small by by apply valid_type_u8.
    split_and!; try done.
    + apply (get_put_le 4). lia.
    + lia.
    + unfold put_u32. rewrite get_put_le by (by apply crc32_range, frame_prefix_ok).
      rewrite frame_prefix_parts, land_255_small by by apply valid_type_u8. done.
    + rewrite Hr. by destruct f.
Qed.

(** C16.  The decoder is the exact inverse of the encoder: a byte string is
    accepted, as a frame [f], exactly when it is the encoding of the
    well-formed frame [f].  So every encoded frame decodes to itself, and
    there is one accepted encoding per frame: nothing truncated, extended,
    mistyped or with another header is accepted. *)
Theorem decode_encode_exact bs max f :
  bytes_ok bs → max < two32 →
  decode_frame bs max = Ok f ↔ frame_wf f ∧ encode_frame f max = Ok bs.
Proof. apply decode_frame_iff. Qed.

Definition hello_frame : Frame := mkFrame HELLO (put_u64 7 ++ put_u64 1 ++ put_u64 1).
Definition hello_bytes : list Z :=
  match encode_frame hello_frame 1024 with Ok b => b | Err _ => [] end.

Lemma decode_encode_exact_witness : decode_frame hello_bytes 1024 = Ok hello_frame.
Proof.
  apply (decode_encode_exact hello_bytes 1024 hello_frame).
  - apply (bool_decide_unpack _). vm_compute. exact I.
  - reflexivity.
  - split; [|vm_compute; reflexivity]. split_and!; [reflexivity..|].
    apply (bool_decide_unpack _). vm_compute. exact I.
Defined.

Lemma encode_frame_sealed f max bs :
  bytes_ok (fr_payload f) → encode_frame f max = Ok bs → sealed bs.
Proof.
  intros Hp He. unfold encode_frame in He. destruct (max <? _); [done|].
  apply Ok_inj in He. subst bs. exists (frame_prefix f). split; [|done].
  by apply frame_prefix_ok.
Qed.

(** A frame with any one byte changed is rejected. *)
Lemma corrupted_frame_rejected f max pre b b' post :
  frame_wf f → max < two32 → encode_frame f max = Ok (pre ++ b :: post) →
  u8 b' → b' ≠ b → ∃ e, decode_frame (pre ++ b' :: post) max = Err e.
Proof.
  intros Hf Hmax He Hb' Hne.
  destruct (decode_frame (pre ++ b' :: post) max) as [f'|e] eqn:Hd; [|by exists e].
  exfalso. apply Hne. symmetry.
  assert (sealed (pre ++ b :: post)) as Hs by (by eapply encode_frame_sealed; [apply Hf|]).
  apply (sealed_single_byte pre b b' post); [done|].
  assert (bytes_ok (pre ++ b' :: post)) as Hok.
  { destruct Hs as (p & Hp & Heq).
    assert (bytes_ok (pre ++ b :: post)) as H0.
    { rewrite Heq. apply Forall_app. split; [done|apply put_le_ok]. }
    apply Forall_app in H0 as [? [_ ?]%Forall_cons]. apply Forall_app. split; [done|].
    by apply Forall_cons. }
  apply decode_frame_iff in Hd as [Hwf Hd]; [|done..].
  by eapply encode_frame_sealed; [apply Hwf|].
Qed.

Lemma corrupted_frame_rejected_witness :
  ∃ e, decode_frame (take 12 hello_bytes ++ 255 :: drop 13 hello_bytes) 1024 = Err e.
Proof.
  apply (corrupted_frame_rejected hello_frame 1024 (take 12 hello_bytes) 0 255 (drop 13 hello_bytes)).
  - split_and!; [reflexivity..|]. apply (bool_decide_unpack _). vm_compute. exact I.
  - reflexivity.
  - vm_compute. reflexivity.
  - by apply (bool_decide_unpack _).
  - done.
Defined.

(** An accepted string is as long as its header says. *)
Lemma decode_frame_length bs max f :
  decode_frame bs max = Ok f → zlen bs = kHeaderNoPayload + u32_at bs 6 + kCrcBytes.
Proof.
  unfold decode_frame. intros Hd. repeat (case_match; [done|]). by to_props.
Qed.

(** Frames are self-delimiting: no accepted frame is a proper prefix of
    another accepted one, so a frame followed by anything, and a frame cut
    short anywhere, are rejected. *)
Lemma frames_prefix_free bs rest max f f' :
  decode_frame bs max = Ok f → decode_frame (bs ++ rest) max = Ok f' → rest = [].
Proof.
  intros H1 H2. apply decode_frame_length in H1 as Hl1. apply decode_frame_length in H2 as Hl2.
  assert (u32_at (bs ++ rest) 6 = u32_at bs 6) as E.
  { unfold u32_at. unfold decode_frame, kHeaderNoPayload, kCrcBytes in H1.
    destruct (zlen bs <? _) eqn:Hs; [done|]. to_props. unfold zlen in Hs.
    rewrite drop_app_le, take_app_le by (rewrite ?length_drop; lia). done. }
  rewrite E in Hl2. unfold zlen in *. rewrite length_app in Hl2.
  apply length_zero_iff_nil. lia.
Qed.

Lemma frames_prefix_free_witness :
  decode_frame (hello_bytes ++ []) 1024 = Ok hello_frame ∧ ([] : list Z) = [].
Proof.
  assert (decode_frame (hello_bytes ++ []) 1024 = Ok hello_frame) as H
    by (vm_compute; reflexivity).
  split; [exact H|].
  by apply (frames_prefix_free hello_bytes [] 1024 hello_frame hello_frame); [vm_compute|].
Defined.
