(* ===== verification/Serialization.v ===== *)
(** * Durable-state serialization (serialization.hpp, serialization.cpp) *)

From S2P Require Import Prelude Enums Double Records World Bytes.

Definition durable_magic : Z := 0x4446564E.
Definition durable_version : Z := 1.
Definition kMaxString : Z := 4096.

(** ** Writer: [Writer::str] writes the length modulo 2^16, then every byte *)
Definition write_str (s : string) : list Z := put_u16 (slen s) ++ bytes_of_string s.
Definition write_enum {E} `{EnumU8 E} (e : E) : list Z := put_u8 (to_u8 e).

Definition write_capability (c : Capability) : list Z :=
  write_enum (interconnect c) ++ put_u32 (cap_link_count c) ++
  put_u32 (nominal_lane_width c) ++ put_u64 (nominal_bandwidth_bps c) ++
  put_bool (peer_access_supported c) ++ write_enum (measurement_support c) ++
  put_u32 (supported_counters c) ++ put_bool (telemetry_supported c).

Definition write_evidence (e : Evidence) : list Z :=
  write_enum (evidence_class e) ++ put_u32 (provenance e) ++
  write_str (ev_source e) ++ write_str (ev_note e).

Definition write_timestamp (t : Timestamp) : list Z :=
  put_u64 (wrap64 (unix_ns t)) ++ put_bool (ts_valid t).

Definition write_device (d : DeviceRecord) : list Z :=
  put_u64 (dev_id d) ++ write_str (dev_logical_name d) ++ write_enum (dev_kind d) ++
  write_str (dev_backend d) ++ write_str (dev_backend_instance d) ++
  write_str (dev_pci_identity d) ++ put_opt put_u32 (dev_cuda_ordinal d) ++
  write_str (dev_vendor d) ++ write_str (dev_architecture d) ++
  write_str (dev_device_generation d) ++ write_capability (dev_capability d) ++
  write_enum (dev_health d) ++ write_evidence (dev_evidence d) ++
  put_u64 (dev_generation d) ++ put_opt put_u64 (dev_owner_worker d) ++
  put_opt put_u64 (dev_owner_boot d).

Definition write_link (l : LinkRecord) : list Z :=
  put_u64 (lk_id l) ++ put_u64 (lk_source l) ++ put_u64 (lk_target l) ++
  put_bool (lk_directed l) ++ write_str (lk_physical_identifier l) ++
  write_enum (lk_state l) ++ write_enum (lk_technology l) ++
  write_capability (lk_capability l) ++ put_u64 (lk_generation l) ++
  write_evidence (lk_evidence l) ++ write_timestamp (lk_last_observation l) ++
  put_bool (lk_measurement_supported l) ++ put_bool (lk_degraded l) ++
  write_str (lk_degradation_note l) ++ put_u64 (lk_topology_generation l).

Definition write_durable (s : DurableState) : list Z :=
  put_u64 (ds_topology_generation s) ++ write_timestamp (ds_saved_at s) ++
  put_u32 (zlen (ds_devices s)) ++ (ds_devices s ≫= write_device) ++
  put_u32 (zlen (ds_links s)) ++ (ds_links s ≫= write_link).

Record Serialized := mkSerialized { format_version : Z; ser_bytes : list Z }.

(** Header with the payload length patched in, and payload. *)
Definition serialized_prefix (s : DurableState) : list Z :=
  put_u32 durable_magic ++ put_u32 durable_version ++
  put_u32 (zlen (write_durable s)) ++ write_durable s.

Definition serialize_durable_state (s : DurableState) : Result Serialized :=
  Ok (mkSerialized durable_version
        (serialized_prefix s ++ put_u32 (crc32 (serialized_prefix s)))).

(** ** Reader *)
Definition read_short_str : Reader → string * Reader :=
  read_str_bounded (λ n, kMaxString <? n).
Definition read_enum {E} `{EnumU8 E} : Reader → E * Reader :=
  let* b := read_u8 in ret (of_u8 b).

(** [static_cast<std::int64_t>]. *)
Definition to_i64 (v : Z) : Z := if v <? 2 ^ 63 then v else v - two64.

Section ReaderSection.
Context `{Platform}.

(** [Timestamp(r.u64(), r.u8() != 0u)]: the two reads happen in the order
    the platform evaluates arguments. *)
Definition read_timestamp : Reader → Timestamp * Reader :=
  match arg_order with
  | LeftToRight =>
      let* ns := read_u64 in let* v := read_bool in ret (mkTimestamp (to_i64 ns) v)
  | RightToLeft =>
      let* v := read_bool in let* ns := read_u64 in ret (mkTimestamp (to_i64 ns) v)
  end.

Definition read_capability : Reader → Capability * Reader :=
  let* i := read_enum in let* lc := read_u32 in let* lw := read_u32 in
  let* nb := read_u64 in let* pa := read_bool in let* ms := read_enum in
  let* sc := read_u32 in let* ts := read_bool in
  ret (mkCapability i lc lw nb pa ms sc ts).

Definition read_evidence : Reader → Evidence * Reader :=
  let* c := read_enum in let* p := read_u32 in
  let* s := read_short_str in let* n := read_short_str in
  ret (mkEvidence c p s n).

Definition read_device : Reader → DeviceRecord * Reader :=
  let* id := read_u64 in let* name := read_short_str in let* kind := read_enum in
  let* backend := read_short_str in let* inst := read_short_str in
  let* pci := read_short_str in let* ord := read_opt read_u32 in
  let* vendor := read_short_str in let* arch := read_short_str in
  let* dgen := read_short_str in let* cap := read_capability in
  let* health := read_enum in let* ev := read_evidence in
  let* gen := read_u64 in let* ow := read_opt read_u64 in let* ob := read_opt read_u64 in
  ret (mkDevice id name kind backend inst pci ord vendor arch dgen cap health ev gen ow ob).

Definition read_link : Reader → LinkRecord * Reader :=
  let* id := read_u64 in let* src := read_u64 in let* tgt := read_u64 in
  let* directed := read_bool in let* phys := read_short_str in
  let* st := read_enum in let* tech := read_enum in
  let* cap := read_capability in let* gen := read_u64 in
  let* ev := read_evidence in let* last := read_timestamp in
  let* ms := read_bool in let* deg := read_bool in
  let* note := read_short_str in let* tgen := read_u64 in
  ret (mkLink id src tgt directed phys st tech cap gen ev last ms deg note tgen).

(** ** [deserialize_durable_state] *)
Definition integrity {A} (msg : string) : Reader → Result A * Reader :=
  ret (err ErrorCode.INTEGRITY_FAILURE msg).

(** The loop over the records: a bad record ends it. *)
Fixpoint read_records {A} (rd : Reader → A * Reader) (msg : string) (n : nat)
    : Reader → Result (list A) * Reader :=
  match n with
  | O => ret (Ok [])
  | S n' =>
      let* x := rd in let* bad := read_bad in
      if bad then integrity msg
      else
        let* rest := read_records rd msg n' in
        ret (match rest with Ok l => Ok (x :: l) | Err e => Err e end)
  end.

(** The payload, up to the checksum. *)
Definition read_durable : Reader → Result DurableState * Reader :=
  let* topo := read_u64 in
  let* saved := read_timestamp in
  let* nd := read_u32 in
  let* bad := read_bad in
  if bad || (max_devices default_limits <? nd) then integrity "impossible device count"
  else
    let* ds := read_records read_device "corrupt device record" (Z.to_nat nd) in
    match ds with
    | Err e => ret (Err e)
    | Ok ds =>
        let* nl := read_u32 in
        let* bad := read_bad in
        if bad || (max_links default_limits <? nl) then integrity "impossible link count"
        else
          let* ls := read_records read_link "corrupt link record" (Z.to_nat nl) in
          match ls with
          | Err e => ret (Err e)
          | Ok ls => ret (Ok (mkDurable durable_format_version topo ds ls saved))
          end
    end.

(** The checks after the payload, with the reader's final position. *)
Definition check_frame (bytes : list Z) (payload_len : Z) (st : DurableState) (r : Reader)
    : Result DurableState :=
  let cs_pos := 4 + 4 + 4 + payload_len in
  let expected := crc32 (take (Z.to_nat cs_pos) bytes) in
  if zlen bytes <? cs_pos + 4 then err ErrorCode.INTEGRITY_FAILURE "missing checksum"
  else
    let stored := get_le (take 4 (drop (Z.to_nat cs_pos) bytes)) in
    if negb (zlen bytes =? cs_pos + 4) then
      err ErrorCode.INTEGRITY_FAILURE "trailing garbage after frame"
    else if negb (stored =? expected) then
      err ErrorCode.INTEGRITY_FAILURE "checksum mismatch (corrupt frame)"
    else if negb (rd_pos r =? cs_pos) then
      err ErrorCode.INTEGRITY_FAILURE "payload length inconsistent"
    else Ok st.

Definition deserialize_durable_state (s : Serialized) : Result DurableState :=
  let bytes := ser_bytes s in
  if negb (format_version s =? durable_version) then
    err ErrorCode.INTEGRITY_FAILURE "unsupported serialized version"
  else if zlen bytes <? 4 + 4 + 4 + 4 then err ErrorCode.INTEGRITY_FAILURE "frame too short"
  else
    let '(magic, r) := read_u32 (reader bytes) in
    let '(version, r) := read_u32 r in
    let '(payload_len, r) := read_u32 r in
    if negb (magic =? durable_magic) then err ErrorCode.INTEGRITY_FAILURE "bad magic"
    else if negb (version =? durable_version) then
      err ErrorCode.INTEGRITY_FAILURE "unsupported version"
    else if negb (remaining payload_len r) then
      err ErrorCode.INTEGRITY_FAILURE "truncated payload"
    else if negb (remaining 4 r) then err ErrorCode.INTEGRITY_FAILURE "missing checksum"
    else
      let '(st, r) := read_durable r in
      match st with
      | Err e => Err e
      | Ok st => check_frame bytes payload_len st r
      end.
End ReaderSection.
