(* ===== verification/SerializationFacts.v ===== *)
(** * Durable-state serialization: each decoder reads its encoder *)

From S2P Require Import Prelude Enums Double Records World Bytes BytesFacts Serialization.

(** ** Values the fields can hold *)

(** Strings within the reader's bound. *)
Definition str_ok (s : string) : Prop := slen s ≤ kMaxString.

Record capability_typed (c : Capability) : Prop := {
  ct_interconnect : enum_wf (interconnect c);
  ct_links : u32 (cap_link_count c);
  ct_lanes : u32 (nominal_lane_width c);
  ct_nominal : u64 (nominal_bandwidth_bps c);
  ct_support : enum_wf (measurement_support c);
  ct_counters : u32 (supported_counters c)
}.

Record evidence_typed (e : Evidence) : Prop := {
  et_class : enum_wf (evidence_class e);
  et_prov : u32 (provenance e);
  et_source : str_ok (ev_source e);
  et_note : str_ok (ev_note e)
}.

Record device_typed (d : DeviceRecord) : Prop := {
  dt_id : u64 (dev_id d);
  dt_name : str_ok (dev_logical_name d);
  dt_kind : enum_wf (dev_kind d);
  dt_backend : str_ok (dev_backend d);
  dt_instance : str_ok (dev_backend_instance d);
  dt_pci : str_ok (dev_pci_identity d);
  dt_ordinal : ∀ v, dev_cuda_ordinal d = Some v → u32 v;
  dt_vendor : str_ok (dev_vendor d);
  dt_arch : str_ok (dev_architecture d);
  dt_dgen : str_ok (dev_device_generation d);
  dt_cap : capability_typed (dev_capability d);
  dt_health : enum_wf (dev_health d);
  dt_evidence : evidence_typed (dev_evidence d);
  dt_gen : u64 (dev_generation d);
  dt_worker : ∀ v, dev_owner_worker d = Some v → u64 v;
  dt_boot : ∀ v, dev_owner_boot d = Some v → u64 v
}.

Definition timestamp_typed (t : Timestamp) : Prop := - 2 ^ 63 ≤ unix_ns t < 2 ^ 63.

Record link_typed (l : LinkRecord) : Prop := {
  lt_id : u64 (lk_id l);
  lt_source : u64 (lk_source l);
  lt_target : u64 (lk_target l);
  lt_phys : str_ok (lk_physical_identifier l);
  lt_state : enum_wf (lk_state l);
  lt_tech : enum_wf (lk_technology l);
  lt_cap : capability_typed (lk_capability l);
  lt_gen : u64 (lk_generation l);
  lt_evidence : evidence_typed (lk_evidence l);
  lt_last : timestamp_typed (lk_last_observation l);
  lt_note : str_ok (lk_degradation_note l);
  lt_tgen : u64 (lk_topology_generation l)
}.

(** A state the deserializer has room for: it bounds the counts by the default
    limits, whatever the registry's. *)
Record durable_typed (s : DurableState) : Prop := {
  st_version : ds_format_version s = durable_format_version;
  st_gen : u64 (ds_topology_generation s);
  st_saved : timestamp_typed (ds_saved_at s);
  st_devices : Forall device_typed (ds_devices s);
  st_links : Forall link_typed (ds_links s);
  st_num_devices : zlen (ds_devices s) ≤ max_devices default_limits;
  st_num_links : zlen (ds_links s) ≤ max_links default_limits
}.

(** ** Field codecs *)

Lemma reads_short_str s : str_ok s → reads read_short_str (write_str s) s.
Proof.
  unfold str_ok, kMaxString. intros Hs. apply reads_str_bounded; [lia|].
  apply Z.ltb_ge. done.
Qed.

Lemma reads_enum {E} `{EnumU8 E} (e : E) : enum_wf e → reads read_enum (write_enum e) e.
Proof.
  intros He. unfold read_enum, write_enum. rewrite <-(of_to_u8 e He) at 2.
  apply (reads_last read_u8 of_u8), reads_u8. by apply to_u8_range.
Qed.

#[export] Hint Resolve reads_u8 reads_u32 reads_u64 reads_bool reads_short_str reads_enum
  reads_opt reads_ret : fabric.

(** Walks a decoder along its encoder, field by field. *)
Ltac walk_reads :=
  repeat first
    [ eapply reads_last_eq; [solve [eauto with fabric]|reflexivity]
    | eapply reads_bind; [solve [eauto with fabric]|] ].

Lemma reads_capability c : capability_typed c → reads read_capability (write_capability c) c.
Proof.
  intros []. unfold read_capability, write_capability. destruct c. walk_reads.
Qed.

Lemma reads_evidence e : evidence_typed e → reads read_evidence (write_evidence e) e.
Proof.
  intros []. unfold read_evidence, write_evidence. destruct e. walk_reads.
Qed.

#[export] Hint Resolve reads_capability reads_evidence : fabric.

Lemma reads_device d : device_typed d → reads read_device (write_device d) d.
Proof. intros []. unfold read_device, write_device. destruct d. walk_reads. Qed.

(** ** Timestamps: what the second argument's position makes of them *)

(** Cutting the encoding of a wider integer. *)
Lemma put_le_app n k v : put_le (n + k) v = put_le n v ++ put_le k (Z.shiftr v (8 * Z.of_nat n)).
Proof.
  revert v. induction n as [|n IH]; intros v; [by rewrite Z.shiftr_0_r|].
  simpl. rewrite IH. do 3 f_equal. rewrite Z.shiftr_shiftr by lia. f_equal. lia.
Qed.

Lemma put_le_mod n v w : v mod 2 ^ (8 * Z.of_nat n) = w mod 2 ^ (8 * Z.of_nat n) →
  put_le n v = put_le n w.
Proof.
  revert v w. induction n as [|n IH]; intros v w Heq; [done|].
  simpl. replace (8 * Z.of_nat (S n)) with (8 + 8 * Z.of_nat n) in Heq by lia.
  rewrite Z.pow_add_r in Heq by lia.
  rewrite !Z.rem_mul_r in Heq by lia.
  pose proof (Z.mod_pos_bound v (2 ^ 8)) as Hv. pose proof (Z.mod_pos_bound w (2 ^ 8)) as Hw.
  pose proof (Z.mod_pos_bound (v / 2 ^ 8) (2 ^ (8 * Z.of_nat n))).
  pose proof (Z.mod_pos_bound (w / 2 ^ 8) (2 ^ (8 * Z.of_nat n))).
  assert (v mod 2 ^ 8 = w mod 2 ^ 8 ∧
    (v / 2 ^ 8) mod 2 ^ (8 * Z.of_nat n) = (w / 2 ^ 8) mod 2 ^ (8 * Z.of_nat n)) as [H1 H2] by lia.
  change 255 with (Z.ones 8). rewrite !Z.land_ones, !Z.shiftr_div_pow2 by lia.
  rewrite H1. f_equal. by apply IH.
Qed.

(** What [read_timestamp] makes of a written timestamp: itself when arguments
    are evaluated left to right; otherwise its low byte becomes the validity
    and the validity its high byte. *)
Definition reread_timestamp `{Platform} (t : Timestamp) : Timestamp :=
  match arg_order with
  | LeftToRight => t
  | RightToLeft =>
      let n := wrap64 (unix_ns t) in
      mkTimestamp (to_i64 (n / 256 + (if ts_valid t then 2 ^ 56 else 0)))
        (negb (n mod 256 =? 0))
  end.

Lemma to_i64_wrap64 v : - 2 ^ 63 ≤ v < 2 ^ 63 → to_i64 (wrap64 v) = v.
Proof.
  intros Hv. unfold to_i64, wrap64, two64. change (2 ^ 63) with 9223372036854775808 in *.
  destruct (decide (0 ≤ v)).
  - rewrite Z.mod_small by lia. case_match; to_props; lia.
  - rewrite <-(Z.mod_add v 1), Z.mod_small by lia. case_match; to_props; lia.
Qed.

(** A written timestamp, seen as a byte and then eight bytes. *)
Lemma write_timestamp_shifted t :
  let n := wrap64 (unix_ns t) in
  write_timestamp t = put_u8 (n mod 256) ++ put_u64 (n / 256 + (if ts_valid t then 2 ^ 56 else 0)).
Proof.
  intros n. pose proof (wrap64_u64 (unix_ns t)) as Hn. fold n in Hn. unfold u64, two64 in Hn.
  unfold write_timestamp, put_u64, put_u8, put_bool. fold n.
  change 8%nat with (1 + 7)%nat at 1. rewrite put_le_app, <-(assoc_L (++)). f_equal.
  - apply put_le_mod. simpl. by rewrite Z.mod_mod by lia.
  - change 8%nat with (7 + 1)%nat. rewrite put_le_app. unfold put_u8.
    set (x := if ts_valid t then 1 else 0).
    assert ((if ts_valid t then 2 ^ 56 else 0) = x * 2 ^ 56) as -> by (subst x; by destruct (ts_valid t)).
    rewrite !Z.shiftr_div_pow2 by lia. change (8 * Z.of_nat 1) with 8. change (8 * Z.of_nat 7) with 56.
    change (2 ^ 8) with 256. f_equal.
    + apply put_le_mod. change (8 * Z.of_nat 7) with 56. by rewrite Z.mod_add by lia.
    + f_equal. rewrite Z.div_add by lia. rewrite Z.div_small; [lia|].
      split; [apply Z.div_pos; lia|]. apply Z.div_lt_upper_bound; lia.
Qed.

Lemma reads_timestamp `{Platform} t :
  timestamp_typed t → reads read_timestamp (write_timestamp t) (reread_timestamp t).
Proof.
  intros Ht. unfold read_timestamp, reread_timestamp.
  pose proof (wrap64_u64 (unix_ns t)) as Hn. unfold u64, two64 in Hn.
  destruct arg_order.
  - unfold write_timestamp. eapply reads_bind; [by apply reads_u64, wrap64_u64|].
    rewrite to_i64_wrap64 by done. destruct t as [ns v]. simpl.
    apply (reads_last read_bool (mkTimestamp ns)), reads_bool.
  - rewrite write_timestamp_shifted. eapply reads_bind.
    + unfold read_bool. apply (reads_last read_u8 (λ v, negb (v =? 0))), reads_u8.
      apply Z.mod_pos_bound. lia.
    + apply (reads_last read_u64 (λ ns, mkTimestamp (to_i64 ns) _)), reads_u64.
      unfold u64, two64. pose proof (Z.div_pos (wrap64 (unix_ns t)) 256).
      assert (wrap64 (unix_ns t) / 256 < 2 ^ 56) by (apply Z.div_lt_upper_bound; lia).
      destruct (ts_valid t); lia.
Qed.

#[export] Hint Resolve reads_device reads_timestamp : fabric.

Definition link_set_last (t : Timestamp) (l : LinkRecord) : LinkRecord :=
  link_set_observed (lk_generation l) (lk_evidence l) t l.

Definition reread_link `{Platform} (l : LinkRecord) : LinkRecord :=
  link_set_last (reread_timestamp (lk_last_observation l)) l.

Lemma reads_link `{Platform} l : link_typed l → reads read_link (write_link l) (reread_link l).
Proof.
  intros []. unfold read_link, write_link, reread_link, link_set_last, link_set_observed.
  destruct l. walk_reads.
Qed.

(** ** The payload *)

Lemma reads_bad : reads read_bad [] false.
Proof. intros pre post. unfold read_bad. simpl. by rewrite Z.add_0_r. Qed.

Lemma reads_nil_bind {A B} (m : Reader → A * Reader) (k : A → Reader → B * Reader) b2 a b :
  reads m [] a → reads (k a) b2 b → reads (bind m k) b2 b.
Proof. intros. change b2 with ([] ++ b2). by eapply reads_bind. Qed.

Lemma reads_records {A} (rd : Reader → A * Reader) (wr : A → list Z) (f : A → A) msg l :
  (∀ x, x ∈ l → reads rd (wr x) (f x)) →
  reads (read_records rd msg (length l)) (l ≫= wr) (Ok (f <$> l)).
Proof.
  induction l as [|x l IH]; intros Hl; [apply reads_ret|].
  rewrite bind_cons. cbn [length read_records].
  eapply reads_bind; [apply Hl; left|].
  eapply reads_nil_bind; [apply reads_bad|]. cbv beta iota.
  rewrite <-(app_nil_r (l ≫= wr)). eapply reads_bind.
  - apply IH. intros y Hy. apply Hl. by right.
  - apply reads_ret.
Qed.

(** The state as it comes back. *)
Definition reread_durable `{Platform} (s : DurableState) : DurableState :=
  mkDurable durable_format_version (ds_topology_generation s) (ds_devices s)
    (reread_link <$> ds_links s) (reread_timestamp (ds_saved_at s)).

Lemma reads_durable `{Platform} s :
  durable_typed s → reads read_durable (write_durable s) (Ok (reread_durable s)).
Proof.
  intros []. unfold read_durable, write_durable, reread_durable.
  assert (max_devices default_limits = 256 ∧ max_links default_limits = 1024) as [Hd Hl] by done.
  pose proof (zlen_nonneg (ds_devices s)). pose proof (zlen_nonneg (ds_links s)).
  eapply reads_bind; [by apply reads_u64|]. eapply reads_bind; [by apply reads_timestamp|].
  eapply reads_bind; [apply reads_u32; unfold u32, two32; lia|].
  eapply reads_nil_bind; [apply reads_bad|].
  rewrite (proj2 (Z.ltb_ge _ _)) by lia. rewrite orb_false_l.
  assert (Z.to_nat (zlen (ds_devices s)) = length (ds_devices s)) as -> by (unfold zlen; lia).
  eapply reads_bind.
  { apply (reads_records _ write_device id). intros d Hin. rewrite Forall_forall in st_devices0.
    by apply reads_device, st_devices0. }
  cbv beta iota. rewrite list_fmap_id.
  eapply reads_bind; [apply reads_u32; unfold u32, two32; lia|].
  eapply reads_nil_bind; [apply reads_bad|].
  rewrite (proj2 (Z.ltb_ge _ _)) by lia. rewrite orb_false_l.
  assert (Z.to_nat (zlen (ds_links s)) = length (ds_links s)) as -> by (unfold zlen; lia).
  rewrite <-(app_nil_r (ds_links s ≫= write_link)). eapply reads_bind.
  { apply (reads_records _ write_link reread_link). intros l Hin. rewrite Forall_forall in st_links0.
    by apply reads_link, st_links0. }
  apply reads_ret.
Qed.

(** ** Sizes *)

Lemma zlen_put_le n v : zlen (put_le n v) = Z.of_nat n.
Proof. unfold zlen. by rewrite put_le_length. Qed.

Lemma zlen_put_bool b : zlen (put_bool b) = 1.
Proof. apply (zlen_put_le 1). Qed.
Lemma zlen_put_u16 v : zlen (put_u16 v) = 2.
Proof. apply (zlen_put_le 2). Qed.
Lemma zlen_put_u32 v : zlen (put_u32 v) = 4.
Proof. apply (zlen_put_le 4). Qed.
Lemma zlen_put_u64 v : zlen (put_u64 v) = 8.
Proof. apply (zlen_put_le 8). Qed.
Lemma zlen_write_enum {E} `{EnumU8 E} (e : E) : zlen (write_enum e) = 1.
Proof. apply (zlen_put_le 1). Qed.
Lemma zlen_write_timestamp t : zlen (write_timestamp t) = 9.
Proof. unfold write_timestamp. by rewrite zlen_app, zlen_put_u64, zlen_put_bool. Qed.
Lemma zlen_write_capability c : zlen (write_capability c) = 24.
Proof.
  unfold write_capability. by rewrite !zlen_app, !zlen_write_enum, !zlen_put_u32, zlen_put_u64,
    !zlen_put_bool.
Qed.

Lemma zlen_write_str s : str_ok s → zlen (write_str s) ≤ 4098.
Proof.
  unfold str_ok, kMaxString, write_str, slen. rewrite zlen_app, zlen_put_u16. lia.
Qed.

Lemma zlen_put_opt put (o : option Z) n :
  (∀ v, zlen (put v) ≤ n) → 0 ≤ n → zlen (put_opt put o) ≤ 1 + n.
Proof.
  intros Hput Hn. unfold put_opt. rewrite zlen_app, zlen_put_bool.
  destruct o as [v|]; [pose proof (Hput v); lia|]. change (zlen []) with 0. lia.
Qed.

Lemma zlen_write_evidence e : evidence_typed e → zlen (write_evidence e) ≤ 8201.
Proof.
  intros []. unfold write_evidence. rewrite !zlen_app, zlen_write_enum, zlen_put_u32.
  pose proof (zlen_write_str _ et_source0). pose proof (zlen_write_str _ et_note0). lia.
Qed.

Lemma zlen_write_device d : device_typed d → zlen (write_device d) ≤ 50000.
Proof.
  intros []. unfold write_device.
  rewrite !zlen_app, !zlen_write_enum, !zlen_put_u64, zlen_write_capability.
  pose proof (zlen_write_str _ dt_name0). pose proof (zlen_write_str _ dt_backend0).
  pose proof (zlen_write_str _ dt_instance0).
  pose proof (zlen_write_str _ dt_pci0). pose proof (zlen_write_str _ dt_vendor0).
  pose proof (zlen_write_str _ dt_arch0).
  pose proof (zlen_write_str _ dt_dgen0).
  pose proof (zlen_write_evidence _ dt_evidence0).
  assert (∀ v, zlen (put_u32 v) ≤ 8) as Hp4 by (intros; rewrite zlen_put_u32; lia).
  assert (∀ v, zlen (put_u64 v) ≤ 8) as Hp8 by (intros; by rewrite zlen_put_u64).
  pose proof (zlen_put_opt put_u32 (dev_cuda_ordinal d) 8 Hp4).
  pose proof (zlen_put_opt put_u64 (dev_owner_worker d) 8 Hp8).
  pose proof (zlen_put_opt put_u64 (dev_owner_boot d) 8 Hp8). lia.
Qed.

Lemma zlen_write_link l : link_typed l → zlen (write_link l) ≤ 50000.
Proof.
  intros []. unfold write_link.
  rewrite !zlen_app, !zlen_write_enum, !zlen_put_u64, !zlen_put_bool, zlen_write_capability,
    zlen_write_timestamp.
  pose proof (zlen_write_str _ lt_phys0).
  pose proof (zlen_write_str _ lt_note0).
  pose proof (zlen_write_evidence _ lt_evidence0). lia.
Qed.

Lemma zlen_bind {A} (f : A → list Z) l n :
  (∀ x, x ∈ l → zlen (f x) ≤ n) → zlen (l ≫= f) ≤ n * zlen l.
Proof.
  induction l as [|x l IH]; intros Hf; [change (zlen ([] ≫= f)) with 0; change (zlen []) with 0; lia|].
  rewrite bind_cons, zlen_app, zlen_cons. pose proof (Hf x ltac:(left)).
  assert (zlen (l ≫= f) ≤ n * zlen l) by (apply IH; intros; apply Hf; by right). lia.
Qed.

(** The payload length fits its 32-bit field. *)
Lemma zlen_write_durable s : durable_typed s → zlen (write_durable s) < 2 ^ 31.
Proof.
  intros []. unfold write_durable.
  rewrite !zlen_app, zlen_put_u64, zlen_write_timestamp, !zlen_put_u32.
  assert (max_devices default_limits = 256 ∧ max_links default_limits = 1024) as [Hd Hl] by done.
  assert (zlen (ds_devices s ≫= write_device) ≤ 50000 * zlen (ds_devices s)).
  { apply zlen_bind. rewrite Forall_forall in st_devices0. auto using zlen_write_device. }
  assert (zlen (ds_links s ≫= write_link) ≤ 50000 * zlen (ds_links s)).
  { apply zlen_bind. rewrite Forall_forall in st_links0. auto using zlen_write_link. }
  lia.
Qed.

(** ** The frame *)

Section Frame.
Context `{Platform}.

(** The header of a serialized state, read back. *)
Lemma read_header s post :
  zlen (write_durable s) < two32 →
  let bytes := serialized_prefix s ++ post in
  read_u32 (reader bytes) = (durable_magic, mkReader bytes 4 false) ∧
  read_u32 (mkReader bytes 4 false) = (durable_version, mkReader bytes 8 false) ∧
  read_u32 (mkReader bytes 8 false) = (zlen (write_durable s), mkReader bytes 12 false).
Proof.
  intros Hlen bytes. subst bytes. unfold serialized_prefix.
  pose proof (zlen_nonneg (write_durable s)) as H0.
  set (d := write_durable s) in *. set (l := put_u32 (zlen d)). split_and!.
  - pose proof (reads_u32 durable_magic ltac:(done) []
      ((put_u32 durable_version ++ l ++ d) ++ post)) as Hr.
    rewrite app_nil_l, (assoc_L (++) (put_u32 durable_magic)), zlen_put_u32 in Hr. exact Hr.
  - pose proof (reads_u32 durable_version ltac:(done) (put_u32 durable_magic)
      ((l ++ d) ++ post)) as Hr.
    rewrite !zlen_put_u32, (assoc_L (++) (put_u32 durable_version)),
      (assoc_L (++) (put_u32 durable_magic)) in Hr. exact Hr.
  - pose proof (reads_u32 (zlen d) ltac:(unfold u32; lia)
      (put_u32 durable_magic ++ put_u32 durable_version) (d ++ post)) as Hr.
    rewrite zlen_app, !zlen_put_u32 in Hr. fold l in Hr.
    rewrite (assoc_L (++) l), <-!(assoc_L (++) (put_u32 durable_magic)) in Hr.
    rewrite (assoc_L (++) (put_u32 durable_version)) in Hr.
    rewrite (assoc_L (++) (put_u32 durable_magic)) in Hr. exact Hr.
Qed.

Lemma serialized_prefix_zlen s : zlen (serialized_prefix s) = 12 + zlen (write_durable s).
Proof. unfold serialized_prefix. rewrite !zlen_app, !zlen_put_u32. lia. Qed.

(** Deserializing a serialized state comes down to reading its payload. *)
Lemma deserialize_serialized s post :
  zlen (write_durable s) < two32 → zlen post = 4 →
  deserialize_durable_state (mkSerialized durable_version (serialized_prefix s ++ post)) =
  let bytes := serialized_prefix s ++ post in
  let '(st, r) := read_durable (mkReader bytes 12 false) in
  match st with
  | Err e => Err e
  | Ok st => check_frame bytes (zlen (write_durable s)) st r
  end.
Proof.
  intros Hlen Hpost. pose proof (read_header s post Hlen) as Hh. cbv zeta in Hh.
  destruct Hh as (H1 & H2 & H3). pose proof (zlen_nonneg (write_durable s)) as H0.
  unfold deserialize_durable_state. cbn [format_version ser_bytes]. rewrite Z.eqb_refl. cbn [negb].
  rewrite (proj2 (Z.ltb_ge _ _)) by (rewrite zlen_app, serialized_prefix_zlen; lia).
  rewrite H1, H2, H3, !Z.eqb_refl. cbn [negb]. unfold remaining. cbn [rd_pos rd_bytes].
  rewrite zlen_app, serialized_prefix_zlen.
  rewrite !(proj2 (Z.leb_le _ _)) by lia. reflexivity.
Qed.

(** The payload starts at position 12. *)
Lemma payload_reads {A} (m : Reader → A * Reader) s post pre b2 a :
  write_durable s = pre ++ b2 → reads m pre a →
  m (mkReader (serialized_prefix s ++ post) 12 false) =
  (a, mkReader (serialized_prefix s ++ post) (12 + zlen pre) false).
Proof.
  intros Hs Hm.
  set (hdr := put_u32 durable_magic ++ put_u32 durable_version ++ put_u32 (zlen (write_durable s))).
  assert (serialized_prefix s ++ post = hdr ++ pre ++ b2 ++ post) as ->.
  { unfold serialized_prefix, hdr. rewrite Hs at 2. by rewrite <-!(assoc_L (++)). }
  assert (zlen hdr = 12) as Hz by (unfold hdr; by rewrite !zlen_app, !zlen_put_u32).
  specialize (Hm hdr (b2 ++ post)). by rewrite Hz in Hm.
Qed.

Lemma write_durable_ok s : bytes_ok (serialized_prefix s).
Proof.
  assert (∀ x, bytes_ok (write_str x)) as Hstr.
  { intros x. apply Forall_app. split; [apply put_le_ok|apply bytes_of_string_ok]. }
  assert (∀ put (o : option Z), (∀ v, bytes_ok (put v)) → bytes_ok (put_opt put o)) as Hopt.
  { intros put o Hp. apply Forall_app. split; [apply put_le_ok|].
    destruct o; [apply Hp|constructor]. }
  assert (∀ n v, bytes_ok (put_le n v)) as Hle by apply put_le_ok.
  assert (∀ a b, bytes_ok a → bytes_ok b → bytes_ok (a ++ b)) as Happ
    by (intros; by apply Forall_app).
  assert (∀ d, bytes_ok (write_device d)) as Hd.
  { intros d. unfold write_device, write_capability, write_evidence.
    repeat first [apply Hstr|apply Hopt; intros; apply Hle|apply Hle|apply Happ]. }
  assert (∀ l, bytes_ok (write_link l)) as Hl.
  { intros l. unfold write_link, write_capability, write_evidence, write_timestamp.
    repeat first [apply Hstr|apply Hle|apply Happ]. }
  unfold serialized_prefix, write_durable, write_timestamp.
  repeat first [apply Hle|apply Happ]; apply Forall_bind, Forall_true; done.
Qed.

(** Accepted bytes end in the checksum of what precedes. *)
Lemma deserialize_sealed ser st :
  bytes_ok (ser_bytes ser) → deserialize_durable_state ser = Ok st → sealed (ser_bytes ser).
Proof.
  intros Hok. unfold deserialize_durable_state.
  destruct (negb _); [done|]. destruct (zlen _ <? _) eqn:E0; [done|].
  destruct (read_u32 (reader _)) as [mg r1]. destruct (read_u32 r1) as [vr r2].
  destruct (read_u32 r2) as [pl r3].
  destruct (negb (mg =? _)); [done|]. destruct (negb (vr =? _)); [done|].
  destruct (negb (remaining pl r3)); [done|]. destruct (negb (remaining 4 r3)); [done|].
  destruct (read_durable r3) as [[st'|e] r4]; [|done].
  unfold check_frame. cbv zeta. set (bytes := ser_bytes ser) in *. set (n := Z.to_nat (4 + 4 + 4 + pl)).
  destruct (zlen bytes <? 4 + 4 + 4 + pl + 4) eqn:E1; [done|].
  destruct (negb (zlen bytes =? _)) eqn:E2; [done|].
  destruct (negb (_ =? crc32 _)) eqn:E3; [done|]. intros _. to_props.
  destruct (decide (0 ≤ 4 + 4 + 4 + pl)) as [Hpos|Hneg].
  2: { exfalso. pose proof (zlen_nonneg bytes). unfold zlen in *. lia. }
  assert (length (drop n bytes) = 4%nat) as Hd.
  { unfold zlen in *. rewrite length_drop. subst n. lia. }
  exists (take n bytes). split; [by apply Forall_take|].
  rewrite take_ge in E3 by lia.
  rewrite <-E3. unfold put_u32. rewrite <-Hd at 1. rewrite put_get_le by by apply Forall_drop.
  by rewrite take_drop.
Qed.
End Frame.
