(* ===== verification/SerializationProps.v ===== *)
(** * Durable-state serialization: properties *)

From S2P Require Import Prelude Enums Double Records World Registry Fixtures Bytes BytesFacts.
From S2P Require Import Serialization SerializationFacts.

Lemma deserialize_serialize `{Platform} s :
  durable_typed s →
  ∃ ser, serialize_durable_state s = Ok ser ∧
    deserialize_durable_state ser = Ok (reread_durable s).
Proof.
  intros Hs. eexists. split; [done|].
  pose proof (zlen_write_durable s Hs) as Hlen.
  assert (zlen (write_durable s) < two32) as Hlen32 by (unfold two32; lia).
  rewrite deserialize_serialized by (done || apply zlen_put_u32). cbv zeta.
  rewrite (payload_reads read_durable s _ (write_durable s) [] (Ok (reread_durable s)));
    [|by rewrite app_nil_r|by apply reads_durable].
  unfold check_frame. cbn [rd_pos]. cbv zeta.
  pose proof (serialized_prefix_zlen s) as Hp. pose proof (zlen_nonneg (write_durable s)).
  rewrite zlen_app, zlen_put_u32, Hp.
  rewrite (proj2 (Z.ltb_ge _ _)), (proj2 (Z.eqb_eq _ _)) by lia. cbn [negb].
  rewrite take_app_length', drop_app_length' by (unfold zlen in *; lia).
  rewrite take_ge by (rewrite <-(Nat2Z.id 4); unfold put_u32; rewrite put_le_length; lia).
  unfold put_u32. rewrite get_put_le by (apply crc32_range, write_durable_ok).
  by rewrite Z.eqb_refl, (proj2 (Z.eqb_eq _ _)) by lia.
Qed.

Lemma reread_durable_ltr `{Platform} s :
  arg_order = LeftToRight → ds_format_version s = durable_format_version → reread_durable s = s.
Proof.
  intros Ha Hv. unfold reread_durable, reread_link, link_set_last, link_set_observed, reread_timestamp.
  rewrite Ha. destruct s as [v g ds ls t]. simpl in *. subst v. f_equal.
  rewrite <-(list_fmap_id ls) at 2. apply list_fmap_ext. by intros _ [] _.
Qed.

(** C18.  Durable state survives serialization: a state whose fields fit their
    types, with strings of at most 4096 bytes, at most 256 devices and 1024
    links, deserializes to itself, if the platform evaluates call arguments
    left to right; in general, to the state in which every timestamp has been
    re-read as [reread_timestamp] says. *)
Theorem durable_roundtrip `{Platform} s :
  durable_typed s →
  ∃ ser, serialize_durable_state s = Ok ser ∧
    deserialize_durable_state ser = Ok (reread_durable s) ∧
    (arg_order = LeftToRight → deserialize_durable_state ser = Ok s).
Proof.
  intros Hs. destruct (deserialize_serialize s Hs) as (ser & Hser & Hd).
  exists ser. split_and!; [done..|]. intros Ha. rewrite Hd.
  by rewrite reread_durable_ltr; [|done|apply Hs].
Qed.

Definition two_devices : DurableState :=
  mkDurable durable_format_version 7 [make_device 1 "gpu1" 1; make_device 2 "gpu2" 3]
    [make_link 10 1 2 LinkOperationalState.UP 1] (mkTimestamp 1000 true).

Lemma two_devices_typed : durable_typed two_devices.
Proof.
  split; try done.
  - repeat constructor; try done.
  - repeat constructor; done.
Qed.

Definition right_to_left : Platform := {| arg_order := RightToLeft; moved_from := λ s, s |}.

(** Left to right the state comes back; right to left its timestamp does not. *)
Lemma durable_roundtrip_witness :
  ∃ ser, serialize_durable_state two_devices = Ok ser ∧
    @deserialize_durable_state reference_platform ser = Ok two_devices ∧
    @deserialize_durable_state right_to_left ser ≠ Ok two_devices.
Proof.
  destruct (@durable_roundtrip reference_platform two_devices two_devices_typed)
    as (ser & Hser & _ & Hl).
  destruct (@durable_roundtrip right_to_left two_devices two_devices_typed)
    as (ser' & Hser' & Hr & _).
  rewrite Hser in Hser'. apply Ok_inj in Hser'. subst ser'.
  exists ser. split_and!; [exact Hser|by apply Hl|].
  rewrite Hr. intros Heq%Ok_inj%(f_equal ds_saved_at). vm_compute in Heq. discriminate.
Defined.

(** C40.  A serialized state with any one byte changed is rejected, whatever the
    state. *)
Theorem corrupted_state_rejected `{Platform} s ser pre b b' post :
  serialize_durable_state s = Ok ser → ser_bytes ser = pre ++ b :: post →
  u8 b' → b' ≠ b →
  ∃ e, deserialize_durable_state (mkSerialized durable_version (pre ++ b' :: post)) = Err e.
Proof.
  intros Hs Hb Hb' Hne.
  destruct (deserialize_durable_state _) as [st|e] eqn:Hd; [|by exists e].
  exfalso. apply Hne. symmetry. unfold serialize_durable_state in Hs. apply Ok_inj in Hs.
  subst ser. cbn [ser_bytes] in Hb.
  assert (sealed (pre ++ b :: post)) as Hsealed.
  { rewrite <-Hb. exists (serialized_prefix s). split; [apply write_durable_ok|done]. }
  apply (sealed_single_byte pre b b' post); [done|].
  apply deserialize_sealed in Hd; [done|]. cbn [ser_bytes].
  assert (bytes_ok (pre ++ b :: post)) as Hok.
  { rewrite <-Hb. apply Forall_app. split; [apply write_durable_ok|apply put_le_ok]. }
  apply Forall_app in Hok as [Hpre [_ Hpost]%Forall_cons].
  apply Forall_app. split; [done|]. by apply Forall_cons.
Qed.

Definition two_devices_bytes : list Z :=
  match serialize_durable_state two_devices with Ok ser => ser_bytes ser | Err _ => [] end.

Lemma corrupted_state_rejected_witness :
  ∃ e, @deserialize_durable_state reference_platform
    (mkSerialized durable_version (take 20 two_devices_bytes ++ 1 :: drop 21 two_devices_bytes)) = Err e.
Proof.
  apply (@corrupted_state_rejected reference_platform two_devices
    (mkSerialized durable_version two_devices_bytes) (take 20 two_devices_bytes) 232 1
    (drop 21 two_devices_bytes)).
  - reflexivity.
  - vm_compute. reflexivity.
  - apply (bool_decide_unpack _). vm_compute. exact I.
  - done.
Defined.

(** The deserializer's device bound is the default one, not the
    registry's: a state with more than 256 devices is serialized without
    complaint and can never be read back. *)
Lemma large_states_do_not_return `{Platform} s :
  u64 (ds_topology_generation s) → timestamp_typed (ds_saved_at s) →
  max_devices default_limits < zlen (ds_devices s) < two32 →
  zlen (write_durable s) < two32 →
  ∃ ser, serialize_durable_state s = Ok ser ∧
    deserialize_durable_state ser =
      err ErrorCode.INTEGRITY_FAILURE "impossible device count".
Proof.
  intros Hg Hts Hd Hlen. eexists. split; [done|].
  rewrite deserialize_serialized by (done || apply zlen_put_u32). cbv zeta.
  assert (reads read_durable (put_u64 (ds_topology_generation s) ++
    write_timestamp (ds_saved_at s) ++ put_u32 (zlen (ds_devices s)))
    (err ErrorCode.INTEGRITY_FAILURE "impossible device count")) as Hr.
  { unfold read_durable. eapply reads_bind; [by apply reads_u64|].
    eapply reads_bind; [by apply reads_timestamp|].
    rewrite <-(app_nil_r (put_u32 _)). eapply reads_bind.
    { apply reads_u32. unfold u32. pose proof (zlen_nonneg (ds_devices s)). lia. }
    eapply reads_nil_bind; [apply reads_bad|].
    rewrite (proj2 (Z.ltb_lt _ _)) by lia. apply reads_ret. }
  erewrite payload_reads; [| |exact Hr].
  - reflexivity.
  - unfold write_durable. rewrite <-!(assoc_L (++)). do 3 f_equal.
Qed.

Definition crowd : DurableState :=
  mkDurable durable_format_version 7
    ((λ i, make_device (Z.of_nat i) "gpu" 1) <$> seq 1 257) [] (mkTimestamp 1000 true).

Lemma large_states_do_not_return_witness :
  ∃ ser, serialize_durable_state crowd = Ok ser ∧
    @deserialize_durable_state reference_platform ser =
      err ErrorCode.INTEGRITY_FAILURE "impossible device count".
Proof.
  apply (@large_states_do_not_return reference_platform crowd).
  - by vm_compute.
  - by vm_compute.
  - by vm_compute.
  - by vm_compute.
Defined.
