(* ===== verification/Persistence.v ===== *)
(** * Durable-state files (persistence.hpp, persistence.cpp)

    The file system is a finite map from paths to contents.  What the operating
    system may refuse (opening, writing, renaming, removing) is an argument of
    the operations; the states a save passes through are listed, so that a
    crash is a prefix of that list. *)

From S2P Require Import Prelude Enums Double Records World Registry RegistryFacts Fixtures.
From S2P Require Import RegistryProps Bytes BytesFacts Serialization SerializationFacts.
From S2P Require Import SerializationProps.

Abbreviation FS := (gmap string (list Z)).

(** What the operating system lets the calls do: opening the temporary file,
    how many bytes a write gets out before it fails ([None]: all of them),
    renaming, removing, reading. *)
Record Faults := mkFaults {
  can_open : bool;
  write_limit : option nat;
  can_rename : bool;
  can_remove : bool;
  can_read : bool
}.
Definition no_faults : Faults := mkFaults true None true true true.

Definition tmp_path (path : string) : string := path +:+ ".tmp".

(** [rename(tmp, target)]: the target takes the contents in one step. *)
Definition rename (target tmp : string) (fs : FS) : FS :=
  match fs !! tmp with
  | Some contents => <[target := contents]> (delete tmp fs)
  | None => fs
  end.

Definition atomic_replace (fl : Faults) (target tmp : string) (fs : FS) : bool * FS :=
  if can_rename fl then (true, rename target tmp fs) else (false, fs).

(** The file system after the first [k] bytes have been written to [tmp]. *)
Definition partial_write (tmp : string) (bytes : list Z) (fs : FS) (k : nat) : FS :=
  <[tmp := take k bytes]> fs.

(** The states a save passes through, in order, and its result. *)
Definition save_trace (s : DurableState) (path : string) (limits : Limits) (fl : Faults) (fs : FS)
    : Result unit * list FS :=
  match serialize_durable_state s with
  | Err e => (Err e, [fs])
  | Ok ser =>
      let bytes := ser_bytes ser in
      if max_persisted_state_bytes limits <? zlen bytes then
        (err ErrorCode.RESOURCE_LIMIT "durable state exceeds size bound", [fs])
      else
        let tmp := tmp_path path in
        if negb (can_open fl) then
          (err ErrorCode.BACKEND_ERROR "cannot open temp state file", [fs])
        else
          let written := match write_limit fl with
                         | Some n => n | None => length bytes end in
          let writing := fs :: (partial_write tmp bytes fs <$> seq 0 (S written)) in
          let fs1 := partial_write tmp bytes fs written in
          if bool_decide (is_Some (write_limit fl)) then
            (err ErrorCode.BACKEND_ERROR "failed writing temp state file", writing)
          else
            let '(ok, fs2) := atomic_replace fl path tmp fs1 in
            if ok then (Ok tt, writing ++ [fs2])
            else
              (err ErrorCode.BACKEND_ERROR "atomic replace of state file failed",
               writing ++ [if can_remove fl then delete tmp fs2 else fs2])
  end.

(** [save_durable_state]: the result and the last state. *)
Definition save_durable_state (s : DurableState) (path : string) (limits : Limits) (fl : Faults)
    (fs : FS) : Result unit * FS :=
  let '(res, states) := save_trace s path limits fl fs in (res, default fs (last states)).

Definition load_durable_state `{Platform} (path : string) (limits : Limits) (fl : Faults) (fs : FS)
    : Result DurableState :=
  match fs !! path with
  | None => err ErrorCode.NOT_FOUND "state file not found"
  | Some bytes =>
      if max_persisted_state_bytes limits <? zlen bytes then
        err ErrorCode.RESOURCE_LIMIT "state file exceeds size bound"
      else if negb (can_read fl) then
        err ErrorCode.BACKEND_ERROR "failed reading state file"
      else deserialize_durable_state (mkSerialized 1 bytes)
  end.

(** ** Facts *)

Lemma append_ne_self s t : t ≠ "" → s +:+ t ≠ s.
Proof.
  intros Ht. induction s as [|a s IH]; simpl; [done|]. intros [= E]. by apply IH.
Qed.

Lemma tmp_path_ne path : tmp_path path ≠ path.
Proof. by apply append_ne_self. Qed.

Lemma partial_write_other tmp bytes fs k q :
  q ≠ tmp → partial_write tmp bytes fs k !! q = fs !! q.
Proof. intros. unfold partial_write. by rewrite lookup_insert_ne. Qed.

(** The target holds its old contents or the complete new ones; no other file
    than the two is touched. *)
Definition intact (path : string) (s : DurableState) (fs fs' : FS) : Prop :=
  (fs' !! path = fs !! path ∨
   ∃ ser, serialize_durable_state s = Ok ser ∧ fs' !! path = Some (ser_bytes ser)) ∧
  (∀ q, q ≠ path → q ≠ tmp_path path → fs' !! q = fs !! q).

Lemma intact_refl path s fs : intact path s fs fs.
Proof. split; [by left|done]. Qed.

Lemma intact_partial path s fs bytes k :
  intact path s fs (partial_write (tmp_path path) bytes fs k).
Proof.
  split.
  - left. apply partial_write_other. apply not_eq_sym, tmp_path_ne.
  - intros q _ Hq. by apply partial_write_other.
Qed.

Lemma intact_writing path s fs bytes n :
  Forall (intact path s fs)
    (fs :: (partial_write (tmp_path path) bytes fs <$> seq 0 n)).
Proof.
  constructor; [apply intact_refl|]. apply Forall_fmap, Forall_true. intros k. apply intact_partial.
Qed.

Lemma rename_lookup target tmp contents fs :
  fs !! tmp = Some contents → target ≠ tmp →
  rename target tmp fs !! target = Some contents ∧
  ∀ q, q ≠ target → q ≠ tmp → rename target tmp fs !! q = fs !! q.
Proof.
  intros Ht Hne. unfold rename. rewrite Ht. split; [by rewrite lookup_insert_eq|].
  intros q H1 H2. by rewrite lookup_insert_ne, lookup_delete_ne.
Qed.

(** C24.  A save is atomic: in every state it passes through, wherever it is
    interrupted and whatever the operating system refuses, the state file
    holds its previous contents or the complete new ones, and no other file
    but the temporary one is touched; when it reports an error the state file
    is as before. *)
Theorem save_atomic s path limits fl fs :
  Forall (intact path s fs) (save_trace s path limits fl fs).2 ∧
  (has_value (save_durable_state s path limits fl fs).1 = false →
   (save_durable_state s path limits fl fs).2 !! path = fs !! path).
Proof.
  unfold save_durable_state, save_trace, serialize_durable_state. cbv zeta.
  cbn [ser_bytes]. set (bytes := serialized_prefix s ++ _).
  assert (∀ r : Result unit, has_value r = false →
    Forall (intact path s fs) (r, [fs]).2 ∧ default fs (last (r, [fs]).2) !! path = fs !! path) as Hearly.
  { intros r _. split; [|done]. constructor; [apply intact_refl|constructor]. }
  destruct (_ <? zlen bytes); [split; [by apply Hearly|done]|].
  destruct (can_open fl); cbn [negb]; [|split; [by apply Hearly|done]].
  set (n := match write_limit fl with Some n => n | None => length bytes end).
  assert (Forall (intact path s fs)
    (fs :: (partial_write (tmp_path path) bytes fs <$> seq 0 (S n)))) as Hw by apply intact_writing.
  case_bool_decide as Hfail.
  { split; [done|]. intros _. cbn [snd fst].
    rewrite last_cons, fmap_last, seq_S, last_snoc. cbn [default fmap option_fmap option_map].
    apply partial_write_other. apply not_eq_sym, tmp_path_ne. }
  assert (n = length bytes) as Hn by (subst n; destruct (write_limit fl); [by destruct Hfail|done]).
  assert (partial_write (tmp_path path) bytes fs n !! tmp_path path = Some bytes) as Htmp.
  { unfold partial_write. by rewrite lookup_insert_eq, take_ge by lia. }
  unfold atomic_replace. destruct (can_rename fl); cbn [fst snd].
  - split; [|done]. apply Forall_app. split; [done|]. constructor; [|constructor].
    destruct (rename_lookup path (tmp_path path) bytes (partial_write (tmp_path path) bytes fs n))
      as [Hp Hq]; [done|apply not_eq_sym, tmp_path_ne|].
    split; [right; by eexists|]. intros q H1 H2. rewrite Hq by done. by apply partial_write_other.
  - assert (intact path s fs (if can_remove fl
      then delete (tmp_path path) (partial_write (tmp_path path) bytes fs n)
      else partial_write (tmp_path path) bytes fs n) ∧
      (if can_remove fl
       then delete (tmp_path path) (partial_write (tmp_path path) bytes fs n)
       else partial_write (tmp_path path) bytes fs n) !! path = fs !! path) as [Hi Hl].
    { pose proof (tmp_path_ne path) as Hne. destruct (can_remove fl).
      - rewrite lookup_delete_ne, partial_write_other by done. split; [|done].
        split; [left; by rewrite lookup_delete_ne, partial_write_other|].
        intros q H1 H2. by rewrite lookup_delete_ne, partial_write_other.
      - rewrite partial_write_other by done. split; [apply intact_partial|done]. }
    split; [apply Forall_app; split; [done|by constructor]|].
    intros _. by rewrite last_snoc.
Qed.

Lemma save_no_faults s path limits fs :
  zlen (serialized_prefix s) + 4 ≤ max_persisted_state_bytes limits →
  ∃ ser, serialize_durable_state s = Ok ser ∧
    (save_durable_state s path limits no_faults fs).1 = Ok tt ∧
    (save_durable_state s path limits no_faults fs).2 !! path = Some (ser_bytes ser).
Proof.
  intros Hsz. eexists. split; [done|].
  unfold save_durable_state, save_trace, serialize_durable_state. cbv zeta. cbn [ser_bytes].
  rewrite (proj2 (Z.ltb_ge _ _)) by (rewrite zlen_app, zlen_put_u32; lia).
  cbn [can_open negb write_limit no_faults can_rename atomic_replace].
  rewrite bool_decide_eq_false_2 by (by intros [? [=]]).
  split; [done|]. cbn [snd]. rewrite last_snoc. cbn [default].
  apply rename_lookup; [|apply not_eq_sym, tmp_path_ne].
  unfold partial_write. by rewrite lookup_insert_eq, take_ge by lia.
Qed.

(** What was saved without a fault is loaded back, within the size bound:
    the durable state, timestamps re-read as the platform orders arguments. *)
Lemma save_load_roundtrip `{Platform} s path limits fs :
  durable_typed s → zlen (serialized_prefix s) + 4 ≤ max_persisted_state_bytes limits →
  (save_durable_state s path limits no_faults fs).1 = Ok tt ∧
  load_durable_state path limits no_faults (save_durable_state s path limits no_faults fs).2 =
    Ok (reread_durable s).
Proof.
  intros Hs Hsz. destruct (save_no_faults s path limits fs Hsz) as (ser & Hser & Hok & Hl).
  split; [done|]. unfold load_durable_state. rewrite Hl.
  destruct (deserialize_serialize s Hs) as (ser' & Hser' & Hd).
  rewrite Hser in Hser'. apply Ok_inj in Hser'. subst ser'.
  unfold serialize_durable_state in Hser. apply Ok_inj in Hser. subst ser. cbn [ser_bytes].
  rewrite (proj2 (Z.ltb_ge _ _)) by (rewrite zlen_app, zlen_put_u32; lia).
  cbn [can_read no_faults negb]. exact Hd.
Qed.

Lemma save_load_roundtrip_witness :
  @load_durable_state reference_platform "state.bin" default_limits no_faults
    (save_durable_state two_devices "state.bin" default_limits no_faults ∅).2 =
  Ok (@reread_durable reference_platform two_devices).
Proof.
  apply (@save_load_roundtrip reference_platform two_devices "state.bin" default_limits ∅).
  - apply two_devices_typed.
  - by vm_compute.
Defined.
