(* ===== verification/Recovery.v ===== *)
(** * Restart: capture, save, load, restore; bounds across restores

    End-to-end composition of the registry's durable-state operations with
    serialization and the state file, and what restoring does to the
    parallel-link bound and the generations. *)

From S2P Require Import Prelude Enums Double Records World Registry RegistryFacts Fixtures.
From S2P Require Import RegistryProps Bytes Serialization SerializationFacts SerializationProps.
From S2P Require Import Persistence.

(** ** Restoring a list of distinct records *)

Lemma emplace_None {A} k (x : A) m : m !! k = None → emplace k x m = <[k := x]> m.
Proof. unfold emplace. by intros ->. Qed.

Lemma restore_devices_list lim l acc :
  Forall (λ d, dev_id d ≠ 0 ∧ dev_generation d ≠ 0) l →
  NoDup (dev_id <$> l) → (∀ d, d ∈ l → acc !! dev_id d = None) →
  msize acc + zlen l ≤ max_devices lim →
  ∃ dm, restore_devices lim l acc = Ok dm ∧
    (∀ d, d ∈ l → dm !! dev_id d = Some d) ∧
    (∀ k, k ∉ dev_id <$> l → dm !! k = acc !! k).
Proof.
  revert acc. induction l as [|d l IH]; intros acc Hv Hnd Hacc Hsz.
  { exists acc. split_and!; [done|by intros d ?%elem_of_nil|done]. }
  apply Forall_cons in Hv as [[Hi Hg] Hv]. rewrite fmap_cons in Hnd.
  apply NoDup_cons in Hnd as [Hn Hnd]. rewrite zlen_cons in Hsz.
  pose proof (zlen_nonneg l). simpl.
  rewrite (proj2 (Z.leb_gt _ _)) by lia. unfold is_nil, gen_valid.
  rewrite (proj2 (Z.eqb_neq _ _) Hi), (proj2 (Z.eqb_neq _ _) Hg). simpl.
  assert (acc !! dev_id d = None) as Hd by (apply Hacc; left).
  rewrite emplace_None by done.
  destruct (IH (<[dev_id d := d]> acc)) as (dm & Hr & Hin & Hout); [done|done| | |].
  - intros d' Hd'. rewrite lookup_insert_ne; [apply Hacc; by right|].
    intros Heq. apply Hn. rewrite Heq. by apply list_elem_of_fmap_2.
  - rewrite msize_insert_None by done. lia.
  - exists dm. split_and!; [done| |].
    + intros d' [->|Hd']%elem_of_cons; [|by apply Hin]. rewrite Hout by done.
      by rewrite lookup_insert_eq.
    + intros k [Hk1 Hk2]%not_elem_of_cons.
      by rewrite Hout, lookup_insert_ne by done.
Qed.

Lemma restore_links_list lim dm l acc :
  Forall (λ k, lk_id k ≠ 0 ∧ lk_generation k ≠ 0 ∧ lk_source k ≠ lk_target k ∧
               is_Some (dm !! lk_source k) ∧ is_Some (dm !! lk_target k)) l →
  NoDup (lk_id <$> l) → (∀ k, k ∈ l → acc !! lk_id k = None) →
  msize acc + zlen l ≤ max_links lim →
  ∃ lm, restore_links lim dm l acc = Ok lm ∧
    (∀ k, k ∈ l → lm !! lk_id k = Some (restored_link k)) ∧
    (∀ i, i ∉ lk_id <$> l → lm !! i = acc !! i).
Proof.
  revert acc. induction l as [|d l IH]; intros acc Hv Hnd Hacc Hsz.
  { exists acc. split_and!; [done|by intros d ?%elem_of_nil|done]. }
  apply Forall_cons in Hv as [(Hi & Hg & Hst & [s Hs] & [t Ht]) Hv]. rewrite fmap_cons in Hnd.
  apply NoDup_cons in Hnd as [Hn Hnd]. rewrite zlen_cons in Hsz.
  pose proof (zlen_nonneg l). simpl.
  rewrite (proj2 (Z.leb_gt _ _)) by lia. unfold is_nil, gen_valid.
  rewrite (proj2 (Z.eqb_neq _ _) Hi), (proj2 (Z.eqb_neq _ _) Hg), (proj2 (Z.eqb_neq _ _) Hst), Hs, Ht.
  simpl. assert (acc !! lk_id d = None) as Hd by (apply Hacc; left).
  rewrite emplace_None by done.
  destruct (IH (<[lk_id d := restored_link d]> acc)) as (lm & Hr & Hin & Hout); [done|done| | |].
  - intros d' Hd'. rewrite lookup_insert_ne; [apply Hacc; by right|].
    intros Heq. apply Hn. rewrite Heq. by apply list_elem_of_fmap_2.
  - rewrite msize_insert_None by done. lia.
  - exists lm. split_and!; [done| |].
    + intros d' [->|Hd']%elem_of_cons; [|by apply Hin]. rewrite Hout by done.
      by rewrite lookup_insert_eq.
    + intros k [Hk1 Hk2]%not_elem_of_cons.
      by rewrite Hout, lookup_insert_ne by done.
Qed.

(** Every stored generation is valid. *)
Definition generations_valid (r : Registry) : Prop :=
  map_Forall (λ _ d, dev_generation d ≠ 0) (devices (state_ r)) ∧
  map_Forall (λ _ l, lk_generation l ≠ 0) (links (state_ r)).

Lemma sorted_devices_NoDup lim s : pre_ok lim s → NoDup (dev_id <$> sorted_devices s).
Proof.
  intros Hp. pose proof (vals_sorted dev_id _ (wf_device_keys lim s Hp)) as Hs.
  unfold sorted_devices. change (λ a b, dev_id a <? dev_id b) with device_id_lt in Hs.
  induction Hs as [|d l Hs IH Hl]; [constructor|].
  rewrite fmap_cons. constructor; [|done].
  rewrite list_elem_of_fmap. intros (d' & He & Hd').
  rewrite Forall_forall in Hl. specialize (Hl d' Hd'). lia.
Qed.

(** Restoring what was captured rebuilds the maps. *)
Lemma restore_captured_devices lim r :
  wf r → generations_valid r → device_count r ≤ max_devices lim →
  restore_devices lim (sorted_devices (state_ r)) ∅ = Ok (devices (state_ r)).
Proof.
  intros [Hp _] [Hg _] Hsz.
  assert (∀ d, d ∈ sorted_devices (state_ r) ↔ devices (state_ r) !! dev_id d = Some d) as Hel
    by (intros; by apply (elem_of_sorted_devices (limits_ r))).
  destruct (restore_devices_list lim (sorted_devices (state_ r)) ∅) as (dm & -> & Hin & Hout).
  - apply Forall_forall. intros d Hd%Hel. destruct (pre_devices _ _ Hp _ _ Hd) as [_ ?].
    split; [done|]. by apply (Hg (dev_id d)).
  - by apply (sorted_devices_NoDup (limits_ r)).
  - intros. apply lookup_empty.
  - change (msize ∅) with 0. unfold sorted_devices. by rewrite zlen_vals.
  - f_equal. apply map_eq. intros k. destruct (devices (state_ r) !! k) as [d|] eqn:Hd.
    + destruct (pre_devices _ _ Hp _ _ Hd) as [<- _]. by apply Hin, Hel.
    + rewrite Hout; [apply lookup_empty|]. intros (d & -> & Hd'%Hel)%list_elem_of_fmap. congruence.
Qed.

Lemma restore_captured_links lim r :
  wf r → generations_valid r → link_count r ≤ max_links lim →
  restore_links lim (devices (state_ r)) (sorted_links (state_ r)) ∅ =
  Ok (restored_link <$> links (state_ r)).
Proof.
  intros [Hp _] [_ Hg] Hsz.
  assert (∀ l, l ∈ sorted_links (state_ r) ↔ links (state_ r) !! lk_id l = Some l) as Hel
    by (intros; by apply (elem_of_sorted_links (limits_ r))).
  destruct (restore_links_list lim (devices (state_ r)) (sorted_links (state_ r)) ∅)
    as (lm & -> & Hin & Hout).
  - apply Forall_forall. intros l Hl%Hel. destruct (pre_links _ _ Hp _ _ Hl) as (_&?&?&?&?).
    split_and!; try done. by apply (Hg (lk_id l)).
  - by apply (sorted_links_NoDup (limits_ r)).
  - intros. apply lookup_empty.
  - change (msize ∅) with 0. unfold sorted_links. by rewrite zlen_vals.
  - f_equal. apply map_eq. intros k. rewrite lookup_fmap.
    destruct (links (state_ r) !! k) as [l|] eqn:Hl; simpl.
    + destruct (pre_links _ _ Hp _ _ Hl) as (<-&_). by apply Hin, Hel.
    + rewrite Hout; [apply lookup_empty|]. intros (l & -> & Hl'%Hel)%list_elem_of_fmap. congruence.
Qed.

Definition captured (r : Registry) (w : World) : DurableState :=
  mkDurable durable_format_version (topology_generation r)
    (sorted_devices (state_ r)) (sorted_links (state_ r)) (now_timestamp w).1.

Lemma capture_eq r w : (capture_durable_state r w).1 = Ok (captured r w).
Proof. done. Qed.

Lemma restore_captured r w lim w' :
  wf r → generations_valid r → device_count r ≤ max_devices lim → link_count r ≤ max_links lim →
  let out := restore_durable_state (captured r w) (new_registry lim) w' in
  out.1.1 = Ok tt ∧
  let g := gen_next (Z.max 1 (topology_generation r)) in
  topology_generation out.1.2 = g ∧
  devices (state_ out.1.2) = restored_device <$> devices (state_ r) ∧
  links (state_ out.1.2) =
    (λ l, link_set_topology_generation g (restored_link l)) <$> links (state_ r).
Proof.
  intros Hwf Hg Hd Hl. unfold restore_durable_state. cbn [captured ds_format_version].
  rewrite bool_decide_eq_false_2 by (by intros []). cbn [ds_devices ds_links captured limits_ new_registry].
  rewrite restore_captured_devices, restore_captured_links by done.
  simpl. unfold topology_generation. simpl.
  assert ((if 1 <? topology_gen (state_ r) then topology_gen (state_ r) else 1) =
          Z.max 1 (topology_gen (state_ r))) as -> by (case_match; to_props; lia).
  split_and!; try done. by rewrite <-map_fmap_compose.
Qed.

(** C19.  A restart through the state file preserves the topology.  Take a
    well-formed registry whose stored generations are valid and whose captured
    state fits the format: every field within its type, strings of at most 4096
    bytes, at most 256 devices and 1024 links whatever the registry's own limits.
    What is captured, saved without a fault within the size limit, loaded, and
    restored into a fresh registry with room for it gives back the same devices,
    those with an owner marked REVALIDATION_REQUIRED, and the same links, all
    marked REVALIDATION_REQUIRED (their degradation flag is cleared and the note
    says why), under a newer generation (on a platform that evaluates call
    arguments left to right; the newer generation wraps at 2^64). *)
Theorem restart_recovers_topology `{Platform} r w lim w' path fs :
  wf r → generations_valid r → durable_typed (captured r w) →
  device_count r ≤ max_devices lim → link_count r ≤ max_links lim →
  zlen (serialized_prefix (captured r w)) + 4 ≤ max_persisted_state_bytes lim →
  arg_order = LeftToRight →
  ∃ ds, (capture_durable_state r w).1 = Ok ds ∧
    let fs' := (save_durable_state ds path lim no_faults fs).2 in
    load_durable_state path lim no_faults fs' = Ok ds ∧
    let out := restore_durable_state ds (new_registry lim) w' in
    let g := gen_next (Z.max 1 (topology_generation r)) in
    out.1.1 = Ok tt ∧ topology_generation out.1.2 = g ∧
    devices (state_ out.1.2) =
      (λ d, if bool_decide (is_Some (dev_owner_worker d)) || bool_decide (is_Some (dev_owner_boot d))
            then device_set_health DeviceHealthState.REVALIDATION_REQUIRED d else d) <$>
      devices (state_ r) ∧
    links (state_ out.1.2) =
      (λ l, link_set_topology_generation g
              (link_set_dynamic LinkOperationalState.REVALIDATION_REQUIRED false
                 "revalidation required after durable-state restore" l)) <$> links (state_ r).
Proof.
  intros Hwf Hg Ht Hd Hl Hsz Ha. exists (captured r w). split; [done|].
  split; [|by apply restore_captured].
  destruct (save_no_faults (captured r w) path lim fs Hsz) as (ser & Hser & _ & Hfile).
  unfold load_durable_state. rewrite Hfile.
  destruct (deserialize_serialize (captured r w) Ht) as (ser' & Hser' & Hdes).
  rewrite Hser in Hser'. apply Ok_inj in Hser'. subst ser'.
  unfold serialize_durable_state in Hser. apply Ok_inj in Hser. subst ser. cbn [ser_bytes].
  rewrite (proj2 (Z.ltb_ge _ _)) by (rewrite zlen_app, zlen_put_u32; lia).
  cbn [can_read no_faults negb]. unfold serialize_durable_state in Hdes.
  change 1 with durable_version. rewrite Hdes. by rewrite reread_durable_ltr.
Qed.

Lemma triangle_generations_valid : generations_valid triangle_registry.
Proof. split; apply (bool_decide_unpack _); vm_compute; exact I. Qed.

(** What the triangle is captured as. *)
Definition triangle_state : DurableState :=
  mkDurable durable_format_version 7
    [make_device 1 "gpu1" 1; make_device 2 "gpu2" 1; make_device 3 "gpu3" 1]
    (link_set_topology_generation 7 <$>
      [make_link 10 1 2 LinkOperationalState.UP 1; make_link 11 2 3 LinkOperationalState.UP 1;
       make_link 12 1 3 LinkOperationalState.UP 1])
    (mkTimestamp 1006 true).

Lemma triangle_captured : captured triangle_registry triangle_world = triangle_state.
Proof. vm_compute. reflexivity. Qed.

Lemma triangle_captured_typed : durable_typed (captured triangle_registry triangle_world).
Proof.
  rewrite triangle_captured. split; try done.
  - repeat constructor; try done.
  - repeat constructor; done.
Qed.

Lemma restart_recovers_topology_witness :
  ∃ ds, (capture_durable_state triangle_registry triangle_world).1 = Ok ds ∧
    let out := restore_durable_state ds (new_registry default_limits) world0 in
    out.1.1 = Ok tt ∧ topology_generation out.1.2 = 8 ∧
    devices (state_ out.1.2) = restored_device <$> devices (state_ triangle_registry).
Proof.
  destruct (@restart_recovers_topology reference_platform triangle_registry triangle_world
    default_limits world0 "state.bin" ∅) as (ds & Hc & _ & Hok & Hg & Hd & _).
  - apply triangle_wf.
  - apply triangle_generations_valid.
  - apply triangle_captured_typed.
  - by vm_compute.
  - by vm_compute.
  - by vm_compute.
  - reflexivity.
  - exists ds. split; [exact Hc|]. split; [exact Hok|]. split; [|exact Hd].
    rewrite Hg. vm_compute. reflexivity.
Defined.
