(* ===== verification/Typing.v ===== *)
(** * Types of the registry's contents

    What the C++ types promise of every field (integers within their width,
    enumerations within a byte) together with the string bound of the state
    file, and that every call preserves it: whatever sequence of calls a
    process makes, the state it captures is one the serializer can write and
    the deserializer can read. *)

From S2P Require Import Prelude Enums Double Records World Registry RegistryFacts Fixtures.
From S2P Require Import RegistryProps Bytes Serialization SerializationFacts.
From S2P Require Import SerializationProps Persistence Recovery.

Record registry_typed (r : Registry) : Prop := {
  rt_gen : u64 (topology_gen (state_ r));
  rt_devices : map_Forall (λ _, device_typed) (devices (state_ r));
  rt_links : map_Forall (λ _, link_typed) (links (state_ r))
}.

(** The clock stays within [std::int64_t] nanoseconds. *)
Definition clock_typed (w : World) : Prop := ∀ n, timestamp_typed (mkTimestamp (clock w n) true).

Definition op_typed (op : Op) : Prop :=
  match op with
  | UpsertDevice d => device_typed d
  | UpsertLink l => link_typed l
  | UpdateLinkState _ st ev _ note => enum_wf st ∧ evidence_typed ev ∧ str_ok note
  | UpdateDeviceHealth _ h ev => enum_wf h ∧ evidence_typed ev
  | RestoreDurable ds => u64 (ds_topology_generation ds) ∧
      Forall device_typed (ds_devices ds) ∧ Forall link_typed (ds_links ds)
  | _ => True
  end.

(** ** The pieces of the calls *)

Lemma gen_next_u64 g : u64 (gen_next g).
Proof. apply wrap64_u64. Qed.

Lemma link_typed_stamp g l : u64 g → link_typed l → link_typed (link_set_topology_generation g l).
Proof. intros Hg []. by split. Qed.

Lemma link_typed_dynamic st deg note l :
  enum_wf st → str_ok note → link_typed l → link_typed (link_set_dynamic st deg note l).
Proof. intros ?? []. by split. Qed.

Lemma link_typed_observed g ev now l :
  u64 g → evidence_typed ev → timestamp_typed now → link_typed l →
  link_typed (link_set_observed g ev now l).
Proof. intros ??? []. by split. Qed.

Lemma device_typed_health h d : enum_wf h → device_typed d → device_typed (device_set_health h d).
Proof. intros ? []. by split. Qed.

Lemma device_typed_observed ev g d :
  evidence_typed ev → u64 g → device_typed d → device_typed (device_set_observed ev g d).
Proof. intros ?? []. by split. Qed.

#[local] Hint Resolve gen_next_u64 link_typed_stamp link_typed_dynamic link_typed_observed
  device_typed_health device_typed_observed : fabric.

Lemma typed_commit r next o :
  map_Forall (λ _, device_typed) (devices next) → map_Forall (λ _, link_typed) (links next) →
  registry_typed (commit_topology r next o).2.
Proof.
  intros Hd Hl. split; simpl; [apply gen_next_u64|done|].
  apply map_Forall_fmap. intros k l Hk. simpl. eauto with fabric.
Qed.

Lemma fmap_typed {A} (T : A → Prop) (f : A → A) (m : gmap Z A) :
  (∀ x, T x → T (f x)) → map_Forall (λ _, T) m → map_Forall (λ _, T) (f <$> m).
Proof. intros Hf Hm. apply map_Forall_fmap. intros k x Hx. by apply Hf, (Hm k). Qed.

Lemma emplace_typed {A} (T : A → Prop) k x (m : gmap Z A) :
  T x → map_Forall (λ _, T) m → map_Forall (λ _, T) (emplace k x m).
Proof. intros Hx Hm. unfold emplace. case_match; [done|]. by apply map_Forall_insert_2. Qed.

Lemma revalidate_link_typed note l : str_ok note → link_typed l → link_typed (revalidate_link note l).
Proof. intros. by apply link_typed_dynamic. Qed.

Lemma restored_device_typed d : device_typed d → device_typed (restored_device d).
Proof. intros. unfold restored_device. case_match; [by apply device_typed_health|done]. Qed.

Lemma revalidate_owned_typed d : device_typed d → device_typed (revalidate_owned_device d).
Proof. intros. unfold revalidate_owned_device. case_match; [by apply device_typed_health|done]. Qed.

Lemma restore_devices_typed lim ds acc dm :
  restore_devices lim ds acc = Ok dm → Forall device_typed ds →
  map_Forall (λ _, device_typed) acc → map_Forall (λ _, device_typed) dm.
Proof.
  revert acc. induction ds as [|d ds IH]; simpl; intros acc Hr Hds Hacc.
  - apply Ok_inj in Hr. by subst.
  - repeat case_match; try done. apply Forall_cons in Hds as [Hd Hds].
    eapply IH; eauto using emplace_typed.
Qed.

Lemma restore_links_typed lim dm ls acc lm :
  restore_links lim dm ls acc = Ok lm → Forall link_typed ls →
  map_Forall (λ _, link_typed) acc → map_Forall (λ _, link_typed) lm.
Proof.
  revert acc. induction ls as [|l ls IH]; simpl; intros acc Hr Hls Hacc.
  - apply Ok_inj in Hr. by subst.
  - repeat case_match; try done. apply Forall_cons in Hls as [Hl Hls].
    eapply IH; [done..|]. apply emplace_typed; [|done]. by apply revalidate_link_typed.
Qed.

(** ** Preservation *)
Section Typing.
Context {P : Platform}.

Lemma run_op_typed op r w :
  op_typed op → clock_typed w → registry_typed r → registry_typed (run_op op r w).1.2.
Proof.
  intros Hop Hw Hr. destruct (Hr) as [Hg Hd Hl].
  destruct (run_op op r w) as [[res r'] w'] eqn:E. simpl.
  destruct op; cbn [run_op op_typed] in *.
  - unfold upsert_device in E. open_op E; simplify_eq; try done; apply typed_commit; simpl; try done;
      by apply map_Forall_insert_2.
  - unfold remove_device in E. open_op E; simplify_eq; try done; apply typed_commit; simpl.
    + by apply map_Forall_delete.
    + intros k l [Hk _]%without_endpoint_lookup. by apply (Hl k).
  - unfold upsert_link in E. open_op E; simplify_eq; try done; apply typed_commit; simpl; try done;
      by apply map_Forall_insert_2.
  - unfold remove_link in E. open_op E; simplify_eq; try done; apply typed_commit; simpl; try done.
    by apply map_Forall_delete.
  - unfold update_link_state in E. open_op E; simplify_eq; try done; apply typed_commit; simpl; try done.
    apply map_Forall_insert_2; [|done]. destruct_and!. eauto with fabric.
  - unfold update_device_health in E. open_op E; simplify_eq; try done; apply typed_commit; simpl; try done.
    apply map_Forall_insert_2; [|done]. destruct_and!. eauto with fabric.
  - unfold advance_topology in E. open_op E. simplify_eq. by apply typed_commit.
  - unfold publish_observation in E. rewrite bind_eq in E. unfold ret, commit in E. by simplify_eq.
  - unfold publish_measurement in E. rewrite bind_eq in E. unfold ret, commit in E. by simplify_eq.
  - unfold mark_dynamic_evidence_revalidation_required in E. open_op E. simplify_eq.
    apply typed_commit; simpl; apply fmap_typed; try done; eauto using revalidate_owned_typed.
    intros. by apply revalidate_link_typed.
  - unfold restore_durable_state in E. open_op E; simplify_eq; try done.
    destruct Hop as (Hgen & Hds & Hls). split; simpl; [apply gen_next_u64|..].
    + apply fmap_typed; [apply restored_device_typed|]. by eapply restore_devices_typed.
    + apply fmap_typed; [eauto with fabric|]. by eapply restore_links_typed.
Qed.

(** The registries a process can reach when every value it passes has its C++
    type. *)
Inductive typed_reachable (lim : Limits) : Registry → Prop :=
| typed_new : typed_reachable lim (new_registry lim)
| typed_call op r w :
    typed_reachable lim r → op_typed op → clock_typed w →
    typed_reachable lim (run_op op r w).1.2.

Lemma typed_reachable_ok lim r :
  limits_ok lim → typed_reachable lim r → registry_typed r ∧ wf r ∧ limits_ r = lim.
Proof.
  intros Hlim. induction 1 as [|op r w _ (Ht & Hwf & Hl) Hop Hw].
  - split_and!; [|by apply new_registry_wf|done]. by split.
  - split; [by apply run_op_typed|].
    destruct (run_op op r w) as [[res r'] w'] eqn:E. simpl.
    destruct (effect_wf op r res r') as [? Hl']; [by rewrite Hl|done|by eapply run_op_effect|].
    split; [done|congruence].
Qed.
End Typing.

(** C21.  Types are preserved: as long as callers pass values of the C++ field
    types, with strings of at most 4096 bytes, whatever the sequence of
    registry calls, each field of each stored device and link stays within its
    type, and under limits no larger than the default ones the state captured
    at any time is one that the state file represents exactly: it serializes,
    and deserializes to itself (on a platform that evaluates call arguments
    left to right). *)
Theorem reachable_state_typed `{Platform} lim r w :
  limits_ok lim → max_devices lim ≤ max_devices default_limits →
  max_links lim ≤ max_links default_limits →
  typed_reachable lim r → clock_typed w →
  registry_typed r ∧ durable_typed (captured r w) ∧
  (arg_order = LeftToRight →
   ∃ ser, serialize_durable_state (captured r w) = Ok ser ∧
          deserialize_durable_state ser = Ok (captured r w)).
Proof.
  intros Hlim Hmd Hml Hr Hw.
  destruct (typed_reachable_ok lim r Hlim Hr) as ([Hg Hd Hl] & [Hp _] & <-). destruct (Hp).
  assert (durable_typed (captured r w)) as Ht.
  { split; simpl; try done.
    - apply Forall_forall. intros d Hin. apply (elem_of_sorted_devices _ _ _ Hp) in Hin.
      by apply (Hd (dev_id d)).
    - apply Forall_forall. intros l Hin. apply (elem_of_sorted_links _ _ _ Hp) in Hin.
      by apply (Hl (lk_id l)).
    - unfold sorted_devices. rewrite zlen_vals. by etrans.
    - unfold sorted_links. rewrite zlen_vals. by etrans. }
  split; [by split|]. split; [done|]. intros Ha.
  destruct (deserialize_serialize (captured r w) Ht) as (ser & Hs & Hdes).
  exists ser. split; [done|]. by rewrite Hdes, reread_durable_ltr.
Qed.

(** The calls of a list under a clock that stands still. *)
Definition still_world : World := initial_world (λ _, 1000).
Definition replay `{Platform} (ops : list Op) (r : Registry) : Registry :=
  foldl (λ r op, (run_op op r still_world).1.2) r ops.

Lemma replay_typed `{Platform} lim ops r :
  Forall op_typed ops → typed_reachable lim r → typed_reachable lim (replay ops r).
Proof.
  intros Hops. revert r. induction Hops as [|op ops Hop _ IH]; intros r Hr; [done|].
  simpl. apply IH. by apply typed_call.
Qed.

(** The triangle, after which a link goes down and a device goes away. *)
Definition eventful : list Op :=
  triangle ++ [UpdateLinkState 10 LinkOperationalState.DOWN synthetic_evidence true "cable"; RemoveDevice 3;
               MarkRevalidation].

Lemma reachable_state_typed_witness :
  let r := @replay reference_platform eventful (new_registry default_limits) in
  link_count r = 1 ∧ durable_typed (captured r still_world).
Proof.
  split; [by vm_compute|].
  apply (@reachable_state_typed reference_platform default_limits); try done.
  apply replay_typed; [|by apply typed_new].
  repeat (apply Forall_cons; split; [by repeat split|]). apply Forall_nil. exact I.
Defined.
