(* ===== verification/Transport.v ===== *)
(** * Frames over a stream socket (runtime.cpp, send_all to send_frame)

    A connected socket is what the kernel still holds for it: the chunks in
    which the peer's bytes arrive, each [recv] handing out at most one chunk,
    and how much each [send] will take.  The retry loops of the source are
    shown to hide both. *)

From S2P Require Import Prelude Enums Records Bytes BytesFacts Protocol ProtocolProps.

(** [sk_in]: the chunks still to arrive, then end of file; an empty chunk is
    an error.  [sk_accept]: what the coming sends take (nothing positive: an
    error), then everything.  [sk_out]: the bytes handed to the peer. *)
Record Sock := mkSock { sk_in : list (list Z); sk_accept : list Z; sk_out : list Z }.

Definition recv (n : Z) : Sock → list Z * Sock := λ s,
  match sk_in s with
  | [] => ([], s)
  | c :: cs =>
      (take (Z.to_nat n) c,
       mkSock (if zlen c <=? n then cs else drop (Z.to_nat n) c :: cs) (sk_accept s) (sk_out s))
  end.

Definition send (bytes : list Z) : Sock → Z * Sock := λ s,
  match sk_accept s with
  | [] => (zlen bytes, mkSock (sk_in s) [] (sk_out s ++ bytes))
  | k :: ks =>
      (Z.min k (zlen bytes), mkSock (sk_in s) ks (sk_out s ++ take (Z.to_nat k) bytes))
  end.

(** The loop of [send_all]: [bytes] is what is left from [off] on.  Each
    successful call sends at least one byte, so the fuel is the length. *)
Fixpoint send_loop (fuel : nat) (bytes : list Z) : Sock → bool * Sock :=
  match bytes with
  | [] => ret true
  | _ =>
      match fuel with
      | O => ret false
      | S fuel' =>
          let* sent := send bytes in
          if sent <=? 0 then ret false else send_loop fuel' (drop (Z.to_nat sent) bytes)
      end
  end.
Definition send_all (bytes : list Z) : Sock → bool * Sock := send_loop (length bytes) bytes.

(** The loop of [recv_exact]: [buf] is what has been received. *)
Fixpoint recv_loop (fuel : nat) (n : Z) (buf : list Z) : Sock → option (list Z) * Sock :=
  if n <=? zlen buf then ret (Some buf)
  else
    match fuel with
    | O => ret None
    | S fuel' =>
        let* r := recv (n - zlen buf) in
        if zlen r <=? 0 then ret None else recv_loop fuel' n (buf ++ r)
    end.
Definition recv_exact (n : Z) : Sock → option (list Z) * Sock := recv_loop (Z.to_nat n) n [].

Definition recv_frame (max_bytes : Z) : Sock → Result Frame * Sock :=
  let* header := recv_exact kHeaderNoPayload in
  match header with
  | None => ret (err ErrorCode.PROTOCOL_ERROR "connection closed during header")
  | Some header =>
      let payload_len := u32_at header 6 in
      if wrap64 (max_bytes - kHeaderNoPayload - kCrcBytes) <? payload_len then
        ret (err ErrorCode.RESOURCE_LIMIT "frame too large")
      else
        let* rest := recv_exact (payload_len + kCrcBytes) in
        match rest with
        | None => ret (err ErrorCode.PROTOCOL_ERROR "connection closed during payload")
        | Some rest => ret (decode_frame (header ++ rest) max_bytes)
        end
  end.

Definition send_frame (f : Frame) (max_bytes : Z) : Sock → bool * Sock :=
  match encode_frame f max_bytes with
  | Err _ => ret false
  | Ok bytes => send_all bytes
  end.

(** [ensure_net]: whether [WSAStartup] is called, and the once flag afterwards;
    its result is not looked at. *)
Definition ensure_net (windows started : bool) : bool * bool :=
  (windows && negb started, windows || started).

(** ** The loops deliver the stream, however it is cut *)

(** The chunks hold bytes; none reports an error. *)
Definition chunks_ok (s : Sock) : Prop := Forall (λ c, c ≠ []) (sk_in s).
Definition stream (s : Sock) : list Z := concat (sk_in s).

Lemma zlen_pos {A} (l : list A) : l ≠ [] → 0 < zlen l.
Proof. destruct l; [done|]. rewrite zlen_cons. pose proof (zlen_nonneg l). lia. Qed.

Lemma zlen_take {A} n (l : list A) : 0 ≤ n → zlen (take (Z.to_nat n) l) = Z.min n (zlen l).
Proof. intros. unfold zlen. rewrite length_take. lia. Qed.

Lemma zlen_drop {A} n (l : list A) : 0 ≤ n → zlen (drop (Z.to_nat n) l) = Z.max 0 (zlen l - n).
Proof. intros. unfold zlen. rewrite length_drop. lia. Qed.

(** One [recv] takes a non-empty prefix of the stream. *)
Lemma recv_prefix n s : 0 < n → chunks_ok s → stream s ≠ [] →
  let '(r, s') := recv n s in
  r ≠ [] ∧ zlen r ≤ n ∧ stream s = r ++ stream s' ∧ chunks_ok s' ∧ sk_out s' = sk_out s ∧
  sk_accept s' = sk_accept s.
Proof.
  unfold recv, chunks_ok, stream. intros Hn Hok Hs. destruct (sk_in s) as [|c cs]; [done|].
  apply Forall_cons in Hok as [Hc Hok]. apply zlen_pos in Hc. simpl.
  assert (take (Z.to_nat n) c ≠ []) as Ht.
  { intros E. assert (zlen (take (Z.to_nat n) c) = 0) as E0 by by rewrite E.
    rewrite zlen_take in E0; lia. }
  split_and!; [done|rewrite zlen_take; lia| | |done|done].
  - destruct (zlen c <=? n) eqn:E; to_props.
    + rewrite take_ge; [done|unfold zlen in *; lia].
    + simpl. by rewrite (assoc_L (++)), take_drop.
  - destruct (zlen c <=? n) eqn:E; to_props; [done|]. constructor; [|done].
    intros E1. assert (zlen (drop (Z.to_nat n) c) = 0) as E0 by by rewrite E1.
    rewrite zlen_drop in E0; lia.
Qed.

Lemma recv_loop_spec fuel n buf s :
  chunks_ok s → zlen buf ≤ n → n - zlen buf ≤ Z.of_nat fuel →
  let '(res, s') := recv_loop fuel n buf s in
  chunks_ok s' ∧ sk_out s' = sk_out s ∧ sk_accept s' = sk_accept s ∧
  let k := n - zlen buf in
  if k <=? zlen (stream s) then
    res = Some (buf ++ take (Z.to_nat k) (stream s)) ∧ stream s' = drop (Z.to_nat k) (stream s)
  else res = None ∧ stream s' = [].
Proof.
  revert buf s. induction fuel as [|fuel IH]; intros buf s Hok Hb Hf; cbn [recv_loop].
  - rewrite (proj2 (Z.leb_le n (zlen buf))) by lia. cbn [ret]. cbv zeta.
    replace (n - zlen buf) with 0 by lia. pose proof (zlen_nonneg (stream s)).
    rewrite (proj2 (Z.leb_le _ _)) by lia. rewrite take_0, drop_0, app_nil_r. done.
  - destruct (n <=? zlen buf) eqn:E; to_props.
    { cbn [ret]. cbv zeta. replace (n - zlen buf) with 0 by lia.
      pose proof (zlen_nonneg (stream s)).
      rewrite (proj2 (Z.leb_le _ _)) by lia. rewrite take_0, drop_0, app_nil_r. done. }
    unfold bind. destruct (decide (stream s = [])) as [Hnil|Hs].
    { unfold recv, stream, chunks_ok in *. destruct (sk_in s) as [|c cs] eqn:Hi.
      - cbn [ret]. change (zlen [] <=? 0) with true. cbn [ret]. cbv zeta. rewrite Hi.
        rewrite (proj2 (Z.leb_gt _ _)) by (unfold zlen at 1; simpl; lia). done.
      - apply Forall_cons in Hok as [Hc _]. by destruct c. }
    pose proof (recv_prefix (n - zlen buf) s) as Hr.
    destruct (recv (n - zlen buf) s) as [r s1].
    destruct Hr as (Hrn & Hrl & Hst & Hok1 & Ho1 & Ha1); [lia|done..|].
    apply zlen_pos in Hrn. rewrite (proj2 (Z.leb_gt _ _)) by lia.
    specialize (IH (buf ++ r) s1 Hok1). rewrite zlen_app in IH.
    destruct (recv_loop fuel n (buf ++ r) s1) as [res s'].
    destruct IH as (? & -> & -> & Hres); [lia..|]. split_and!; [done..|]. cbv zeta in *.
    rewrite Hst, zlen_app.
    replace (n - zlen buf) with (zlen r + (n - (zlen buf + zlen r))) by lia.
    case_match eqn:E1; case_match eqn:E2; to_props; try lia; [|done].
    destruct Hres as [-> ->]. unfold zlen in *.
    rewrite take_app_ge, drop_app_ge by lia. rewrite <-(assoc_L (++)).
    replace (Z.to_nat _ - length r)%nat
      with (Z.to_nat (n - (Z.of_nat (length buf) + Z.of_nat (length r)))) by lia.
    done.
Qed.

(** [recv_exact] as a function of the stream alone. *)
Lemma recv_exact_spec n s :
  chunks_ok s → 0 ≤ n →
  let '(res, s') := recv_exact n s in
  chunks_ok s' ∧ sk_out s' = sk_out s ∧ sk_accept s' = sk_accept s ∧
  if n <=? zlen (stream s) then
    res = Some (take (Z.to_nat n) (stream s)) ∧ stream s' = drop (Z.to_nat n) (stream s)
  else res = None ∧ stream s' = [].
Proof.
  intros Hok Hn. pose proof (recv_loop_spec (Z.to_nat n) n [] s Hok) as H.
  unfold recv_exact. destruct (recv_loop _ _ _ _) as [res s'].
  replace (n - zlen []) with n in H by (unfold zlen; simpl; lia).
  apply H; [unfold zlen; simpl; lia|lia].
Qed.

Lemma send_loop_spec fuel bytes s :
  zlen bytes ≤ Z.of_nat fuel →
  let '(ok, s') := send_loop fuel bytes s in
  sk_in s' = sk_in s ∧
  ∃ sent unsent, bytes = sent ++ unsent ∧ sk_out s' = sk_out s ++ sent ∧ (ok = true ↔ unsent = []).
Proof.
  revert bytes s. induction fuel as [|fuel IH]; intros bytes s Hf;
    destruct bytes as [|b bs]; cbn [send_loop].
  1,3: split; [done|]; exists [], []; by rewrite !app_nil_r.
  { rewrite zlen_cons in Hf. pose proof (zlen_nonneg bs). lia. }
  set (bytes := b :: bs) in *. assert (0 < zlen bytes) as Hp by by apply zlen_pos.
  unfold bind, send. destruct (sk_accept s) as [|k ks].
  - rewrite (proj2 (Z.leb_gt _ _)) by done.
    assert (drop (Z.to_nat (zlen bytes)) bytes = []) as -> by (apply drop_ge; unfold zlen; lia).
    destruct fuel; cbn [send_loop ret]; (split; [done|]); exists bytes, [];
      rewrite !app_nil_r; done.
  - destruct (Z.min k (zlen bytes) <=? 0) eqn:E; to_props; cbn [ret].
    { split; [done|]. exists [], bytes. replace (Z.to_nat k) with 0%nat by lia.
      by rewrite take_0. }
    set (s1 := mkSock _ _ _).
    specialize (IH (drop (Z.to_nat (Z.min k (zlen bytes))) bytes) s1).
    destruct (send_loop fuel _ s1) as [ok s']. destruct IH as (Hi & sent & unsent & Hb & Ho & Hok).
    { rewrite zlen_drop by lia. lia. }
    split; [done|]. exists (take (Z.to_nat k) bytes ++ sent), unsent.
    assert (drop (Z.to_nat (Z.min k (zlen bytes))) bytes = drop (Z.to_nat k) bytes) as Hd.
    { destruct (decide (k ≤ zlen bytes)); [by rewrite Z.min_l by lia|].
      rewrite Z.min_r, !drop_ge by (unfold zlen in *; lia). done. }
    rewrite Hd in Hb. split_and!; [|by rewrite Ho; simpl; rewrite <-(assoc_L (++))|done].
    by rewrite <-(assoc_L (++)), <-Hb, take_drop.
Qed.

(** Everything is sent, or a proper prefix. *)
Lemma send_all_spec bytes s :
  let '(ok, s') := send_all bytes s in
  sk_in s' = sk_in s ∧
  ∃ sent unsent, bytes = sent ++ unsent ∧ sk_out s' = sk_out s ++ sent ∧ (ok = true ↔ unsent = []).
Proof. apply send_loop_spec. done. Qed.

(** ** Frames *)

Lemma u32_at_take n pos bs : (pos + 4 ≤ n)%nat → u32_at (take n bs) pos = u32_at bs pos.
Proof.
  intros Hn. unfold u32_at. f_equal. rewrite skipn_firstn_comm, take_take.
  f_equal. lia.
Qed.

Lemma u32_at_nonneg bs pos : bytes_ok bs → 0 ≤ u32_at bs pos.
Proof.
  intros Hb. unfold u32_at. by apply get_le_range, Forall_take, Forall_drop.
Qed.

(** [recv_frame] as a function of the stream alone. *)
Lemma recv_frame_spec max s :
  chunks_ok s → bytes_ok (stream s) →
  let '(res, s') := recv_frame max s in
  let size := 14 + u32_at (stream s) 6 in
  chunks_ok s' ∧ sk_out s' = sk_out s ∧ sk_accept s' = sk_accept s ∧
  if (10 <=? zlen (stream s)) && (u32_at (stream s) 6 <=? wrap64 (max - 14)) &&
     (size <=? zlen (stream s)) then
    res = decode_frame (take (Z.to_nat size) (stream s)) max ∧
    stream s' = drop (Z.to_nat size) (stream s)
  else has_value res = false.
Proof.
  intros Hok Hb. unfold recv_frame, kHeaderNoPayload, kCrcBytes, bind.
  change (4 + 1 + 1 + 4) with 10.
  pose proof (recv_exact_spec 10 s Hok) as H1.
  destruct (recv_exact 10 s) as [h s1]. destruct H1 as (Hok1 & Ho1 & Ha1 & H1); [lia|].
  destruct (10 <=? zlen (stream s)) eqn:E10; destruct H1 as [-> Hs1]; cbn [ret andb]; [|done].
  rewrite u32_at_take by done. to_props.
  pose proof (u32_at_nonneg (stream s) 6 Hb) as Hlen. set (len := u32_at (stream s) 6) in *.
  replace (max - 10 - 4) with (max - 14) by lia.
  destruct (wrap64 (max - 14) <? len) eqn:Em; to_props.
  { rewrite (proj2 (Z.leb_gt len _)) by done. done. }
  rewrite (proj2 (Z.leb_le len _)) by done. cbn [andb].
  pose proof (recv_exact_spec (len + 4) s1 Hok1) as H2.
  destruct (recv_exact (len + 4) s1) as [r s2]. destruct H2 as (Hok2 & Ho2 & Ha2 & H2); [lia|].
  rewrite Hs1 in H2. rewrite zlen_drop in H2 by lia.
  destruct (len + 4 <=? _) eqn:E; to_props; destruct H2 as [-> Hs2]; cbn [ret].
  - rewrite (proj2 (Z.leb_le _ _)) by lia. split_and!; try done; try congruence.
    + f_equal. replace (Z.to_nat (14 + len)) with (Z.to_nat 10 + Z.to_nat (len + 4))%nat by lia.
      by rewrite take_take_drop.
    + rewrite Hs2, drop_drop. f_equal. lia.
  - rewrite (proj2 (Z.leb_gt _ _)) by lia. split_and!; try done; congruence.
Qed.

Lemma encode_frame_length f max bs :
  frame_wf f → max < two32 → encode_frame f max = Ok bs →
  bytes_ok bs ∧ 14 ≤ zlen bs ≤ max ∧ u32_at bs 6 = zlen bs - 14.
Proof.
  intros Hf Hm He. assert (bytes_ok bs) as Hok.
  { pose proof (encode_frame_sealed f max bs (proj2 (proj2 Hf)) He) as (p & Hp & ->).
    apply Forall_app. split; [done|apply put_le_ok]. }
  assert (decode_frame bs max = Ok f) as Hd by by apply decode_frame_iff.
  split; [done|]. apply decode_frame_length in Hd as Hl.
  pose proof (u32_at_nonneg bs 6 Hok). unfold kHeaderNoPayload, kCrcBytes in Hl.
  unfold encode_frame, kHeaderNoPayload, kCrcBytes in He. destruct (max <? _) eqn:E; [done|].
  apply Ok_inj in He. subst bs. to_props.
  assert (zlen (frame_prefix f ++ put_u32 (crc32 (frame_prefix f))) = 14 + zlen (fr_payload f)).
  { assert (∀ v, zlen (put_u32 v) = 4) as Hput by
      (intros; unfold zlen, put_u32; by rewrite put_le_length).
    rewrite frame_prefix_parts, !zlen_app, !zlen_cons, !zlen_app, !Hput. lia. }
  lia.
Qed.

Lemma u32_at_app bs rest pos : (pos + 4 ≤ length bs)%nat → u32_at (bs ++ rest) pos = u32_at bs pos.
Proof. intros. unfold u32_at. by rewrite drop_app_le, take_app_le by (rewrite ?length_drop; lia). Qed.

(** A stream that starts with an encoded frame. *)
Lemma recv_frame_encoded f max bs rest s :
  frame_wf f → max < two32 → encode_frame f max = Ok bs →
  chunks_ok s → bytes_ok rest → stream s = bs ++ rest →
  ∃ s', recv_frame max s = (Ok f, s') ∧ chunks_ok s' ∧ stream s' = rest ∧
        sk_out s' = sk_out s ∧ sk_accept s' = sk_accept s.
Proof.
  intros Hf Hm He Hok Hr Hs.
  destruct (encode_frame_length f max bs Hf Hm He) as (Hb & Hlen & Hu).
  pose proof (recv_frame_spec max s Hok) as H. rewrite Hs in H.
  destruct (recv_frame max s) as [res s'].
  destruct H as (? & ? & ? & H); [by apply Forall_app|].
  rewrite u32_at_app, Hu in H by (unfold zlen in *; lia).
  replace (14 + (zlen bs - 14)) with (zlen bs) in H by lia.
  unfold wrap64, two64, two32 in *. pose proof (zlen_nonneg rest).
  rewrite Z.mod_small, !zlen_app in H by lia.
  rewrite !(proj2 (Z.leb_le _ _)) in H by lia. cbn [andb] in H. destruct H as [-> Hs'].
  unfold zlen in H2. unfold zlen in Hs'. rewrite Nat2Z.id, drop_app_length in Hs'.
  exists s'. split_and!; try done. f_equal. unfold zlen. rewrite Nat2Z.id, take_app_length.
  by apply decode_frame_iff.
Qed.

(** A stream that ends inside an encoded frame. *)
Lemma recv_frame_truncated f max bs cut rest s :
  frame_wf f → max < two32 → encode_frame f max = Ok bs → bs = cut ++ rest → rest ≠ [] →
  chunks_ok s → stream s = cut → has_value (recv_frame max s).1 = false.
Proof.
  intros Hf Hm He Hbs Hrest%zlen_pos Hok Hs.
  destruct (encode_frame_length f max bs Hf Hm He) as (Hb & Hlen & Hu). subst bs.
  pose proof (recv_frame_spec max s Hok) as H. rewrite Hs in H.
  destruct (recv_frame max s) as [res s'].
  destruct H as (? & ? & ? & H); [by apply Forall_app in Hb as [? _]|].
  rewrite zlen_app in *.
  destruct (10 <=? zlen cut) eqn:E; to_props; [|done].
  rewrite u32_at_app in Hu by (unfold zlen in *; lia). rewrite Hu in H.
  rewrite (proj2 (Z.leb_gt (14 + _) _)), andb_false_r in H by lia. done.
Qed.

(** C17.  Frame delivery: whatever pieces the two kernels cut the bytes into,
    if [send_frame] reports success the peer's [recv_frame] yields that very
    frame and leaves the stream exactly behind it; if it reports failure (an
    oversized frame, a connection lost at any byte) the peer gets an error,
    never another frame. *)
Theorem frame_delivery f max accept sent s' r rest :
  frame_wf f → max < two32 →
  send_frame f max (mkSock [] accept []) = (sent, s') →
  chunks_ok r → bytes_ok rest →
  stream r = sk_out s' ++ (if sent then rest else []) →
  if sent then ∃ r', recv_frame max r = (Ok f, r') ∧ chunks_ok r' ∧ stream r' = rest
  else has_value (recv_frame max r).1 = false.
Proof.
  intros Hf Hm Hsend Hok Hrest Hr. unfold send_frame in Hsend.
  destruct (encode_frame f max) as [bs|e] eqn:He.
  - pose proof (send_all_spec bs (mkSock [] accept [])) as H.
    rewrite Hsend in H. destruct H as (_ & snt & unsent & Hbs & Ho & Hiff). simpl in Ho.
    rewrite Ho in Hr. destruct sent.
    + rewrite (proj1 Hiff eq_refl), app_nil_r in Hbs. subst snt.
      destruct (recv_frame_encoded f max bs rest r) as (r' & ? & ? & ? & _); [done..|].
      by exists r'.
    + rewrite app_nil_r in Hr. apply (recv_frame_truncated f max bs snt unsent); try done.
      by intros ?%Hiff.
  - injection Hsend as <- <-. cbn [sk_out app] in Hr.
    pose proof (recv_frame_spec max r Hok) as H. rewrite Hr in H.
    destruct (recv_frame max r) as [res r']. apply H. constructor.
Qed.


Lemma frame_delivery_witness :
  ∃ r', recv_frame 1024 (mkSock [take 5 hello_bytes; drop 5 hello_bytes ++ [78]; [86]] [] []) =
        (Ok hello_frame, r') ∧ chunks_ok r' ∧ stream r' = [78; 86].
Proof.
  apply (frame_delivery hello_frame 1024 [1; 7; 3] true
           (mkSock [] [] hello_bytes) _ [78; 86]).
  - split_and!; [reflexivity..|]. apply (bool_decide_unpack _). vm_compute. exact I.
  - reflexivity.
  - vm_compute. reflexivity.
  - repeat constructor; vm_compute; discriminate.
  - repeat constructor; lia.
  - vm_compute. reflexivity.
Defined.
