(* ===== verification/Wire.v ===== *)
(** * Worker payloads (runtime.cpp, enc_device to dec_meas)

    The payload codecs of the PUBLISH frames.  They are lossy on purpose: what
    is not sent is filled in by the coordinator, so a record arrives as its
    published view. *)

From S2P Require Import Prelude Enums Double Records World Bytes BytesFacts Serialization.
From S2P Require Import SerializationFacts Protocol.

(** ** Devices *)
Definition enc_device (d : DeviceRecord) : list Z :=
  put_u64 (dev_id d) ++ put_str (dev_logical_name d) ++ put_str (dev_architecture d) ++
  put_str (dev_device_generation d) ++ write_enum (dev_kind d) ++ write_enum (dev_health d) ++
  write_enum (evidence_class (dev_evidence d)) ++ put_u32 (provenance (dev_evidence d)) ++
  put_u64 (dev_generation d) ++ put_u64 (nominal_bandwidth_bps (dev_capability d)) ++
  put_bool (peer_access_supported (dev_capability d)) ++ put_str (dev_pci_identity d).

(** The capability of a record whose other fields keep their defaults. *)
Definition bare_capability (bps : Z) (peer : bool) : Capability :=
  mkCapability (interconnect default_capability) (cap_link_count default_capability)
    (nominal_lane_width default_capability) bps peer
    (measurement_support default_capability) (supported_counters default_capability)
    (telemetry_supported default_capability).

Definition worker_evidence (c : EvidenceClass) (p : Z) : Evidence :=
  mkEvidence c p "worker" (ev_note default_evidence).

Definition dec_device : Reader → DeviceRecord * Reader :=
  let* id := read_u64 in let* name := read_str in let* arch := read_str in
  let* dgen := read_str in let* kind := read_enum in let* health := read_enum in
  let* cls := read_enum in let* prov := read_u32 in let* gen := read_u64 in
  let* bps := read_u64 in let* peer := read_bool in let* pci := read_str in
  ret (mkDevice id name kind "worker" "worker" pci None "worker" arch dgen
         (bare_capability bps peer) health (worker_evidence cls prov) gen None None).

(** ** Links *)
Definition enc_link (l : LinkRecord) : list Z :=
  put_u64 (lk_id l) ++ put_u64 (lk_source l) ++ put_u64 (lk_target l) ++
  put_bool (lk_directed l) ++ write_enum (lk_state l) ++ write_enum (lk_technology l) ++
  put_u64 (nominal_bandwidth_bps (lk_capability l)) ++ put_u64 (lk_generation l) ++
  put_str (lk_physical_identifier l).

(** A link as the coordinator completes it, observed at [now]. *)
Definition worker_link (id src tgt : Z) (directed : bool) (st : LinkOperationalState)
    (tech : InterconnectTechnology) (bps gen : Z) (phys : string) (now : Timestamp) : LinkRecord :=
  mkLink id src tgt directed phys st tech
    (bare_capability bps (peer_access_supported default_capability)) gen
    (mkEvidence EvidenceClass.SYNTHETIC Provenance.SYNTHETIC_FIXTURE "worker" "worker-published")
    now (lk_measurement_supported default_link) (lk_degraded default_link)
    (lk_degradation_note default_link) (lk_topology_generation default_link).

Definition read_link_payload : Reader → (Timestamp → LinkRecord) * Reader :=
  let* id := read_u64 in let* src := read_u64 in let* tgt := read_u64 in
  let* directed := read_bool in let* st := read_enum in let* tech := read_enum in
  let* bps := read_u64 in let* gen := read_u64 in let* phys := read_str in
  ret (worker_link id src tgt directed st tech bps gen phys).

Definition dec_link (r : Reader) : M LinkRecord :=
  let* now := now_timestamp in ret ((read_link_payload r).1 now).

(** ** Measurements *)

(** [None]: the bandwidth has no defined conversion to an integer. *)
Definition enc_meas (m : MeasurementRecord) : option (list Z) :=
  bps ← d_to_u64 (meas_bandwidth_bps m);
  Some (put_u64 (meas_id m) ++ put_u64 (meas_source m) ++ put_u64 (meas_target m) ++
        put_u64 bps ++ put_bool (meas_valid m) ++
        write_enum (evidence_class (meas_evidence m)) ++ put_u64 (meas_payload_bytes m)).

Definition worker_measurement (id src tgt bps : Z) (valid : bool) (cls : EvidenceClass)
    (payload : Z) (now : Timestamp) : MeasurementRecord :=
  mkMeasurement id src tgt payload
    (meas_iterations default_measurement) (meas_warmup_iterations default_measurement)
    (meas_completed_transfers default_measurement) (meas_bytes_verified default_measurement)
    (d_of_Z bps) (meas_latency_seconds default_measurement)
    (meas_warmup_separated default_measurement) (meas_integrity_verified default_measurement)
    (meas_contended default_measurement) (meas_method default_measurement)
    (meas_path_note default_measurement)
    (worker_evidence cls (provenance default_evidence)) now valid
    (meas_stale default_measurement) (meas_revalidation_required default_measurement) None None.

Definition read_meas_payload : Reader → (Timestamp → MeasurementRecord) * Reader :=
  let* id := read_u64 in let* src := read_u64 in let* tgt := read_u64 in
  let* bps := read_u64 in let* valid := read_bool in let* cls := read_enum in
  let* payload := read_u64 in
  ret (worker_measurement id src tgt bps valid cls payload).

Definition dec_meas (r : Reader) : M MeasurementRecord :=
  let* now := now_timestamp in ret ((read_meas_payload r).1 now).

(** ** What arrives *)

(** [put_str] sends at most 65535 bytes. *)
Definition cut_str (s : string) : string := string_of_bytes (take (Z.to_nat 65535) (bytes_of_string s)).

Definition published_device (d : DeviceRecord) : DeviceRecord :=
  mkDevice (dev_id d) (cut_str (dev_logical_name d)) (dev_kind d) "worker" "worker"
    (cut_str (dev_pci_identity d)) None "worker" (cut_str (dev_architecture d))
    (cut_str (dev_device_generation d))
    (bare_capability (nominal_bandwidth_bps (dev_capability d))
       (peer_access_supported (dev_capability d)))
    (dev_health d)
    (worker_evidence (evidence_class (dev_evidence d)) (provenance (dev_evidence d)))
    (dev_generation d) None None.

Definition published_link (l : LinkRecord) : Timestamp → LinkRecord :=
  worker_link (lk_id l) (lk_source l) (lk_target l) (lk_directed l) (lk_state l)
    (lk_technology l) (nominal_bandwidth_bps (lk_capability l)) (lk_generation l)
    (cut_str (lk_physical_identifier l)).

(** The bandwidth arrives truncated to an integer and rounded back. *)
Definition published_measurement (m : MeasurementRecord) (bps : Z) : Timestamp → MeasurementRecord :=
  worker_measurement (meas_id m) (meas_source m) (meas_target m) bps (meas_valid m)
    (evidence_class (meas_evidence m)) (meas_payload_bytes m).

(** ** The decoders read the encoders *)

Lemma bytes_of_string_cut s : bytes_of_string (cut_str s) = take (Z.to_nat 65535) (bytes_of_string s).
Proof. apply bytes_of_string_of_bytes, Forall_take, bytes_of_string_ok. Qed.

Lemma cut_str_short s : slen s ≤ 65535 → cut_str s = s.
Proof.
  unfold slen, zlen, cut_str. intros. rewrite take_ge by lia. apply string_of_bytes_of_string.
Qed.

Lemma put_str_cut s : put_str s = put_u16 (slen (cut_str s)) ++ bytes_of_string (cut_str s).
Proof.
  unfold put_str, slen. rewrite bytes_of_string_cut. set (b := bytes_of_string s).
  destruct (zlen b <=? 65535) eqn:E; to_props; unfold zlen in *.
  - rewrite !take_ge by lia. done.
  - rewrite length_take, Nat.min_l by lia. by rewrite Z2Nat.id by lia.
Qed.

Lemma reads_str s : reads read_str (put_str s) (cut_str s).
Proof.
  rewrite put_str_cut. apply reads_str_bounded; [|done].
  unfold slen. rewrite bytes_of_string_cut. unfold zlen. rewrite length_take. lia.
Qed.

#[export] Hint Resolve reads_str : fabric.

(** The fields that travel hold values of their types. *)
Record device_sendable (d : DeviceRecord) : Prop := {
  sd_id : u64 (dev_id d);
  sd_kind : enum_wf (dev_kind d);
  sd_health : enum_wf (dev_health d);
  sd_class : enum_wf (evidence_class (dev_evidence d));
  sd_prov : u32 (provenance (dev_evidence d));
  sd_gen : u64 (dev_generation d);
  sd_bps : u64 (nominal_bandwidth_bps (dev_capability d))
}.

Record link_sendable (l : LinkRecord) : Prop := {
  sl_id : u64 (lk_id l);
  sl_source : u64 (lk_source l);
  sl_target : u64 (lk_target l);
  sl_state : enum_wf (lk_state l);
  sl_tech : enum_wf (lk_technology l);
  sl_bps : u64 (nominal_bandwidth_bps (lk_capability l));
  sl_gen : u64 (lk_generation l)
}.

Record meas_sendable (m : MeasurementRecord) : Prop := {
  sm_id : u64 (meas_id m);
  sm_source : u64 (meas_source m);
  sm_target : u64 (meas_target m);
  sm_class : enum_wf (evidence_class (meas_evidence m));
  sm_payload : u64 (meas_payload_bytes m)
}.

Lemma reads_enc_device d : device_sendable d → reads dec_device (enc_device d) (published_device d).
Proof. intros []. unfold dec_device, enc_device, published_device. walk_reads. Qed.

Lemma reads_enc_link l : link_sendable l → reads read_link_payload (enc_link l) (published_link l).
Proof. intros []. unfold read_link_payload, enc_link, published_link. walk_reads. Qed.

Lemma reads_enc_meas m bps bs :
  meas_sendable m → d_to_u64 (meas_bandwidth_bps m) = Some bps → enc_meas m = Some bs →
  reads read_meas_payload bs (published_measurement m bps).
Proof.
  intros [] Hb He. unfold enc_meas in He. rewrite Hb in He.
  apply (inj Some) in He. subst bs.
  assert (u64 bps).
  { unfold d_to_u64 in Hb. destruct (d_trunc _); [|done]. case_match; [|done].
    injection Hb as <-. to_props. unfold u64. lia. }
  unfold read_meas_payload, published_measurement. walk_reads.
Qed.

(** A decoder at the start of a payload. *)
Lemma reads_payload {A} (m : Reader → A * Reader) bs a :
  reads m bs a → m (reader bs) = (a, mkReader bs (zlen bs) false).
Proof. intros H. specialize (H [] []). by rewrite app_nil_r in H. Qed.
