(* ===== verification/Coordinator.v ===== *)
(** * The coordinator (runtime.hpp, runtime.cpp, CoordinatorServer)

    The server's state is its registry, its epoch and what the mutex [mu]
    guards.  Each connection runs [handle_connection] on its own thread; its
    position between two atomic actions (a frame received or sent, a section
    under a lock) is its [Phase], and the threads interleave at those points. *)

From S2P Require Import Prelude Enums Double Records World Registry Bytes Protocol Quality Route.
From S2P Require Import Transport Wire.

(** [registry_], [epoch_] and the fields of [Impl] that [mu] guards. *)
Record Server := mkServer {
  sv_registry : Registry;
  sv_epoch : Z;
  last_boot : gmap Z Z;
  live_count : Z
}.

Definition new_server (limits : Limits) : M Server :=
  let* epoch := fresh_generation CoordinatorEpochTag in
  ret (mkServer (new_registry limits) epoch ∅ 0).

Definition set_registry (r : Registry) (s : Server) : Server :=
  mkServer r (sv_epoch s) (last_boot s) (live_count s).

Definition live_worker_count (s : Server) : Z := live_count s.

Definition kMax : Z := 16 * 1024 * 1024.

(** ** HELLO *)

(** The HELLO payload: worker, boot, reported epoch; [None] if it is short. *)
Definition parse_hello (payload : list Z) : option (Z * Z * Z) :=
  ((let* wid := read_u64 in let* boot := read_u64 in let* epoch := read_u64 in
    let* bad := read_bad in
    ret (if bad : bool then None else Some (wid, boot, epoch))) (reader payload)).1.

(** Records the boot and counts the worker. *)
Definition enlist (wid boot : Z) (s : Server) : Server :=
  mkServer (sv_registry s) (sv_epoch s) (<[wid := boot]> (last_boot s))
    (wrap64 (live_count s + 1)).

(** The section under [mu] that decides on a HELLO. *)
Definition authorize (wid boot reported_epoch : Z) (s : Server) : bool * Server :=
  if negb (reported_epoch =? sv_epoch s) then (false, s)
  else match last_boot s !! wid with
       | None => (true, enlist wid boot s)
       | Some last => if last <? boot then (true, enlist wid boot s) else (false, s)
       end.

Definition rejection_note (reported_epoch epoch : Z) : string :=
  if negb (reported_epoch =? epoch) then "stale coordinator epoch"
  else "stale worker boot identity".

Definition hello_reply (accepted : bool) (reported_epoch epoch : Z) : Frame :=
  if negb accepted then mkFrame GOODBYE (put_str (rejection_note reported_epoch epoch))
  else mkFrame READY (put_u64 epoch).

(** ** Published records *)

Section Publish.
Context {P : Platform}.

(** The PUBLISH cases of the frame switch; what the registry answers is
    dropped, and other frames are ignored. *)
Definition handle_publish (f : Frame) (wid boot : Z) (r : Registry) : M Registry :=
  match fr_type f with
  | PUBLISH_DEVICE =>
      let d := (dec_device (reader (fr_payload f))).1 in
      let* '(_, r') := upsert_device (device_set_owner wid boot d) r in ret r'
  | PUBLISH_LINK =>
      let* l := dec_link (reader (fr_payload f)) in
      let* '(_, r') := upsert_link l r in ret r'
  | PUBLISH_MEASUREMENT =>
      let* m := dec_meas (reader (fr_payload f)) in
      let* '(_, r') := publish_measurement (meas_set_owner wid boot m) r in ret r'
  | _ => ret r
  end.
End Publish.

(** ** Route queries *)
Definition parse_query (payload : list Z) : option (Z * Z) :=
  ((let* src := read_u64 in let* tgt := read_u64 in let* bad := read_bad in
    ret (if bad : bool then None else Some (src, tgt))) (reader payload)).1.

Definition route_reply (dec : Result RouteDecision) : Frame :=
  mkFrame ROUTE
    match dec with
    | Ok d => put_u8 (to_u8 (rd_outcome d)) ++ put_u64 (default 0 (rd_selected d)) ++
              put_str (rd_explanation d)
    | Err e => put_u8 (to_u8 RouteDecisionOutcome.NO_ROUTE) ++ put_u64 0 ++
               put_str (error_to_string e)
    end.

(** ** One connection's thread *)
Inductive Phase :=
| AwaitHello
| Authorizing (wid boot reported_epoch : Z)
| Replying (wid boot reported_epoch : Z) (accepted : bool)
| Serving (wid boot : Z)
| Routing (wid boot src tgt : Z) (seen : Registry) (* the view is taken, the observations not yet read *)
| Leaving (wid boot : Z)
| Unlisting (wid boot : Z)
| Closed (counted : bool). (* whether it left without taking itself off [live_count] *)

Record Conn := mkConn { cn_sock : Sock; cn_phase : Phase }.

Section Connection.
Context {P : Platform}.

(** One atomic action of [handle_connection]. *)
Definition conn_step (c : Conn) (s : Server) : M (Conn * Server) :=
  match cn_phase c with
  | AwaitHello =>
      let '(hello, k) := recv_frame kMax (cn_sock c) in
      ret (mkConn k
             match hello with
             | Err _ => Closed false
             | Ok f =>
                 if negb (bool_decide (fr_type f = HELLO)) then Closed false
                 else match parse_hello (fr_payload f) with
                      | None => Closed false
                      | Some (wid, boot, epoch) => Authorizing wid boot epoch
                      end
             end, s)
  | Authorizing wid boot reported =>
      let '(accepted, s') := authorize wid boot reported s in
      ret (mkConn (cn_sock c) (Replying wid boot reported accepted), s')
  | Replying wid boot reported accepted =>
      let '(sent, k) := send_frame (hello_reply accepted reported (sv_epoch s)) kMax (cn_sock c) in
      ret (mkConn k
             (if negb sent then Closed accepted
              else if negb accepted then Closed false
              else Serving wid boot), s)
  | Serving wid boot =>
      let '(fr, k) := recv_frame kMax (cn_sock c) in
      match fr with
      | Err _ => ret (mkConn k (Leaving wid boot), s)
      | Ok f =>
          if bool_decide (fr_type f = ROUTE) then
            ret (mkConn k
                   match parse_query (fr_payload f) with
                   | None => Serving wid boot
                   | Some (src, tgt) => Routing wid boot src tgt (sv_registry s)
                   end, s)
          else
            let* r' := handle_publish f wid boot (sv_registry s) in
            ret (mkConn k (Serving wid boot), set_registry r' s)
      end
  | Routing wid boot src tgt seen =>
      let* dec := decide_route src tgt default_policy seen (sv_registry s) in
      ret (mkConn (send_frame (route_reply dec) kMax (cn_sock c)).2 (Serving wid boot), s)
  | Leaving wid boot =>
      let* r' := mark_dynamic_evidence_revalidation_required (sv_registry s) in
      ret (mkConn (cn_sock c) (Unlisting wid boot), set_registry r' s)
  | Unlisting wid boot =>
      ret (mkConn (cn_sock c) (Closed false),
           if 0 <? live_count s
           then mkServer (sv_registry s) (sv_epoch s) (last_boot s) (live_count s - 1)
           else s)
  | Closed _ => ret (c, s)
  end.

(** [handle_connection] from a given point on, with no other thread in
    between. *)
Fixpoint run_connection (fuel : nat) (c : Conn) (s : Server) : M (Conn * Server) :=
  match fuel with
  | O => ret (c, s)
  | S fuel' => let* '(c', s') := conn_step c s in run_connection fuel' c' s'
  end.

(** Bytes still to come, then the actions left after them: enough fuel. *)
Definition phase_rank (p : Phase) : nat :=
  match p with
  | AwaitHello => 6 | Authorizing _ _ _ => 5 | Replying _ _ _ _ => 4 | Serving _ _ => 3
  | Routing _ _ _ _ _ => 4 | Leaving _ _ => 2 | Unlisting _ _ => 1 | Closed _ => 0
  end.
Definition conn_fuel (c : Conn) : nat :=
  2 * length (stream (cn_sock c)) + phase_rank (cn_phase c).

Definition handle_connection (sock : Sock) (s : Server) : M (Conn * Server) :=
  let c := mkConn sock AwaitHello in run_connection (conn_fuel c) c s.

(** ** The coordinator process *)

(** [sys_admitted] lists the accepted HELLOs (worker, boot, epoch), oldest
    first; the program does not keep it. *)
Record System := mkSystem {
  sys_running : bool;
  sys_server : Server;
  sys_conns : list Conn;
  sys_world : World;
  sys_admitted : list (Z * Z * Z)
}.

Definition admission (p p' : Phase) : list (Z * Z * Z) :=
  match p, p' with
  | Authorizing _ _ _, Replying wid boot epoch true => [(wid, boot, epoch)]
  | _, _ => []
  end.

(** The accept loop takes a client while running; any connection acts; the
    process that owns the server may call the registry directly; [stop]. *)
Inductive sys_step : System → System → Prop :=
| sys_accept s cs w a sock :
    sys_step (mkSystem true s cs w a)
             (mkSystem true s (cs ++ [mkConn sock AwaitHello]) w a)
| sys_conn run s cs w a i c c' s' w' :
    cs !! i = Some c → conn_step c s w = ((c', s'), w') →
    sys_step (mkSystem run s cs w a)
             (mkSystem run s' (<[i := c']> cs) w' (a ++ admission (cn_phase c) (cn_phase c')))
| sys_owner run s cs w a op res r' w' :
    run_op op (sv_registry s) w = ((res, r'), w') →
    sys_step (mkSystem run s cs w a) (mkSystem run (set_registry r' s) cs w' a)
| sys_read run s cs w a w' :
    (* a reading call of the owner only draws identifiers and timestamps *)
    sys_step (mkSystem run s cs w a) (mkSystem run s cs w' a)
| sys_stop run s cs w a :
    sys_step (mkSystem run s cs w a) (mkSystem false s cs w a).

Definition sys_start (lim : Limits) (w : World) : System :=
  let '(s, w') := new_server lim w in mkSystem true s [] w' [].

Definition sys_reachable (lim : Limits) (x : System) : Prop :=
  ∃ w, rtc sys_step (sys_start lim w) x.
End Connection.
