(* ===== verification/CoordinatorFacts.v ===== *)
(** * The coordinator: lemmas on single actions *)

From S2P Require Import Prelude Enums Double Records World Registry RegistryFacts RegistryProps.
From S2P Require Import Bytes BytesFacts Protocol Quality Route Transport Wire Coordinator.

(** ** Progress: receiving shortens the stream *)

Lemma recv_stream n s : stream s = (recv n s).1 ++ stream (recv n s).2.
Proof.
  unfold recv, stream. destruct (sk_in s) as [|c cs] eqn:E; [by simpl; rewrite E|]. simpl.
  destruct (zlen c <=? n) eqn:En; to_props.
  - rewrite take_ge; [done|]. unfold zlen in En. lia.
  - simpl. by rewrite (assoc_L (++)), take_drop.
Qed.

Lemma recv_loop_stream fuel n buf s :
  ∃ got, stream s = got ++ stream (recv_loop fuel n buf s).2 ∧
  (∀ all, (recv_loop fuel n buf s).1 = Some all → n ≤ zlen buf + zlen got).
Proof.
  revert buf s. induction fuel as [|fuel IH]; intros buf s; cbn [recv_loop].
  - exists []. destruct (n <=? zlen buf) eqn:E; to_props; split; try done.
    intros _ _. unfold zlen in *. simpl. lia.
  - destruct (n <=? zlen buf) eqn:E; to_props.
    { exists []. split; [done|]. intros _ _. unfold zlen in *. simpl. lia. }
    rewrite bind_eq. pose proof (recv_stream (n - zlen buf) s) as Hr.
    destruct (recv (n - zlen buf) s) as [r s1]. simpl in *.
    destruct (zlen r <=? 0) eqn:Er; simpl; [by exists r|].
    destruct (IH (buf ++ r) s1) as (got & Hg & Hall).
    exists (r ++ got). split.
    + rewrite Hr, Hg. by rewrite <-(assoc_L (++)).
    + intros all Ha%Hall. rewrite zlen_app in *. lia.
Qed.

Lemma recv_exact_stream n s :
  (length (stream (recv_exact n s).2) ≤ length (stream s))%nat ∧
  (∀ all, (recv_exact n s).1 = Some all →
     zlen (stream (recv_exact n s).2) + n ≤ zlen (stream s)).
Proof.
  destruct (recv_loop_stream (Z.to_nat n) n [] s) as (got & Hg & Hall).
  unfold recv_exact. apply (f_equal length) in Hg. rewrite length_app in Hg.
  split; [lia|]. intros all Ha%Hall. unfold zlen in *. simpl in Ha. lia.
Qed.

(** A frame received is at least a header shorter a stream. *)
Lemma recv_frame_stream max s :
  (length (stream (recv_frame max s).2) ≤ length (stream s))%nat ∧
  (has_value (recv_frame max s).1 = true →
     (length (stream (recv_frame max s).2) < length (stream s))%nat).
Proof.
  unfold recv_frame. rewrite bind_eq.
  destruct (recv_exact_stream kHeaderNoPayload s) as [Hle Hlt].
  destruct (recv_exact kHeaderNoPayload s) as [h s1]. simpl in *.
  destruct h as [h|]; [|split; done || lia].
  destruct (wrap64 _ <? _); [split; done || lia|].
  rewrite bind_eq.
  destruct (recv_exact_stream (u32_at h 6 + kCrcBytes) s1) as [Hle1 _].
  destruct (recv_exact (u32_at h 6 + kCrcBytes) s1) as [p s2]. simpl in *.
  specialize (Hlt h eq_refl). unfold kHeaderNoPayload, zlen in Hlt.
  destruct p as [p|]; simpl; split; done || lia.
Qed.

Lemma send_frame_in f max s : sk_in (send_frame f max s).2 = sk_in s.
Proof.
  unfold send_frame. destruct (encode_frame f max) as [bs|]; [|done].
  pose proof (send_all_spec bs s) as H. destruct (send_all bs s). by destruct H.
Qed.

Section Actions.
Context {P : Platform}.

(** Every action of a connection brings its end closer. *)
Lemma conn_step_fuel c s w :
  (phase_rank (cn_phase c) ≠ 0)%nat →
  (conn_fuel (conn_step c s w).1.1 < conn_fuel c)%nat.
Proof.
  unfold conn_fuel, conn_step. intros Hne. destruct c as [k p]. cbn [cn_phase cn_sock] in *.
  pose proof (recv_frame_stream kMax k) as [Hle Hlt].
  destruct p; cbn [phase_rank] in *.
  - destruct (recv_frame kMax k) as [[f|e] k']; simpl in *; [|lia].
    specialize (Hlt eq_refl). repeat case_match; simpl; lia.
  - destruct (authorize _ _ _ _). simpl. lia.
  - pose proof (send_frame_in (hello_reply accepted reported_epoch (sv_epoch s)) kMax k) as Hin.
    destruct (send_frame _ _ _) as [sent k']. simpl in *. unfold stream. rewrite Hin.
    repeat case_match; simpl; lia.
  - destruct (recv_frame kMax k) as [[f|e] k']; simpl in *; [|lia].
    specialize (Hlt eq_refl). case_bool_decide; simpl; [case_match; [case_match|]; simpl; lia|].
    rewrite bind_eq. simpl. lia.
  - rewrite bind_eq. cbn [ret fst cn_sock cn_phase phase_rank]. unfold stream.
    rewrite send_frame_in. lia.
  - rewrite bind_eq. simpl. lia.
  - simpl. lia.
  - done.
Qed.

(** What the registry goes through: nothing, or one of its calls. *)
Lemma handle_publish_call f wid boot r w :
  (handle_publish f wid boot r w).1 = r ∨
  ∃ op w0 res w1, run_op op r w0 = ((res, (handle_publish f wid boot r w).1), w1).
Proof.
  unfold handle_publish. destruct (fr_type f); try by left.
  - right. exists (UpsertDevice (device_set_owner wid boot (dec_device (reader (fr_payload f))).1)), w.
    rewrite bind_eq. cbn [run_op]. destruct (upsert_device _ r w) as [[res r'] w']. by exists res, w'.
  - right. rewrite bind_eq. set (l := (dec_link _ w).1). set (w1 := (dec_link _ w).2).
    exists (UpsertLink l), w1. rewrite bind_eq. cbn [run_op].
    destruct (upsert_link l r w1) as [[res r'] w']. by exists res, w'.
  - right. rewrite bind_eq. set (m := (dec_meas _ w).1). set (w1 := (dec_meas _ w).2).
    exists (PublishMeasurement (meas_set_owner wid boot m)), w1. rewrite bind_eq. cbn [run_op].
    destruct (publish_measurement _ r w1) as [[res r'] w']. by exists res, w'.
Qed.

Lemma handle_publish_wf f wid boot r w :
  limits_ok (limits_ r) → wf r →
  wf (handle_publish f wid boot r w).1 ∧ limits_ (handle_publish f wid boot r w).1 = limits_ r.
Proof.
  intros Hl Hwf. destruct (handle_publish_call f wid boot r w) as [->|(op&w0&res&w1&Hr)]; [done|].
  eapply effect_wf; eauto using run_op_effect.
Qed.

Lemma mark_wf r w :
  limits_ok (limits_ r) → wf r →
  wf (mark_dynamic_evidence_revalidation_required r w).1 ∧
  limits_ (mark_dynamic_evidence_revalidation_required r w).1 = limits_ r.
Proof.
  intros Hl Hwf.
  destruct (mark_dynamic_evidence_revalidation_required r w) as [r' w'] eqn:E.
  eapply (effect_wf MarkRevalidation r (Ok tt)); [done|done|].
  apply (run_op_effect MarkRevalidation r w (Ok tt) r' w'). cbn [run_op].
  by rewrite bind_eq, E.
Qed.

Lemma authorize_registry wid boot e s :
  sv_registry (authorize wid boot e s).2 = sv_registry s ∧
  sv_epoch (authorize wid boot e s).2 = sv_epoch s.
Proof. unfold authorize. repeat case_match; done. Qed.

Lemma conn_step_wf c s w :
  limits_ok (limits_ (sv_registry s)) → wf (sv_registry s) →
  let s' := (conn_step c s w).1.2 in
  wf (sv_registry s') ∧ limits_ (sv_registry s') = limits_ (sv_registry s) ∧
  sv_epoch s' = sv_epoch s.
Proof.
  intros Hl Hwf. unfold conn_step. destruct (cn_phase c).
  - destruct (recv_frame _ _) as [hello k]. done.
  - pose proof (authorize_registry wid boot reported_epoch s) as [Hr He].
    destruct (authorize _ _ _ _) as [acc s']. simpl in *. by rewrite Hr.
  - destruct (send_frame _ _ _). done.
  - destruct (recv_frame _ _) as [[f|e] k]; [|done].
    case_bool_decide; [done|]. rewrite bind_eq. simpl.
    destruct (handle_publish_wf f wid boot (sv_registry s) w Hl Hwf). done.
  - rewrite bind_eq. done.
  - rewrite bind_eq. simpl. destruct (mark_wf (sv_registry s) w Hl Hwf). done.
  - simpl. case_match; done.
  - done.
Qed.
End Actions.
