(* ===== verification/CoordinatorProps.v ===== *)
(** * The coordinator: properties *)

From S2P Require Import Prelude Enums Double Records World Registry RegistryFacts Fixtures.
From S2P Require Import RegistryProps Bytes BytesFacts Protocol ProtocolProps Quality Route.
From S2P Require Import Transport Wire Coordinator CoordinatorFacts.

(** ** A connection from start to end *)

Section Ending.
Context {P : Platform}.

(** What taking one worker off the count does. *)
Definition decremented (n : Z) : Z := if 0 <? n then n - 1 else n.

(** The handler's last actions have been performed: the connection is closed
    and uncounted, its evidence is marked. *)
Definition ended (s : Server) (out : Conn * Server) : Prop :=
  cn_phase out.1 = Closed false ∧ nothing_fresh (sv_registry out.2) ∧
  sv_epoch out.2 = sv_epoch s ∧ last_boot out.2 = last_boot s ∧
  live_count out.2 = decremented (live_count s).

(** Where an accepted worker's connection can be. *)
Definition underway (p : Phase) (s : Server) : Prop :=
  match p with
  | Serving _ _ | Routing _ _ _ _ _ | Leaving _ _ => True
  | Unlisting _ _ => nothing_fresh (sv_registry s)
  | _ => False
  end.

Lemma run_connection_S fuel c s w :
  run_connection (S fuel) c s w =
  run_connection fuel (conn_step c s w).1.1 (conn_step c s w).1.2 (conn_step c s w).2.
Proof. cbn [run_connection]. rewrite bind_eq. by destruct (conn_step c s w) as [[??]?]. Qed.

Lemma run_connection_closed fuel c s w b :
  cn_phase c = Closed b → (run_connection fuel c s w).1 = (c, s).
Proof.
  intros Hc. revert w. induction fuel as [|fuel IH]; intros w; [done|].
  rewrite run_connection_S. unfold conn_step. rewrite Hc. apply IH.
Qed.

Lemma conn_step_underway c s w :
  underway (cn_phase c) s →
  let '(c', s') := (conn_step c s w).1 in
  (underway (cn_phase c') s' ∧ sv_epoch s' = sv_epoch s ∧ last_boot s' = last_boot s ∧
   live_count s' = live_count s) ∨ ended s (c', s').
Proof.
  intros Hu. unfold conn_step. destruct (cn_phase c) eqn:Hp; try done.
  - destruct (recv_frame _ _) as [[f|e] k]; [|by left].
    case_bool_decide; [left; by repeat case_match|]. rewrite bind_eq. by left.
  - rewrite bind_eq. by left.
  - rewrite bind_eq. left. simpl. split; [apply mark_nothing_fresh|done].
  - right. unfold ended, decremented. simpl. by destruct (0 <? live_count s).
Qed.

Lemma run_underway fuel c s w :
  (conn_fuel c ≤ fuel)%nat → underway (cn_phase c) s →
  ended s (run_connection fuel c s w).1.
Proof.
  revert c s w. induction fuel as [|fuel IH]; intros c s w Hf Hu.
  { unfold conn_fuel in Hf. destruct (cn_phase c); simpl in *; lia || done. }
  rewrite run_connection_S.
  pose proof (conn_step_underway c s w Hu) as Hs. pose proof (conn_step_fuel c s w) as Hlt.
  destruct (conn_step c s w) as [[c' s'] w']. simpl in *.
  destruct Hs as [(Hu' & He & Hb & Hl)|Hend].
  - destruct (IH c' s' w') as (? & ? & ? & ? & ?); [|done|].
    + assert (phase_rank (cn_phase c) ≠ 0)%nat by (by destruct (cn_phase c)). lia.
    + unfold ended. split_and!; congruence.
  - rewrite (run_connection_closed fuel c' s' w' false); [done|apply Hend].
Qed.
End Ending.

(** What a whole connection makes of the server: it was refused and nothing
    changed, or its boot was recorded under the server's epoch, and then either
    everything it and the others published was marked and it is off the count,
    or READY could not be sent: the registry is untouched and it stays on the
    count. *)
Definition connection_outcome (s s' : Server) (counted : bool) : Prop :=
  (s' = s ∧ counted = false) ∨
  ∃ wid boot,
    (authorize wid boot (sv_epoch s) s).1 = true ∧
    sv_epoch s' = sv_epoch s ∧ last_boot s' = <[wid := boot]> (last_boot s) ∧
    if counted then
      sv_registry s' = sv_registry s ∧ live_count s' = wrap64 (live_count s + 1)
    else nothing_fresh (sv_registry s') ∧
         live_count s' = decremented (wrap64 (live_count s + 1)).

(** C10.  Whatever bytes arrive and however they are cut, [handle_connection]
    terminates, and its effect on the server is one of three: a refused HELLO
    changes nothing; an accepted worker's boot is recorded and, when its
    connection ends (a clean close, a crash in the middle of a frame, garbage),
    every link, measurement and worker-owned device is left requiring
    revalidation and the worker is off the live count; but if READY cannot be
    delivered the worker stays on the live count for good. *)
Theorem handle_connection_outcome `{Platform} sock s w :
  let '(c', s') := (handle_connection sock s w).1 in
  ∃ counted, cn_phase c' = Closed counted ∧ connection_outcome s s' counted.
Proof.
  unfold handle_connection. set (c := mkConn sock AwaitHello).
  assert (conn_fuel c = S (S (S (conn_fuel c - 3)))) as -> by (unfold conn_fuel; simpl; lia).
  set (fuel := (conn_fuel c - 3)%nat).
  assert (∀ n c1 s1 w1 b, cn_phase c1 = Closed b → connection_outcome s s1 b →
    let '(c', s') := (run_connection n c1 s1 w1).1 in
    ∃ counted, cn_phase c' = Closed counted ∧ connection_outcome s s' counted) as Hclosed.
  { intros n c1 s1 w1 b Hc Ho. rewrite (run_connection_closed n c1 s1 w1 b Hc). by exists b. }
  rewrite run_connection_S. unfold conn_step. cbn [cn_phase c cn_sock].
  pose proof (recv_frame_stream kMax sock) as [_ Hlt].
  destruct (recv_frame kMax sock) as [hello k]. cbn [ret fst snd] in *.
  destruct hello as [f|e]; [|apply (Hclosed (S (S fuel)) _ _ _ false); [done|by left]].
  destruct (bool_decide (fr_type f = HELLO));
    [|apply (Hclosed (S (S fuel)) _ _ _ false); [done|by left]].
  destruct (parse_hello (fr_payload f)) as [[[wid boot] e]|];
    [|apply (Hclosed (S (S fuel)) _ _ _ false); [done|by left]].
  cbn [negb]. rewrite run_connection_S. unfold conn_step. cbn [cn_phase cn_sock].
  destruct (authorize wid boot e s) as [acc s1] eqn:Ha. cbn [ret fst snd].
  rewrite run_connection_S. unfold conn_step. cbn [cn_phase cn_sock].
  pose proof (send_frame_in (hello_reply acc e (sv_epoch s1)) kMax k) as Hin.
  destruct (send_frame _ _ k) as [sent k2]. cbn [ret fst snd] in *.
  assert (acc = true → e = sv_epoch s ∧ s1 = enlist wid boot s) as Hacc.
  { unfold authorize in Ha. destruct (e =? sv_epoch s) eqn:He; to_props; simpl in Ha.
    - repeat case_match; by simplify_eq.
    - by simplify_eq. }
  assert (acc = false → s1 = s) as Hrej.
  { unfold authorize in Ha. repeat case_match; by simplify_eq. }
  destruct sent, acc; cbn [negb].
  2, 4: apply (Hclosed fuel _ _ _ false); [done|left; split; [by apply Hrej|done]].
  - destruct (Hacc eq_refl) as [-> ->].
    pose proof (run_underway fuel (mkConn k2 (Serving wid boot)) (enlist wid boot s) w) as Hr.
    destruct (run_connection _ _ _ _) as [[c' s'] w']. cbn [fst].
    destruct Hr as (Hc & Hn & Hep & Hb & Hl); [|done|].
    + subst fuel. unfold conn_fuel. simpl. unfold stream in *. rewrite Hin.
      specialize (Hlt eq_refl). lia.
    + exists false. split; [done|]. right. exists wid, boot. rewrite Ha. split_and!; done.
  - destruct (Hacc eq_refl) as [-> ->]. apply (Hclosed fuel _ _ _ true); [done|].
    right. exists wid, boot. rewrite Ha. done.
Qed.

(** ** Authority *)

(** The worker boot on whose behalf a connection acts. *)
Definition holder (p : Phase) : option (Z * Z) :=
  match p with
  | Replying wid boot _ true | Serving wid boot | Routing wid boot _ _ _
  | Leaving wid boot | Unlisting wid boot => Some (wid, boot)
  | _ => None
  end.

(** Whether the connection is on the live count. *)
Definition counted (c : Conn) : bool :=
  match cn_phase c with
  | Closed b => b
  | p => match holder p with Some _ => true | None => false end
  end.
Definition counted_conns (cs : list Conn) : Z := zlen (filter (λ c, counted c = true) cs).

Definition b2z (b : bool) : Z := if b then 1 else 0.

Lemma counted_insert cs i c c' :
  cs !! i = Some c →
  counted_conns (<[i := c']> cs) = counted_conns cs - b2z (counted c) + b2z (counted c').
Proof.
  intros Hi. unfold counted_conns.
  assert (i < length cs)%nat by (by eapply lookup_lt_Some).
  rewrite <-(take_drop_middle cs i c Hi) at 2.
  rewrite insert_take_drop by done. rewrite !filter_app, !filter_cons, !zlen_app.
  unfold b2z. destruct (counted c), (counted c'); simpl; rewrite ?zlen_cons; lia.
Qed.

(** Two places of the admissions for the same worker hold increasing boots. *)
Definition boots_increase (log : list (Z * Z * Z)) : Prop :=
  ∀ i j wid b1 b2 e1 e2, (i < j)%nat →
    log !! i = Some (wid, b1, e1) → log !! j = Some (wid, b2, e2) → b1 < b2.

Record authority (epoch : Z) (boots : gmap Z Z) (cs : list Conn) (log : list (Z * Z * Z)) : Prop := {
  au_epoch : Forall (λ '(_, _, e), e = epoch) log;
  au_last : ∀ wid b e, (wid, b, e) ∈ log → ∃ last, boots !! wid = Some last ∧ b ≤ last;
  au_increase : boots_increase log;
  au_holders : ∀ i c wid b, cs !! i = Some c → holder (cn_phase c) = Some (wid, b) →
    (wid, b, epoch) ∈ log;
  au_distinct : ∀ i j ci cj h, cs !! i = Some ci → cs !! j = Some cj →
    holder (cn_phase ci) = Some h → holder (cn_phase cj) = Some h → i = j
}.

Section System.
Context {P : Platform}.

(** One action either keeps the authority or admits a newer boot. *)
Lemma conn_step_authority c s w :
  let c' := (conn_step c s w).1.1 in let s' := (conn_step c s w).1.2 in
  sv_epoch s' = sv_epoch s ∧
  ((admission (cn_phase c) (cn_phase c') = [] ∧ last_boot s' = last_boot s ∧
    (holder (cn_phase c') = holder (cn_phase c) ∨ holder (cn_phase c') = None)) ∨
   ∃ wid boot, admission (cn_phase c) (cn_phase c') = [(wid, boot, sv_epoch s)] ∧
     last_boot s' = <[wid := boot]> (last_boot s) ∧
     holder (cn_phase c) = None ∧ holder (cn_phase c') = Some (wid, boot) ∧
     (∀ last, last_boot s !! wid = Some last → last < boot)).
Proof.
  cbv zeta. unfold conn_step. destruct (cn_phase c) eqn:Hp.
  - destruct (recv_frame _ _) as [hello k]. split; [done|]. left.
    simpl. repeat case_match; auto.
  - unfold authorize. destruct (reported_epoch =? sv_epoch s) eqn:He; to_props; simpl.
    + subst. destruct (last_boot s !! wid) as [last|] eqn:Hl; [destruct (last <? boot) eqn:Hb|];
        to_props; (split; [done|]); simpl; [right|left; auto|right];
        exists wid, boot; split_and!; try done; intros last1 ?; by simplify_eq.
    + split; [done|]. left. auto.
  - destruct (send_frame _ _ _) as [sent k]. split; [done|]. left.
    destruct sent, accepted; simpl; auto.
  - destruct (recv_frame _ _) as [[f|e] k].
    + case_bool_decide.
      * split; [done|]. left. simpl. repeat case_match; auto.
      * rewrite bind_eq. split; [done|]. left. simpl. auto.
    + split; [done|]. left. simpl. auto.
  - rewrite bind_eq. split; [done|]. left. simpl. auto.
  - rewrite bind_eq. split; [done|]. left. simpl. auto.
  - cbn [ret fst snd]. destruct (0 <? live_count s); (split; [done|]); left; simpl; auto.
  - split; [done|]. left. cbn [ret fst snd]. rewrite Hp. auto.
Qed.

Lemma boots_increase_snoc log wid boot e (boots : gmap Z Z) :
  boots_increase log →
  (∀ wid b e, (wid, b, e) ∈ log → ∃ last, boots !! wid = Some last ∧ b ≤ last) →
  (∀ last, boots !! wid = Some last → last < boot) →
  boots_increase (log ++ [(wid, boot, e)]).
Proof.
  intros Hi Hlast Hnew i j wid' b1 b2 e1 e2 Hij H1 H2.
  apply lookup_app_Some in H2 as [H2|[Hj H2]].
  - rewrite lookup_app_l in H1; [eauto|]. apply lookup_lt_Some in H2. lia.
  - apply list_lookup_singleton_Some in H2 as [Hj0 [= <- <- <-]].
    rewrite lookup_app_l in H1 by lia. apply list_elem_of_lookup_2 in H1.
    destruct (Hlast _ _ _ H1) as (last & Hl & ?). specialize (Hnew _ Hl). lia.
Qed.

Lemma conn_step_authority_ok s cs w a i c :
  let c' := (conn_step c s w).1.1 in let s' := (conn_step c s w).1.2 in
  cs !! i = Some c → authority (sv_epoch s) (last_boot s) cs a →
  authority (sv_epoch s') (last_boot s') (<[i := c']> cs)
    (a ++ admission (cn_phase c) (cn_phase c')).
Proof.
  intros c' s' Hi [Hep Hlast Hinc Hhold Hdist].
  assert (i < length cs)%nat as Hlt by (by eapply lookup_lt_Some).
  assert (∀ j cj, <[i := c']> cs !! j = Some cj → (j = i ∧ cj = c') ∨ (j ≠ i ∧ cs !! j = Some cj))
    as Hlk.
  { intros j cj. rewrite list_lookup_insert_Some. naive_solver. }
  pose proof (conn_step_authority c s w) as Hs. fold c' s' in Hs. clearbody c' s'.
  destruct Hs as [-> [(-> & -> & Hh)|(wid & boot & -> & -> & Hn & Hh & Hnew)]].
  - rewrite app_nil_r. split; try done.
    + intros j cj wid b [[-> ->]|[Hj Hcj]]%Hlk Hc; [|eauto].
      destruct Hh as [Hh|Hh]; rewrite Hh in Hc; [eauto|done].
    + intros j1 j2 c1 c2 h H1%Hlk H2%Hlk Hh1 Hh2.
      destruct H1 as [[-> ->]|[? H1]], H2 as [[-> ->]|[? H2]]; try done.
      * destruct Hh as [Hh|Hh]; rewrite Hh in Hh1; [|done]. by eapply Hdist.
      * destruct Hh as [Hh|Hh]; rewrite Hh in Hh2; [|done]. by eapply Hdist.
      * by eapply Hdist.
  - assert (∀ b e, (wid, b, e) ∈ a → b < boot) as Hold.
    { intros b e Hin. destruct (Hlast _ _ _ Hin) as (last & Hl & ?). specialize (Hnew _ Hl). lia. }
    split.
    + apply Forall_app. split; [done|]. by constructor.
    + intros wid' b e [Hin|[= -> -> ->]%list_elem_of_singleton]%elem_of_app.
      * destruct (decide (wid' = wid)) as [->|Hne].
        -- exists boot. rewrite lookup_insert_eq. split; [done|]. specialize (Hold _ _ Hin). lia.
        -- rewrite lookup_insert_ne by done. eauto.
      * exists boot. rewrite lookup_insert_eq. done.
    + by apply (boots_increase_snoc _ _ _ _ (last_boot s)).
    + intros j cj wid' b [[-> ->]|[Hj Hcj]]%Hlk Hc; apply elem_of_app.
      * rewrite Hh in Hc. injection Hc as <- <-. right. by apply list_elem_of_singleton.
      * left. eauto.
    + intros j1 j2 c1 c2 h H1%Hlk H2%Hlk Hh1 Hh2.
      destruct H1 as [[-> ->]|[? H1]], H2 as [[-> ->]|[? H2]]; try done.
      * rewrite Hh in Hh1. injection Hh1 as <-. specialize (Hhold _ _ _ _ H2 Hh2).
        specialize (Hold _ _ Hhold). lia.
      * rewrite Hh in Hh2. injection Hh2 as <-. specialize (Hhold _ _ _ _ H1 Hh1).
        specialize (Hold _ _ Hhold). lia.
      * by eapply Hdist.
Qed.

(** The part of the state the authority invariant is about. *)
Definition authority_of (x : System) : Prop :=
  authority (sv_epoch (sys_server x)) (last_boot (sys_server x)) (sys_conns x) (sys_admitted x).

Lemma sys_step_authority x y : sys_step x y → authority_of x → authority_of y.
Proof.
  intros Hs. destruct Hs as [s cs w a sock|run s cs w a i c c' s' w' Hi Hc| | |]; try done.
  - intros [? ? ? Hhold Hdist]. unfold authority_of. simpl.
    assert (∀ j cj h, (cs ++ [mkConn sock AwaitHello]) !! j = Some cj →
      holder (cn_phase cj) = Some h → cs !! j = Some cj) as Hlk.
    { intros j cj h [Hj|[_ Hj]]%lookup_app_Some Hh; [done|].
      apply list_lookup_singleton_Some in Hj as [_ <-]. done. }
    split; try done.
    + intros i c wid b Hi Hh. eapply Hhold; [by eapply Hlk|done].
    + intros i j ci cj h Hi Hj Hhi Hhj. eapply Hdist; eauto.
  - pose proof (conn_step_authority_ok s cs w a i c Hi) as H. by rewrite Hc in H.
Qed.

Lemma sys_start_authority lim w : authority_of (sys_start lim w).
Proof.
  split; simpl; try done.
  by intros ? ? ? ?%elem_of_nil.
Qed.

Lemma steps_authority x y : rtc sys_step x y → authority_of x → authority_of y.
Proof. intros Hr. induction Hr; eauto using sys_step_authority. Qed.

Lemma reachable_authority lim x : sys_reachable lim x → authority_of x.
Proof. intros (w & Hr). eapply steps_authority; [done|apply sys_start_authority]. Qed.

(** ** The registry and the live count *)

Lemma conn_step_count c s w :
  0 ≤ live_count s < two64 - 1 → (counted c = true → 0 < live_count s) →
  live_count (conn_step c s w).1.2 =
  live_count s - b2z (counted c) + b2z (counted (conn_step c s w).1.1).
Proof.
  unfold conn_step, counted. intros Hl Hpos.
  destruct (cn_phase c) eqn:Hp; cbn [holder] in *.
  - destruct (recv_frame _ _) as [[f|e] k]; [|simpl; lia].
    destruct (bool_decide _); [|simpl; lia].
    destruct (parse_hello _) as [[[??]?]|]; simpl; lia.
  - unfold authorize. destruct (reported_epoch =? _); simpl; [|lia].
    assert (wrap64 (live_count s + 1) = live_count s + 1) by (apply wrap64_small; unfold u64; lia).
    destruct (last_boot s !! wid) as [last|]; [destruct (last <? boot)|]; simpl; lia.
  - destruct (send_frame _ _ _) as [sent k]. destruct sent, accepted; simpl; lia.
  - destruct (recv_frame _ _) as [[f|e] k]; [case_bool_decide|].
    + destruct (parse_query _) as [[??]|]; simpl; lia.
    + rewrite bind_eq. simpl. lia.
    + simpl. lia.
  - rewrite bind_eq. simpl. lia.
  - rewrite bind_eq. simpl. lia.
  - simpl. specialize (Hpos eq_refl). rewrite (proj2 (Z.ltb_lt _ _)) by done. simpl. lia.
  - cbn [ret fst snd]. rewrite Hp. lia.
Qed.

Lemma counted_conns_bounds cs : 0 ≤ counted_conns cs ≤ zlen cs.
Proof.
  unfold counted_conns, zlen. pose proof (length_filter (λ c, counted c = true) cs). lia.
Qed.

Lemma counted_conns_pos cs i c : cs !! i = Some c → counted c = true → 0 < counted_conns cs.
Proof.
  intros Hi Hc. apply zlen_pos. intros Hn. apply list_elem_of_lookup_2 in Hi.
  assert (c ∈ filter (λ c, counted c = true) cs) as Hin by by apply list_elem_of_filter.
  rewrite Hn in Hin. by apply elem_of_nil in Hin.
Qed.

(** What every reachable state satisfies; the count is exact as long as the
    process has seen fewer than 2^64 connections. *)
Definition coordinator_ok (lim : Limits) (x : System) : Prop :=
  limits_ (sv_registry (sys_server x)) = lim ∧ wf (sv_registry (sys_server x)) ∧
  (zlen (sys_conns x) < two64 - 1 →
   live_count (sys_server x) = counted_conns (sys_conns x)).

Lemma sys_step_ok lim x y :
  limits_ok lim → sys_step x y → coordinator_ok lim x → coordinator_ok lim y.
Proof.
  intros Hlim Hs (Hl & Hwf & Hn). unfold coordinator_ok.
  destruct Hs as [s cs w a sock|run s cs w a i c c' s' w' Hi Hc|run s cs w a op res r' w' Hop| |];
    simpl in *; try done.
  - split_and!; try done. rewrite zlen_app. intros Hc. pose proof (zlen_nonneg [mkConn sock AwaitHello]).
    unfold counted_conns in *. rewrite Hn, filter_app, zlen_app by lia. rewrite filter_cons_False, filter_nil by done.
    change (zlen (@nil Conn)) with 0. lia.
  - subst lim. pose proof (conn_step_wf c s w Hlim Hwf) as H. rewrite Hc in H.
    destruct H as (Hwf' & Hl' & _). split_and!; [done|done|].
    assert (zlen (<[i:=c']> cs) = zlen cs) as -> by (unfold zlen; by rewrite length_insert).
    intros Hb. specialize (Hn Hb). pose proof (counted_conns_bounds cs).
    pose proof (conn_step_count c s w) as Hk. rewrite Hc in Hk. cbn [fst snd] in Hk.
    rewrite Hk, (counted_insert cs i c c') by
      (done || lia || (intros; rewrite Hn; by eapply counted_conns_pos)).
    by rewrite Hn.
  - destruct (effect_wf op (sv_registry s) res r') as [Hwf' Hl']; [by rewrite Hl|done|
      by eapply run_op_effect|]. split_and!; [congruence|done|done].
Qed.

Lemma sys_start_ok lim w : limits_ok lim → coordinator_ok lim (sys_start lim w).
Proof. intros Hl. split_and!; simpl; [done|by apply new_registry_wf|done]. Qed.

Lemma reachable_ok lim x : limits_ok lim → sys_reachable lim x → coordinator_ok lim x.
Proof.
  intros Hl (w & Hr). pose proof (sys_start_ok lim w Hl) as H0.
  induction Hr; eauto using sys_step_ok.
Qed.
End System.

(** ** Schedules: executable runs of the coordinator *)
Section Schedule.
Context {P : Platform}.

(** A client connects with the given chunks; connection [i] acts. *)
Inductive Event := Connect (chunks : list (list Z)) | Act (i : nat).

Definition play (e : Event) (x : System) : System :=
  match e with
  | Connect chunks =>
      mkSystem true (sys_server x) (sys_conns x ++ [mkConn (mkSock chunks [] []) AwaitHello])
        (sys_world x) (sys_admitted x)
  | Act i =>
      match sys_conns x !! i with
      | None => x
      | Some c =>
          let '((c', s'), w') := conn_step c (sys_server x) (sys_world x) in
          mkSystem (sys_running x) s' (<[i := c']> (sys_conns x)) w'
            (sys_admitted x ++ admission (cn_phase c) (cn_phase c'))
      end
  end.

Lemma play_reachable lim e x :
  sys_running x = true → sys_reachable lim x →
  sys_running (play e x) = true ∧ sys_reachable lim (play e x).
Proof.
  intros Hrun (w0 & Hr). unfold play. destruct x as [run s cs w a]. simpl in Hrun. subst run.
  destruct e as [chunks|i]; simpl.
  - split; [done|]. exists w0. eapply rtc_r; [done|constructor].
  - destruct (cs !! i) as [c|] eqn:Hi; [|split; [done|by exists w0]].
    destruct (conn_step c s w) as [[c' s'] w'] eqn:Hc. split; [done|].
    exists w0. eapply rtc_r; [done|by eapply sys_conn].
Qed.

Lemma plays_reachable lim es x :
  sys_running x = true → sys_reachable lim x → sys_reachable lim (foldl (λ y e, play e y) x es).
Proof.
  revert x. induction es as [|e es IH]; intros x Hrun Hx; [done|]. simpl.
  destruct (play_reachable lim e x Hrun Hx). by apply IH.
Qed.

Definition run_events (lim : Limits) (es : list Event) : System :=
  foldl (λ y e, play e y) (sys_start lim world0) es.

Lemma run_events_reachable lim es : sys_reachable lim (run_events lim es).
Proof. apply plays_reachable; [done|]. by exists world0. Qed.
End Schedule.

Definition frame_bytes (f : Frame) : list Z :=
  match encode_frame f kMax with Ok b => b | Err _ => [] end.
Definition hello (wid boot epoch : Z) : Frame :=
  mkFrame HELLO (put_u64 wid ++ put_u64 boot ++ put_u64 epoch).

(** Worker 7 connects with boot 1 and publishes a device; a second process of
    worker 7 takes over with boot 2; a replay of boot 1 is refused; the first
    connection ends. *)
Definition takeover : System :=
  @run_events reference_platform default_limits
    [Connect [frame_bytes (hello 7 1 1);
              frame_bytes (mkFrame PUBLISH_DEVICE (enc_device (make_device 1 "gpu1" 1)))];
     Act 0; Act 0; Act 0; Act 0;
     Connect [frame_bytes (hello 7 2 1); [78]]; Act 1; Act 1; Act 1;
     Connect [frame_bytes (hello 7 1 1)]; Act 2; Act 2; Act 2;
     Act 0; Act 0; Act 0].

Lemma takeover_reachable : @sys_reachable reference_platform default_limits takeover.
Proof. apply run_events_reachable. Qed.

(** C8.  Fencing: in every reachable state of the coordinator, however the
    connections interleave, the boots accepted for one worker strictly
    increase, all of them under the coordinator's own epoch; a connection that
    is being served was accepted, and no two connections are served for the
    same boot of the same worker.  So a replayed boot or a HELLO of an earlier
    epoch is never accepted. *)
Theorem accepted_boots_increase `{Platform} lim x :
  sys_reachable lim x →
  boots_increase (sys_admitted x) ∧
  Forall (λ '(_, _, e), e = sv_epoch (sys_server x)) (sys_admitted x) ∧
  (∀ i c wid boot, sys_conns x !! i = Some c → holder (cn_phase c) = Some (wid, boot) →
     (wid, boot, sv_epoch (sys_server x)) ∈ sys_admitted x) ∧
  (∀ i j ci cj h, sys_conns x !! i = Some ci → sys_conns x !! j = Some cj →
     holder (cn_phase ci) = Some h → holder (cn_phase cj) = Some h → i = j).
Proof. intros Hx. by destruct (reachable_authority lim x Hx). Qed.

Lemma accepted_boots_increase_witness :
  sys_admitted takeover = [(7, 1, 1); (7, 2, 1)] ∧ boots_increase (sys_admitted takeover).
Proof.
  split; [vm_compute; reflexivity|].
  apply (@accepted_boots_increase reference_platform default_limits takeover), takeover_reachable.
Defined.

(** C34.  In every reachable state of the coordinator the registry is well
    formed (no frame, however malformed, and no interleaving breaks it), and
    the live count is exactly the number of connections accepted and not yet
    ended, plus those whose READY could not be sent. *)
Theorem coordinator_invariant `{Platform} lim x :
  limits_ok lim → sys_reachable lim x →
  wf (sv_registry (sys_server x)) ∧
  (zlen (sys_conns x) < two64 - 1 →
   live_worker_count (sys_server x) = counted_conns (sys_conns x)).
Proof. intros Hl Hx. destruct (reachable_ok lim x Hl Hx) as (_ & ? & ?). done. Qed.

Lemma coordinator_invariant_witness :
  wf (sv_registry (sys_server takeover)) ∧ live_worker_count (sys_server takeover) = 1.
Proof.
  destruct (@coordinator_invariant reference_platform default_limits takeover) as [Hwf Hn].
  - by vm_compute.
  - apply takeover_reachable.
  - split; [exact Hwf|]. rewrite Hn; vm_compute; reflexivity.
Defined.
