(* ===== verification/Lifecycle.v ===== *)
(** * The coordinator's life cycle (runtime.cpp, CoordinatorServer::start and stop)

    The listener, the accept thread and the call of [stop] around the
    connections of [System].  The accept thread, the connection threads and
    the thread inside [stop] are scheduled in any order, clients may knock and
    the process may call the registry at any time.  [accept] blocks when no
    client waits, and a connection goes on when its peer lets it. *)

From S2P Require Import Prelude Enums Double Records World Registry RegistryFacts Fixtures.
From S2P Require Import Bytes Protocol Transport Wire Coordinator CoordinatorFacts CoordinatorProps.

(** Where [accept_thread] is: not joinable; about to test [running]; in
    [select]; about to call [accept]; in [accept], which found nobody waiting;
    out of its loop, not yet joined. *)
Inductive AcceptThread := NoThread | AtTest | InSelect | InAccept | Blocked | Finished.

(** Where the call of [stop] is, if there is one: [running] is cleared; the
    listener is closed; the accept thread is joined; all threads are. *)
Inductive StopCall := NoStop | ClosingListener | JoiningAccept | JoiningConns | Returned.

(** [impl_], [port_] and the calling thread; the registry, the epoch, what
    [mu] guards and [conn_threads] are in the [System], whose own flag is not
    used here and stays on.  [lf_pending] is the listener's queue: the clients
    the operating system has connected and [accept] has not yet taken. *)
Record Life := mkLife {
  lf_listener : bool; (* listener != kInvalid *)
  lf_pending : list Sock;
  lf_running : bool;
  lf_port : Z;
  lf_accept : AcceptThread;
  lf_stop : StopCall;
  lf_sys : System
}.

Definition with_accept (a : AcceptThread) (x : Life) : Life :=
  mkLife (lf_listener x) (lf_pending x) (lf_running x) (lf_port x) a (lf_stop x) (lf_sys x).
Definition with_sys (y : System) (x : Life) : Life :=
  mkLife (lf_listener x) (lf_pending x) (lf_running x) (lf_port x) (lf_accept x) (lf_stop x) y.
(** A new listener, or none: nobody waits. *)
Definition with_listener (b : bool) (x : Life) : Life :=
  mkLife b [] (lf_running x) (lf_port x) (lf_accept x) (lf_stop x) (lf_sys x).
Definition with_pending (q : list Sock) (x : Life) : Life :=
  mkLife (lf_listener x) q (lf_running x) (lf_port x) (lf_accept x) (lf_stop x) (lf_sys x).
Definition with_stop (p : StopCall) (x : Life) : Life :=
  mkLife (lf_listener x) (lf_pending x) (lf_running x) (lf_port x) (lf_accept x) p (lf_sys x).

(** The accessors. *)
Definition port (x : Life) : Z := lf_port x.
Definition server_registry (x : Life) : Registry := sv_registry (sys_server (lf_sys x)).
Definition server_epoch (x : Life) : Z := sv_epoch (sys_server (lf_sys x)).

(** ** [start] *)

(** What the operating system answers to [socket], [bind], [listen] and
    [getsockname], and the text of the error. *)
Record Net := mkNet {
  net_socket : bool; net_bind : bool; net_listen : bool; net_name : option Z; net_error : string
}.

(** The result, and the server afterwards; [None] is the [std::terminate] of
    assigning to a thread that is still joinable.  An error after [socket]
    leaves the listener open. *)
Definition start (net : Net) (x : Life) : option (Result Z) * Life :=
  if negb (net_socket net) then
    (Some (err ErrorCode.BACKEND_ERROR ("socket() failed: " +:+ net_error net)),
     with_listener false x)
  else
    let x := with_listener true x in
    if negb (net_bind net) then
      (Some (err ErrorCode.BACKEND_ERROR ("bind() failed: " +:+ net_error net)), x)
    else if negb (net_listen net) then
      (Some (err ErrorCode.BACKEND_ERROR ("listen() failed: " +:+ net_error net)), x)
    else
      match net_name net with
      | None => (Some (err ErrorCode.BACKEND_ERROR "getsockname() failed"), x)
      | Some p =>
          let x := mkLife (lf_listener x) (lf_pending x) true (wrap16 p) (lf_accept x) (lf_stop x)
                     (lf_sys x) in
          match lf_accept x with
          | NoThread => (Some (Ok (wrap16 p)), with_accept AtTest x)
          | _ => (None, x)
          end
      end.

(** ** The threads *)
Section Threads.
Context {P : Platform}.

(** The connection thread [accept] starts. *)
Definition sys_connect (sock : Sock) (y : System) : System :=
  mkSystem (sys_running y) (sys_server y) (sys_conns y ++ [mkConn sock AwaitHello])
    (sys_world y) (sys_admitted y).

(** Connection [i], at [c], acts. *)
Definition sys_act (i : nat) (c : Conn) (y : System) : System :=
  let '((c', s'), w') := conn_step c (sys_server y) (sys_world y) in
  mkSystem (sys_running y) s' (<[i := c']> (sys_conns y)) w'
    (sys_admitted y ++ admission (cn_phase c) (cn_phase c')).

Definition conn_closed (c : Conn) : Prop := ∃ b, cn_phase c = Closed b.
#[export] Instance conn_closed_dec c : Decision (conn_closed c).
Proof.
  refine (match cn_phase c as p return (cn_phase c = p → _) with
          | Closed b => λ H, left (ex_intro _ b H) | _ => λ H, right _ end eq_refl);
    intros [? E]; congruence.
Defined.

(** Who acts: the accept thread, the thread in [stop], connection [i]. *)
Inductive Actor := Accepting | Closing | Connection (i : nat).

(** [select] times out, or fails, or reports the listener when a client waits.
    [accept] takes the first client; it fails on a closed listener, or for a
    reason of its own, the client then staying or being lost; and with nobody
    waiting it blocks, which closing the listener does not end.  A client that
    waits is not withdrawn.  The listener is read and closed atomically.  Each
    blocking [recv] and [send] of a connection is part of one of its actions,
    which is then taken when the peer lets it. *)
Inductive thread_step : Actor → Life → Life → Prop :=
| th_test x :
    lf_accept x = AtTest →
    thread_step Accepting x (with_accept (if lf_running x then InSelect else Finished) x)
| th_select_nothing x :
    lf_accept x = InSelect → thread_step Accepting x (with_accept AtTest x)
| th_select_ready x :
    lf_accept x = InSelect → lf_listener x = true → lf_pending x ≠ [] →
    thread_step Accepting x (with_accept InAccept x)
| th_accept_fails x q :
    lf_accept x = InAccept → lf_listener x = false ∨ lf_pending x ≠ [] →
    q = lf_pending x ∨ q = tail (lf_pending x) →
    thread_step Accepting x
      (with_accept (if lf_running x then AtTest else Finished) (with_pending q x))
| th_accept_client x sock q :
    lf_accept x = InAccept ∨ lf_accept x = Blocked →
    lf_listener x = true → lf_pending x = sock :: q →
    thread_step Accepting x
      (with_accept AtTest (with_pending q (with_sys (sys_connect sock (lf_sys x)) x)))
| th_accept_blocks x :
    lf_accept x = InAccept → lf_listener x = true → lf_pending x = [] →
    thread_step Accepting x (with_accept Blocked x)
| th_connection x i c :
    sys_conns (lf_sys x) !! i = Some c → ¬ conn_closed c →
    thread_step (Connection i) x (with_sys (sys_act i c (lf_sys x)) x)
| th_stop_close x :
    lf_stop x = ClosingListener →
    thread_step Closing x (with_stop JoiningAccept (with_listener false x))
| th_stop_join_accept x :
    lf_stop x = JoiningAccept → lf_accept x = NoThread ∨ lf_accept x = Finished →
    thread_step Closing x (with_stop JoiningConns (with_accept NoThread x))
| th_stop_join_conns x :
    lf_stop x = JoiningConns → Forall conn_closed (sys_conns (lf_sys x)) →
    thread_step Closing x (with_stop Returned x).

Definition any_thread (x y : Life) : Prop := ∃ a, thread_step a x y.
(** The threads that do not depend on a peer. *)
Definition own_thread (x y : Life) : Prop :=
  thread_step Accepting x y ∨ thread_step Closing x y.

(** Calls of the registry from outside the server, and clients connecting. *)
Inductive env_step : Life → Life → Prop :=
| env_op x op res r' w' :
    let s := sys_server (lf_sys x) in
    run_op op (sv_registry s) (sys_world (lf_sys x)) = ((res, r'), w') →
    env_step x (with_sys (mkSystem (sys_running (lf_sys x)) (set_registry r' s)
                            (sys_conns (lf_sys x)) w' (sys_admitted (lf_sys x))) x)
| env_read x w' :
    env_step x (with_sys (mkSystem (sys_running (lf_sys x)) (sys_server (lf_sys x))
                            (sys_conns (lf_sys x)) w' (sys_admitted (lf_sys x))) x)
| env_connect x sock :
    lf_listener x = true → env_step x (with_pending (lf_pending x ++ [sock]) x).

Definition idle (x : Life) : Prop := lf_stop x = NoStop ∨ lf_stop x = Returned.

(** Calls of [start] and [stop], one at a time; [start] only on a server that
    is not running (on a running one it ends the process, or leaves it with
    another listener than the accept thread watches). *)
Inductive owner_step : Life → Life → Prop :=
| ow_start x net res x' :
    idle x → lf_accept x = NoThread → start net x = (Some res, x') →
    owner_step x (with_stop NoStop x')
| ow_stop x :
    idle x →
    owner_step x (mkLife (lf_listener x) (lf_pending x) false (lf_port x) (lf_accept x)
      ClosingListener (lf_sys x)).

Definition life_step (x y : Life) : Prop := any_thread x y ∨ env_step x y ∨ owner_step x y.

(** A constructed server, before [start]. *)
Definition life_start (lim : Limits) (w : World) : Life :=
  mkLife false [] false 0 NoThread NoStop (sys_start lim w).

Definition life_reachable (lim : Limits) (x : Life) : Prop :=
  ∃ w, rtc life_step (life_start lim w) x.

(** ** The life cycle stays within [System] *)

Lemma life_step_sys x y :
  life_step x y → sys_running (lf_sys x) = true →
  rtc sys_step (lf_sys x) (lf_sys y) ∧ sys_running (lf_sys y) = true.
Proof.
  intros Hs Hrun. destruct x as [li pe ru po ac st [run s cs w a]]. simpl in Hrun. subst run.
  destruct Hs as [[b Hs]|[Hs|Hs]].
  - inversion Hs; subst; simpl in *; try (split; [by apply rtc_refl|done]).
    + split; [|done]. apply rtc_once. constructor.
    + unfold sys_act. simpl. destruct (conn_step c s w) as [[c' s'] w'] eqn:Hc.
      split; [|done]. apply rtc_once. by eapply sys_conn.
  - inversion Hs; subst; simpl in *; (split; [|done]); [| |by apply rtc_refl];
      apply rtc_once; econstructor; eauto.
  - inversion Hs as [? ? ? ? Hi Hn Hst|]; subst; simpl in *; [|split; [by apply rtc_refl|done]].
    assert (lf_sys x' = mkSystem true s cs w a) as ->; [|split; [by apply rtc_refl|done]].
    unfold start in Hst. simpl in Hst. repeat case_match; simplify_eq; done.
Qed.

Lemma life_reachable_sys lim x : life_reachable lim x → sys_reachable lim (lf_sys x).
Proof.
  intros (w & Hr). exists w.
  assert (rtc sys_step (sys_start lim w) (lf_sys x) ∧ sys_running (lf_sys x) = true) as [? _];
    [|done].
  revert Hr. apply (rtc_ind_r (λ x, rtc sys_step (sys_start lim w) (lf_sys x) ∧
    sys_running (lf_sys x) = true)).
  - split; [apply rtc_refl|done].
  - intros y z _ Hs [Hr Hrun]. destruct (life_step_sys y z Hs Hrun). split; [by etrans|done].
Qed.

(** ** [stop] returns *)

(** A call of [stop] has not yet returned. *)
Definition stopping (x : Life) : Prop :=
  lf_stop x ≠ NoStop ∧ lf_stop x ≠ Returned ∧ lf_running x = false ∧
  (lf_stop x = JoiningConns → lf_accept x = NoThread) ∧
  (lf_stop x ≠ ClosingListener → lf_listener x = false).

Definition stopped (x : Life) : Prop :=
  lf_stop x = Returned ∧ lf_running x = false ∧ lf_listener x = false ∧
  lf_accept x = NoThread ∧ Forall conn_closed (sys_conns (lf_sys x)).

(** One action of one of the threads [by_], after anything from outside. *)
Definition turn (by_ : Life → Life → Prop) (x z : Life) : Prop :=
  ∃ y, rtc env_step x y ∧ by_ y z.

Definition accept_rank (a : AcceptThread) : nat :=
  match a with NoThread => 0 | Finished => 1 | AtTest => 2 | Blocked => 3 | InAccept => 4 | InSelect => 5
  end.
Definition stop_rank (p : StopCall) : nat :=
  match p with
  | NoStop => 0 | Returned => 0 | JoiningConns => 1 | JoiningAccept => 2 | ClosingListener => 3
  end.

(** The actions left to the connections and to [stop]; the accept thread may
    add to them, but only while its own rank goes down. *)
Definition work (x : Life) : nat :=
  sum_list_with conn_fuel (sys_conns (lf_sys x)) + stop_rank (lf_stop x).

Definition quieter (y x : Life) : Prop :=
  (accept_rank (lf_accept y) < accept_rank (lf_accept x))%nat ∨
  (accept_rank (lf_accept y) ≤ accept_rank (lf_accept x))%nat ∧ (work y < work x)%nat.

Lemma quieter_wf : well_founded quieter.
Proof.
  assert (∀ n m x, (accept_rank (lf_accept x) < n)%nat → (work x < m)%nat → Acc quieter x) as H.
  { induction n as [|n IHn]; [lia|]. induction m as [|m IHm]; [lia|].
    intros x Hn Hm. constructor. intros y [Hy|[Hy Hw]].
    - apply (IHn (S (work y))); lia.
    - apply IHm; lia. }
  intros x. by apply (H (S (accept_rank (lf_accept x))) (S (work x))); lia.
Qed.

Lemma fuel_insert cs i c c' :
  cs !! i = Some c → (conn_fuel c' < conn_fuel c)%nat →
  (sum_list_with conn_fuel (<[i := c']> cs) < sum_list_with conn_fuel cs)%nat.
Proof.
  intros Hi Hf. rewrite <-(take_drop_middle cs i c Hi) at 2.
  assert (i < length cs)%nat by (by eapply lookup_lt_Some).
  rewrite insert_take_drop by done. rewrite !sum_list_with_app. simpl. lia.
Qed.

(** What a call from outside leaves alone. *)
Lemma env_steps_frame x y :
  rtc env_step x y →
  lf_listener y = lf_listener x ∧ lf_running y = lf_running x ∧ lf_accept y = lf_accept x ∧
  lf_stop y = lf_stop x ∧ sys_conns (lf_sys y) = sys_conns (lf_sys x).
Proof.
  induction 1 as [|x y z Hs _ IH]; [done|]. destruct IH as (-> & -> & -> & -> & ->).
  by destruct Hs.
Qed.

Lemma env_stopping x y : rtc env_step x y → stopping x → stopping y.
Proof. intros (Hl & Hr & Ha & Hs & _)%env_steps_frame. unfold stopping. by rewrite Hl, Hr, Ha, Hs. Qed.

(** The accept thread is not at work once [stop] has joined it. *)
#[local] Ltac by_stopping :=
  split_and!; try done; let E := fresh in intros E;
  match goal with Hj : _ = JoiningConns → _ |- _ => specialize (Hj E); congruence end.

(** While [stop] is under way every action of a thread brings its return
    closer. *)
Lemma thread_step_stopping x y :
  any_thread x y → stopping x → (stopping y ∨ stopped y) ∧ quieter y x.
Proof.
  unfold stopping, stopped, quieter, work.
  intros [a Hs] (Hn & Hr & Hrun & Hj & Hl).
  destruct Hs as [x H|x H|x H ? ?|x q H ? ?|x sock q H ? ?|x H ? ?|x i c H H0|x H|x H H0|x H H0];
    simpl in *.
  - rewrite Hrun, H. simpl. split; [left|lia]. by_stopping.
  - rewrite H. simpl. split; [left|lia]. by_stopping.
  - rewrite H. simpl. split; [left|lia]. by_stopping.
  - rewrite Hrun, H. simpl. split; [left|lia]. by_stopping.
  - split; [left; destruct H; by_stopping|]. destruct H as [->| ->]; simpl; lia.
  - rewrite H. simpl. split; [left|lia]. by_stopping.
  - split; [left; by split_and!|]. right. split; [lia|].
    unfold sys_act. destruct (conn_step c _ _) as [[c' s'] w'] eqn:Hc. simpl.
    apply Nat.add_lt_mono_r. eapply fuel_insert; [done|].
    pose proof (conn_step_fuel c (sys_server (lf_sys x)) (sys_world (lf_sys x))) as Hf.
    rewrite Hc in Hf. apply Hf. intros Hz. apply H0. destruct (cn_phase c) eqn:E; try done.
    by eexists.
  - rewrite H. simpl. split; [left; by split_and!|lia].
  - rewrite H. simpl. split; [left; split_and!; try done; intros _; apply Hl; by rewrite H|].
    destruct H0 as [->| ->]; simpl; lia.
  - rewrite H. simpl. split; [|lia]. right. split_and!; try done.
    + apply Hl. by rewrite H.
    + by apply Hj.
Qed.

(** [select] has seen a client before [accept] is called, so [accept] never
    blocks. *)
Definition unblocked (x : Life) : Prop :=
  lf_accept x ≠ Blocked ∧
  (lf_accept x = InAccept → lf_listener x = true → lf_pending x ≠ []).

Lemma thread_step_unblocked x y : any_thread x y → unblocked x → unblocked y.
Proof.
  unfold unblocked. intros [a Hs] [Hb Hp].
  destruct Hs as [x H|x H|x H ? ?|x q H ? ?|x sock q H ? ?|x H H0 H1|x i c H H0|x H|x H H0|x H H0];
    simpl in *; try by split.
  - by destruct (lf_running x).
  - by destruct (lf_running x).
  - by destruct (Hp H H0).
Qed.

Lemma env_unblocked x y : rtc env_step x y → unblocked x → unblocked y.
Proof.
  induction 1 as [|x y z Hs _ IH]; [done|]. intros [Hb Hp]. apply IH. unfold unblocked.
  destruct Hs; simpl in *; try by split. split; [done|]. intros _ _. by destruct (lf_pending x).
Qed.

Lemma life_step_unblocked x y : life_step x y → unblocked x → unblocked y.
Proof.
  intros [Hs|[Hs|Hs]] Hx; [by eapply thread_step_unblocked|by eapply env_unblocked; [apply rtc_once|]|].
  destruct Hs as [x net res x' _ Ha Hst|x _]; [|done].
  unfold start in Hst. rewrite ?Ha in Hst. unfold unblocked.
  repeat case_match; simplify_eq/=; rewrite ?Ha; by split.
Qed.

Lemma reachable_unblocked lim x : life_reachable lim x → unblocked x.
Proof.
  intros (w & Hr). revert Hr. apply (rtc_ind_r unblocked).
  - by split.
  - intros y z _ Hs. by apply life_step_unblocked.
Qed.

(** The accept thread is joined. *)
Definition listening_over (x : Life) : Prop :=
  lf_listener x = false ∧ lf_accept x = NoThread ∧
  (lf_stop x = JoiningConns ∨ lf_stop x = Returned).

(** Until then the accept thread or [stop] can act, whatever the peers do. *)
Lemma own_progress x :
  stopping x → unblocked x → listening_over x ∨ ∃ y, own_thread x y.
Proof.
  intros (Hn & Hr & Hrun & Hj & Hl) [Hb Hp]. destruct (lf_stop x) eqn:Hs; try done.
  - right. eexists. right. by apply th_stop_close.
  - right. destruct (lf_accept x) eqn:Ha; try done.
    + eexists. right. apply th_stop_join_accept; auto.
    + eexists. left. by apply th_test.
    + eexists. left. by apply th_select_nothing.
    + eexists. left. eapply th_accept_fails; [done|by left; apply Hl|by left].
    + eexists. right. apply th_stop_join_accept; auto.
  - left. split; [by apply Hl|]. split; [by apply Hj|by left].
Qed.

(** Some thread can act until [stop] has returned. *)
Lemma stopping_progress x : stopping x → unblocked x → ∃ y, any_thread x y.
Proof.
  intros Hx Hu. destruct (own_progress x Hx Hu) as [(_ & _ & [Hs|Hs])|(y & [Hy|Hy])];
    [|by destruct Hx as (_ & ? & _)|by exists y; eexists..].
  destruct (decide (Exists (λ c, ¬ conn_closed c) (sys_conns (lf_sys x)))) as [He|He].
  - apply Exists_exists in He as (c & [i Hi]%list_elem_of_lookup & Hc).
    do 2 eexists. by eapply th_connection.
  - do 2 eexists. apply th_stop_join_conns; [done|]. apply Forall_forall. intros c Hc.
    destruct (decide (conn_closed c)); [done|]. exfalso. apply He, Exists_exists. eauto.
Qed.

(** What is sure to be reached while [stop] is under way, when [duty] always
    has an action before. *)
Lemma stopping_ensured (duty : Life → Life → Prop) (Q : Life → Prop) x :
  (∀ y, stopping y → unblocked y → Q y ∨ ∃ z, duty y z) → (∀ y, stopped y → Q y) →
  stopping x → unblocked x → ensured (turn duty) (turn any_thread) Q x.
Proof.
  intros Hprog Hend. induction (quieter_wf x) as [x _ IH]. intros Hx Hu.
  destruct (Hprog x Hx Hu) as [Hq|[z Hz]]; [by apply ensured_now|]. apply ensured_later.
  { exists z, x. split; [apply rtc_refl|done]. }
  intros y (y0 & Hxy & Hy).
  pose proof (env_steps_frame x y0 Hxy) as (_ & _ & Ha & Hst & Hc).
  pose proof (env_unblocked x y0 Hxy Hu) as Hu0.
  destruct (thread_step_stopping y0 y Hy (env_stopping x y0 Hxy Hx)) as [[Hs|Hs] Hq].
  - apply IH; [|done|by eapply thread_step_unblocked].
    unfold quieter, work in *. by rewrite <-Ha, <-Hst, <-Hc.
  - by apply ensured_now, Hend.
Qed.

(** The threads are at rest outside a call: without [running] only a call of
    [stop] is at work. *)
Definition orderly (x : Life) : Prop :=
  stopping x ∨ stopped x ∨ lf_stop x = NoStop.

Lemma stopped_quiet x y : stopped x → ¬ any_thread x y.
Proof.
  intros (Hst & Hrun & Hl & Ha & Hc) [a Hs].
  destruct Hs as [x H|x H|x H|x q H|x sock q H|x H|x i c Hi Hn|x H|x H|x H]; try congruence.
  by eapply Hn, (proj1 (Forall_forall _ _) Hc), list_elem_of_lookup_2.
Qed.

Lemma life_step_orderly x y : life_step x y → orderly x → orderly y.
Proof.
  unfold orderly. intros [Hs|[Hs|Hs]] Hx.
  - destruct Hx as [Hx|[Hx|Hx]].
    + destruct (thread_step_stopping x y Hs Hx) as [[?|?] _]; auto.
    + by destruct (stopped_quiet x y Hx).
    + right. right. destruct Hs as [a Hs]. destruct Hs; simpl in *; congruence.
  - assert (rtc env_step x y) as Hr by (by apply rtc_once).
    pose proof (env_steps_frame x y Hr) as (Hl & Hru & Ha & Hst & Hc).
    unfold stopping, stopped. rewrite Hl, Hru, Ha, Hst, Hc. done.
  - destruct Hs; simpl; [by right; right|]. left. unfold stopping. simpl. by split_and!.
Qed.

Lemma reachable_orderly lim x : life_reachable lim x → orderly x.
Proof.
  intros (w & Hr). revert Hr. apply (rtc_ind_r orderly).
  - by right; right.
  - intros y z _ Hs. by apply life_step_orderly.
Qed.

Lemma ensured_reachable lim duty (Q : Life → Prop) x :
  ensured duty (turn any_thread) Q x → life_reachable lim x →
  ensured duty (turn any_thread) (λ y, life_reachable lim y ∧ Q y) x.
Proof.
  induction 1 as [x Hq|x Hex _ IH]; intros Hx; [by apply ensured_now|].
  apply ensured_later; [done|]. intros z Hz. apply IH; [done|].
  destruct Hz as (y & Hxy & Hyz), Hx as (w & Hr). exists w.
  eapply rtc_r; [etrans; [exact Hr|]|by left].
  eapply rtc_subrel; [|exact Hxy]. intros ? ? ?. by right; left.
Qed.

(** [start] on a server whose [stop] has returned, or that was never started,
    does not terminate the process. *)
Lemma start_again net x :
  lf_accept x = NoThread → is_Some (start net x).1.
Proof. intros Ha. unfold start. repeat case_match; simpl in *; try congruence; done. Qed.

End Threads.

(** C11.  [stop] ends the accept thread whatever the peers do, and returns once
    they are done.  From any reachable state in which it has been called, on
    every schedule of the accept thread, the connection threads and the closing
    thread, with any calls of the registry and any clients connecting in
    between: the listener gets closed and the accept thread joined, even if no
    connection ever moves again, because [select] keeps the accept thread out of
    an [accept] that would block; and if each connection goes on as long as it
    is open (its peer sends what is awaited, reads what is sent, or closes), a
    state is reached in which the call has returned, every connection has ended
    and no thread of the server can act.  [stop] itself closes no connection: it
    returns only when all have ended.  (A waiting client is not withdrawn from
    the listener's queue; the code's unsynchronised accesses to the listener are
    taken as atomic; and [start] is not called on a running server.) *)
Theorem stop_returns `{Platform} lim x :
  life_reachable lim x → lf_stop x ≠ NoStop →
  ensured (turn own_thread) (turn any_thread)
    (λ y, life_reachable lim y ∧ listening_over y) x ∧
  inevitable (turn any_thread)
    (λ y, life_reachable lim y ∧ stopped y ∧ ∀ z, ¬ any_thread y z) x ∧
  (∀ y, life_reachable lim y →
     (∀ z, thread_step Closing y z → lf_sys z = lf_sys y) ∧
     (lf_stop y = Returned → Forall conn_closed (sys_conns (lf_sys y)))).
Proof.
  intros Hr Hs. pose proof (reachable_unblocked lim x Hr) as Hu. split_and!.
  - apply ensured_reachable; [|done].
    assert (∀ y, stopped y → listening_over y) as Hend
      by (intros y (? & ? & ? & ? & ?); split_and!; [done..|by right]).
    destruct (reachable_orderly lim x Hr) as [Hx|[Hx|Hx]]; [|by apply ensured_now, Hend|done].
    apply stopping_ensured; [|done..]. intros y. apply own_progress.
  - apply ensured_all.
    assert (ensured (turn any_thread) (turn any_thread) stopped x) as Hi.
    { destruct (reachable_orderly lim x Hr) as [Hx|[Hx|Hx]]; [|by apply ensured_now|done].
      apply stopping_ensured; [|done..]. intros y ??. right. by apply stopping_progress. }
    apply ensured_reachable; [|done]. clear Hr Hs Hu.
    induction Hi as [x Hx|x Hex _ IH]; [|by apply ensured_later].
    apply ensured_now. split; [done|]. intros z. by apply stopped_quiet.
  - intros y Hy. split.
    + intros z Hz. by inversion Hz.
    + intros Hret. destruct (reachable_orderly lim y Hy) as [Hx|[Hx|Hx]]; [|by apply Hx|congruence].
      by destruct Hx as (_ & ? & _).
Qed.

(** A server with one client, which is still there, whose accept thread is about
    to take the next one when [stop] is called and closes the listener. *)
Definition busy_sock : Sock := mkSock [frame_bytes (hello 1 1 1)] [] [].
Definition busy : Life :=
  mkLife false [] false 4000 InAccept JoiningAccept
    (sys_connect busy_sock (sys_start default_limits (initial_world (λ _, 0)))).

Lemma busy_reachable : @life_reachable reference_platform default_limits busy.
Proof.
  exists (initial_world (λ _, 0)).
  eapply rtc_l; [right; right; eapply (ow_start _ (mkNet true true true (Some 4000) "")); [by left|done|reflexivity]|].
  eapply rtc_l; [right; left; by apply (@env_connect reference_platform _ busy_sock)|].
  eapply rtc_l; [left; eexists; by apply (@th_test reference_platform)|].
  eapply rtc_l; [left; eexists; by apply (@th_select_ready reference_platform)|].
  eapply rtc_l; [left; eexists; by apply (th_accept_client _ busy_sock []); [left|..]|].
  eapply rtc_l; [right; left; by apply (@env_connect reference_platform _ busy_sock)|].
  eapply rtc_l; [left; eexists; by apply (@th_test reference_platform)|].
  eapply rtc_l; [left; eexists; by apply (@th_select_ready reference_platform)|].
  eapply rtc_l; [right; right; apply ow_stop; by left|].
  eapply rtc_l; [left; eexists; by apply (@th_stop_close reference_platform)|].
  apply rtc_refl.
Qed.

Lemma stop_returns_witness :
  ensured (@turn reference_platform (@own_thread reference_platform)) (@turn reference_platform (@any_thread reference_platform))
    (λ y, @life_reachable reference_platform default_limits y ∧ listening_over y) busy ∧
  inevitable (@turn reference_platform (@any_thread reference_platform))
    (λ y, @life_reachable reference_platform default_limits y ∧ stopped y ∧
          ∀ z, ¬ @any_thread reference_platform y z) busy.
Proof.
  destruct (@stop_returns reference_platform default_limits busy) as (He & Hi & _).
  - apply busy_reachable.
  - done.
  - split; [exact He|exact Hi].
Defined.
