(* ===== verification/Attribution.v ===== *)
(** * Who published what, and what a route reply rests on (runtime.cpp)

    Invariants of the whole coordinator, under every interleaving of its
    connections: each record that names an owner was published over a
    connection that was authorized for exactly that worker and boot, and each
    route reply is decided on a well-formed registry the server has had. *)

From S2P Require Import Prelude Enums Double Records World Registry RegistryFacts Fixtures.
From S2P Require Import RegistryProps Paths PathsFacts Quality Route RouteFacts Eligibility.
From S2P Require Import Governance Concurrency ConcurrencyProps Bytes Protocol Transport Wire.
From S2P Require Import Coordinator CoordinatorFacts CoordinatorProps Lifecycle.

(** ** Owners of the records of a registry *)
Section Owners.
Context {P : Platform} (Q : option Z → option Z → Prop).

Definition device_owned (d : DeviceRecord) : Prop := Q (dev_owner_worker d) (dev_owner_boot d).
Definition meas_owned (m : MeasurementRecord) : Prop := Q (meas_owner_worker m) (meas_owner_boot m).

Definition owned (s : State) : Prop :=
  map_Forall (λ _, device_owned) (devices s) ∧ Forall meas_owned (measurement_history s).

(** The records a call brings in. *)
Definition brings_owned (op : Op) : Prop :=
  match op with
  | UpsertDevice d => device_owned d
  | PublishMeasurement m => meas_owned m
  | RestoreDurable ds => Forall device_owned (ds_devices ds)
  | _ => True
  end.

Lemma push_bounded_Forall {A} (R : A → Prop) max x l :
  R x → Forall R l → Forall R (push_bounded max x l).
Proof.
  intros Hx Hl. assert (Forall R (l ++ [x])) as H by (apply Forall_app; auto).
  unfold push_bounded. case_match; [|done]. by destruct (l ++ [x]); inversion H.
Qed.

Lemma restore_devices_owned lim ds acc dm :
  restore_devices lim ds acc = Ok dm → Forall device_owned ds →
  map_Forall (λ _, device_owned) acc → map_Forall (λ _, device_owned) dm.
Proof.
  revert acc. induction ds as [|d ds IH]; simpl; intros acc Hr Hds Hacc; [by simplify_eq|].
  apply Forall_cons in Hds as [Hd Hds]. repeat case_match; try done.
  eapply IH; [done|done|]. by apply emplace_forall.
Qed.

Lemma owned_advance g s : owned s → owned (advance g s).
Proof. done. Qed.

(** No call invents or changes an owner. *)
Lemma run_op_owned op r w res r' w' :
  run_op op r w = ((res, r'), w') → brings_owned op → owned (state_ r) → owned (state_ r').
Proof.
  intros Hr Hop [Hd Hm].
  destruct op; cbn [run_op brings_owned] in *;
    unfold upsert_device, remove_device, upsert_link, remove_link, update_link_state,
      update_device_health, advance_topology, publish_observation, publish_measurement,
      mark_dynamic_evidence_revalidation_required, restore_durable_state in Hr;
    open_op Hr; unfold owned; simpl; (split; try done).
  - by apply map_Forall_insert_2.
  - by apply map_Forall_insert_2.
  - by apply map_Forall_delete.
  - apply map_Forall_insert_2; [|done]. by apply (Hd d d0).
  - by apply push_bounded_Forall.
  - by apply push_bounded_Forall.
  - apply map_Forall_fmap. eapply map_Forall_impl; [done|]. intros k d Hk.
    unfold compose, revalidate_owned_device. by case_match.
  - apply Forall_fmap. eapply Forall_impl; [exact Hm|]. done.
  - apply map_Forall_fmap. eapply map_Forall_impl; [by eapply restore_devices_owned|].
    intros k d Hk. unfold compose, restored_device. by case_match.
Qed.
End Owners.

Lemma owned_mono (Q Q' : option Z → option Z → Prop) s :
  (∀ w b, Q w b → Q' w b) → owned Q s → owned Q' s.
Proof.
  intros HQ [Hd Hm]. split.
  - eapply map_Forall_impl; [exact Hd|]. intros k d. apply HQ.
  - eapply Forall_impl; [exact Hm|]. intros m. apply HQ.
Qed.

(** ** Attribution *)

(** Nobody, or a worker under a boot that was admitted. *)
Definition attributable (log : list (Z * Z * Z)) (worker boot : option Z) : Prop :=
  match worker, boot with
  | None, None => True
  | Some w, Some b => ∃ e, (w, b, e) ∈ log
  | _, _ => False
  end.

Lemma attributable_app log more w b : attributable log w b → attributable (log ++ more) w b.
Proof.
  unfold attributable. destruct w, b; try done. intros [e He]. exists e. apply elem_of_app. auto.
Qed.

Section Attributed.
Context {P : Platform}.

(** The coordinator with its workers; the owning process may call the registry
    as well, as long as it does not publish in a worker's name. *)
Inductive worker_step : System → System → Prop :=
| ws_accept x sock : sys_running x = true → worker_step x (sys_connect sock x)
| ws_act x i c : sys_conns x !! i = Some c → worker_step x (sys_act i c x)
| ws_call x op res r' w' :
    brings_owned (attributable (sys_admitted x)) op →
    run_op op (sv_registry (sys_server x)) (sys_world x) = ((res, r'), w') →
    worker_step x (mkSystem (sys_running x) (set_registry r' (sys_server x)) (sys_conns x) w'
      (sys_admitted x))
| ws_stop x :
    worker_step x (mkSystem false (sys_server x) (sys_conns x) (sys_world x) (sys_admitted x)).

Definition worker_reachable (lim : Limits) (x : System) : Prop :=
  ∃ w, rtc worker_step (sys_start lim w) x.

Lemma worker_step_sys x y : worker_step x y → sys_step x y.
Proof.
  destruct 1 as [[run s cs w a] sock Hrun|[run s cs w a] i c Hi|[run s cs w a] op res r' w' _ Hr|
    [run s cs w a]]; simpl in *.
  - subst run. constructor.
  - unfold sys_act. simpl. destruct (conn_step c s w) as [[c' s'] w'] eqn:E. by eapply sys_conn.
  - by eapply sys_owner.
  - constructor.
Qed.

Lemma worker_reachable_sys lim x : worker_reachable lim x → sys_reachable lim x.
Proof.
  intros (w & Hr). exists w. eapply rtc_subrel; [|done]. intros ??. apply worker_step_sys.
Qed.

(** A connection publishes in its own name. *)
Lemma handle_publish_owned Q f wid boot r w :
  Q (Some wid) (Some boot) → owned Q (state_ r) →
  owned Q (state_ (handle_publish f wid boot r w).1).
Proof.
  intros HQ Ho. unfold handle_publish. destruct (fr_type f); try exact Ho; rewrite bind_eq.
  - destruct (upsert_device _ r w) as [[res r'] w'] eqn:E.
    by eapply (run_op_owned Q (UpsertDevice _)).
  - destruct (dec_link _ w) as [l w1]. cbn [fst snd]. rewrite bind_eq.
    destruct (upsert_link _ r w1) as [[res r'] w'] eqn:E.
    by eapply (run_op_owned Q (UpsertLink _)).
  - destruct (dec_meas _ w) as [m w1]. cbn [fst snd]. rewrite bind_eq.
    destruct (publish_measurement _ r w1) as [[res r'] w'] eqn:E.
    by eapply (run_op_owned Q (PublishMeasurement _)).
Qed.

Lemma mark_call r w : ∃ w',
  run_op MarkRevalidation r w =
  ((Ok tt, (mark_dynamic_evidence_revalidation_required r w).1), w').
Proof.
  eexists. cbn [run_op]. rewrite bind_eq. reflexivity.
Qed.

Lemma conn_step_owned Q c s w :
  (∀ wid boot, holder (cn_phase c) = Some (wid, boot) → Q (Some wid) (Some boot)) →
  owned Q (state_ (sv_registry s)) →
  owned Q (state_ (sv_registry (conn_step c s w).1.2)).
Proof.
  intros HQ Ho. unfold conn_step. destruct (cn_phase c) eqn:Hp.
  - by destruct (recv_frame _ _).
  - pose proof (authorize_registry wid boot reported_epoch s) as [Hr _].
    destruct (authorize _ _ _ _) as [acc s']. simpl in *. by rewrite Hr.
  - by destruct (send_frame _ _ _).
  - destruct (recv_frame _ _) as [[f|e] k]; [|done]. case_bool_decide; [done|].
    rewrite bind_eq. simpl. apply handle_publish_owned; [|done]. by apply HQ.
  - rewrite bind_eq. done.
  - rewrite bind_eq. destruct (mark_call (sv_registry s) w) as [w' Hr].
    by apply (run_op_owned Q MarkRevalidation _ _ _ _ _ Hr).
  - cbn [ret fst snd]. by case_match.
  - done.
Qed.

Definition attributed (x : System) : Prop :=
  owned (attributable (sys_admitted x)) (state_ (sv_registry (sys_server x))).

Lemma worker_step_attributed x y :
  worker_step x y → authority_of x → attributed x → attributed y.
Proof.
  unfold attributed. intros Hs Hau Hx. destruct Hs as [x sock _|x i c Hi|x op res r' w' Hop Hr|x];
    try done.
  - unfold sys_act. destruct (conn_step c _ _) as [[c' s'] w'] eqn:E. simpl.
    eapply owned_mono; [intros w b; apply attributable_app|].
    pose proof (conn_step_owned (attributable (sys_admitted x)) c (sys_server x) (sys_world x)) as Ho.
    rewrite E in Ho. apply Ho; [|done]. intros wid boot Hh.
    eexists. by apply (au_holders _ _ _ _ Hau i c).
  - simpl. by eapply run_op_owned.
Qed.

Lemma worker_reachable_attributed lim x : worker_reachable lim x → attributed x.
Proof.
  intros (w & Hr). assert (authority_of x ∧ attributed x) as [_ H]; [|done].
  revert Hr. apply (rtc_ind_r (λ x, authority_of x ∧ attributed x)).
  - split; [apply sys_start_authority|]. by split.
  - intros y z _ Hs [Hau Hat]. split; [|by eapply worker_step_attributed].
    eapply sys_step_authority; [by apply worker_step_sys|done].
Qed.
End Attributed.

(** ** Route queries *)
Section Served.
Context {P : Platform} (lim : Limits).

(** What a query under way has seen: a registry the server has had. *)
Definition queries_ok (x : System) : Prop :=
  ∀ i c wid boot src tgt seen,
    sys_conns x !! i = Some c → cn_phase c = Routing wid boot src tgt seen →
    limits_ seen = lim ∧ wf seen ∧
    later lim (state_ seen) (state_ (sv_registry (sys_server x))).

(** The registry has moved on by calls. *)
Definition moved_on (r r' : Registry) : Prop := later lim (state_ r) (state_ r').

Lemma handle_publish_moved f wid boot r w :
  limits_ r = lim → moved_on r (handle_publish f wid boot r w).1.
Proof.
  intros Hl. destruct (handle_publish_call f wid boot r w) as [->|(op & w0 & res & w1 & Hr)];
    [apply rtc_refl|].
  apply rtc_once. exists op, w0, res, (handle_publish f wid boot r w).1, w1.
  destruct r as [st l]. simpl in *. by subst l.
Qed.

Lemma conn_step_moved c s w :
  limits_ (sv_registry s) = lim →
  moved_on (sv_registry s) (sv_registry (conn_step c s w).1.2) ∧
  (∀ wid boot src tgt seen, cn_phase (conn_step c s w).1.1 = Routing wid boot src tgt seen →
     cn_phase c = Routing wid boot src tgt seen ∨ seen = sv_registry s).
Proof.
  intros Hl. unfold conn_step. destruct (cn_phase c) eqn:Hp.
  - destruct (recv_frame _ _) as [hello k]. split; [apply rtc_refl|]. simpl.
    intros ?????. by repeat case_match.
  - pose proof (authorize_registry wid boot reported_epoch s) as [Hr _].
    destruct (authorize _ _ _ _) as [acc s']. simpl in *. unfold moved_on. rewrite Hr.
    split; [apply rtc_refl|done].
  - destruct (send_frame _ _ _) as [sent k]. split; [apply rtc_refl|]. simpl.
    intros ?????. by repeat case_match.
  - destruct (recv_frame _ _) as [[f|e] k]; [|by split; [apply rtc_refl|]].
    case_bool_decide.
    + split; [apply rtc_refl|]. simpl. intros ?????. case_match; [|done]. case_match.
      intros [= _ _ _ _ <-]. auto.
    + rewrite bind_eq. simpl. split; [by apply handle_publish_moved|done].
  - rewrite bind_eq. split; [apply rtc_refl|done].
  - rewrite bind_eq. split; [|done]. destruct (mark_call (sv_registry s) w) as [w' Hr].
    apply rtc_once. eexists MarkRevalidation, w, (Ok tt), _, w'. split; [|done].
    rewrite <-Hl. by destruct (sv_registry s).
  - cbn [ret fst snd]. split; [|done]. case_match; apply rtc_refl.
  - cbn [ret fst snd]. split; [apply rtc_refl|]. rewrite Hp. done.
Qed.

Lemma queries_moved x r :
  queries_ok x → moved_on (sv_registry (sys_server x)) r →
  ∀ i c wid boot src tgt seen,
    sys_conns x !! i = Some c → cn_phase c = Routing wid boot src tgt seen →
    limits_ seen = lim ∧ wf seen ∧ later lim (state_ seen) (state_ r).
Proof.
  intros Hq Hm i c wid boot src tgt seen Hi Hp.
  destruct (Hq i c wid boot src tgt seen Hi Hp) as (? & ? & ?).
  split_and!; [done|done|]. unfold moved_on, later in *. by etrans.
Qed.

Lemma sys_step_queries x y :
  sys_step x y → coordinator_ok lim x → queries_ok x → queries_ok y.
Proof.
  intros Hs (Hl & Hwf & _) Hq.
  destruct Hs as [s cs w a sock|run s cs w a i c c' s' w' Hi Hc|run s cs w a op res r' w' Hop| |];
    unfold queries_ok in *; simpl in *; try done.
  - intros j cj wid boot src tgt seen [Hj|[_ Hj]]%lookup_app_Some Hp; [by eapply Hq|].
    apply list_lookup_singleton_Some in Hj as [_ <-]. done.
  - pose proof (conn_step_moved c s w Hl) as [Hm Hp]. rewrite Hc in Hm, Hp. cbn [fst snd] in *.
    intros j cj wid boot src tgt seen [(-> & <- & _)|[_ Hj]]%list_lookup_insert_Some Hcj.
    + destruct (Hp _ _ _ _ _ Hcj) as [Hold| ->]; [|done].
      by eapply (queries_moved (mkSystem run s cs w a)).
    + by eapply (queries_moved (mkSystem run s cs w a)).
  - intros j cj wid boot src tgt seen Hj Hcj.
    eapply (queries_moved (mkSystem run s cs w a)); [done| |done|done].
    apply rtc_once. exists op, w, res, r', w'. split; [|done]. simpl.
    destruct (sv_registry s) as [st l]. simpl in *. by subst l.
Qed.

Lemma reachable_queries x : limits_ok lim → sys_reachable lim x → queries_ok x.
Proof.
  intros Hlim (w & Hr). assert (coordinator_ok lim x ∧ queries_ok x) as [_ H]; [|done].
  revert Hr. apply (rtc_ind_r (λ x, coordinator_ok lim x ∧ queries_ok x)).
  - split; [by apply sys_start_ok|]. by intros ????????.
  - intros y z _ Hs [Hok Hq]. split; [by eapply sys_step_ok|by eapply sys_step_queries].
Qed.
End Served.

(** ** The properties *)

(** C9.  Attribution: whatever the workers send and however their connections
    interleave, every device and every measurement in the coordinator's
    registry that names an owner names a worker and a boot that the coordinator
    itself admitted under its epoch; a payload cannot claim to come from
    another worker or from a boot that was refused.  (Provided the process that
    owns the registry does not publish in a worker's name.) *)
Theorem published_is_attributed `{Platform} lim x :
  worker_reachable lim x →
  let s := sys_server x in
  let admitted worker boot :=
    ∃ w b, worker = Some w ∧ boot = Some b ∧ (w, b, sv_epoch s) ∈ sys_admitted x in
  (∀ k d, device (sv_registry s) k = Some d →
     dev_owner_worker d ≠ None ∨ dev_owner_boot d ≠ None →
     admitted (dev_owner_worker d) (dev_owner_boot d)) ∧
  (∀ m, m ∈ measurement_history (state_ (sv_registry s)) →
     meas_owner_worker m ≠ None ∨ meas_owner_boot m ≠ None →
     admitted (meas_owner_worker m) (meas_owner_boot m)).
Proof.
  intros Hr s admitted.
  pose proof (au_epoch _ _ _ _ (reachable_authority lim x (worker_reachable_sys lim x Hr))) as Hep.
  destruct (worker_reachable_attributed lim x Hr) as [Hd Hm].
  assert (∀ w b, attributable (sys_admitted x) w b → w ≠ None ∨ b ≠ None → admitted w b) as Hadm.
  { intros [w|] [b|] Ha Hn; simpl in *; [|done|done|by destruct Hn].
    destruct Ha as [e He]. exists w, b. split_and!; [done..|].
    pose proof (proj1 (Forall_forall _ _) Hep _ He) as E. simpl in E. by subst e. }
  split.
  - intros k d Hk. apply Hadm. by apply (Hd k).
  - intros m Hin. apply Hadm. by apply (proj1 (Forall_forall _ _) Hm).
Qed.

Lemma run_events_worker `{Platform} lim es : worker_reachable lim (run_events lim es).
Proof.
  exists world0. unfold run_events.
  assert (∀ x, sys_running x = true → rtc worker_step x (foldl (λ y e, play e y) x es)) as Hp;
    [|by apply Hp].
  induction es as [|e es IH]; intros x Hx; [apply rtc_refl|]. simpl.
  assert (sys_running (play e x) = true) as Hrun.
  { unfold play. destruct e as [|i]; [done|]. destruct (sys_conns x !! i) as [c|]; [|done].
    by destruct (conn_step c _ _) as [[??]?]. }
  specialize (IH (play e x) Hrun). unfold play in *. destruct e as [chunks|i].
  - eapply rtc_l; [|exact IH]. rewrite <-Hx.
    apply (ws_accept x (mkSock chunks [] [])). done.
  - destruct (sys_conns x !! i) as [c|] eqn:Hi; [|exact IH].
    eapply rtc_l; [|exact IH]. by apply (ws_act x i c).
Qed.

(** Worker 7 of [takeover], its device published under boot 1. *)
Lemma published_is_attributed_witness :
  ∃ d, device (sv_registry (sys_server takeover)) 1 = Some d ∧
    ∃ w b, dev_owner_worker d = Some w ∧ dev_owner_boot d = Some b ∧
      (w, b, sv_epoch (sys_server takeover)) ∈ sys_admitted takeover.
Proof.
  destruct (device (sv_registry (sys_server takeover)) 1) as [d|] eqn:Hd;
    [|vm_compute in Hd; discriminate Hd].
  exists d. split; [reflexivity|].
  destruct (@published_is_attributed reference_platform default_limits takeover) as [Hdev _].
  - apply run_events_worker.
  - apply (Hdev 1 d Hd). left. vm_compute in Hd. injection Hd as <-. discriminate.
Defined.

(** ** Fencing is at HELLO only *)

Definition with_boots (boots : gmap Z Z) (s : Server) : Server :=
  mkServer (sv_registry s) (sv_epoch s) boots (live_count s).

(** A boot is compared with the last one at HELLO and never again: what a
    served connection does next, and what it makes of the registry, is the same
    whatever boots have been admitted since, so the process of a superseded
    boot goes on publishing. *)
Lemma served_boot_never_rechecked `{Platform} c s w boots wid boot :
  cn_phase c = Serving wid boot →
  conn_step c (with_boots boots s) w =
  (((conn_step c s w).1.1, with_boots boots (conn_step c s w).1.2), (conn_step c s w).2).
Proof.
  intros Hp. unfold conn_step. rewrite Hp. destruct (recv_frame _ _) as [[f|e] k]; [|done].
  case_bool_decide; [done|]. by rewrite !bind_eq.
Qed.

(** Boot 1 of worker 7 is served, boot 2 takes over, and only then does boot
    1's device arrive: it is stored, in boot 1's name. *)
Definition superseded : System :=
  @run_events reference_platform default_limits
    [Connect [frame_bytes (hello 7 1 1);
              frame_bytes (mkFrame PUBLISH_DEVICE (enc_device (make_device 1 "gpu1" 1)))];
     Act 0; Act 0; Act 0; Connect [frame_bytes (hello 7 2 1)]; Act 1; Act 1; Act 1].
Definition superseded_conn : Conn :=
  default (mkConn (mkSock [] [] []) AwaitHello) (sys_conns superseded !! 0%nat).

Lemma served_boot_never_rechecked_witness :
  cn_phase superseded_conn = Serving 7 1 ∧
  last_boot (sys_server superseded) !! 7 = Some 2 ∧
  device (sv_registry (sys_server superseded)) 1 = None ∧
  dev_owner_boot <$> device (sv_registry (@conn_step reference_platform superseded_conn
    (with_boots (<[7:=2]> ∅) (sys_server superseded)) world0).1.2) 1 = Some (Some 1).
Proof.
  assert (cn_phase superseded_conn = Serving 7 1) as Hp by (vm_compute; reflexivity).
  split; [exact Hp|]. split; [vm_compute; reflexivity|]. split; [vm_compute; reflexivity|].
  rewrite (@served_boot_never_rechecked reference_platform superseded_conn (sys_server superseded)
    world0 (<[7:=2]> ∅) 7 1 Hp).
  vm_compute. reflexivity.
Defined.

(** C14.  The reply to a route query, under every interleaving: it carries a
    decision taken on a well-formed registry the server has had (the one it had
    when the query was read, while the observations quoted are from now); and
    when the decision is executable, the selected path is a simple path of that
    registry from source to target, each link of which is present and in a
    supported state: UP, PRESENT, SUPPORTED or DEGRADED (so none is down,
    unknown, incompatible, unsupported or awaiting revalidation). *)
Theorem served_route_sound `{Platform} lim x i c wid boot src tgt seen :
  limits_ok lim → 0 ≤ max_candidate_paths lim →
  sys_reachable lim x → sys_conns x !! i = Some c →
  cn_phase c = Routing wid boot src tgt seen →
  wf seen ∧ later lim (state_ seen) (state_ (sv_registry (sys_server x))) ∧
  ∃ d,
    (decide_route src tgt default_policy seen (sv_registry (sys_server x)) (sys_world x)).1 = Ok d ∧
    (conn_step c (sys_server x) (sys_world x)).1 =
      (mkConn (send_frame (route_reply (Ok d)) kMax (cn_sock c)).2 (Serving wid boot),
       sys_server x) ∧
    (rd_executable d = true →
     ∃ es, simple_walk (hop_of seen) src es tgt ∧
       rd_selected d = Some (path_id src tgt (DEVICE src :: edge_elements es)) ∧
       ∀ e, e ∈ es → ∃ l, link seen (edge_link e) = Some l ∧ lk_state l ∈ supported_states).
Proof.
  intros Hlim Hm Hx Hi Hp.
  destruct (reachable_queries lim x Hlim Hx i c wid boot src tgt seen Hi Hp) as (Hl & Hwf & Hlt).
  split; [done|]. split; [done|].
  destruct (decide_route src tgt default_policy seen (sv_registry (sys_server x)) (sys_world x))
    as [dec w'] eqn:Hdec.
  assert (∃ d, dec = Ok d) as [d ->].
  { revert Hdec. unfold decide_route. rewrite !bind_eq. intros [= <- _]. by eexists. }
  exists d. split; [done|]. split.
  - unfold conn_step. rewrite Hp, bind_eq, Hdec. done.
  - intros Hex.
    destruct (executable_walk src tgt default_policy seen (sv_registry (sys_server x))
      (sys_world x) d) as (w1 & es & Hw & _ & Hrej & Hs & _);
      [done|by rewrite Hl|by rewrite Hdec|done|]. exists es. split; [done|]. split; [done|].
    by apply (eligible_supported seen w1 Hwf src tgt es default_hard).
Qed.

(** Worker 7 publishes two devices and a link between them, and asks for a
    route; the query has been read. *)
Definition querying : System :=
  @run_events reference_platform default_limits
    (Connect (frame_bytes <$>
       [hello 7 1 1; mkFrame PUBLISH_DEVICE (enc_device (make_device 1 "gpu1" 1));
        mkFrame PUBLISH_DEVICE (enc_device (make_device 2 "gpu2" 1));
        mkFrame PUBLISH_LINK (enc_link (make_link 10 1 2 LinkOperationalState.UP 1));
        mkFrame ROUTE (put_u64 1 ++ put_u64 2)]) ::
     replicate 7 (Act 0)).
Definition querying_conn : Conn :=
  default (mkConn (mkSock [] [] []) AwaitHello) (sys_conns querying !! 0%nat).
Definition querying_seen : Registry := sv_registry (sys_server querying).

Lemma served_route_sound_witness :
  ∃ es, simple_walk (hop_of querying_seen) 1 es 2 ∧
    ∀ e, e ∈ es → ∃ l, link querying_seen (edge_link e) = Some l ∧ lk_state l ∈ supported_states.
Proof.
  assert (cn_phase querying_conn = Routing 7 1 1 2 querying_seen) as Hp by (vm_compute; reflexivity).
  destruct (@served_route_sound reference_platform default_limits querying 0 querying_conn
    7 1 1 2 querying_seen) as (_ & _ & d & Hd & _ & Hs).
  - vm_compute. repeat split; discriminate.
  - vm_compute. discriminate.
  - apply run_events_reachable.
  - vm_compute. reflexivity.
  - exact Hp.
  - destruct Hs as (es & Hw & _ & Hl).
    + assert (match (decide_route 1 2 default_policy querying_seen
                (sv_registry (sys_server querying)) (sys_world querying)).1 with
              | Ok d => rd_executable d | Err _ => false end = true) as He
        by (vm_compute; reflexivity).
      rewrite Hd in He. exact He.
    + exists es. split; [exact Hw|exact Hl].
Defined.
