(* ===== verification/WorkerClient.v ===== *)
(** * The worker's side (runtime.cpp, WorkerClient), and both sides together

    A client is its socket, once connected.  The properties run a client and
    the coordinator's connection against each other: the bytes one sends are
    the stream the other receives. *)

From S2P Require Import Prelude Enums Double Records World Registry RegistryFacts Fixtures.
From S2P Require Import RegistryProps Bytes BytesFacts Serialization SerializationFacts Protocol.
From S2P Require Import ProtocolProps Paths PathsFacts Quality Route Ranking Governance Transport.
From S2P Require Import Wire Coordinator CoordinatorFacts CoordinatorProps.

Record WorkerDescriptor := mkDescriptor { wd_worker : Z; wd_boot : Z; wd_epoch : Z }.

(** [sock_], [None] for the handle 0. *)
Abbreviation Client := (option Sock).

(** The constructor. *)
Definition new_client : Client := None.

(** What [socket()] and [connect()] give. *)
Inductive Dial := NoSocket | Refused | Dialed (k : Sock).

Definition sock_error : string := "socket error".

Definition connect (desc : WorkerDescriptor) (d : Dial) (c : Client) : Result unit * Client :=
  match d with
  | NoSocket => (err ErrorCode.BACKEND_ERROR ("worker socket() failed: " +:+ sock_error), c)
  | Refused => (err ErrorCode.BACKEND_ERROR ("worker connect() failed: " +:+ sock_error), c)
  | Dialed s =>
      let hello := mkFrame HELLO (put_u64 (wd_worker desc) ++ put_u64 (wd_boot desc) ++
                                  put_u64 (wd_epoch desc)) in
      let '(sent, s) := send_frame hello kMax s in
      if negb sent then
        (err ErrorCode.PROTOCOL_ERROR "worker failed to send HELLO", Some s)
      else
        let '(reply, s) := recv_frame kMax s in
        (match reply with
         | Err _ => err ErrorCode.PROTOCOL_ERROR "worker got no HELLO reply"
         | Ok f =>
             if bool_decide (fr_type f = GOODBYE) then
               let note := (read_str (reader (fr_payload f))).1 in
               let code := if bool_decide (is_Some (String.index 0 "epoch" note))
                           then ErrorCode.STALE_EPOCH else ErrorCode.STALE_BOOT in
               err code (if bool_decide (note = "") then "worker rejected" else note)
             else if negb (bool_decide (fr_type f = READY)) then
               err ErrorCode.PROTOCOL_ERROR "unexpected HELLO reply"
             else Ok tt
         end, Some s)
  end.

(** The common body of the publishing and signalling calls. *)
Definition client_send (f : Frame) (failure : string) (c : Client) : Result unit * Client :=
  match c with
  | None => (err ErrorCode.NOT_FOUND "not connected", None)
  | Some s =>
      let '(sent, s) := send_frame f kMax s in
      (if negb sent then err ErrorCode.PROTOCOL_ERROR failure else Ok tt, Some s)
  end.

Definition publish_device (d : DeviceRecord) : Client → Result unit * Client :=
  client_send (mkFrame PUBLISH_DEVICE (enc_device d)) "failed to publish device".
Definition publish_link (l : LinkRecord) : Client → Result unit * Client :=
  client_send (mkFrame PUBLISH_LINK (enc_link l)) "failed to publish link".
(** [None]: undefined behaviour in the encoder. *)
Definition client_publish_measurement (m : MeasurementRecord) (c : Client)
    : option (Result unit * Client) :=
  pb ← enc_meas m;
  Some (client_send (mkFrame PUBLISH_MEASUREMENT pb) "failed to publish measurement" c).
Definition signal_ready : Client → Result unit * Client :=
  client_send (mkFrame READY []) "failed to signal ready".
Definition heartbeat : Client → Result unit * Client :=
  client_send (mkFrame HEARTBEAT []) "failed to send heartbeat".

(** A decision with every field at its default. *)
Definition default_decision : RouteDecision :=
  mkDecision 0 0 0 0 0 0 0 0 [] [] None RouteDecisionOutcome.NO_ROUTE [] ""
    default_timestamp false.

Definition read_route_reply : Reader → RouteDecision * Reader :=
  let* outcome := read_enum in let* sel := read_u64 in let* explanation := read_str in
  ret (mkDecision 0 0 0 0 0 0 0 0 [] [] (if sel =? 0 then None else Some sel) outcome []
         explanation default_timestamp false).

(** The policy is an argument of the call, and is not sent. *)
Definition request_route (source target : Z) (policy : RoutePolicy) (c : Client)
    : Result RouteDecision * Client :=
  match c with
  | None => (err ErrorCode.NOT_FOUND "not connected", None)
  | Some s =>
      let '(sent, s) := send_frame (mkFrame ROUTE (put_u64 source ++ put_u64 target)) kMax s in
      if negb sent then (err ErrorCode.PROTOCOL_ERROR "failed to send route request", Some s)
      else
        let '(reply, s) := recv_frame kMax s in
        (match reply with
         | Err _ => err ErrorCode.PROTOCOL_ERROR "bad route reply"
         | Ok f =>
             if negb (bool_decide (fr_type f = ROUTE)) then
               err ErrorCode.PROTOCOL_ERROR "bad route reply"
             else Ok (read_route_reply (reader (fr_payload f))).1
         end, Some s)
  end.

Definition disconnect (c : Client) : Client := None.
(** The destructor. *)
Definition destroy_client (c : Client) : Client := disconnect c.

(** ** Small frames over a connection that takes every byte *)

Lemma send_frame_clear f bs i o :
  encode_frame f kMax = Ok bs →
  send_frame f kMax (mkSock i [] o) = (true, mkSock i [] (o ++ bs)).
Proof.
  intros He. unfold send_frame. rewrite He. unfold send_all.
  destruct bs as [|b bs]; [by rewrite app_nil_r|]. cbn [length send_loop].
  rewrite bind_eq. unfold send. cbn [sk_accept sk_in sk_out fst snd].
  rewrite (proj2 (Z.leb_gt _ _)) by by apply zlen_pos.
  rewrite drop_ge by (unfold zlen; lia). by destruct (length bs).
Qed.

Lemma encode_small f :
  zlen (fr_payload f) ≤ kMax - 14 → ∃ bs, encode_frame f kMax = Ok bs.
Proof.
  intros H. unfold encode_frame, kHeaderNoPayload, kCrcBytes in *.
  rewrite (proj2 (Z.ltb_ge _ _)) by lia. by eexists.
Qed.

Lemma kMax_u32 : kMax < two32.
Proof. done. Qed.

Lemma encode_ok f bs : frame_wf f → encode_frame f kMax = Ok bs → bytes_ok bs.
Proof. intros Hf He. by destruct (encode_frame_length f kMax bs Hf kMax_u32 He). Qed.

Lemma put_le_bytes n v : bytes_ok (put_le n v).
Proof. apply put_le_ok. Qed.

Lemma put_str_ok s : bytes_ok (put_str s).
Proof.
  unfold put_str. apply Forall_app. split; [apply put_le_ok|].
  apply Forall_take, bytes_of_string_ok.
Qed.

Lemma bytes_ok_app a b : bytes_ok a → bytes_ok b → bytes_ok (a ++ b).
Proof. intros. by apply Forall_app. Qed.

Lemma write_enum_ok {E} `{EnumU8 E} (e : E) : bytes_ok (write_enum e).
Proof. apply put_le_ok. Qed.

#[export] Hint Resolve put_le_bytes put_str_ok write_enum_ok : fabric.

(** The concatenations of the encoders hold bytes. *)
Ltac bytes := repeat first [apply put_str_ok | apply put_le_ok | apply bytes_ok_app].

Lemma frame_wf_intro t p :
  valid_type (message_type_to_u8 t) = true →
  message_type_of_u8 (message_type_to_u8 t) = t → bytes_ok p → frame_wf (mkFrame t p).
Proof. done. Qed.

(** Receiving only takes from the incoming bytes. *)
Lemma recv_loop_side fuel n buf s :
  ∃ i, (recv_loop fuel n buf s).2 = mkSock i (sk_accept s) (sk_out s).
Proof.
  revert buf s. induction fuel as [|fuel IH]; intros buf s; cbn [recv_loop];
    destruct (n <=? zlen buf); try (exists (sk_in s); by destruct s).
  rewrite bind_eq. assert (∃ i, (recv (n - zlen buf) s).2 = mkSock i (sk_accept s) (sk_out s)) as [i Hr].
  { unfold recv. destruct s as [[|c cs] a o]; by eexists. }
  destruct (recv (n - zlen buf) s) as [r s1]. cbn [fst snd] in *. subst s1.
  destruct (zlen r <=? 0); [by exists i|].
  apply (IH _ (mkSock i (sk_accept s) (sk_out s))).
Qed.

Lemma recv_frame_side max s : ∃ i, (recv_frame max s).2 = mkSock i (sk_accept s) (sk_out s).
Proof.
  unfold recv_frame, recv_exact. rewrite bind_eq.
  destruct (recv_loop_side (Z.to_nat kHeaderNoPayload) kHeaderNoPayload [] s) as [i1 H1].
  destruct (recv_loop _ _ _ s) as [[h|] s1]; cbn [fst snd] in *; subst s1; [|by exists i1].
  destruct (wrap64 _ <? _); [by exists i1|]. rewrite bind_eq.
  set (n := u32_at h 6 + kCrcBytes).
  destruct (recv_loop_side (Z.to_nat n) n [] (mkSock i1 (sk_accept s) (sk_out s))) as [i2 H2].
  destruct (recv_loop _ _ _ (mkSock i1 _ _)) as [[r|] s2]; by exists i2.
Qed.

Lemma recv_frame_out max s : sk_out (recv_frame max s).2 = sk_out s.
Proof. by destruct (recv_frame_side max s) as [i ->]. Qed.

(** One receive of a frame the other side has sent. *)
Lemma recv_sent f bs i a o rest :
  frame_wf f → encode_frame f kMax = Ok bs → Forall (λ c, c ≠ []) i → bytes_ok rest →
  concat i = bs ++ rest →
  ∃ i', recv_frame kMax (mkSock i a o) = (Ok f, mkSock i' a o) ∧
        Forall (λ c, c ≠ []) i' ∧ concat i' = rest.
Proof.
  intros Hf He Hi Hr Hc.
  destruct (recv_frame_encoded f kMax bs rest (mkSock i a o)) as (s' & Hs & Hok & Hst & Ho & Ha);
    [done|done|done|done|done|done|].
  destruct s' as [i' a' o']. simpl in *. subst. exists i'. done.
Qed.

(** ** Payloads of the handshake and of the queries *)

Lemma parse_hello_put wid boot epoch :
  u64 wid → u64 boot → u64 epoch →
  parse_hello (put_u64 wid ++ put_u64 boot ++ put_u64 epoch) = Some (wid, boot, epoch).
Proof.
  intros Hw Hb He. unfold parse_hello. erewrite reads_payload; [done|].
  rewrite <-(app_nil_r (put_u64 epoch)).
  do 3 (eapply reads_bind; [by apply reads_u64|]).
  eapply reads_nil_bind; [apply reads_bad|apply reads_ret].
Qed.

Lemma parse_query_put src tgt :
  u64 src → u64 tgt → parse_query (put_u64 src ++ put_u64 tgt) = Some (src, tgt).
Proof.
  intros Hs Ht. unfold parse_query. erewrite reads_payload; [done|].
  rewrite <-(app_nil_r (put_u64 tgt)).
  do 2 (eapply reads_bind; [by apply reads_u64|]).
  eapply reads_nil_bind; [apply reads_bad|apply reads_ret].
Qed.

Lemma rejection_note_read reported epoch :
  (read_str (reader (put_str (rejection_note reported epoch)))).1 = rejection_note reported epoch.
Proof. unfold rejection_note. by case_match; vm_compute. Qed.

(** How the client classifies the coordinator's note. *)
Definition rejection_code (reported epoch : Z) : ErrorCode :=
  if negb (reported =? epoch) then ErrorCode.STALE_EPOCH else ErrorCode.STALE_BOOT.

Lemma hello_reply_wf accepted reported epoch : frame_wf (hello_reply accepted reported epoch).
Proof. unfold hello_reply. destruct accepted; cbn [negb]; apply frame_wf_intro; try done; bytes. Qed.

Lemma hello_reply_small accepted reported epoch :
  zlen (fr_payload (hello_reply accepted reported epoch)) ≤ kMax - 14.
Proof.
  unfold hello_reply, rejection_note. destruct accepted; simpl.
  - unfold zlen, put_u64. by rewrite put_le_length.
  - by destruct (reported =? epoch).
Qed.

(** ** The handshake, both sides *)

Lemma frame_bytes_encoded f : zlen (fr_payload f) ≤ kMax - 14 → encode_frame f kMax = Ok (frame_bytes f).
Proof. intros H. unfold frame_bytes. destruct (encode_small f H) as [bs He]. by rewrite He. Qed.

Lemma hello_small wid boot epoch : zlen (fr_payload (hello wid boot epoch)) ≤ kMax - 14.
Proof.
  change (zlen (put_u64 wid ++ put_u64 boot ++ put_u64 epoch) ≤ kMax - 14).
  by rewrite !zlen_app, !zlen_put_u64.
Qed.

Lemma hello_wf wid boot epoch : frame_wf (hello wid boot epoch).
Proof. apply frame_wf_intro; try done; bytes. Qed.

(** The client sends the HELLO and nothing else before the answer. *)
Lemma connect_side desc c inC :
  ∃ inC', (connect desc (Dialed (mkSock inC [] [])) c).2 =
  Some (mkSock inC' [] (frame_bytes (hello (wd_worker desc) (wd_boot desc) (wd_epoch desc)))).
Proof.
  set (hf := hello _ _ _). unfold connect. fold (hello (wd_worker desc) (wd_boot desc) (wd_epoch desc)).
  fold hf. rewrite (send_frame_clear hf (frame_bytes hf)) by apply frame_bytes_encoded, hello_small.
  cbn [negb]. destruct (recv_frame_side kMax (mkSock inC [] ([] ++ frame_bytes hf))) as [i Hi].
  destruct (recv_frame kMax _) as [reply k]. cbn [fst snd sk_accept sk_out app] in *. subst k. by exists i.
Qed.

Lemma connect_out desc c inC :
  sk_out <$> (connect desc (Dialed (mkSock inC [] [])) c).2 =
  Some (frame_bytes (hello (wd_worker desc) (wd_boot desc) (wd_epoch desc))).
Proof. by destruct (connect_side desc c inC) as [i ->]. Qed.

(** The coordinator's three actions on a HELLO. *)
Lemma hello_served `{Platform} wid boot epoch inS rest s w :
  u64 wid → u64 boot → u64 epoch → Forall (λ b, b ≠ []) inS → bytes_ok rest →
  concat inS = frame_bytes (hello wid boot epoch) ++ rest →
  let '(accepted, s') := authorize wid boot epoch s in
  ∃ inS', Forall (λ b, b ≠ []) inS' ∧ concat inS' = rest ∧
    run_connection 3 (mkConn (mkSock inS [] []) AwaitHello) s w =
    ((mkConn (mkSock inS' [] (frame_bytes (hello_reply accepted epoch (sv_epoch s))))
        (if accepted then Serving wid boot else Closed false), s'), w).
Proof.
  intros Hw Hb He HS Hrest Hs. destruct (authorize wid boot epoch s) as [acc s'] eqn:Ha.
  destruct (recv_sent (hello wid boot epoch) (frame_bytes (hello wid boot epoch)) inS [] [] rest)
    as (inS' & HrS & Hok & Hst); [apply hello_wf|apply frame_bytes_encoded, hello_small|done..|].
  exists inS'. split_and!; [done..|]. rewrite run_connection_S. unfold conn_step. cbn [cn_phase cn_sock].
  rewrite HrS. cbn [ret fst snd fr_type fr_payload hello]. rewrite bool_decide_eq_true_2 by done.
  cbn [negb]. rewrite parse_hello_put by done.
  rewrite run_connection_S. unfold conn_step. cbn [cn_phase cn_sock]. rewrite Ha. cbn [ret fst snd].
  rewrite run_connection_S. unfold conn_step. cbn [cn_phase cn_sock].
  assert (sv_epoch s' = sv_epoch s) as ->.
  { pose proof (authorize_registry wid boot epoch s) as [_ Hep]. by rewrite Ha in Hep. }
  rewrite (send_frame_clear _ (frame_bytes (hello_reply acc epoch (sv_epoch s))))
    by apply frame_bytes_encoded, hello_reply_small. by destruct acc.
Qed.

(** What the client makes of the answer. *)
Lemma connect_replied desc c inC accepted epoch rest :
  Forall (λ b, b ≠ []) inC → bytes_ok rest →
  concat inC = frame_bytes (hello_reply accepted (wd_epoch desc) epoch) ++ rest →
  ∃ inC', Forall (λ b, b ≠ []) inC' ∧ concat inC' = rest ∧
    connect desc (Dialed (mkSock inC [] [])) c =
    (if accepted then Ok tt
     else err (rejection_code (wd_epoch desc) epoch) (rejection_note (wd_epoch desc) epoch),
     Some (mkSock inC' [] (frame_bytes (hello (wd_worker desc) (wd_boot desc) (wd_epoch desc))))).
Proof.
  intros HC Hr Hst. set (rf := hello_reply accepted (wd_epoch desc) epoch) in *.
  set (hf := hello (wd_worker desc) (wd_boot desc) (wd_epoch desc)).
  destruct (recv_sent rf (frame_bytes rf) inC [] (frame_bytes hf) rest) as (inC' & HrC & Hok & Hc);
    [apply hello_reply_wf|apply frame_bytes_encoded, hello_reply_small|done..|].
  exists inC'. split_and!; [done..|]. unfold connect.
  fold (hello (wd_worker desc) (wd_boot desc) (wd_epoch desc)). fold hf.
  rewrite (send_frame_clear hf (frame_bytes hf)) by apply frame_bytes_encoded, hello_small.
  cbn [negb app]. rewrite HrC. subst rf. unfold hello_reply.
  destruct accepted; cbn [negb fr_type fr_payload]; [done|].
  rewrite bool_decide_eq_true_2, rejection_note_read by done.
  unfold rejection_code, rejection_note. by destruct (wd_epoch desc =? epoch).
Qed.

(** C35.  Over a connection that loses nothing, [WorkerClient::connect] and the
    coordinator agree on the outcome: the call succeeds exactly when the
    coordinator accepted the boot, and then the connection is being served for
    it; otherwise it reports STALE_EPOCH or STALE_BOOT, whichever was the
    coordinator's reason, and the coordinator's state is unchanged. *)
Theorem handshake_agrees `{Platform} desc c inC inS rest s w :
  let wid := wd_worker desc in let boot := wd_boot desc in let epoch := wd_epoch desc in
  let call := connect desc (Dialed (mkSock inC [] [])) c in
  let serve := run_connection 3 (mkConn (mkSock inS [] []) AwaitHello) s w in
  u64 wid → u64 boot → u64 epoch →
  Forall (λ b, b ≠ []) inC → Forall (λ b, b ≠ []) inS → bytes_ok rest →
  concat inS = default [] (sk_out <$> call.2) ++ rest →
  concat inC = sk_out (cn_sock serve.1.1) →
  serve.1.2 = (authorize wid boot epoch s).2 ∧
  if (authorize wid boot epoch s).1 then
    call.1 = Ok tt ∧ cn_phase serve.1.1 = Serving wid boot
  else
    call.1 = err (rejection_code epoch (sv_epoch s)) (rejection_note epoch (sv_epoch s)) ∧
    cn_phase serve.1.1 = Closed false ∧ serve.1.2 = s.
Proof.
  intros wid boot epoch call serve Hw Hb He HC HS Hrest Hs Hc.
  unfold call in Hs. rewrite connect_out in Hs. cbn [default from_option id] in Hs.
  pose proof (hello_served wid boot epoch inS rest s w Hw Hb He HS Hrest Hs) as Hserve.
  destruct (authorize wid boot epoch s) as [acc s'] eqn:Ha.
  destruct Hserve as (inS' & _ & _ & Hserve). unfold serve in *. rewrite Hserve in Hc |- *.
  cbn [fst snd cn_sock sk_out cn_phase] in *. split; [done|].
  destruct (connect_replied desc c inC acc (sv_epoch s) []) as (inC' & _ & _ & Hcall);
    [done|constructor|by rewrite app_nil_r|].
  unfold call. rewrite Hcall. destruct acc; [done|]. split_and!; [done..|].
  unfold authorize in Ha. repeat case_match; by simplify_eq.
Qed.

Definition server1 : Server := (new_server default_limits world0).1.

(** A worker that still believes in epoch 9. *)
Lemma handshake_agrees_witness :
  (connect (mkDescriptor 7 1 9)
     (Dialed (mkSock [frame_bytes (hello_reply false 9 1)] [] [])) None).1 =
  err ErrorCode.STALE_EPOCH "stale coordinator epoch".
Proof.
  destruct (@handshake_agrees reference_platform (mkDescriptor 7 1 9) None
    [frame_bytes (hello_reply false 9 1)] [frame_bytes (hello 7 1 9)] [] server1 world0)
    as [_ [Hcall _]]; try exact Hcall.
  all: try by (unfold u64; vm_compute).
  all: try (vm_compute; reflexivity).
  all: by constructor; [vm_compute|constructor].
Defined.

(** ** Publishing, both sides *)

(** What a publishable kind of record promises: the client's call and what it
    encodes, what can be sent, and which registry call the coordinator makes of it (decoding
    links and measurements reads the coordinator's clock). *)
Class Publication (A : Type) := {
  pub_type : MessageType;
  pub_encode : A → option (list Z);
  pub_send : A → Client → option (Result unit * Client);
  pub_sendable : A → Prop;
  pub_call : Z → Z → A → World → Op * World;
  pub_type_ok : valid_type (message_type_to_u8 pub_type) = true ∧
    message_type_of_u8 (message_type_to_u8 pub_type) = pub_type ∧ pub_type ≠ ROUTE;
  pub_send_encode a c : ∃ failure, pub_send a c =
    bs ← pub_encode a; Some (client_send (mkFrame pub_type bs) failure c);
  pub_bytes a bs : pub_encode a = Some bs → bytes_ok bs;
  pub_handled `{Platform} a bs wid boot r w :
    pub_sendable a → pub_encode a = Some bs →
    handle_publish (mkFrame pub_type bs) wid boot r w =
    (let '(op, w1) := pub_call wid boot a w in let* '(_, r') := run_op op r in ret r')
      (pub_call wid boot a w).2
}.

#[export] Program Instance device_publication : Publication DeviceRecord := {|
  pub_type := PUBLISH_DEVICE;
  pub_encode d := Some (enc_device d);
  pub_send d c := Some (publish_device d c);
  pub_sendable := device_sendable;
  pub_call wid boot d w := (UpsertDevice (device_set_owner wid boot (published_device d)), w)
|}.
Next Obligation. done. Qed.
Next Obligation. by eexists. Qed.
Next Obligation. intros d bs [= <-]. unfold enc_device. bytes. Qed.
Next Obligation.
  intros ? d bs wid boot r w Hd [= <-]. unfold handle_publish. cbn [fr_type fr_payload].
  by rewrite (reads_payload _ _ _ (reads_enc_device d Hd)).
Qed.

#[export] Program Instance link_publication : Publication LinkRecord := {|
  pub_type := PUBLISH_LINK;
  pub_encode l := Some (enc_link l);
  pub_send l c := Some (publish_link l c);
  pub_sendable := link_sendable;
  pub_call wid boot l w :=
    let '(now, w1) := now_timestamp w in (UpsertLink (published_link l now), w1)
|}.
Next Obligation. done. Qed.
Next Obligation. by eexists. Qed.
Next Obligation. intros l bs [= <-]. unfold enc_link. bytes. Qed.
Next Obligation.
  intros ? l bs wid boot r w Hl [= <-]. unfold handle_publish, dec_link. cbn [fr_type fr_payload].
  by rewrite (reads_payload _ _ _ (reads_enc_link l Hl)).
Qed.

#[export] Program Instance measurement_publication : Publication MeasurementRecord := {|
  pub_type := PUBLISH_MEASUREMENT;
  pub_encode := enc_meas;
  pub_send := client_publish_measurement;
  pub_sendable := meas_sendable;
  pub_call wid boot m w :=
    let '(now, w1) := now_timestamp w in
    (PublishMeasurement (meas_set_owner wid boot
       (published_measurement m (default 0 (d_to_u64 (meas_bandwidth_bps m))) now)), w1)
|}.
Next Obligation. done. Qed.
Next Obligation. by eexists. Qed.
Next Obligation.
  intros m bs He. unfold enc_meas in He. destruct (d_to_u64 _) as [bps|]; [|done].
  apply (inj Some) in He. subst bs. bytes.
Qed.
Next Obligation.
  intros ? m bs wid boot r w Hm He. unfold handle_publish, dec_meas. cbn [fr_type fr_payload].
  destruct (d_to_u64 (meas_bandwidth_bps m)) as [bps|] eqn:Hb;
    [|unfold enc_meas in He; by rewrite Hb in He].
  by rewrite (reads_payload _ _ _ (reads_enc_meas m bps bs Hm Hb He)).
Qed.

Lemma client_send_ok f failure k0 k1 :
  client_send f failure (Some k0) = (Ok tt, Some k1) →
  ∃ bs, encode_frame f kMax = Ok bs ∧ sk_out k1 = sk_out k0 ++ bs.
Proof.
  unfold client_send, send_frame. destruct (encode_frame f kMax) as [bs|]; [|done].
  pose proof (send_all_spec bs k0) as H. destruct (send_all bs k0) as [ok s'].
  destruct H as (_ & sent & unsent & -> & Ho & Hok). destruct ok; [|done].
  intros [= <-]. exists (sent ++ unsent). split; [done|].
  by rewrite (proj1 Hok eq_refl), app_nil_r.
Qed.

(** C36.  A record whose publishing call reports success reaches the
    coordinator as one registry call on exactly the published view of the
    record (marked, for devices and measurements, with the worker and boot the
    connection was accepted for), whatever pieces the bytes are cut into; the
    connection goes on behind the frame. *)
Theorem published_record_arrives `{Platform} {A} `{Publication A} (a : A) k0 k1 sent kS rest
    wid boot s w :
  pub_sendable a →
  pub_send a (Some k0) = Some (Ok tt, Some k1) → sk_out k1 = sk_out k0 ++ sent →
  chunks_ok kS → bytes_ok rest → stream kS = sent ++ rest →
  let call := pub_call wid boot a w in
  let after := run_op call.1 (sv_registry s) call.2 in
  ∃ kS', conn_step (mkConn kS (Serving wid boot)) s w =
         ((mkConn kS' (Serving wid boot), set_registry after.1.2 s), after.2) ∧
         chunks_ok kS' ∧ stream kS' = rest.
Proof.
  intros Ha Hsend Hsent Hok Hrest Hst call after.
  destruct (pub_send_encode a (Some k0)) as [failure Heq]. rewrite Heq in Hsend.
  destruct (pub_encode a) as [bs|] eqn:He; [|done]. apply (inj Some) in Hsend.
  destruct (client_send_ok _ _ _ _ Hsend) as (fb & Hfb & Hout).
  rewrite Hsent in Hout. apply (inj (app (sk_out k0))) in Hout. subst sent.
  destruct pub_type_ok as (Ht & Hr & Hne).
  assert (frame_wf (mkFrame pub_type bs)) as Hwf by (split_and!; [done|done|by eapply pub_bytes]).
  destruct (recv_frame_encoded _ kMax fb rest kS Hwf kMax_u32 Hfb Hok Hrest Hst)
    as (kS' & Hrecv & ? & ? & _).
  exists kS'. split; [|done]. unfold conn_step. cbn [cn_phase cn_sock]. rewrite Hrecv.
  cbn [fr_type]. rewrite bool_decide_eq_false_2 by done. rewrite bind_eq, (pub_handled a) by done.
  fold call. subst after. destruct call as [op w1]. rewrite bind_eq. cbn [fst snd].
  by destruct (run_op op (sv_registry s) w1) as [[res r'] w'].
Qed.

Definition gpu9 : DeviceRecord := make_device 9 "gpu9" 4.
Definition gpu9_bytes : list Z := frame_bytes (mkFrame PUBLISH_DEVICE (enc_device gpu9)).

(** Cut in the middle, followed by garbage. *)
Lemma published_record_arrives_witness :
  let out := @conn_step reference_platform
    (mkConn (mkSock [take 20 gpu9_bytes; drop 20 gpu9_bytes; [78]] [] []) (Serving 7 1))
    server1 world0 in
  device (sv_registry out.1.2) 9 = Some (device_set_owner 7 1 (published_device gpu9)).
Proof.
  destruct (@published_record_arrives reference_platform DeviceRecord _ gpu9 (mkSock [] [] [])
    (mkSock [] [] gpu9_bytes) gpu9_bytes
    (mkSock [take 20 gpu9_bytes; drop 20 gpu9_bytes; [78]] [] []) [78] 7 1 server1 world0)
    as (kS' & Hstep & _).
  - split; vm_compute; intuition congruence.
  - vm_compute. reflexivity.
  - reflexivity.
  - repeat constructor; vm_compute; discriminate.
  - repeat constructor; lia.
  - vm_compute. reflexivity.
  - cbv zeta. rewrite Hstep. vm_compute. reflexivity.
Defined.

(** ** Route queries, both sides *)

Lemma mix_u64 h v : u64 (mix h v).
Proof. unfold mix. cbn [mix_bytes]. apply wrap64_u64. Qed.

Lemma path_id_u64 src tgt elems : u64 (path_id src tgt elems).
Proof.
  unfold path_id. assert (u64 (mix (mix fnv_basis src) tgt)) as H by apply mix_u64.
  revert H. generalize (mix (mix fnv_basis src) tgt).
  induction elems as [|e elems IH]; intros h Hh; [done|]. simpl. apply IH.
  destruct e; [done|apply mix_u64].
Qed.

Lemma decided_selected_u64 src tgt pol r r' w d :
  wf r → 0 ≤ max_candidate_paths (limits_ r) →
  (decide_route src tgt pol r r' w).1 = Ok d → u64 (default 0 (rd_selected d)).
Proof.
  intros Hwf Hm Hd. destruct (rd_selected d) as [i|] eqn:Hi; [|done].
  destruct (selected_candidate _ _ _ _ _ _ _ _ Hwf Hm Hd Hi)
    as (w1 & sd & td & es & _ & _ & _ & _ & _ & -> & _).
  apply path_id_u64.
Qed.

Lemma decided_outcome_wf src tgt pol r r' w d :
  (decide_route src tgt pol r r' w).1 = Ok d → enum_wf (rd_outcome d).
Proof.
  unfold decide_route. rewrite !bind_eq. intros Hd%Ok_inj. subst d.
  unfold decide_on_view. destruct (find_device _ src); [|done].
  destruct (find_device _ tgt); [|done]. destruct (enumerate_paths_impl _ _ _ _); [done|].
  destruct (rank _ _) as [|best ?]; simpl; [by repeat case_match|].
  by destruct (q_outcome (ev_quality best)).
Qed.

(** What is left of a decision after the wire. *)
Definition received_decision (d : RouteDecision) : RouteDecision :=
  mkDecision 0 0 0 0 0 0 0 0 [] []
    (if default 0 (rd_selected d) =? 0 then None else rd_selected d)
    (rd_outcome d) [] (cut_str (rd_explanation d)) default_timestamp false.

Lemma read_route_reply_ok d :
  enum_wf (rd_outcome d) → u64 (default 0 (rd_selected d)) →
  (read_route_reply (reader (fr_payload (route_reply (Ok d))))).1 = received_decision d.
Proof.
  intros He Hs. erewrite (reads_payload _ _ (received_decision d)); [done|].
  unfold read_route_reply, received_decision.
  cbn [route_reply fr_payload]. change (put_u8 (to_u8 (rd_outcome d))) with (write_enum (rd_outcome d)).
  eapply reads_bind; [by apply reads_enum|]. eapply reads_bind; [by apply reads_u64|].
  eapply reads_last_eq; [apply reads_str|]. f_equal.
  destruct (rd_selected d) as [i|]; [|done]. simpl. by destruct (i =? 0).
Qed.

Lemma route_reply_wf dec : frame_wf (route_reply dec).
Proof. apply frame_wf_intro; try done. destruct dec; bytes. Qed.

Lemma zlen_put_str s : zlen (put_str s) ≤ 2 + 65535.
Proof.
  unfold put_str. rewrite zlen_app. assert (zlen (put_u16 (slen s)) = 2) by done.
  case_match; to_props; rewrite zlen_take by (apply zlen_nonneg || lia);
    unfold put_u16, zlen at 1; rewrite put_le_length; lia.
Qed.

Lemma route_reply_small d : zlen (fr_payload (route_reply (Ok d))) ≤ kMax - 14.
Proof.
  cbn [route_reply fr_payload]. rewrite !zlen_app, zlen_put_u64.
  pose proof (zlen_put_str (rd_explanation d)).
  assert (zlen (put_u8 (to_u8 (rd_outcome d))) = 1) as -> by done. unfold kMax. lia.
Qed.

(** C37.  Over a connection that loses nothing, [request_route] returns the
    outcome, the selected path and the explanation of the decision the
    coordinator takes on its current registry under the default policy,
    whatever policy the caller asked for; everything else of the decision,
    its executability included, stays behind. *)
Theorem route_query_roundtrip `{Platform} src tgt pol inC inS rest wid boot s w :
  let call := request_route src tgt pol (Some (mkSock inC [] [])) in
  let serve := run_connection 2 (mkConn (mkSock inS [] []) (Serving wid boot)) s w in
  wf (sv_registry s) → 0 ≤ max_candidate_paths (limits_ (sv_registry s)) →
  u64 src → u64 tgt →
  Forall (λ b, b ≠ []) inC → Forall (λ b, b ≠ []) inS → bytes_ok rest →
  concat inS = default [] (sk_out <$> call.2) ++ rest →
  concat inC = sk_out (cn_sock serve.1.1) →
  ∃ d, (decide_route src tgt default_policy (sv_registry s) (sv_registry s) w).1 = Ok d ∧
       call.1 = Ok (received_decision d) ∧
       cn_phase serve.1.1 = Serving wid boot ∧ serve.1.2 = s.
Proof.
  intros call serve Hwf Hm Hsrc Htgt HC HS Hrest Hs Hc.
  set (qf := mkFrame ROUTE (put_u64 src ++ put_u64 tgt)).
  assert (frame_wf qf) as Hqf by (apply frame_wf_intro; try done; bytes).
  destruct (encode_small qf) as [qb Hqb].
  { change (zlen (put_u64 src ++ put_u64 tgt) ≤ kMax - 14). by rewrite !zlen_app, !zlen_put_u64. }
  destruct (decide_route src tgt default_policy (sv_registry s) (sv_registry s) w) as [dec w'] eqn:Ed.
  assert (∃ d, dec = Ok d) as [d ->].
  { revert Ed. unfold decide_route. rewrite !bind_eq. intros [= <- _]. by eexists. }
  exists d. split; [done|].
  destruct (encode_small (route_reply (Ok d)) (route_reply_small d)) as [rb Hrb].
  assert (sk_out <$> call.2 = Some qb) as Hco.
  { subst call. unfold request_route. fold qf. rewrite (send_frame_clear qf qb) by done. cbn [negb].
    pose proof (recv_frame_out kMax (mkSock inC [] ([] ++ qb))) as Ho.
    destruct (recv_frame kMax _) as [reply k]. simpl in *. by rewrite Ho. }
  rewrite Hco in Hs. cbn [default from_option id] in Hs.
  destruct (recv_sent qf qb inS [] [] rest) as (inS' & HrS & _ & _); [done..|].
  assert (serve.1 = (mkConn (mkSock inS' [] rb) (Serving wid boot), s)) as Hserve.
  { subst serve. rewrite run_connection_S. unfold conn_step. cbn [cn_phase cn_sock].
    rewrite HrS. cbn [ret fst snd fr_type fr_payload qf]. rewrite bool_decide_eq_true_2 by done.
    rewrite parse_query_put by done. cbn [ret fst snd].
    rewrite run_connection_S. unfold conn_step. cbn [cn_phase cn_sock].
    rewrite bind_eq, Ed. cbn [fst snd]. by rewrite (send_frame_clear _ rb) by done. }
  rewrite Hserve in Hc |- *. cbn [fst snd cn_sock sk_out cn_phase] in *.
  destruct (recv_sent (route_reply (Ok d)) rb inC [] qb []) as (inC' & HrC & _ & _);
    [apply route_reply_wf|done|done|constructor|by rewrite app_nil_r|].
  split; [|done]. subst call. unfold request_route. fold qf.
  rewrite (send_frame_clear qf qb) by done. cbn [negb app]. rewrite HrC.
  cbn [fr_type route_reply]. rewrite bool_decide_eq_true_2 by done. cbn [negb fst].
  f_equal. apply read_route_reply_ok; [eapply decided_outcome_wf|eapply decided_selected_u64]; try done;
    by rewrite Ed.
Qed.

Definition triangle_server : Server := set_registry triangle_registry server1.
Definition query_bytes : list Z := frame_bytes (mkFrame ROUTE (put_u64 1 ++ put_u64 3)).
Definition triangle_serve : Conn * Server :=
  (@run_connection reference_platform 2 (mkConn (mkSock [query_bytes] [] []) (Serving 7 1))
     triangle_server triangle_world).1.
Definition reply_bytes : list Z := sk_out (cn_sock triangle_serve.1).

Lemma route_query_roundtrip_witness :
  ∃ d, (decide_route 1 3 default_policy (sv_registry triangle_server)
          (sv_registry triangle_server) triangle_world).1 = Ok d ∧
    (request_route 1 3 default_policy (Some (mkSock [reply_bytes] [] []))).1 =
    Ok (received_decision d).
Proof.
  destruct (@route_query_roundtrip reference_platform 1 3 default_policy [reply_bytes] [query_bytes]
    [] 7 1 triangle_server triangle_world) as (d & Hd & Hcall & _).
  - apply triangle_wf.
  - by vm_compute.
  - by unfold u64.
  - by unfold u64.
  - constructor; [by vm_compute|constructor].
  - constructor; [by vm_compute|constructor].
  - constructor.
  - vm_compute. reflexivity.
  - vm_compute. reflexivity.
  - exists d. split; [exact Hd|exact Hcall].
Defined.
