(* ===== verification/Backends.v ===== *)
(** * Connectivity backends (backend.hpp, synthetic_backend.cpp, nop_backend.cpp)

    The abstract class [Backend] as a typeclass of operations, the synthetic
    and the no-op implementations, and the loading of a registry from a backend
    the way tools/nvlink_fabric_inspect.cpp does it. *)

From S2P Require Import Prelude Enums Double Records World Registry RegistryFacts Fixtures.
From S2P Require Import RegistryProps.

Record BackendCapabilities := mkBackendCapabilities {
  bc_backend_name : string;
  bc_device_discovery : bool;
  bc_link_discovery : bool;
  bc_measurement : bool;
  bc_nvlink_discovery : bool;
  bc_measurement_support : MeasurementSupport;
  bc_evidence : Evidence;
  bc_note : string
}.

Record MeasurementRequest := mkRequest {
  rq_source : Z;
  rq_target : Z;
  rq_payload_bytes : Z;
  rq_iterations : Z;
  rq_warmup_iterations : Z;
  rq_verify_integrity : bool
}.

(** The pure virtual functions. *)
Class Backend (B : Type) := {
  backend_name : B → string;
  describe_capabilities : B → Result BackendCapabilities;
  discover_devices : B → M (Result (list DeviceRecord));
  discover_links : B → list DeviceRecord → M (Result (list LinkRecord));
  measure : B → MeasurementRequest → M (Result MeasurementRecord);
  supports_measurement : B → bool
}.

(** ** The synthetic backend *)
Record SyntheticDeviceSpec := mkDeviceSpec {
  sds_id : Z;
  sds_name : string;
  sds_kind : NodeKind;
  sds_generation : string;
  sds_nominal_bandwidth_bps : Z;
  sds_link_count : Z;
  sds_peer_access_supported : bool
}.

Record SyntheticLinkSpec := mkLinkSpec {
  sls_source : Z;
  sls_target : Z;
  sls_directed : bool;
  sls_state : LinkOperationalState;
  sls_nominal_bandwidth_bps : Z;
  sls_lane_width : Z;
  sls_physical_identifier : string;
  sls_degraded : bool;
  sls_degradation_note : string
}.

Record SyntheticTopologySpec := mkSpec {
  spec_devices : list SyntheticDeviceSpec;
  spec_links : list SyntheticLinkSpec;
  synth_bandwidth_bps : double;
  synth_latency_seconds : double
}.

Definition synthetic (note : string) : Evidence :=
  mkEvidence EvidenceClass.SYNTHETIC Provenance.SYNTHETIC_FIXTURE "synthetic" note.

Definition synthetic_capabilities : BackendCapabilities :=
  mkBackendCapabilities "synthetic" true true true false MeasurementSupport.SYNTHETIC_ONLY
    (synthetic "synthetic fixture backend")
    "synthetic fixture backend; never represents real hardware".

(** The record of one device of the fixture. *)
Definition synthetic_device (d : SyntheticDeviceSpec) (id gen : Z) : DeviceRecord :=
  mkDevice id (sds_name d) (sds_kind d) "synthetic" (sds_name d)
    (dev_pci_identity default_device) None "synthetic" "synthetic" (sds_generation d)
    (mkCapability InterconnectTechnology.NVLINK (sds_link_count d)
       (nominal_lane_width default_capability) (sds_nominal_bandwidth_bps d)
       (sds_peer_access_supported d) MeasurementSupport.SYNTHETIC_ONLY
       (supported_counters default_capability) (telemetry_supported default_capability))
    DeviceHealthState.PRESENT (synthetic "synthetic fixture device") gen None None.

Definition discover_device (d : SyntheticDeviceSpec) : M DeviceRecord :=
  let* id := if negb (is_nil (sds_id d)) then ret (sds_id d) else fresh_id DeviceTag in
  let* gen := fresh_generation DeviceGenerationTag in
  ret (synthetic_device d id gen).

Definition synthetic_link (l : SyntheticLinkSpec) (id gen : Z) (now : Timestamp) : LinkRecord :=
  mkLink id (sls_source l) (sls_target l) (sls_directed l) (sls_physical_identifier l)
    (sls_state l) InterconnectTechnology.NVLINK
    (mkCapability (interconnect default_capability) (cap_link_count default_capability)
       (sls_lane_width l) (sls_nominal_bandwidth_bps l)
       (peer_access_supported default_capability) MeasurementSupport.SYNTHETIC_ONLY
       (supported_counters default_capability) (telemetry_supported default_capability))
    gen (synthetic "synthetic fixture link") now true (sls_degraded l) (sls_degradation_note l)
    (lk_topology_generation default_link).

Definition discover_link (l : SyntheticLinkSpec) : M LinkRecord :=
  let* id := fresh_id LinkTag in
  let* gen := fresh_generation LinkGenerationTag in
  let* now := now_timestamp in
  ret (synthetic_link l id gen now).

(** The nominal bandwidth of the first direct link with one, else 100e9. *)
Definition default_bandwidth (spec : SyntheticTopologySpec) (req : MeasurementRequest) : double :=
  match List.find (λ l,
      (0 <? sls_nominal_bandwidth_bps l) &&
      (((sls_source l =? rq_source req) && (sls_target l =? rq_target req)) ||
       (negb (sls_directed l) && (sls_source l =? rq_target req) &&
        (sls_target l =? rq_source req)))) (spec_links spec) with
  | Some l => d_of_Z (sls_nominal_bandwidth_bps l)
  | None => d_of_Z 100000000000
  end.

Definition synthetic_measure (spec : SyntheticTopologySpec) (req : MeasurementRequest)
    : M (Result MeasurementRecord) :=
  let* id := fresh_id MeasurementTag in
  let* now := now_timestamp in
  ret (Ok (mkMeasurement id (rq_source req) (rq_target req) (rq_payload_bytes req)
    (rq_iterations req) (rq_warmup_iterations req) (rq_iterations req)
    (wrap64 (rq_payload_bytes req * rq_iterations req))
    (if dgtb (synth_bandwidth_bps spec) d0 then synth_bandwidth_bps spec
     else default_bandwidth spec req)
    (synth_latency_seconds spec) (0 <? rq_warmup_iterations req) (rq_verify_integrity req)
    (meas_contended default_measurement) "synthetic" (meas_path_note default_measurement)
    (synthetic "synthetic measurement; not evidence of real NVLink") now true
    (meas_stale default_measurement) (meas_revalidation_required default_measurement) None None)).

#[export] Instance synthetic_backend : Backend SyntheticTopologySpec := {|
  backend_name _ := "synthetic"%string;
  describe_capabilities _ := Ok synthetic_capabilities;
  discover_devices spec := let* ds := map_m discover_device (spec_devices spec) in ret (Ok ds);
  discover_links spec _ := let* ls := map_m discover_link (spec_links spec) in ret (Ok ls);
  measure := synthetic_measure;
  supports_measurement _ := true
|}.

(** ** The no-op backend *)
Inductive NopBackend := make_nop_backend.

Definition nop_capabilities : BackendCapabilities :=
  mkBackendCapabilities "nop" false false false false MeasurementSupport.UNSUPPORTED
    (mkEvidence EvidenceClass.UNSUPPORTED Provenance.NONE "nop"
       "no-op backend exposes no connectivity")
    "portability no-op backend".

#[export] Instance nop_backend : Backend NopBackend := {|
  backend_name _ := "nop"%string;
  describe_capabilities _ := Ok nop_capabilities;
  discover_devices _ := ret (Ok []);
  discover_links _ _ := ret (Ok []);
  measure _ _ := ret (err ErrorCode.UNSUPPORTED "no-op backend has no measurement");
  supports_measurement _ := false
|}.

(** ** Loading a registry *)
Section Populate.
Context {P : Platform}.

(** [for (const auto& x : xs) registry.upsert(x);], results dropped. *)
Fixpoint upsert_all {A} (upsert : A → Registry → M (Result unit * Registry)) (xs : list A)
    (r : Registry) : M Registry :=
  match xs with
  | [] => ret r
  | x :: xs' => let* '(_, r') := upsert x r in upsert_all upsert xs' r'
  end.

(** Discovers everything, then stores the devices and the links.  [None] is the
    exception of [*devs] or [*lks] on an error. *)
Definition populate {B} `{Backend B} (b : B) (r : Registry) : M (option Registry) :=
  let* devs := discover_devices b in
  match devs with
  | Err _ => ret None
  | Ok devs =>
      let* lks := discover_links b devs in
      match lks with
      | Err _ => ret None
      | Ok lks =>
          let* r1 := upsert_all upsert_device devs r in
          let* r2 := upsert_all upsert_link lks r1 in
          ret (Some r2)
      end
  end.
End Populate.

(** ** Honesty *)

(** A backend for fixtures or for nothing: what it reports is never REAL, and
    what it does not support it refuses. *)
Class NeverReal (B : Type) `{Backend B} : Prop := {
  never_real_devices b w ds : (discover_devices b w).1 = Ok ds →
    Forall (λ d, is_real (dev_evidence d) = false) ds;
  never_real_links b known w ls : (discover_links b known w).1 = Ok ls →
    Forall (λ l, is_real (lk_evidence l) = false) ls;
  never_real_measure b req w m : (measure b req w).1 = Ok m →
    supports_measurement b = true ∧ is_real (meas_evidence m) = false
}.

Lemma map_m_forall {A B} (Q : B → Prop) (f : A → M B) l w :
  (∀ x w, Q (f x w).1) → Forall Q (map_m f l w).1.
Proof.
  intros Hf. revert w. induction l as [|x l IH]; intros w; [constructor|].
  cbn [map_m]. rewrite !bind_eq. cbn [ret fst]. by constructor.
Qed.

#[export] Instance synthetic_never_real : NeverReal SyntheticTopologySpec.
Proof.
  split.
  - intros spec w ds. cbn [discover_devices synthetic_backend]. rewrite bind_eq.
    intros Hd%Ok_inj. subst ds. apply map_m_forall. intros x w'.
    unfold discover_device. by rewrite !bind_eq.
  - intros spec known w ls. cbn [discover_links synthetic_backend]. rewrite bind_eq.
    intros Hd%Ok_inj. subst ls. apply map_m_forall. intros x w'.
    unfold discover_link. by rewrite !bind_eq.
  - intros spec req w m. cbn [measure synthetic_backend]. unfold synthetic_measure.
    rewrite !bind_eq. intros Hm%Ok_inj. by subst m.
Qed.

#[export] Instance nop_never_real : NeverReal NopBackend.
Proof.
  split; simpl.
  - intros b w ds Hd%Ok_inj. by subst ds.
  - intros b known w ls Hl%Ok_inj. by subst ls.
  - done.
Qed.

(** No stored device or link claims REAL evidence. *)
Definition no_real (r : Registry) : Prop :=
  map_Forall (λ _ d, is_real (dev_evidence d) = false) (devices (state_ r)) ∧
  map_Forall (λ _ l, is_real (lk_evidence l) = false) (links (state_ r)).

Section Populating.
Context {P : Platform}.

(** What an upsert does to the maps: nothing, or store the record and stamp
    the links with the new generation. *)
Lemma upsert_device_maps d r w :
  let r' := (upsert_device d r w).1.2 in
  r' = r ∨
  (devices (state_ r') = <[dev_id d := d]> (devices (state_ r)) ∧
   links (state_ r') = link_set_topology_generation (topology_generation r') <$> links (state_ r)).
Proof.
  cbv zeta. unfold upsert_device. destruct (is_nil _ || _); [by left|].
  destruct (devices (state_ r) !! dev_id d) as [cur|].
  - destruct (_ <? _); [by left|]. destruct (_ =? _); [|by right].
    destruct (negb _); by left.
  - destruct (_ <=? _); [by left|by right].
Qed.

Lemma upsert_link_maps l r w :
  let r' := (upsert_link l r w).1.2 in
  r' = r ∨
  (devices (state_ r') = devices (state_ r) ∧
   links (state_ r') = link_set_topology_generation (topology_generation r') <$>
     <[lk_id l := l]> (links (state_ r))).
Proof.
  cbv zeta. unfold upsert_link. destruct (is_nil _ || _); [by left|].
  destruct (_ =? _); [by left|]. do 2 (destruct (bool_decide _); [by left|]).
  do 2 (destruct (_ <=? _); [by left|]).
  destruct (links (state_ r) !! lk_id l) as [cur|]; [|by right].
  destruct (_ <? _); [by left|]. destruct (_ =? _); [|by right].
  destruct (negb _); by left.
Qed.

Lemma stamped_not_real g (m : gmap Z LinkRecord) :
  map_Forall (λ _ l, is_real (lk_evidence l) = false) m →
  map_Forall (λ _ l, is_real (lk_evidence l) = false) (link_set_topology_generation g <$> m).
Proof. intros Hm. by apply map_Forall_fmap. Qed.

Lemma upsert_all_devices_no_real ds r w :
  Forall (λ d, is_real (dev_evidence d) = false) ds → no_real r →
  no_real (upsert_all upsert_device ds r w).1.
Proof.
  intros Hds. revert r w. induction Hds as [|d ds Hd Hds IH]; intros r w Hr; [done|].
  cbn [upsert_all]. rewrite bind_eq. pose proof (upsert_device_maps d r w) as Hm.
  destruct (upsert_device d r w) as [[res r'] w']. simpl in *. apply IH.
  destruct Hm as [->|[Hdm Hlm]]; [done|]. destruct Hr as [Hrd Hrl]. split.
  - rewrite Hdm. by apply map_Forall_insert_2.
  - rewrite Hlm. by apply stamped_not_real.
Qed.

Lemma upsert_all_links_no_real ls r w :
  Forall (λ l, is_real (lk_evidence l) = false) ls → no_real r →
  no_real (upsert_all upsert_link ls r w).1.
Proof.
  intros Hls. revert r w. induction Hls as [|l ls Hl Hls IH]; intros r w Hr; [done|].
  cbn [upsert_all]. rewrite bind_eq. pose proof (upsert_link_maps l r w) as Hm.
  destruct (upsert_link l r w) as [[res r'] w']. simpl in *. apply IH.
  destruct Hm as [->|[Hdm Hlm]]; [done|]. destruct Hr as [Hrd Hrl]. split.
  - by rewrite Hdm.
  - rewrite Hlm. by apply stamped_not_real, map_Forall_insert_2.
Qed.
End Populating.

(** A backend that promises never to report REAL evidence cannot put any
    into a registry: loading from it, whatever it discovers, leaves no device
    and no link with REAL evidence where there was none.  Proved against the
    interface [NeverReal]; the synthetic and the no-op backend implement it. *)
Lemma populate_never_real `{Platform} {B} `{NeverReal B} (b : B) r w :
  no_real r → ∀ r', (populate b r w).1 = Some r' → no_real r'.
Proof.
  intros Hr. unfold populate. rewrite bind_eq.
  pose proof (never_real_devices b w) as Hd.
  destruct (discover_devices b w) as [[ds|e] w1]; [|done]. simpl in *. specialize (Hd ds eq_refl).
  rewrite bind_eq. pose proof (never_real_links b ds w1) as Hl.
  destruct (discover_links b ds w1) as [[ls|e] w2]; [|done]. simpl in *. specialize (Hl ls eq_refl).
  rewrite !bind_eq. cbn [ret fst]. intros r' [= <-].
  apply upsert_all_links_no_real; [done|]. by apply upsert_all_devices_no_real.
Qed.

(** The fixture of tools/nvlink_fabric_inspect.cpp. *)
Definition inspect_spec : SyntheticTopologySpec :=
  let gpu i n := mkDeviceSpec i n NodeKind.ACCELERATOR "SYNTHETIC" 400000000000 1 true in
  let up s t n := mkLinkSpec s t false LinkOperationalState.UP 400000000000 8 n false "" in
  mkSpec
    [gpu 1000 "gpu0"; gpu 1001 "gpu1"; gpu 1002 "gpu2";
     mkDeviceSpec 2000 "switch0" NodeKind.SWITCH "SYNTHETIC" 800000000000 2 true]%string
    [up 1000 1001 "NVLink 0"; up 1000 2000 "NVLink 1"; up 2000 1002 "NVLink 2";
     mkLinkSpec 1001 1002 false LinkOperationalState.DEGRADED 200000000000 8 "NVLink 3" true
       "degraded link"]%string d0 d0.

Definition inspected : Registry :=
  default (new_registry default_limits)
    (@populate reference_platform _ _ inspect_spec (new_registry default_limits) world0).1.

Lemma populate_never_real_witness :
  device_count inspected = 4 ∧ link_count inspected = 4 ∧ no_real inspected.
Proof.
  split; [vm_compute; reflexivity|]. split; [vm_compute; reflexivity|].
  apply (@populate_never_real reference_platform SyntheticTopologySpec _ _ inspect_spec
    (new_registry default_limits) world0); [by split|]. vm_compute. reflexivity.
Defined.
