(* ===== verification/BackendsProps.v ===== *)
(** * Loading a synthetic fixture: everything arrives *)

From S2P Require Import Prelude Enums Double Records World Registry RegistryFacts Fixtures.
From S2P Require Import RegistryProps Backends.

(** ** Storing new records *)

Section New.
Context {P : Platform}.

Lemma upsert_new_device d r w :
  dev_id d ≠ 0 → dev_generation d ≠ 0 → devices (state_ r) !! dev_id d = None →
  device_count r < max_devices (limits_ r) →
  let r' := (upsert_device d r w).1.2 in
  limits_ r' = limits_ r ∧ devices (state_ r') = <[dev_id d := d]> (devices (state_ r)) ∧
  (links (state_ r) = ∅ → links (state_ r') = ∅).
Proof.
  intros Hi Hg Hn Hc. unfold upsert_device, is_nil, gen_valid. cbv zeta.
  rewrite (proj2 (Z.eqb_neq _ _) Hi), (proj2 (Z.eqb_neq _ _) Hg), Hn.
  unfold device_count in Hc. rewrite (proj2 (Z.leb_gt _ _)) by done.
  split_and!; [done..|]. simpl. intros ->. by rewrite fmap_empty.
Qed.

Lemma upsert_new_link l r w :
  link_admissible l r → links (state_ r) !! lk_id l = None →
  let r' := (upsert_link l r w).1.2 in
  limits_ r' = limits_ r ∧ devices (state_ r') = devices (state_ r) ∧
  links (state_ r') = link_set_topology_generation (topology_generation r') <$>
    <[lk_id l := l]> (links (state_ r)).
Proof.
  intros (Hi & Hg & Hst & [s Hs] & [t Ht] & Hc & Hp) Hn.
  unfold upsert_link, is_nil, gen_valid. cbv zeta. unfold device, link_count in *.
  rewrite (proj2 (Z.eqb_neq _ _) Hi), (proj2 (Z.eqb_neq _ _) Hg), (proj2 (Z.eqb_neq _ _) Hst), Hs, Ht, Hn.
  rewrite !(proj2 (Z.leb_gt _ _)) by done. done.
Qed.

Lemma upsert_all_new_devices ds r w :
  Forall (λ d, dev_id d ≠ 0 ∧ dev_generation d ≠ 0) ds → NoDup (dev_id <$> ds) →
  (∀ d, d ∈ ds → devices (state_ r) !! dev_id d = None) →
  device_count r + zlen ds ≤ max_devices (limits_ r) → links (state_ r) = ∅ →
  let r' := (upsert_all upsert_device ds r w).1 in
  limits_ r' = limits_ r ∧ links (state_ r') = ∅ ∧
  device_count r' = device_count r + zlen ds ∧
  (∀ d, d ∈ ds → device r' (dev_id d) = Some d) ∧
  (∀ i, i ∉ dev_id <$> ds → device r' i = device r i).
Proof.
  revert r w. induction ds as [|d ds IH]; intros r w Hv Hnd Hnew Hc Hl.
  { cbn [upsert_all ret fst]. change (zlen (@nil DeviceRecord)) with 0.
    split_and!; [done|done|lia|by intros ? ?%elem_of_nil|done]. }
  apply Forall_cons in Hv as [[Hi Hg] Hv]. rewrite fmap_cons in Hnd.
  apply NoDup_cons in Hnd as [Hd Hnd]. rewrite zlen_cons in *. pose proof (zlen_nonneg ds).
  cbn [upsert_all]. rewrite bind_eq.
  destruct (upsert_new_device d r w) as (Hlim & Hdm & Hlm); [done|done|by apply Hnew; left|lia|].
  assert (devices (state_ r) !! dev_id d = None) as Hnone by (apply Hnew; left).
  destruct (upsert_device d r w) as [[res r1] w1]. cbn [fst snd] in *.
  assert (device_count r1 = device_count r + 1) as Hc1.
  { unfold device_count. rewrite Hdm, msize_insert_None by done. lia. }
  destruct (IH r1 w1) as (Hlim' & Hl' & Hc' & Hin & Hout); [done|done| | |by apply Hlm|].
  - intros d' Hd'. rewrite Hdm, lookup_insert_ne; [apply Hnew; by right|].
    intros Heq. apply Hd. rewrite Heq. by apply list_elem_of_fmap_2.
  - rewrite Hlim. lia.
  - split_and!; [congruence|done|lia| |].
    + intros d' [->|Hd']%elem_of_cons; [|by apply Hin]. rewrite Hout by done.
      unfold device. by rewrite Hdm, lookup_insert_eq.
    + intros i [Hi1 Hi2]%not_elem_of_cons. rewrite Hout by done.
      unfold device. by rewrite Hdm, lookup_insert_ne by done.
Qed.

Lemma parallel_links_new a b g l (m : gmap Z LinkRecord) :
  m !! lk_id l = None →
  parallel_links a b (link_set_topology_generation g <$> <[lk_id l := l]> m) =
  parallel_links a b m + (if same_unordered a b l then 1 else 0).
Proof.
  intros Hn. unfold parallel_links. rewrite map_filter_fmap, msize_fmap.
  assert (∀ m' : gmap Z LinkRecord,
    filter (λ '(i, x), same_unordered a b (i, link_set_topology_generation g x).2 = true) m' =
    filter (λ kv, same_unordered a b kv.2 = true) m') as -> by (intros; by apply map_filter_ext).
  destruct (same_unordered a b l) eqn:E.
  - rewrite map_filter_insert_True by done.
    rewrite msize_insert_None; [lia|]. apply map_lookup_filter_None. by left.
  - rewrite map_filter_insert_False by (simpl; congruence).
    rewrite delete_id by done. lia.
Qed.

(** How many links of a list join the two devices. *)
Definition joining (a b : Z) (ls : list LinkRecord) : Z :=
  zlen (filter (λ l, same_unordered a b l = true) ls).

Lemma joining_cons a b l ls :
  joining a b (l :: ls) = joining a b ls + (if same_unordered a b l then 1 else 0).
Proof.
  unfold joining. rewrite filter_cons. destruct (same_unordered a b l); simpl; rewrite ?zlen_cons; lia.
Qed.

Lemma upsert_all_new_links ls r w :
  Forall (λ l, lk_id l ≠ 0 ∧ lk_generation l ≠ 0 ∧ lk_source l ≠ lk_target l ∧
    is_Some (device r (lk_source l)) ∧ is_Some (device r (lk_target l))) ls →
  NoDup (lk_id <$> ls) → (∀ l, l ∈ ls → links (state_ r) !! lk_id l = None) →
  link_count r + zlen ls ≤ max_links (limits_ r) →
  (∀ a b, parallel_links a b (links (state_ r)) + joining a b ls ≤
          max_parallel_links_per_pair (limits_ r)) →
  let r' := (upsert_all upsert_link ls r w).1 in
  (∀ i, device r' i = device r i) ∧ device_count r' = device_count r ∧
  link_count r' = link_count r + zlen ls ∧
  (∀ i l, links (state_ r) !! i = Some l →
     ∃ g, link r' i = Some (link_set_topology_generation g l)) ∧
  (∀ l, l ∈ ls → ∃ g, link r' (lk_id l) = Some (link_set_topology_generation g l)).
Proof.
  revert r w. induction ls as [|l ls IH]; intros r w Hv Hnd Hnew Hc Hp.
  { cbn [upsert_all ret fst]. change (zlen (@nil LinkRecord)) with 0.
    split_and!; [done|done|lia| |by intros ? ?%elem_of_nil].
    intros i l Hl. exists (lk_topology_generation l). unfold link. rewrite Hl. by destruct l. }
  apply Forall_cons in Hv as [(Hi & Hg & Hst & Hs & Ht) Hv]. rewrite fmap_cons in Hnd.
  apply NoDup_cons in Hnd as [Hd Hnd]. rewrite zlen_cons in *. pose proof (zlen_nonneg ls).
  assert (links (state_ r) !! lk_id l = None) as Hnone by (apply Hnew; left).
  cbn [upsert_all]. rewrite bind_eq.
  destruct (upsert_new_link l r w) as (Hlim & Hdm & Hlm); [|done|].
  { split_and!; try done; [lia|]. specialize (Hp (lk_source l) (lk_target l)).
    rewrite joining_cons in Hp. unfold same_unordered in Hp. rewrite !Z.eqb_refl in Hp.
    simpl in Hp. pose proof (zlen_nonneg (filter (λ k, same_unordered (lk_source l) (lk_target l) k = true) ls)).
    unfold joining in Hp. lia. }
  destruct (upsert_link l r w) as [[res r1] w1]. cbn [fst snd] in *.
  assert (∀ i, device r1 i = device r i) as Hdev by (intros; unfold device; by rewrite Hdm).
  assert (∀ i, i ≠ lk_id l → links (state_ r1) !! i =
    link_set_topology_generation (topology_generation r1) <$> links (state_ r) !! i) as Hlk.
  { intros i Hne. by rewrite Hlm, lookup_fmap, lookup_insert_ne by done. }
  destruct (IH r1 w1) as (Hdev' & Hdc & Hc' & Hold & Hin).
  - eapply Forall_impl; [exact Hv|]. intros k. simpl. by rewrite !Hdev.
  - done.
  - intros k Hk. rewrite Hlk; [by rewrite Hnew by (by right)|].
    intros Heq. apply Hd. rewrite <-Heq. by apply list_elem_of_fmap_2.
  - rewrite Hlim. unfold link_count in *. rewrite Hlm, msize_fmap, msize_insert_None by done. lia.
  - intros a b. rewrite Hlim, Hlm, parallel_links_new by done.
    specialize (Hp a b). rewrite joining_cons in Hp. lia.
  - assert (∀ i k g, link (upsert_all upsert_link ls r1 w1).1 i = Some (link_set_topology_generation g
      (link_set_topology_generation (topology_generation r1) k)) →
      ∃ g', link (upsert_all upsert_link ls r1 w1).1 i = Some (link_set_topology_generation g' k)) as Htwice
      by (intros i k g Hk; by exists g).
    split_and!.
    + intros i. by rewrite Hdev'.
    + rewrite Hdc. unfold device_count. by rewrite Hdm.
    + rewrite Hc'. unfold link_count. rewrite Hlm, msize_fmap, msize_insert_None by done. lia.
    + intros i k Hk. assert (i ≠ lk_id l) as Hne by congruence.
      destruct (Hold i (link_set_topology_generation (topology_generation r1) k)) as [g Hgk];
        [by rewrite Hlk, Hk|]. by apply Htwice in Hgk.
    + intros k [->|Hk]%elem_of_cons; [|by apply Hin].
      destruct (Hold (lk_id l) (link_set_topology_generation (topology_generation r1) l)) as [g Hgk];
        [by rewrite Hlm, lookup_fmap, lookup_insert_eq|]. by apply Htwice in Hgk.
Qed.
End New.

(** ** What the synthetic backend discovers *)

Lemma wrap64_succ v : 0 ≤ v → v + 1 < two64 → wrap64 (v + 1) = v + 1.
Proof. intros. apply wrap64_small. unfold u64. lia. Qed.

Lemma discover_device_eq s w :
  sds_id s ≠ 0 → 0 ≤ generation_counter w DeviceGenerationTag →
  generation_counter w DeviceGenerationTag + 1 < two64 →
  discover_device s w =
  (synthetic_device s (sds_id s) (generation_counter w DeviceGenerationTag + 1),
   (fresh_generation DeviceGenerationTag w).2).
Proof.
  intros Hs H0 H1. unfold discover_device, is_nil. rewrite (proj2 (Z.eqb_neq _ _) Hs).
  unfold bind, ret, fresh_generation. cbn [negb fst snd]. by rewrite wrap64_succ by lia.
Qed.

Lemma discover_link_eq s w :
  0 ≤ id_counter w LinkTag → id_counter w LinkTag + 1 < two64 →
  0 ≤ generation_counter w LinkGenerationTag →
  generation_counter w LinkGenerationTag + 1 < two64 →
  ∃ now w', discover_link s w =
  (synthetic_link s (id_counter w LinkTag + 1) (generation_counter w LinkGenerationTag + 1) now, w') ∧
  id_counter w' LinkTag = id_counter w LinkTag + 1 ∧
  generation_counter w' LinkGenerationTag = generation_counter w LinkGenerationTag + 1.
Proof.
  intros. unfold discover_link, bind, ret, fresh_id, fresh_generation, now_timestamp.
  cbn [id_counter generation_counter]. rewrite !wrap64_succ by lia. eexists _, _. split; [done|].
  unfold bump. simpl. by rewrite !wrap64_succ by lia.
Qed.

Lemma discover_devices_new l w :
  Forall (λ s, sds_id s ≠ 0) l →
  0 ≤ generation_counter w DeviceGenerationTag →
  generation_counter w DeviceGenerationTag + zlen l < two64 →
  let '(ds, w') := map_m discover_device l w in
  Forall2 (λ s d, ∃ gen, gen ≠ 0 ∧ d = synthetic_device s (sds_id s) gen) l ds ∧
  id_counter w' = id_counter w ∧
  generation_counter w' LinkGenerationTag = generation_counter w LinkGenerationTag.
Proof.
  revert w. induction l as [|s l IH]; intros w Hv H0 Hc; [by split_and!|].
  apply Forall_cons in Hv as [Hs Hv]. rewrite zlen_cons in Hc. pose proof (zlen_nonneg l).
  cbn [map_m]. rewrite bind_eq, discover_device_eq by (done || lia). cbn [fst snd].
  rewrite bind_eq. unfold fresh_generation. cbn [snd].
  set (w1 := mkWorld _ _ _ _). specialize (IH w1 Hv).
  assert (generation_counter w1 DeviceGenerationTag =
    generation_counter w DeviceGenerationTag + 1) as E1.
  { unfold w1, bump. simpl. by rewrite wrap64_succ by lia. }
  assert (generation_counter w1 LinkGenerationTag = generation_counter w LinkGenerationTag) as E2
    by done.
  destruct (map_m discover_device l w1) as [ds w']. rewrite E1, E2 in IH.
  destruct IH as (Hf & Hid & Hg); [lia|lia|]. cbn [ret fst snd]. split_and!; [|done|done].
  constructor; [|done]. eexists. split; [|done]. lia.
Qed.

Lemma discover_links_new l w :
  0 ≤ id_counter w LinkTag → id_counter w LinkTag + zlen l < two64 →
  0 ≤ generation_counter w LinkGenerationTag →
  generation_counter w LinkGenerationTag + zlen l < two64 →
  let ks := (map_m discover_link l w).1 in
  Forall2 (λ s k, ∃ gen now, gen ≠ 0 ∧ k = synthetic_link s (lk_id k) gen now) l ks ∧
  lk_id <$> ks = seqZ (id_counter w LinkTag + 1) (zlen l).
Proof.
  revert w. induction l as [|s l IH]; intros w H0 Hc Hg0 Hgc; [by split|].
  rewrite zlen_cons in *. pose proof (zlen_nonneg l).
  cbn [map_m]. rewrite bind_eq.
  destruct (discover_link_eq s w) as (now & w1 & -> & E1 & E2); [lia..|].
  cbn [fst snd]. rewrite bind_eq. cbn [ret fst snd].
  specialize (IH w1). rewrite E1, E2 in IH. destruct IH as [Hf Hid]; [lia..|].
  split.
  - constructor; [|done]. eexists _, _. split; [|done]. lia.
  - rewrite fmap_cons, Hid, (seqZ_cons (id_counter w LinkTag + 1)) by lia. simpl.
    f_equal. f_equal; lia.
Qed.

(** ** The whole fixture *)

Definition spec_joins (a b : Z) (s : SyntheticLinkSpec) : bool :=
  ((sls_source s =? a) && (sls_target s =? b)) || ((sls_source s =? b) && (sls_target s =? a)).

(** A fixture with explicit, distinct device ids, links between distinct
    devices of it, and room for everything. *)
Record loadable (spec : SyntheticTopologySpec) (lim : Limits) : Prop := {
  ld_ids : Forall (λ s, sds_id s ≠ 0) (spec_devices spec);
  ld_distinct : NoDup (sds_id <$> spec_devices spec);
  ld_devices : zlen (spec_devices spec) ≤ max_devices lim;
  ld_ends : Forall (λ l, sls_source l ≠ sls_target l ∧
    sls_source l ∈ sds_id <$> spec_devices spec ∧ sls_target l ∈ sds_id <$> spec_devices spec)
    (spec_links spec);
  ld_links : zlen (spec_links spec) ≤ max_links lim;
  ld_parallel : ∀ a b, zlen (filter (λ l, spec_joins a b l = true) (spec_links spec)) ≤
    max_parallel_links_per_pair lim
}.

(** Counters that do not run out. *)
Definition fresh_enough (spec : SyntheticTopologySpec) (w : World) : Prop :=
  0 ≤ generation_counter w DeviceGenerationTag ∧
  generation_counter w DeviceGenerationTag + zlen (spec_devices spec) < two64 ∧
  0 ≤ id_counter w LinkTag ∧ id_counter w LinkTag + zlen (spec_links spec) < two64 ∧
  0 ≤ generation_counter w LinkGenerationTag ∧
  generation_counter w LinkGenerationTag + zlen (spec_links spec) < two64.

Lemma discovered_ids l ds :
  Forall2 (λ s d, ∃ gen, gen ≠ 0 ∧ d = synthetic_device s (sds_id s) gen) l ds →
  dev_id <$> ds = sds_id <$> l.
Proof.
  induction 1 as [|s d l ds (gen & _ & ->) _ IH]; [done|]. by rewrite !fmap_cons, IH.
Qed.

Lemma discovered_joining a b l ks :
  Forall2 (λ s k, ∃ gen now, gen ≠ 0 ∧ k = synthetic_link s (lk_id k) gen now) l ks →
  joining a b ks = zlen (filter (λ s, spec_joins a b s = true) l).
Proof.
  induction 1 as [|s k l ks (gen & now & _ & ->) _ IH]; [done|].
  rewrite joining_cons, IH, filter_cons. unfold same_unordered, spec_joins. simpl.
  destruct (_ || _); simpl; rewrite ?zlen_cons; lia.
Qed.

(** Discovered records of a loadable fixture, stored in a fresh registry. *)
Lemma discovered_stored `{Platform} spec lim ds ks base w w' :
  loadable spec lim → 0 ≤ base →
  Forall2 (λ s d, ∃ gen, gen ≠ 0 ∧ d = synthetic_device s (sds_id s) gen) (spec_devices spec) ds →
  Forall2 (λ s k, ∃ gen now, gen ≠ 0 ∧ k = synthetic_link s (lk_id k) gen now) (spec_links spec) ks →
  lk_id <$> ks = seqZ (base + 1) (zlen (spec_links spec)) →
  let r1 := (upsert_all upsert_device ds (new_registry lim) w).1 in
  let r2 := (upsert_all upsert_link ks r1 w').1 in
  device_count r2 = zlen (spec_devices spec) ∧ link_count r2 = zlen (spec_links spec) ∧
  (∀ d, d ∈ ds → device r2 (dev_id d) = Some d) ∧
  (∀ k, k ∈ ks → ∃ g, link r2 (lk_id k) = Some (link_set_topology_generation g k)).
Proof.
  intros [Hids Hnd Hnum Hends Hnl Hpar] Hbase Hds Hks Hkid r1 r2.
  assert (zlen ds = zlen (spec_devices spec)) as Hdl
    by (unfold zlen; by rewrite (Forall2_length _ _ _ Hds)).
  assert (zlen ks = zlen (spec_links spec)) as Hkl
    by (unfold zlen; by rewrite (Forall2_length _ _ _ Hks)).
  pose proof (discovered_ids _ _ Hds) as Hdid.
  destruct (upsert_all_new_devices ds (new_registry lim) w) as (Hlim & Hlm & Hdc & Hdin & _).
  { apply Forall_forall. intros d (s & Hs & (gen & ? & ->))%(Forall2_partner_r _ _ _ _ Hds).
    rewrite Forall_forall in Hids. split; [by apply Hids|done]. }
  { by rewrite Hdid. }
  { intros. apply lookup_empty. }
  { change (device_count (new_registry lim)) with 0. rewrite Hdl. simpl. lia. }
  { done. }
  fold r1 in Hlim, Hlm, Hdc, Hdin.
  assert (∀ i, i ∈ sds_id <$> spec_devices spec → is_Some (device r1 i)) as Hpresent.
  { intros i Hin. rewrite <-Hdid in Hin. apply list_elem_of_fmap in Hin as (d & -> & Hin).
    exists d. by apply Hdin. }
  destruct (upsert_all_new_links ks r1 w') as (Hdev & Hdc' & Hlc & _ & Hlin).
  { apply Forall_forall. intros k Hk.
    assert (lk_id k ∈ seqZ (base + 1) (zlen (spec_links spec))) as Hid%elem_of_seqZ
      by (rewrite <-Hkid; by apply list_elem_of_fmap_2).
    destruct (Forall2_partner_r _ _ _ _ Hks Hk) as (s & Hs & (gen & now & Hgen & Heq)).
    rewrite Forall_forall in Hends. destruct (Hends s Hs) as (? & ? & ?).
    split; [lia|]. rewrite Heq. simpl. auto. }
  { rewrite Hkid. apply NoDup_seqZ. }
  { intros. rewrite Hlm. apply lookup_empty. }
  { unfold link_count. rewrite Hlm, Hlim, Hkl. change (msize ∅) with 0. simpl. lia. }
  { intros a b. rewrite Hlm, Hlim, (discovered_joining a b _ _ Hks). apply Hpar. }
  fold r2 in Hdev, Hdc', Hlc, Hlin. split_and!; [| |intros d Hd; rewrite Hdev; by apply Hdin|done].
  - by rewrite Hdc', Hdc, Hdl.
  - rewrite Hlc, Hkl. unfold link_count. by rewrite Hlm.
Qed.

(** A loadable fixture arrives whole: loading it into a fresh registry
    stores exactly as many devices and links as it lists, every device under
    the id the fixture gives it and every link with the ends, state and
    capability the fixture gives it, all as SYNTHETIC evidence. *)
Lemma synthetic_fixture_loads `{Platform} spec lim w :
  loadable spec lim → fresh_enough spec w →
  ∃ r, (populate spec (new_registry lim) w).1 = Some r ∧
  device_count r = zlen (spec_devices spec) ∧ link_count r = zlen (spec_links spec) ∧
  (∀ s, s ∈ spec_devices spec → ∃ gen, gen ≠ 0 ∧
     device r (sds_id s) = Some (synthetic_device s (sds_id s) gen)) ∧
  (∀ s, s ∈ spec_links spec → ∃ id gen now g, gen ≠ 0 ∧
     link r id = Some (link_set_topology_generation g (synthetic_link s id gen now))).
Proof.
  intros Hload (Hg0 & Hg & Hi0 & Hi & Hl0 & Hl).
  unfold populate. cbn [discover_devices discover_links synthetic_backend]. rewrite !bind_eq.
  pose proof (discover_devices_new (spec_devices spec) w (ld_ids _ _ Hload) Hg0 Hg) as Hd.
  destruct (map_m discover_device (spec_devices spec) w) as [ds w1].
  destruct Hd as (Hds & Hw1 & Hw1g). cbn [ret fst snd]. rewrite !bind_eq. cbn [fst snd].
  pose proof (discover_links_new (spec_links spec) w1) as Hk. rewrite Hw1, Hw1g in Hk.
  destruct (map_m discover_link (spec_links spec) w1) as [ks w2]. cbn [fst snd ret] in *.
  destruct Hk as [Hks Hkid]; [done..|]. rewrite !bind_eq. eexists. split; [reflexivity|].
  edestruct (discovered_stored spec lim ds ks (id_counter w LinkTag) w2) as (Hdc & Hlc & Hdin & Hlin);
    [done..|]. split_and!; [exact Hdc|exact Hlc| |].
  - intros s Hs. destruct (Forall2_partner_l _ _ _ _ Hds Hs) as (d & Hd & (gen & ? & ->)).
    exists gen. split; [done|]. exact (Hdin _ Hd).
  - intros s Hs. destruct (Forall2_partner_l _ _ _ _ Hks Hs) as (k & Hk & (gen & now & ? & Heq)).
    destruct (Hlin k Hk) as [g Hgk]. exists (lk_id k), gen, now, g. split; [done|].
    rewrite <-Heq. exact Hgk.
Qed.

Lemma inspect_loadable : loadable inspect_spec default_limits.
Proof.
  split.
  - by repeat constructor.
  - apply (bool_decide_unpack _). vm_compute. exact I.
  - by vm_compute.
  - apply (bool_decide_unpack _). vm_compute. exact I.
  - by vm_compute.
  - intros a b. transitivity (zlen (spec_links inspect_spec)); [|by vm_compute].
    unfold zlen. pose proof (length_filter (λ l, spec_joins a b l = true) (spec_links inspect_spec)).
    lia.
Qed.

Lemma synthetic_fixture_loads_witness :
  link_count inspected = 4 ∧ ∃ gen, device inspected 2000 = Some (mkDevice 2000 "switch0"
    NodeKind.SWITCH "synthetic" "switch0" "" None "synthetic" "synthetic" "SYNTHETIC"
    (mkCapability InterconnectTechnology.NVLINK 2 0 800000000000 true
       MeasurementSupport.SYNTHETIC_ONLY 0 false)
    DeviceHealthState.PRESENT (synthetic "synthetic fixture device") gen None None).
Proof.
  destruct (@synthetic_fixture_loads reference_platform inspect_spec default_limits world0)
    as (r & Hr & _ & Hl & Hd & _).
  - apply inspect_loadable.
  - split_and!; by vm_compute.
  - assert (inspected = r) as -> by (unfold inspected; by rewrite Hr).
    split; [exact Hl|]. destruct (Hd (mkDeviceSpec 2000 "switch0" NodeKind.SWITCH "SYNTHETIC"
      800000000000 2 true)) as (gen & _ & Hg).
    + unfold inspect_spec. simpl. do 3 right. left.
    + exists gen. exact Hg.
Defined.
