(* ===== verification/Nvidia.v ===== *)
(** * The NVIDIA backend (nvidia_backend.cpp, NvidiaBackend)

    CUDA and NVML are not part of the program: a [Driver] is what they answer
    during one call of the backend. *)

From S2P Require Import Prelude Enums Double Records World Registry RegistryFacts Fixtures.
From S2P Require Import RegistryProps Text Backends BackendsProps.

(** What the backend reads of [cudaDeviceProp]. *)
Record DeviceProp := mkProp {
  prop_name : string; prop_major : Z; prop_minor : Z; prop_bus : Z; prop_device : Z
}.

(** [NvmlApi]: the four functions it cannot do without were found, and the two
    it can. *)
Record NvmlApi := mkNvml { nvml_loaded : bool; nvml_has_pci : bool; nvml_has_nvlink_count : bool }.

(** The answers; [None] is any code but success.  [dr_nvml_inited] is
    [g_nvml_inited] when the call begins, [dr_nvml_init k] the answer to the
    [k]-th [nvmlInit] of the call, [dr_pci h] domain, bus and device. *)
Record Driver := mkDriver {
  dr_device_count : option Z;
  dr_error_name : string;
  dr_properties : Z → option DeviceProp;
  dr_nvml : NvmlApi;
  dr_nvml_inited : bool;
  dr_nvml_init : nat → bool;
  dr_nvml_count : option Z;
  dr_handle : Z → option Z;
  dr_pci : Z → option (Z * Z * Z);
  dr_nvlink_count : Z → option Z
}.

(** [NvmlApi::load] outside Windows: nothing is looked up. *)
Definition posix_nvml : NvmlApi := mkNvml false false false.

Definition arch_name (major : Z) : string :=
  if 12 <=? major then "Blackwell"
  else if 9 <=? major then "Hopper"
  else if 8 <=? major then "Ampere"
  else if 7 <=? major then "Volta"
  else if 6 <=? major then "Pascal"
  else if 5 <=? major then "Maxwell"
  else "Other".

(** [g_nvml_inited], and the calls of [nvmlInit] so far. *)
Record NvmlState := mkNvmlState { nvml_inited : bool; nvml_attempts : nat }.

Definition nvml_at_entry (dr : Driver) : NvmlState := mkNvmlState (dr_nvml_inited dr) 0.

Definition ensure_nvml (dr : Driver) : NvmlState → bool * NvmlState := λ st,
  if negb (nvml_loaded (dr_nvml dr)) then (false, st)
  else if nvml_inited st then (true, st)
  else let ok := dr_nvml_init dr (nvml_attempts st) in
       (ok, mkNvmlState ok (S (nvml_attempts st))).

(** Defined, and called by nobody; [has_shutdown]: its function was found. *)
Definition shutdown_nvml (has_shutdown : bool) (st : NvmlState) : NvmlState :=
  if nvml_inited st && has_shutdown then mkNvmlState false (nvml_attempts st) else st.

Definition cuda_pci_identity (dr : Driver) (prop : DeviceProp) (ordinal : Z)
    : NvmlState → string * NvmlState :=
  let fallback := snprintf 64 (fmt_0x 2 (prop_bus prop) +:+ ":" +:+ fmt_0x 2 (prop_device prop)) in
  let* ok := ensure_nvml dr in
  ret (if ok : bool then
         match dr_handle dr (wrap32 ordinal) with
         | Some h =>
             match (if nvml_has_pci (dr_nvml dr) then dr_pci dr h else None) with
             | Some (domain, bus, dev) =>
                 snprintf 64 (fmt_0x 4 domain +:+ ":" +:+ fmt_0x 2 bus +:+ ":" +:+ fmt_0x 2 dev)
             | None => fallback
             end
         | None => fallback
         end
       else fallback).

Definition nvidia_evidence : Evidence :=
  mkEvidence EvidenceClass.REAL (Provenance.prov_or Provenance.CUDA_RUNTIME Provenance.CUDA_DRIVER)
    "nvidia" "CUDA device discovery".

(** The record of the [i]-th device. *)
Definition nvidia_device (i : Z) (prop : DeviceProp) (pci : string) (id gen : Z) : DeviceRecord :=
  mkDevice id (prop_name prop) NodeKind.ACCELERATOR "nvidia" ("cuda:" +:+ dec i) pci
    (Some (wrap32 i)) "NVIDIA" (arch_name (wrap32 (prop_major prop)))
    (fmt_d (prop_major prop) +:+ "." +:+ fmt_d (prop_minor prop))
    (mkCapability InterconnectTechnology.UNKNOWN (cap_link_count default_capability)
       (nominal_lane_width default_capability) (nominal_bandwidth_bps default_capability)
       (peer_access_supported default_capability) MeasurementSupport.UNKNOWN
       (supported_counters default_capability) (telemetry_supported default_capability))
    DeviceHealthState.PRESENT nvidia_evidence gen None None.

(** The loop over the devices: [n] are left from [i] on. *)
Fixpoint discover_cuda (dr : Driver) (n : nat) (i : Z) (st : NvmlState)
    : M (Result (list DeviceRecord)) :=
  match n with
  | O => ret (Ok [])
  | S n' =>
      match dr_properties dr i with
      | None => ret (err ErrorCode.BACKEND_ERROR "cudaGetDeviceProperties failed")
      | Some prop =>
          let* id := fresh_id DeviceTag in
          let '(pci, st') := cuda_pci_identity dr prop i st in
          let* gen := fresh_generation DeviceGenerationTag in
          let* rest := discover_cuda dr n' (i + 1) st' in
          ret (match rest with
               | Ok ds => Ok (nvidia_device i prop pci id gen :: ds)
               | Err e => Err e
               end)
      end
  end.

Definition nvidia_discover_devices (dr : Driver) : M (Result (list DeviceRecord)) :=
  match dr_device_count dr with
  | None => ret (err ErrorCode.BACKEND_UNAVAILABLE
                   ("CUDA runtime unavailable: " +:+ dr_error_name dr))
  | Some count => discover_cuda dr (Z.to_nat count) 0 (nvml_at_entry dr)
  end.

(** The links NVML counts are added up and not used. *)
Definition total_links (dr : Driver) : Z :=
  match dr_nvml_count dr with
  | None => 0
  | Some n =>
      foldl (λ total i,
        match dr_handle dr i with
        | None => total
        | Some h => match (if nvml_has_nvlink_count (dr_nvml dr) then dr_nvlink_count dr h else None) with
                    | Some links => wrap32 (total + links)
                    | None => total
                    end
        end) 0 (seqZ 0 n)
  end.
Definition nvidia_discover_links (dr : Driver) : Result (list LinkRecord) :=
  let '(ok, _) := ensure_nvml dr (nvml_at_entry dr) in
  if negb ok then Ok [] else let _ := total_links dr in Ok [].

Definition nvidia_capabilities : BackendCapabilities :=
  mkBackendCapabilities "nvidia" true true false true MeasurementSupport.UNSUPPORTED
    (mkEvidence EvidenceClass.REAL (Provenance.prov_or Provenance.NVML Provenance.CUDA_RUNTIME)
       "nvidia" "NVIDIA/CUDA/NVML backend")
    "NVLink connectivity depends on installed hardware; consumer GPUs report none".

#[export] Instance nvidia_backend : Backend Driver := {|
  backend_name _ := "nvidia"%string;
  describe_capabilities _ := Ok nvidia_capabilities;
  discover_devices := nvidia_discover_devices;
  discover_links dr _ := ret (nvidia_discover_links dr);
  measure _ _ := ret (err ErrorCode.UNSUPPORTED
    ("no supported peer-access NVLink path on installed hardware; " +:+
     "measurement requires at least two real NVLink-connected devices"));
  supports_measurement _ := false
|}.

Definition make_nvidia_backend (dr : Driver) : Result Driver :=
  match dr_device_count dr with
  | None => err ErrorCode.BACKEND_UNAVAILABLE "CUDA runtime unavailable"
  | Some _ => Ok dr
  end.
