(* ===== verification/NvidiaProps.v ===== *)
(** * The NVIDIA backend: what a registry holds after discovery *)

From S2P Require Import Prelude Enums Double Records World Registry RegistryFacts Fixtures.
From S2P Require Import RegistryProps Paths PathsFacts Quality Route RouteFacts Governance.
From S2P Require Import Text Backends BackendsProps Nvidia.

(** Every property query up to the count is answered. *)
Definition all_properties (dr : Driver) (n i : Z) : Prop :=
  ∀ k, i ≤ k < i + n → is_Some (dr_properties dr k).

(** The architecture of a compute capability: the table of the major versions. *)
Definition named_architecture (major : Z) (name : string) : Prop :=
  (12 ≤ major ∧ name = "Blackwell"%string) ∨ (9 ≤ major ≤ 11 ∧ name = "Hopper"%string) ∨
  (major = 8 ∧ name = "Ampere"%string) ∨ (major = 7 ∧ name = "Volta"%string) ∨
  (major = 6 ∧ name = "Pascal"%string) ∨ (major = 5 ∧ name = "Maxwell"%string) ∨
  (major ≤ 4 ∧ name = "Other"%string).

(** What a stored record has to say of the device with ordinal [k] and the
    properties [prop]; the major version is read as an unsigned number. *)
Record describes_cuda (k : Z) (prop : DeviceProp) (d : DeviceRecord) : Prop := {
  dc_name : dev_logical_name d = prop_name prop;
  dc_kind : dev_kind d = NodeKind.ACCELERATOR;
  dc_backend : dev_backend d = "nvidia"%string;
  dc_instance : dev_backend_instance d = ("cuda:" +:+ dec k)%string;
  dc_ordinal : dev_cuda_ordinal d = Some k;
  dc_vendor : dev_vendor d = "NVIDIA"%string;
  dc_architecture : named_architecture (wrap32 (prop_major prop)) (dev_architecture d);
  dc_revision : dev_device_generation d =
    (fmt_d (prop_major prop) +:+ "." +:+ fmt_d (prop_minor prop))%string;
  dc_health : dev_health d = DeviceHealthState.PRESENT;
  dc_evidence : evidence_class (dev_evidence d) = EvidenceClass.REAL;
  dc_provenance : provenance (dev_evidence d) = Z.lor 2 4;
  dc_interconnect : interconnect (dev_capability d) = InterconnectTechnology.UNKNOWN;
  dc_generation : dev_generation d ≠ 0;
  dc_unowned : dev_owner_worker d = None ∧ dev_owner_boot d = None
}.

Lemma arch_name_table major : named_architecture major (arch_name major).
Proof.
  unfold named_architecture, arch_name.
  repeat match goal with |- context [?a <=? ?b] => destruct (Z.leb_spec a b) end;
    intuition lia.
Qed.

(** The PCI identity without NVML. *)
Definition bus_and_device (prop : DeviceProp) : string :=
  snprintf 64 (fmt_0x 2 (prop_bus prop) +:+ ":" +:+ fmt_0x 2 (prop_device prop)).

Lemma no_nvml_pci dr prop i st :
  nvml_loaded (dr_nvml dr) = false → (cuda_pci_identity dr prop i st).1 = bus_and_device prop.
Proof. intros Hn. unfold cuda_pci_identity. rewrite bind_eq. unfold ensure_nvml. by rewrite Hn. Qed.

(** The device the loop makes of index [k], under the id the counter gives. *)
Definition cuda_record (dr : Driver) (base k : Z) (d : DeviceRecord) : Prop :=
  ∃ prop pci gen, dr_properties dr k = Some prop ∧ gen ≠ 0 ∧
    (nvml_loaded (dr_nvml dr) = false → pci = bus_and_device prop) ∧
    d = nvidia_device k prop pci (base + 1 + k) gen.

Lemma cuda_record_describes dr base k d :
  cuda_record dr base k d → 0 ≤ k < two32 →
  ∃ prop, dr_properties dr k = Some prop ∧ describes_cuda k prop d ∧
    (nvml_loaded (dr_nvml dr) = false → dev_pci_identity d = bus_and_device prop).
Proof.
  intros (prop & pci & gen & Hp & Hg & Hpci & ->) Hk. exists prop. split_and!; [done| |done].
  constructor; try done; [|apply arch_name_table].
  simpl. f_equal. by apply Z.mod_small.
Qed.

Lemma discover_cuda_ok dr n i st w :
  0 ≤ id_counter w DeviceTag → id_counter w DeviceTag + Z.of_nat n < two64 →
  0 ≤ generation_counter w DeviceGenerationTag →
  generation_counter w DeviceGenerationTag + Z.of_nat n < two64 →
  all_properties dr (Z.of_nat n) i →
  ∃ ds, (discover_cuda dr n i st w).1 = Ok ds ∧
    Forall2 (cuda_record dr (id_counter w DeviceTag - i)) (seqZ i (Z.of_nat n)) ds.
Proof.
  revert i st w. induction n as [|n IH]; intros i st w H0 Hi Hg0 Hg Hp.
  { exists []. by split; [|constructor]. }
  destruct (Hp i) as [prop Hprop]; [lia|]. cbn [discover_cuda]. rewrite Hprop.
  pose proof (no_nvml_pci dr prop i st) as Hpci.
  rewrite bind_eq. destruct (cuda_pci_identity dr prop i st) as [pci st'].
  rewrite !bind_eq. unfold fresh_generation, fresh_id. cbn [fst snd id_counter generation_counter].
  set (w1 := mkWorld _ _ _ _).
  assert (id_counter w1 DeviceTag = id_counter w DeviceTag + 1) as E1
    by (unfold w1, bump; simpl; by rewrite wrap64_succ by lia).
  assert (generation_counter w1 DeviceGenerationTag =
    generation_counter w DeviceGenerationTag + 1) as E2
    by (unfold w1, bump; simpl; by rewrite wrap64_succ by lia).
  destruct (IH (i + 1) st' w1) as (ds & Hds & Hall); [lia..| |].
  { intros k Hk. apply Hp. lia. }
  destruct (discover_cuda dr n (i + 1) st' w1) as [res w2]. cbn [fst] in Hds. subst res.
  eexists. split; [done|]. rewrite (seqZ_cons i) by lia.
  replace (Z.succ i) with (i + 1) by lia. replace (Z.pred (Z.of_nat (S n))) with (Z.of_nat n) by lia.
  constructor.
  - exists prop, pci, (generation_counter w DeviceGenerationTag + 1).
    split; [done|]. split; [lia|]. split; [done|]. f_equal; rewrite wrap64_succ by lia; lia.
  - rewrite E1 in Hall. by replace (id_counter w DeviceTag + 1 - (i + 1)) with (id_counter w DeviceTag - i)
      in Hall by lia.
Qed.

(** A device whose properties cannot be read fails the whole discovery. *)
Lemma discover_cuda_fails dr n i st w k :
  i ≤ k < i + Z.of_nat n → dr_properties dr k = None →
  (discover_cuda dr n i st w).1 = err ErrorCode.BACKEND_ERROR "cudaGetDeviceProperties failed".
Proof.
  revert i st w. induction n as [|n IH]; intros i st w Hk Hn; [lia|]. cbn [discover_cuda].
  destruct (dr_properties dr i) as [prop|] eqn:Hi; [|done].
  rewrite bind_eq. destruct (cuda_pci_identity dr prop i st) as [pci st'].
  rewrite !bind_eq. rewrite IH; [done| |done].
  destruct (decide (k = i)) as [->|]; [congruence|lia].
Qed.

Section Loading.
Context {P : Platform}.

Lemma upsert_all_devices_wf ds r w :
  limits_ok (limits_ r) → wf r → wf (upsert_all upsert_device ds r w).1.
Proof.
  revert r w. induction ds as [|d ds IH]; intros r w Hl Hwf; [done|].
  cbn [upsert_all]. rewrite bind_eq. destruct (upsert_device d r w) as [[res r'] w'] eqn:E. simpl.
  destruct (effect_wf (UpsertDevice d) r res r') as [? Hl']; [done|done|by eapply upsert_device_effect|].
  apply IH; [by rewrite Hl'|done].
Qed.

(** Without links there is nothing to select. *)
Lemma no_links_no_route src tgt pol r r' w d :
  wf r → 0 ≤ max_candidate_paths (limits_ r) → links (state_ r) = ∅ →
  (decide_route src tgt pol r r' w).1 = Ok d → rd_selected d = None ∧ rd_executable d = false.
Proof.
  intros Hwf Hm Hl Hd. assert (rd_selected d = None) as Hs.
  { destruct (rd_selected d) as [i|] eqn:Hi; [|done].
    destruct (selected_candidate src tgt pol r r' w d i Hwf Hm Hd Hi) as (w1&sd&td&es&_&_&Hw&_).
    destruct es as [|e es]; [by destruct Hw as (_ & _ & ?)|].
    destruct Hw as ([(lk & Hlk & _) _] & _). unfold link in Hlk. by rewrite Hl, lookup_empty in Hlk. }
  split; [done|]. destruct (rd_executable d) eqn:Hx; [|done].
  destruct (executable_selected src tgt pol r r' w d Hd Hx). congruence.
Qed.
End Loading.

(** C39.  What discovery through CUDA yields.  Let CUDA count [n] devices, no
    more than the registry has room for, and the two counters be far from
    wrapping.  When all properties can be read, loading a fresh registry stores
    exactly [n] devices, the [k]-th under the [k]-th next id, with ordinal [k],
    the name, the revision and the architecture (by a table of major versions)
    of its properties, REAL evidence from the CUDA runtime and driver, PRESENT,
    unowned and, where NVML was not loaded, the PCI address of its properties.
    It stores no link, whatever NVML counts (README: links are reported when
    present), so no route is ever selected.  When one device's properties
    cannot be read, nothing is discovered at all. *)
Theorem nvidia_inventory `{Platform} dr n lim w :
  limits_ok lim → 0 ≤ max_candidate_paths lim → dr_device_count dr = Some n →
  0 ≤ n < two32 → n ≤ max_devices lim →
  0 ≤ id_counter w DeviceTag → id_counter w DeviceTag + n < two64 →
  0 ≤ generation_counter w DeviceGenerationTag →
  generation_counter w DeviceGenerationTag + n < two64 →
  (all_properties dr n 0 → ∃ r, (populate dr (new_registry lim) w).1 = Some r ∧
     device_count r = n ∧ link_count r = 0 ∧
     (∀ k, 0 ≤ k < n → ∃ d prop, device r (id_counter w DeviceTag + 1 + k) = Some d ∧
        dr_properties dr k = Some prop ∧ describes_cuda k prop d ∧
        (nvml_loaded (dr_nvml dr) = false → dev_pci_identity d = bus_and_device prop)) ∧
     (∀ src tgt pol r' w' d, (decide_route src tgt pol r r' w').1 = Ok d →
        rd_selected d = None ∧ rd_executable d = false)) ∧
  (∀ k, 0 ≤ k < n → dr_properties dr k = None →
     (discover_devices dr w).1 =
       err ErrorCode.BACKEND_ERROR "cudaGetDeviceProperties failed" ∧
     (populate dr (new_registry lim) w).1 = None).
Proof.
  intros Hlim Hmax Hn [Hn0 Hint] Hroom Hi0 Hi Hg0 Hg. split.
  - intros Hp. unfold populate. cbn [discover_devices discover_links nvidia_backend].
    unfold nvidia_discover_devices. rewrite Hn, bind_eq.
    destruct (discover_cuda_ok dr (Z.to_nat n) 0 (nvml_at_entry dr) w) as (ds & Hds & Hall);
      [lia..|by rewrite Z2Nat.id by lia|].
    rewrite Z2Nat.id, Z.sub_0_r in Hall by lia.
    destruct (discover_cuda _ _ _ _ w) as [res w1]. cbn [fst snd] in *. subst res.
    rewrite bind_eq. assert (nvidia_discover_links dr = Ok []) as ->
      by (unfold nvidia_discover_links; destruct (ensure_nvml _ _) as [[] ?]; done).
    cbn [ret fst snd upsert_all]. rewrite !bind_eq. cbn [ret fst snd].
    eexists. split; [reflexivity|].
    assert (zlen ds = n) as Hlen.
    { unfold zlen. rewrite <-(Forall2_length _ _ _ Hall), length_seqZ. lia. }
    assert (dev_id <$> ds = (λ k, id_counter w DeviceTag + 1 + k) <$> seqZ 0 n) as Hids.
    { clear Hlen. induction Hall as [|k d ks ds (prop & pci & gen & _ & _ & _ & ->) _ IH]; [done|].
      by rewrite !fmap_cons, IH. }
    pose proof (upsert_all_devices_wf ds (new_registry lim) w1 Hlim (new_registry_wf lim Hlim)) as Hwf.
    destruct (upsert_all_new_devices ds (new_registry lim) w1) as (Hl & Hlm & Hdc & Hin & _).
    { apply Forall_forall. intros d (k & Hk%elem_of_seqZ & (prop & pci & gen & _ & ? & _ & ->))
        %(Forall2_partner_r _ _ _ _ Hall). simpl. split; [lia|done]. }
    { rewrite Hids. apply NoDup_fmap_2; [|apply NoDup_seqZ]. intros ???. lia. }
    { intros. apply lookup_empty. }
    { change (device_count (new_registry lim)) with 0. simpl. lia. }
    { done. }
    set (r := (upsert_all upsert_device ds (new_registry lim) w1).1) in *.
    split_and!.
    + rewrite Hdc. change (device_count (new_registry lim)) with 0. lia.
    + unfold link_count. by rewrite Hlm.
    + intros k Hk. assert (k ∈ seqZ 0 n) as Hks by (apply elem_of_seqZ; lia).
      destruct (Forall2_partner_l _ _ _ _ Hall Hks) as (d & Hd & Hr).
      destruct (cuda_record_describes _ _ _ _ Hr) as (prop & Hprop & Hdesc & Hpci); [lia|].
      exists d, prop. split; [|done].
      specialize (Hin d Hd). destruct Hr as (? & ? & ? & _ & _ & _ & ->). exact Hin.
    + intros src tgt pol r' w' d. apply no_links_no_route; [done|by rewrite Hl|done].
  - intros k Hk Hnone. unfold populate. cbn [discover_devices nvidia_backend].
    unfold nvidia_discover_devices. rewrite Hn, bind_eq.
    rewrite (discover_cuda_fails dr (Z.to_nat n) 0 _ w k) by (done || lia). done.
Qed.

(** Two Hopper boards; NVML answers for the second one only. *)
Definition two_boards : Driver :=
  mkDriver (Some 2) "cudaSuccess" (λ i, Some (mkProp "H100" 9 0 (16 * (i + 1)) 0))
    (mkNvml true true true) false (λ _, true) (Some 2) (λ i, if i =? 0 then None else Some (100 + i))
    (λ _, Some (0, 32, 0)) (λ _, Some 18).

Example two_boards_pci :
  match (discover_devices two_boards world0).1 with
  | Ok ds => dev_pci_identity <$> ds
  | Err _ => []
  end = ["10:00"; "0000:20:00"]%string.
Proof. vm_compute. reflexivity. Qed.

Lemma nvidia_inventory_witness :
  ∃ r d, (@populate reference_platform _ _ two_boards (new_registry default_limits) world0).1 = Some r ∧
    device_count r = 2 ∧ link_count r = 0 ∧ device r 2 = Some d ∧
    dev_cuda_ordinal d = Some 1 ∧ dev_architecture d = "Hopper"%string ∧
    evidence_class (dev_evidence d) = EvidenceClass.REAL.
Proof.
  destruct (@nvidia_inventory reference_platform two_boards 2 default_limits world0) as [Hok _];
    try (by vm_compute).
  destruct Hok as (r & Hr & Hd & Hl & Hall & _); [intros k _; by eexists|].
  destruct (Hall 1) as (d & prop & Hat & Hp & [] & _); [lia|]. exists r, d.
  injection Hp as <-. split_and!; try done.
  destruct dc_architecture0 as [[[] ?]|[[? ?]|[[? ?]|[[? ?]|[[? ?]|[[? ?]|[? ?]]]]]]]; done.
Defined.
