(* ===== verification/SelfCheck.v ===== *)
(** * The CUDA self-check (nvidia_backend.cpp, run_cuda_self_check)

    The routine is a client of three libraries that are not part of the
    program.  It is modelled over a trace of calls: an [Oracle] answers each
    call, knowing everything called before, so that what is proved holds of
    every behaviour of those libraries. *)

From S2P Require Import Prelude Enums Double Records World.

(** ** Calls and answers *)

Inductive Call :=
| CudaGetDeviceCount
| CudaGetDeviceProperties (ordinal : Z)
| CudaMemGetInfo
| CuInit
| CuDeviceGet (ordinal : Z)
| CuDevicePrimaryCtxRetain (dev : Z)
| CuDevicePrimaryCtxRelease (dev : Z)
| CuCtxSetCurrent (ctx : Z)
| CudaMalloc (bytes : Z)
| CudaFree (p : Z)
| CudaMemcpyHostToDevice (dst : Z) (bytes : Z)
| CudaMemcpyDeviceToHost (src : Z) (bytes : Z)
| NvrtcCreateProgram
| NvrtcCompileProgram (prog : Z)
| NvrtcGetProgramLogSize (prog : Z)
| NvrtcGetProgramLog (prog : Z)
| NvrtcGetPTXSize (prog : Z)
| NvrtcGetPTX (prog : Z)
| NvrtcDestroyProgram (prog : Z)
| CuModuleLoadDataEx
| CuModuleGetFunction (module : Z)
| CuModuleUnload (module : Z)
| CuLaunchKernel (kernel blocks threads out inp n : Z)
| CuCtxSynchronize.

(** Whether the call succeeded, the number or handle it yields, the text (a
    device name, an error name, a log) and the [float]s it copies back. *)
Record Answer := mkAnswer {
  a_ok : bool; a_value : Z; a_text : string; a_floats : Z → spec_float
}.

(** Every call made, oldest first, with its answer. *)
Definition Trace : Type := list (Call * Answer).
Definition Oracle : Type := Trace → Call → Answer.

(** ** The routine *)

Record CudaValidationResult := mkValidation {
  cuda_available : bool;
  vr_device_count : Z;
  vr_device_name : string;
  vr_error : string;
  parity : bool; (* alloc_kernel_d2h_h2d_parity *)
  bytes_allocated : Z;
  bytes_baseline : Z;
  bytes_after_free : Z;
  memory_returned_to_baseline : bool;
  vr_evidence : Evidence
}.

Definition validation_start : CudaValidationResult :=
  mkValidation false 0 "" "" false 0 0 0 false
    (mkEvidence EvidenceClass.UNSUPPORTED Provenance.NONE "cuda_self_check" "not yet available").

Definition set_error (m : string) (v : CudaValidationResult) : CudaValidationResult :=
  mkValidation (cuda_available v) (vr_device_count v) (vr_device_name v) m (parity v)
    (bytes_allocated v) (bytes_baseline v) (bytes_after_free v)
    (memory_returned_to_baseline v) (vr_evidence v).
Definition set_available (v : CudaValidationResult) : CudaValidationResult :=
  mkValidation true (vr_device_count v) (vr_device_name v) (vr_error v) (parity v)
    (bytes_allocated v) (bytes_baseline v) (bytes_after_free v) (memory_returned_to_baseline v)
    (mkEvidence EvidenceClass.REAL Provenance.CUDA_RUNTIME "cuda_self_check"
       "real CUDA device validation").
Definition set_device (n : Z) (name : string) (v : CudaValidationResult) : CudaValidationResult :=
  mkValidation (cuda_available v) n name (vr_error v) (parity v) (bytes_allocated v)
    (bytes_baseline v) (bytes_after_free v) (memory_returned_to_baseline v) (vr_evidence v).
Definition set_baseline (n : Z) (v : CudaValidationResult) : CudaValidationResult :=
  mkValidation (cuda_available v) (vr_device_count v) (vr_device_name v) (vr_error v) (parity v)
    (bytes_allocated v) n (bytes_after_free v) (memory_returned_to_baseline v) (vr_evidence v).
Definition set_allocated (n : Z) (v : CudaValidationResult) : CudaValidationResult :=
  mkValidation (cuda_available v) (vr_device_count v) (vr_device_name v) (vr_error v) (parity v)
    n (bytes_baseline v) (bytes_after_free v) (memory_returned_to_baseline v) (vr_evidence v).
Definition set_parity (b : bool) (v : CudaValidationResult) : CudaValidationResult :=
  mkValidation (cuda_available v) (vr_device_count v) (vr_device_name v)
    (if b then vr_error v else "CPU-reference parity mismatch") b
    (bytes_allocated v) (bytes_baseline v) (bytes_after_free v)
    (memory_returned_to_baseline v) (vr_evidence v).
Definition set_after_free (n : Z) (v : CudaValidationResult) : CudaValidationResult :=
  mkValidation (cuda_available v) (vr_device_count v) (vr_device_name v) (vr_error v) (parity v)
    (bytes_allocated v) (bytes_baseline v) n
    (bytes_baseline v <=? wrap64 (n + 2 * 1024 * 1024)) (vr_evidence v).

(** [float]s: the integers used are exact. *)
Definition f32_of_Z (v : Z) : spec_float := binary_normalize 24 128 v 0 false.
Definition host_in (i : Z) : spec_float := f32_of_Z (i mod 1000).
Definition host_expected (i : Z) : spec_float := f32_of_Z (i mod 1000 + 1).
Definition parity_n : Z := 1024 * 1024.
Definition parity_bytes : Z := parity_n * 4.

Definition all_equal (out : Z → spec_float) : bool :=
  forallb (λ i, SFeqb (out i) (host_expected i)) (seqZ 0 parity_n).

(** The local variables of the middle part: [ok], the result, and the handles,
    0 for null. *)
Record Local := mkLocal {
  lv_ok : bool;
  lv_res : CudaValidationResult;
  lv_in : Z;
  lv_out : Z;
  lv_prog : Z;
  lv_module : Z;
  lv_kernel : Z
}.
Definition on_res (f : CudaValidationResult → CudaValidationResult) (l : Local) : Local :=
  mkLocal (lv_ok l) (f (lv_res l)) (lv_in l) (lv_out l) (lv_prog l) (lv_module l) (lv_kernel l).
Definition fail (m : string) (l : Local) : Local :=
  mkLocal false (set_error m (lv_res l)) (lv_in l) (lv_out l) (lv_prog l) (lv_module l) (lv_kernel l).
Definition set_in (p : Z) (l : Local) : Local :=
  mkLocal (lv_ok l) (lv_res l) p (lv_out l) (lv_prog l) (lv_module l) (lv_kernel l).
Definition set_out (p : Z) (l : Local) : Local :=
  mkLocal (lv_ok l) (lv_res l) (lv_in l) p (lv_prog l) (lv_module l) (lv_kernel l).
Definition set_prog (p : Z) (l : Local) : Local :=
  mkLocal (lv_ok l) (lv_res l) (lv_in l) (lv_out l) p (lv_module l) (lv_kernel l).
Definition set_module (p : Z) (l : Local) : Local :=
  mkLocal (lv_ok l) (lv_res l) (lv_in l) (lv_out l) (lv_prog l) p (lv_kernel l).
Definition set_kernel (p : Z) (l : Local) : Local :=
  mkLocal (lv_ok l) (lv_res l) (lv_in l) (lv_out l) (lv_prog l) (lv_module l) p.

Section SelfCheck.
Context (oracle : Oracle).

Definition call (c : Call) : Trace → Answer * Trace := λ t,
  let a := oracle t c in (a, t ++ [(c, a)]).

(** [if (ok && call(...) != SUCCESS) { error; ok = false; }], the handle the
    call yields being kept by [keep]; a failed call leaves the handle alone. *)
Definition attempt (c : Call) (msg : string) (keep : Z → Local → Local) (l : Local)
    : Trace → Local * Trace :=
  if negb (lv_ok l) then ret l
  else let* a := call c in ret (if a_ok a then keep (a_value a) l else fail msg l).

Definition keep_none (_ : Z) (l : Local) : Local := l.

(** [nvrtcCompileProgram], and the log (its size and its text) when it fails. *)
Definition attempt_compile (l : Local) : Trace → Local * Trace :=
  if negb (lv_ok l) then ret l
  else
    let* a := call (NvrtcCompileProgram (lv_prog l)) in
    if a_ok a then ret l
    else let* _ := call (NvrtcGetProgramLogSize (lv_prog l)) in
         let* log := call (NvrtcGetProgramLog (lv_prog l)) in
         ret (fail ("nvrtcCompileProgram failed: " +:+ a_text log) l).

(** The copy back and the comparison. *)
Definition attempt_parity (l : Local) : Trace → Local * Trace :=
  if negb (lv_ok l) then ret l
  else
    let* a := call (CudaMemcpyDeviceToHost (lv_out l) parity_bytes) in
    ret (if a_ok a then on_res (set_parity (all_equal (a_floats a))) l
         else fail "cudaMemcpy D2H failed" l).

(** From the allocations to the comparison. *)
Definition exercise (res : CudaValidationResult) : Trace → Local * Trace :=
  let l := mkLocal true res 0 0 0 0 0 in
  let* l := attempt (CudaMalloc parity_bytes) "cudaMalloc(d_in) failed" set_in l in
  let* l := attempt (CudaMalloc parity_bytes) "cudaMalloc(d_out) failed" set_out l in
  let* l := attempt (CudaMemcpyHostToDevice (lv_in l) parity_bytes) "cudaMemcpy H2D failed"
              keep_none l in
  let l := on_res (set_allocated (if lv_ok l then parity_bytes * 2 else 0)) l in
  let* l := attempt NvrtcCreateProgram "nvrtcCreateProgram failed" set_prog l in
  let* l := attempt_compile l in
  let* l := attempt (NvrtcGetPTXSize (lv_prog l)) "nvrtcGetPTXSize failed" keep_none l in
  let* l := attempt (NvrtcGetPTX (lv_prog l)) "nvrtcGetPTX failed" keep_none l in
  let* l := attempt CuModuleLoadDataEx "cuModuleLoadDataEx failed" set_module l in
  let* l := attempt (CuModuleGetFunction (lv_module l)) "cuModuleGetFunction failed" set_kernel l in
  let* l := attempt (CuLaunchKernel (lv_kernel l) ((parity_n + 256 - 1) / 256) 256
                       (lv_out l) (lv_in l) parity_n) "cuLaunchKernel failed" keep_none l in
  let* l := attempt CuCtxSynchronize "cuCtxSynchronize failed" keep_none l in
  attempt_parity l.

(** [if (h) release(h);] *)
Definition release (h : Z) (c : Call) : Trace → unit * Trace :=
  if h =? 0 then ret tt else let* _ := call c in ret tt.

(** What is released at the end, and the memory compared. *)
Definition clean_up (dev ctx : Z) (l : Local) : Trace → CudaValidationResult * Trace :=
  let* _ := release (lv_in l) (CudaFree (lv_in l)) in
  let* _ := release (lv_out l) (CudaFree (lv_out l)) in
  let* _ := release (lv_prog l) (NvrtcDestroyProgram (lv_prog l)) in
  let* _ := release (lv_module l) (CuModuleUnload (lv_module l)) in
  let* info := call CudaMemGetInfo in
  let res := set_after_free (if a_ok info then a_value info else bytes_after_free (lv_res l))
               (lv_res l) in
  let* _ := release ctx (CuDevicePrimaryCtxRelease dev) in
  ret res.

(** From [cuInit] on. *)
Definition with_context (res : CudaValidationResult) : Trace → CudaValidationResult * Trace :=
  let* a := call CuInit in
  if negb (a_ok a) then ret (set_error "cuInit failed" res)
  else
  let* a := call (CuDeviceGet 0) in
  if negb (a_ok a) then ret (set_error "cuDeviceGet failed" res)
  else
  let dev := a_value a in
  let* a := call (CuDevicePrimaryCtxRetain dev) in
  if negb (a_ok a) then ret (set_error "cuDevicePrimaryCtxRetain failed" res)
  else
  let ctx := a_value a in
  let* a := call (CuCtxSetCurrent ctx) in
  if negb (a_ok a) then
    let* _ := call (CuDevicePrimaryCtxRelease dev) in
    ret (set_error "cuCtxSetCurrent failed" res)
  else
  let* l := exercise res in
  clean_up dev ctx l.

Definition run_cuda_self_check : Trace → Result CudaValidationResult * Trace :=
  let* probe := call CudaGetDeviceCount in
  if negb (a_ok probe) then
    ret (Ok (set_error ("CUDA runtime unavailable: " +:+ a_text probe) validation_start))
  else
  let res := set_available validation_start in
  let* count := call CudaGetDeviceCount in
  if negb (a_ok count) then ret (Ok (set_error "cudaGetDeviceCount failed" res))
  else
  let n := a_value count in
  let* prop := (if 0 <? n then let* a := call (CudaGetDeviceProperties 0) in ret (Some a)
                else ret None) in
  let name := match prop with
              | Some a => if a_ok a then a_text a else ""
              | None => ""
              end in
  let res := set_device (wrap32 n) name res in
  let* info := call CudaMemGetInfo in
  if negb (a_ok info) then ret (Ok (set_error "cudaMemGetInfo failed" res))
  else
  let* res := with_context (set_baseline (a_value info) res) in
  ret (Ok res).
End SelfCheck.
