(* ===== verification/SelfCheckProps.v ===== *)
(** * The CUDA self-check: nothing is leaked, misused or freed twice *)

From S2P Require Import Prelude Enums Double Records World SelfCheck.

(** ** Resources *)

Inductive Resource := Memory (p : Z) | Context (dev : Z) | Program (p : Z) | Module (p : Z).
#[export] Instance Resource_eq_dec : EqDecision Resource.
Proof. solve_decision. Defined.

(** What a successful call yields, what a call gives back, what it must not be
    called without. *)
Definition gains (c : Call) (a : Answer) : list Resource :=
  if a_ok a then
    match c with
    | CudaMalloc _ => [Memory (a_value a)]
    | CuDevicePrimaryCtxRetain dev => [Context dev]
    | NvrtcCreateProgram => [Program (a_value a)]
    | CuModuleLoadDataEx => [Module (a_value a)]
    | _ => []
    end
  else [].

Definition drops (c : Call) : option Resource :=
  match c with
  | CudaFree p => Some (Memory p)
  | CuDevicePrimaryCtxRelease dev => Some (Context dev)
  | NvrtcDestroyProgram p => Some (Program p)
  | CuModuleUnload m => Some (Module m)
  | _ => None
  end.

Definition needs (c : Call) : list Resource :=
  match c with
  | CudaMemcpyHostToDevice p _ | CudaMemcpyDeviceToHost p _ => [Memory p]
  | NvrtcCompileProgram p | NvrtcGetProgramLogSize p | NvrtcGetProgramLog p
  | NvrtcGetPTXSize p | NvrtcGetPTX p => [Program p]
  | CuModuleGetFunction m => [Module m]
  | CuLaunchKernel _ _ _ out inp _ => [Memory out; Memory inp]
  | _ => []
  end.

Fixpoint remove_one (r : Resource) (l : list Resource) : option (list Resource) :=
  match l with
  | [] => None
  | x :: l' => if decide (x = r) then Some l' else (x ::.) <$> remove_one r l'
  end.

(** What is held after a trace; [None] if a call used or gave back something
    that was not held. *)
Definition use (held : list Resource) (e : Call * Answer) : option (list Resource) :=
  if bool_decide (Forall (λ r, r ∈ held) (needs e.1)) then
    match drops e.1 with
    | Some r => remove_one r held
    | None => Some (gains e.1 e.2 ++ held)
    end
  else None.
Definition replay (held : list Resource) (t : Trace) : option (list Resource) :=
  foldl (λ h e, h ≫= λ h, use h e) (Some held) t.

(** [t] is in order and leaves exactly [held]. *)
Definition holds (t : Trace) (held : list Resource) : Prop :=
  ∃ h, replay [] t = Some h ∧ h ≡ₚ held.

#[export] Instance holds_proper t : Proper ((≡ₚ) ==> iff) (holds t).
Proof.
  intros h1 h2 Hh. unfold holds. by setoid_rewrite Hh.
Qed.

Lemma replay_snoc held t e : replay held (t ++ [e]) = replay held t ≫= λ h, use h e.
Proof. unfold replay. by rewrite foldl_app. Qed.

Lemma holds_use t held c a :
  holds t held → drops c = None → Forall (λ r, r ∈ held) (needs c) →
  holds (t ++ [(c, a)]) (gains c a ++ held).
Proof.
  intros (h & Hr & Hh) Hd Hn. exists (gains c a ++ h). split; [|by rewrite Hh].
  rewrite replay_snoc, Hr. simpl. unfold use. cbn [fst snd].
  rewrite bool_decide_eq_true_2; [by rewrite Hd|].
  eapply Forall_impl; [done|]. simpl. intros r. by rewrite Hh.
Qed.

Lemma remove_one_perm r l : r ∈ l → ∃ l', remove_one r l = Some l' ∧ l ≡ₚ r :: l'.
Proof.
  induction l as [|x l IH]; [by intros ?%elem_of_nil|]. intros Hr. simpl.
  case_decide as Hx; [subst; by exists l|].
  apply elem_of_cons in Hr as [->|Hr]; [done|]. destruct (IH Hr) as (l' & -> & Hp).
  exists (x :: l'). split; [done|]. rewrite Hp. apply Permutation_swap.
Qed.

Lemma holds_drop t held c a r :
  holds t (r :: held) → drops c = Some r → needs c = [] → holds (t ++ [(c, a)]) held.
Proof.
  intros (h & Hr & Hh) Hd Hn.
  destruct (remove_one_perm r h) as (h' & Hh' & Hp); [rewrite Hh; left|].
  exists h'. split.
  - rewrite replay_snoc, Hr. simpl. unfold use. cbn [fst snd]. by rewrite Hn, Hd.
  - rewrite Hp in Hh. by apply Permutation_cons_inv in Hh.
Qed.

(** A call that neither yields nor gives back anything. *)
Lemma holds_plain t held c a :
  holds t held → drops c = None → gains c a = [] → Forall (λ r, r ∈ held) (needs c) →
  holds (t ++ [(c, a)]) held.
Proof. intros Hh Hd Hg Hn. pose proof (holds_use t held c a Hh Hd Hn) as Hu. by rewrite Hg in Hu. Qed.

Lemma no_gain c a : match c with
  | CudaMalloc _ | NvrtcCreateProgram | CuModuleLoadDataEx | CuDevicePrimaryCtxRetain _ => False
  | _ => True end → gains c a = [].
Proof. unfold gains. by destruct (a_ok a), c. Qed.

(** ** Hoare triples over traces *)

Definition hoare {A} (Pre : Trace → Prop) (m : Trace → A * Trace) (Post : A → Trace → Prop) : Prop :=
  ∀ t, Pre t → Post (m t).1 (m t).2.

Lemma hoare_bind {A B} Pre Mid Post (m : Trace → A * Trace) (k : A → Trace → B * Trace) :
  hoare Pre m Mid → (∀ a, hoare (Mid a) (k a) Post) → hoare Pre (bind m k) Post.
Proof. intros Hm Hk t Ht. rewrite bind_eq. by apply Hk, Hm. Qed.

Lemma hoare_ret {A} (Pre : Trace → Prop) (a : A) (Post : A → Trace → Prop) :
  (∀ t, Pre t → Post a t) → hoare Pre (ret a) Post.
Proof. intros H t. apply H. Qed.

Lemma hoare_weaken {A} (Pre Pre' : Trace → Prop) (m : Trace → A * Trace) Post :
  hoare Pre m Post → (∀ t, Pre' t → Pre t) → hoare Pre' m Post.
Proof. intros Hm Hp t Ht. by apply Hm, Hp. Qed.

Lemma hoare_pure {A} (Q : Prop) (Pre : Trace → Prop) (m : Trace → A * Trace) Post :
  (Q → hoare Pre m Post) → hoare (λ t, Q ∧ Pre t) m Post.
Proof. intros H t [HQ Ht]. by apply H. Qed.

(** ** The middle part *)

Definition held_if (h : Z) (r : Resource) : list Resource := if h =? 0 then [] else [r].

Definition local_held (l : Local) : list Resource :=
  held_if (lv_in l) (Memory (lv_in l)) ++ held_if (lv_out l) (Memory (lv_out l)) ++
  held_if (lv_prog l) (Program (lv_prog l)) ++ held_if (lv_module l) (Module (lv_module l)).

(** The first [n] handles are set as long as nothing has failed, the others
    are not; an error is recorded exactly when something has failed. *)
Record stage (n : nat) (l : Local) : Prop := {
  sg_in : if decide (1 ≤ n)%nat then lv_ok l = true → lv_in l ≠ 0 else lv_in l = 0;
  sg_out : if decide (2 ≤ n)%nat then lv_ok l = true → lv_out l ≠ 0 else lv_out l = 0;
  sg_prog : if decide (3 ≤ n)%nat then lv_ok l = true → lv_prog l ≠ 0 else lv_prog l = 0;
  sg_module : if decide (4 ≤ n)%nat then lv_ok l = true → lv_module l ≠ 0 else lv_module l = 0;
  sg_error : vr_error (lv_res l) = EmptyString ↔ lv_ok l = true;
  sg_parity : parity (lv_res l) = false
}.

Section Checks.
Context (oracle : Oracle) (dev : Z).

(** What CUDA and NVRTC document: a call that succeeds yields no null handle. *)
Definition honest : Prop := ∀ t c,
  a_ok (oracle t c) = true →
  match c with
  | CudaMalloc _ | NvrtcCreateProgram | CuModuleLoadDataEx | CuDevicePrimaryCtxRetain _ =>
      a_value (oracle t c) ≠ 0
  | _ => True
  end.

Definition at_stage (n : nat) (l : Local) (t : Trace) : Prop :=
  stage n l ∧ holds t (Context dev :: local_held l).

Lemma stage_fail n m l : m ≠ EmptyString → stage n l → stage n (fail m l).
Proof. intros Hm []. split; simpl; repeat case_decide; try done; split; congruence. Qed.

Lemma stage_later n l : lv_ok l = false → stage n l → (n < 4)%nat → stage (S n) l.
Proof.
  intros Hok [] Hn. split; try done; rewrite Hok in *; repeat case_decide; done || lia.
Qed.

(** A step that only uses what is held. *)
Lemma attempt_use n c msg l :
  msg ≠ EmptyString → drops c = None → (∀ a, gains c a = []) →
  (stage n l → lv_ok l = true → Forall (λ r, r ∈ local_held l) (needs c)) →
  hoare (at_stage n l) (attempt oracle c msg keep_none l) (at_stage n).
Proof.
  intros Hmsg Hd Hg Hn t [Hs Hh]. unfold attempt. destruct (lv_ok l) eqn:Hok; [|done].
  cbn [negb]. rewrite bind_eq. cbn [call fst snd ret].
  assert (holds (t ++ [(c, oracle t c)]) (Context dev :: local_held l)) as Hh'.
  { pose proof (holds_use t _ c (oracle t c) Hh Hd) as Hu. rewrite Hg in Hu. apply Hu.
    eapply Forall_impl; [by apply Hn|]. intros. by right. }
  destruct (a_ok _); (split; [|done]); [done|]. by apply stage_fail.
Qed.

(** A step that acquires the next handle. *)
Lemma attempt_gain n c msg keep l (r : Z → Resource) :
  msg ≠ EmptyString → (n < 4)%nat → drops c = None → needs c = [] →
  (∀ a, gains c a = if a_ok a then [r (a_value a)] else []) →
  (∀ t, a_ok (oracle t c) = true → a_value (oracle t c) ≠ 0) →
  (∀ v, v ≠ 0 → stage n l → lv_ok l = true →
    stage (S n) (keep v l) ∧ local_held (keep v l) ≡ₚ r v :: local_held l) →
  hoare (at_stage n l) (attempt oracle c msg keep l) (at_stage (S n)).
Proof.
  intros Hmsg Hn4 Hd Hneed Hg Hnz Hk t [Hs Hh]. unfold attempt. destruct (lv_ok l) eqn:Hok.
  2: { split; [by apply stage_later|done]. }
  cbn [negb]. rewrite bind_eq. cbn [call fst snd ret].
  pose proof (holds_use t _ c (oracle t c) Hh Hd) as Hu. rewrite Hg, Hneed in Hu.
  specialize (Hu (Forall_nil_2 _)). specialize (Hnz t).
  destruct (a_ok _).
  - destruct (Hk (a_value (oracle t c))) as [Hs' Hp]; [by apply Hnz|done|done|]. split; [done|].
    rewrite Hp, Permutation_swap. exact Hu.
  - split; [|exact Hu]. apply stage_later; [done|by apply stage_fail|done].
Qed.

(** Presence of the handles of the stage. *)
Lemma held_memory n l : stage n l → lv_ok l = true → (2 ≤ n)%nat →
  Memory (lv_in l) ∈ local_held l ∧ Memory (lv_out l) ∈ local_held l.
Proof.
  intros [Hi Ho _ _ _ _] Hok Hn. rewrite decide_True in Hi by lia. rewrite decide_True in Ho by lia. unfold local_held, held_if.
  rewrite (proj2 (Z.eqb_neq _ _) (Hi Hok)), (proj2 (Z.eqb_neq _ _) (Ho Hok)). set_solver.
Qed.

Lemma held_program n l : stage n l → lv_ok l = true → (3 ≤ n)%nat →
  Program (lv_prog l) ∈ local_held l.
Proof.
  intros [_ _ Hp _ _ _] Hok Hn. rewrite decide_True in Hp by lia. unfold local_held, held_if.
  rewrite (proj2 (Z.eqb_neq (lv_prog l) _) (Hp Hok)). set_solver.
Qed.

Lemma held_module n l : stage n l → lv_ok l = true → (4 ≤ n)%nat →
  Module (lv_module l) ∈ local_held l.
Proof.
  intros [_ _ _ Hm _ _] Hok Hn. rewrite decide_True in Hm by lia. unfold local_held, held_if.
  rewrite (proj2 (Z.eqb_neq (lv_module l) _) (Hm Hok)). set_solver.
Qed.

Lemma stage_on_allocated n b l : stage n l → stage n (on_res (set_allocated b) l).
Proof. intros []. by split. Qed.

Lemma stage_set_kernel n v l : stage n l → stage n (set_kernel v l).
Proof. intros []. by split. Qed.

(** [cuModuleGetFunction] keeps a handle that is no resource. *)
Lemma attempt_function l :
  hoare (at_stage 4 l)
    (attempt oracle (CuModuleGetFunction (lv_module l)) "cuModuleGetFunction failed" set_kernel l)
    (at_stage 4).
Proof.
  intros t [Hs Hh]. unfold attempt. destruct (lv_ok l) eqn:Hok; [|done].
  cbn [negb]. rewrite bind_eq. cbn [call fst snd ret].
  assert (holds (t ++ [(CuModuleGetFunction (lv_module l), oracle t (CuModuleGetFunction (lv_module l)))])
    (Context dev :: local_held l)) as Hu.
  { apply holds_plain; try done; [by apply no_gain|]. apply Forall_singleton. right. by eapply held_module. }
  destruct (a_ok _); (split; [|done]); [by apply stage_set_kernel|by apply stage_fail].
Qed.

Lemma attempt_compile_ok l :
  hoare (at_stage 3 l) (attempt_compile oracle l) (at_stage 3).
Proof.
  intros t [Hs Hh]. unfold attempt_compile. destruct (lv_ok l) eqn:Hok; [|done].
  assert (Program (lv_prog l) ∈ Context dev :: local_held l) as Hin
    by (right; by eapply held_program).
  assert (∀ t' c, holds t' (Context dev :: local_held l) → needs c = [Program (lv_prog l)] →
    drops c = None → (∀ a, gains c a = []) →
    holds (t' ++ [(c, oracle t' c)]) (Context dev :: local_held l)) as Hcall.
  { intros t' c Ht' Hn Hd Hg. apply holds_plain; [done|done|by apply Hg|by rewrite Hn; apply Forall_singleton]. }
  cbn [negb]. rewrite bind_eq. cbn [call fst snd].
  assert (∀ c a, needs c = [Program (lv_prog l)] → gains c a = []) as Hgain.
  { intros [] a; try done; intros _; by apply no_gain. }
  destruct (a_ok _); cbn [ret fst snd]; [by split; [|apply Hcall; auto]|].
  rewrite !bind_eq. cbn [call fst snd ret].
  split; [by apply stage_fail|]. by repeat (apply Hcall; [|done|done|by intros; apply Hgain]).
Qed.

(** From the comparison on, no error is recorded exactly when it succeeded. *)
Lemma attempt_parity_ok l :
  hoare (at_stage 4 l) (attempt_parity oracle l)
    (λ l' t, (vr_error (lv_res l') = EmptyString ↔ parity (lv_res l') = true) ∧
             holds t (Context dev :: local_held l')).
Proof.
  intros t [Hs Hh]. unfold attempt_parity. destruct (lv_ok l) eqn:Hok.
  2: { cbn [negb ret fst snd]. split; [|done]. destruct Hs as [_ _ _ _ He Hpar]. by rewrite He, Hpar, Hok. }
  cbn [negb]. rewrite bind_eq. cbn [call fst snd ret]. set (a := oracle t _).
  assert (holds (t ++ [(CudaMemcpyDeviceToHost (lv_out l) parity_bytes, a)])
    (Context dev :: local_held l)) as Hu.
  { apply holds_plain; try done; [by apply no_gain|]. apply Forall_singleton. right.
    apply (held_memory 4); done || lia. }
  destruct (a_ok a); (split; [|done]).
  - simpl. destruct Hs as [_ _ _ _ He _]. destruct (all_equal _); [|done].
    rewrite He. by rewrite Hok.
  - destruct Hs as [_ _ _ _ _ Hpar]. cbn. rewrite Hpar. done.
Qed.

(** The four acquisitions. *)
#[local] Ltac acquire Hhonest c r :=
  eapply (attempt_gain _ _ _ _ _ r); try done; [lia|intros t; exact (Hhonest t c)|];
  intros v Hv [? ? ? ? ? ?] Hok; simpl in *; split;
    [split; simpl; done|unfold local_held, held_if; simpl; rewrite (proj2 (Z.eqb_neq v 0) Hv);
      repeat match goal with H : _ = 0 |- _ => rewrite H; clear H end; simpl;
      solve_Permutation].

Lemma acquire_in l b msg : honest → msg ≠ EmptyString →
  hoare (at_stage 0 l) (attempt oracle (CudaMalloc b) msg set_in l) (at_stage 1).
Proof. intros Hhonest Hm. acquire Hhonest (CudaMalloc b) Memory. Qed.

Lemma acquire_out l b msg : honest → msg ≠ EmptyString →
  hoare (at_stage 1 l) (attempt oracle (CudaMalloc b) msg set_out l) (at_stage 2).
Proof. intros Hhonest Hm. acquire Hhonest (CudaMalloc b) Memory. Qed.

Lemma acquire_prog l msg : honest → msg ≠ EmptyString →
  hoare (at_stage 2 l) (attempt oracle NvrtcCreateProgram msg set_prog l) (at_stage 3).
Proof. intros Hhonest Hm. acquire Hhonest NvrtcCreateProgram Program. Qed.

Lemma acquire_module l msg : honest → msg ≠ EmptyString →
  hoare (at_stage 3 l) (attempt oracle CuModuleLoadDataEx msg set_module l) (at_stage 4).
Proof. intros Hhonest Hm. acquire Hhonest CuModuleLoadDataEx Module. Qed.

(** A step on what the stage holds. *)
#[local] Ltac use_held :=
  apply attempt_use; try done; try (intros a; by apply no_gain);
  intros Hs Hok; repeat apply Forall_cons_2; try apply Forall_nil_2;
  first [eapply held_memory; done || lia | by eapply held_program; try lia
        | by eapply held_module; try lia].

Lemma exercise_ok res :
  honest → vr_error res = EmptyString → parity res = false →
  hoare (λ t, holds t [Context dev]) (exercise oracle res)
    (λ l' t, (vr_error (lv_res l') = EmptyString ↔ parity (lv_res l') = true) ∧
             holds t (Context dev :: local_held l')).
Proof.
  intros Hhonest He Hp.
  apply (hoare_weaken (at_stage 0 (mkLocal true res 0 0 0 0 0))).
  2: { intros t Ht. split; [|done]. by split. }
  unfold exercise.
  eapply hoare_bind; [by apply acquire_in|intros l1].
  eapply hoare_bind; [by apply acquire_out|intros l2].
  eapply hoare_bind; [use_held|intros l3].
  apply (hoare_weaken (at_stage 2 (on_res (set_allocated (if lv_ok l3 then parity_bytes * 2 else 0)) l3))).
  2: { intros t [Hs Ht]. split; [by apply stage_on_allocated|done]. }
  eapply hoare_bind; [by apply acquire_prog|intros l4].
  eapply hoare_bind; [apply attempt_compile_ok|intros l5].
  eapply hoare_bind; [use_held|intros l6].
  eapply hoare_bind; [use_held|intros l7].
  eapply hoare_bind; [by apply acquire_module|intros l8].
  eapply hoare_bind; [apply attempt_function|intros l9].
  eapply hoare_bind; [use_held|intros l10].
  eapply hoare_bind; [use_held|intros l11].
  apply attempt_parity_ok.
Qed.

(** Releasing a handle that may be null. *)
Lemma release_ok h c r held :
  drops c = Some r → needs c = [] →
  hoare (λ t, holds t (held_if h r ++ held)) (release oracle h c) (λ _ t, holds t held).
Proof.
  intros Hd Hn t Ht. unfold release, held_if in *. destruct (h =? 0); [done|].
  rewrite bind_eq. cbn [call ret fst snd]. by eapply holds_drop.
Qed.

Lemma clean_up_ok ctx l :
  ctx ≠ 0 → (vr_error (lv_res l) = EmptyString ↔ parity (lv_res l) = true) →
  hoare (λ t, holds t (Context dev :: local_held l)) (clean_up oracle dev ctx l)
    (λ res t, (vr_error res = EmptyString ↔ parity res = true) ∧ holds t []).
Proof.
  intros Hctx He. unfold clean_up.
  apply (hoare_weaken (λ t, holds t (held_if (lv_in l) (Memory (lv_in l)) ++
    held_if (lv_out l) (Memory (lv_out l)) ++ held_if (lv_prog l) (Program (lv_prog l)) ++
    held_if (lv_module l) (Module (lv_module l)) ++ [Context dev]))).
  2: { intros t Ht. eapply holds_proper; [|exact Ht]. unfold local_held. solve_Permutation. }
  eapply hoare_bind; [by apply release_ok|intros ?].
  eapply hoare_bind; [by apply release_ok|intros ?].
  eapply hoare_bind; [by apply release_ok|intros ?].
  eapply hoare_bind; [by apply release_ok|intros ?].
  eapply (hoare_bind _ (λ _ t, holds t [Context dev])).
  { intros t Ht. by apply holds_plain; [|done|by apply no_gain|constructor]. }
  intros info. eapply (hoare_bind _ (λ _ t, holds t [])).
  - apply (hoare_weaken (λ t, holds t (held_if ctx (Context dev) ++ []))); [by apply release_ok|].
    intros t. unfold held_if. by rewrite (proj2 (Z.eqb_neq ctx 0) Hctx).
  - intros _. apply hoare_ret. by intros t Ht.
Qed.
End Checks.

Lemma with_context_ok oracle res :
  honest oracle → vr_error res = EmptyString → parity res = false →
  hoare (λ t, holds t []) (with_context oracle res)
    (λ res' t, (vr_error res' = EmptyString ↔ parity res' = true) ∧ holds t []).
Proof.
  intros Hhonest He Hp t Ht. unfold with_context.
  rewrite bind_eq. cbn [call fst snd].
  apply (holds_plain _ _ CuInit (oracle t CuInit)) in Ht;
    [|done|by apply no_gain|constructor].
  destruct (a_ok (oracle t CuInit)); [|by split; [simpl; by rewrite Hp|]].
  set (t1 := t ++ _) in *. cbn [negb]. rewrite bind_eq. cbn [call fst snd].
  apply (holds_plain _ _ (CuDeviceGet 0) (oracle t1 (CuDeviceGet 0))) in Ht;
    [|done|by apply no_gain|constructor].
  destruct (a_ok (oracle t1 (CuDeviceGet 0))); [|by split; [simpl; by rewrite Hp|]].
  set (dev := a_value _). set (t2 := t1 ++ _) in *. cbn [negb]. rewrite bind_eq. cbn [call fst snd].
  set (retain := CuDevicePrimaryCtxRetain dev).
  apply (holds_use _ _ retain (oracle t2 retain)) in Ht; [|done|constructor].
  pose proof (Hhonest t2 retain) as Hnz. unfold gains in Ht. cbn [retain] in Hnz, Ht.
  destruct (a_ok (oracle t2 retain)); [|by split; [simpl; by rewrite Hp|]].
  set (t3 := t2 ++ _) in *. cbn [negb]. rewrite bind_eq. cbn [call fst snd].
  set (current := CuCtxSetCurrent _).
  apply (holds_plain _ _ current (oracle t3 current)) in Ht;
    [|done|by apply no_gain|constructor].
  destruct (a_ok (oracle t3 current)); cbn [negb].
  - revert Ht. generalize (t3 ++ [(current, oracle t3 current)]). intros t4 Ht.
    rewrite bind_eq. destruct (exercise_ok oracle dev res Hhonest He Hp t4 Ht) as [Hl Ht'].
    apply clean_up_ok; [by apply Hnz|done|done].
  - rewrite bind_eq. cbn [call ret fst snd]. split; [simpl; by rewrite Hp|].
    by eapply holds_drop.
Qed.

Lemma self_check_ok oracle :
  honest oracle →
  hoare (λ t, holds t []) (run_cuda_self_check oracle)
    (λ r t, ∃ v, r = Ok v ∧ (vr_error v = EmptyString ↔ parity v = true) ∧ holds t []).
Proof.
  intros Hhonest t Ht. unfold run_cuda_self_check. rewrite bind_eq. cbn [call fst snd].
  apply (holds_plain _ _ CudaGetDeviceCount (oracle t CudaGetDeviceCount)) in Ht;
    [|done|by apply no_gain|constructor].
  destruct (a_ok (oracle t CudaGetDeviceCount)); [|by eexists].
  set (t1 := t ++ _) in *. cbn [negb]. rewrite bind_eq. cbn [call fst snd].
  apply (holds_plain _ _ CudaGetDeviceCount (oracle t1 CudaGetDeviceCount)) in Ht;
    [|done|by apply no_gain|constructor].
  destruct (a_ok (oracle t1 CudaGetDeviceCount)); [|by eexists].
  set (n := a_value _). set (t2 := t1 ++ _) in *. cbn [negb]. rewrite bind_eq.
  match goal with |- context [fst ((if 0 <? n then ?m else ?k) t2)] =>
    set (props := (if 0 <? n then m else k) t2) end.
  assert (holds props.2 []) as Ht3.
  { unfold props. destruct (0 <? n); [|done]. rewrite bind_eq. cbn [call ret fst snd].
    by apply holds_plain; [|done|by apply no_gain|constructor]. }
  destruct props as [prop t3]. cbn [fst snd] in *. rewrite bind_eq. cbn [call fst snd].
  apply (holds_plain _ _ CudaMemGetInfo (oracle t3 CudaMemGetInfo)) in Ht3;
    [|done|by apply no_gain|constructor].
  destruct (a_ok (oracle t3 CudaMemGetInfo)); [|by eexists].
  cbn [negb]. rewrite bind_eq.
  match goal with |- context [with_context oracle ?res ?t4] =>
    destruct (with_context_ok oracle res Hhonest eq_refl eq_refl t4 Ht3) as [He Hh] end.
  by eexists.
Qed.

(** C22.  The CUDA self-check manages its resources: however CUDA, NVRTC and the
    driver answer, each call that uses or releases a resource (a device buffer,
    a program, a module, the primary context) names one that is held at that
    point, and on return nothing is held: no leak, no use after release, no
    double release, on any of the error paths.  It always returns a result, and
    the result reports no error exactly when the kernel's output matched the
    CPU reference. *)
Theorem self_check_balanced oracle :
  honest oracle →
  ∃ v, (run_cuda_self_check oracle []).1 = Ok v ∧
    (vr_error v = EmptyString ↔ parity v = true) ∧
    replay [] (run_cuda_self_check oracle []).2 = Some [].
Proof.
  intros Hhonest. destruct (self_check_ok oracle Hhonest []) as (v & Hv & He & (h & Hr & Hh)).
  { by exists []. }
  apply Permutation_nil_r in Hh. subst h. by exists v.
Qed.

(** A machine on which everything works until the module is loaded. *)
Definition broken_loader : Oracle := λ t c,
  match c with
  | CuModuleLoadDataEx => mkAnswer false 0 "" (λ _, f32_of_Z 0)
  | _ => mkAnswer true (100 + Z.of_nat (length t)) "GPU" (λ _, f32_of_Z 0)
  end.

Lemma broken_loader_honest : honest broken_loader.
Proof. intros t c. destruct c; simpl; try done; intros _; lia. Qed.

Lemma self_check_balanced_witness :
  length (run_cuda_self_check broken_loader []).2 = 21%nat ∧
  ∃ v, (run_cuda_self_check broken_loader []).1 = Ok v ∧
    (vr_error v = EmptyString ↔ parity v = true) ∧
    replay [] (run_cuda_self_check broken_loader []).2 = Some [].
Proof.
  split; [vm_compute; reflexivity|].
  apply (self_check_balanced broken_loader), broken_loader_honest.
Defined.
