(* ===== verification/Inspect.v ===== *)
(** * The inspection tool (tools/nvlink_fabric_inspect.cpp)

    [main] as a function of its arguments: it loads a registry from a backend,
    answers one command and exits.  What it prints is a string. *)

From S2P Require Import Prelude Enums Double Records World Registry RegistryFacts Paths.
From S2P Require Import Quality Route Bytes Text Json Backends Nvidia.
From Stdlib Require Import Ascii.

(** How the process ends, and what it has printed; an exception is uncaught. *)
Inductive Exit := Exited (code : Z) (out : string) | Uncaught.

(** ** Arguments *)
Record Args := mkArgs { ar_backend : string; ar_json : bool; ar_rest : list string }.

Fixpoint parse_args (argv : list string) (a : Args) : Args :=
  match argv with
  | [] => a
  | x :: argv' =>
      if bool_decide (x = "--backend"%string) then
        match argv' with
        | v :: argv'' => parse_args argv'' (mkArgs v (ar_json a) (ar_rest a))
        | [] => a
        end
      else if bool_decide (x = "--json"%string) then
        parse_args argv' (mkArgs (ar_backend a) true (ar_rest a))
      else parse_args argv' (mkArgs (ar_backend a) (ar_json a) (ar_rest a ++ [x]))
  end.

(** ** Loading *)

(** The measurement published with the fixture. *)
Definition inspect_measurement (id : Z) : MeasurementRecord :=
  mkMeasurement id 1000 1001 (4 * 1024 * 1024) 8 2 8 (meas_bytes_verified default_measurement)
    (d_of_Z 360000000000) (ddiv (d_of_Z 7) (d_of_Z 1000000))
    (meas_warmup_separated default_measurement) true (meas_contended default_measurement)
    (meas_method default_measurement) (meas_path_note default_measurement)
    (mkEvidence EvidenceClass.SYNTHETIC
       (Provenance.prov_or Provenance.BENCHMARK Provenance.SYNTHETIC_FIXTURE)
       "synthetic" "synthetic measurement")
    (meas_measured_at default_measurement) true (meas_stale default_measurement)
    (meas_revalidation_required default_measurement) None None.

Section Main.
Context {P : Platform}.
(** The CUDA driver, when the tool is built with the NVIDIA backend. *)
Context (nvidia : option Driver).

Definition load_synthetic (r : Registry) : M (Exit + Registry) :=
  let* loaded := populate inspect_spec r in
  match loaded with
  | None => ret (inl Uncaught)
  | Some r =>
      let* id := fresh_id MeasurementTag in
      let* '(_, r) := publish_measurement (inspect_measurement id) r in
      ret (inr r)
  end.

Definition load_nop (r : Registry) : M (Exit + Registry) :=
  let* devs := discover_devices make_nop_backend in
  match devs with
  | Err _ => ret (inl Uncaught)
  | Ok devs => let* r := upsert_all upsert_device devs r in ret (inr r)
  end.

Definition load_nvidia (dr : Driver) (r : Registry) : M (Exit + Registry) :=
  match make_nvidia_backend dr with
  | Err e => ret (inl (Exited 3
      ("nvidia backend unavailable: " +:+ c_str (error_to_string e) +:+ nl)))
  | Ok b =>
      let* devs := discover_devices b in
      match devs with
      | Err e => ret (inl (Exited 3
          ("nvidia device discovery failed: " +:+ c_str (error_to_string e) +:+ nl)))
      | Ok devs =>
          let* r := upsert_all upsert_device devs r in
          let* lks := discover_links b devs in
          match lks with
          | Err _ => ret (inl Uncaught)
          | Ok lks => let* r := upsert_all upsert_link lks r in ret (inr r)
          end
      end
  end.

Definition load_backend (backend : string) (r : Registry) : M (Exit + Registry) :=
  if bool_decide (backend = "synthetic"%string) then load_synthetic r
  else if bool_decide (backend = "nop"%string) then load_nop r
  else
    let unknown := ret (inl (Exited 2 ("unknown backend: " +:+ c_str backend +:+ nl))) in
    if bool_decide (backend = "nvidia"%string) then
      match nvidia with Some dr => load_nvidia dr r | None => unknown end
    else unknown.

(** ** Answers in JSON *)

(** [,"k":] and the pieces around a string value. *)
Definition key (k : string) : string := "," +:+ quote +:+ k +:+ quote +:+ ":".
Definition quoted (s : string) : string := quote +:+ s +:+ quote.
Definition bit (b : bool) : string := if b then "1" else "0".

Definition device_json (d : DeviceRecord) : string :=
  key "device" +:+ "{" +:+ quoted "id" +:+ ":" +:+ dec (dev_id d) +:+
  key "name" +:+ quoted (jesc (dev_logical_name d)) +:+
  key "arch" +:+ quoted (jesc (dev_architecture d)) +:+
  key "health" +:+ quoted (DeviceHealthState.device_health_name (dev_health d)) +:+
  key "evidence" +:+
  quoted (EvidenceClass.evidence_class_name (evidence_class (dev_evidence d))) +:+ "}".

Definition link_json (l : LinkRecord) : string :=
  key "link" +:+ "{" +:+ quoted "id" +:+ ":" +:+ dec (lk_id l) +:+
  key "src" +:+ dec (lk_source l) +:+
  key "tgt" +:+ dec (lk_target l) +:+
  key "state" +:+ quoted (LinkOperationalState.link_state_name (lk_state l)) +:+
  key "tech" +:+ quoted (InterconnectTechnology.interconnect_technology_name (lk_technology l)) +:+
  key "evidence" +:+
  quoted (EvidenceClass.evidence_class_name (evidence_class (lk_evidence l))) +:+ "}".

Definition path_json (p : Path) : string :=
  key "path" +:+ "{" +:+ quoted "id" +:+ ":" +:+ dec (path_id_ p) +:+
  key "hops" +:+ dec (path_hop_count p) +:+
  key "direct" +:+ bit (path_direct p) +:+ "}".

(** [j += ...] over a vector. *)
Definition append_all {A} (f : A → string) (l : list A) : string :=
  foldr (λ x s, f x +:+ s) EmptyString l.

(** What the command adds to the text, or how it ends the process. *)
Definition json_details (cmd : string) (args : list string) (snap : TopologySnapshot)
    (r : Registry) : M (Exit + string) :=
  if bool_decide (cmd = "devices"%string) then
    ret (inr (append_all device_json (snap_devices snap)))
  else if bool_decide (cmd = "links"%string) then
    ret (inr (append_all link_json (snap_links snap)))
  else if bool_decide (cmd = "topology"%string) then
    ret (inr (key "devices" +:+ dec (zlen (snap_devices snap)) +:+
              key "links" +:+ dec (zlen (snap_links snap))))
  else if bool_decide (cmd = "paths"%string) || bool_decide (cmd = "route"%string) then
    match args with
    | s :: t :: _ =>
        let src := strtoull s in let tgt := strtoull t in
        if bool_decide (cmd = "paths"%string) then
          let* paths := enumerate_paths src tgt r in
          ret (match paths with
               | Err e => inl (Exited 4
                   ("path enumeration error: " +:+ c_str (error_to_string e) +:+ nl))
               | Ok ps => inr (append_all path_json ps)
               end)
        else
          let* d := decide_route src tgt default_policy r r in
          ret (match d with
               | Err e => inl (Exited 4 ("route error: " +:+ c_str (error_to_string e) +:+ nl))
               | Ok d => inr
                   (key "outcome" +:+
                    quoted (RouteDecisionOutcome.route_outcome_name (rd_outcome d)) +:+
                    key "executable" +:+ bit (rd_executable d) +:+
                    key "explanation" +:+ quoted (jesc (rd_explanation d)))
               end)
    | _ => ret (inl (Exited 2 ("paths/route requires SRC TGT" +:+ nl)))
    end
  else if bool_decide (cmd = "status"%string) then
    ret (inr (key "devices" +:+ dec (zlen (snap_devices snap)) +:+
              key "links" +:+ dec (zlen (snap_links snap)) +:+
              key "measurements" +:+ dec (measurement_count r)))
  else ret (inl (Exited 2 ("unknown command: " +:+ c_str cmd +:+ nl))).

Definition json_head (backend cmd : string) (r : Registry) : string :=
  "{" +:+ quoted "backend" +:+ ":" +:+ quoted (jesc backend) +:+
  key "topology_gen" +:+ dec (topology_generation r) +:+
  key "cmd" +:+ quoted (jesc cmd).

Definition inspect_json (backend cmd : string) (args : list string) (r : Registry) : M Exit :=
  let* snap := snapshot r in
  let* details := json_details cmd args snap r in
  ret (match details with
       | inl e => e
       | inr s => Exited 0 (c_str (json_head backend cmd r +:+ s) +:+ "}" +:+ nl)
       end).

(** ** Answers in text *)

Definition device_text (d : DeviceRecord) : string :=
  "  device id=" +:+ dec (dev_id d) +:+ " name=" +:+ c_str (dev_logical_name d) +:+
  " arch=" +:+ c_str (dev_architecture d) +:+
  " health=" +:+ DeviceHealthState.device_health_name (dev_health d) +:+
  " evidence=" +:+ c_str (describe (dev_evidence d)) +:+ nl.

Definition link_text (l : LinkRecord) : string :=
  "  link id=" +:+ dec (lk_id l) +:+ " src=" +:+ dec (lk_source l) +:+
  " tgt=" +:+ dec (lk_target l) +:+
  " state=" +:+ LinkOperationalState.link_state_name (lk_state l) +:+
  " tech=" +:+ InterconnectTechnology.interconnect_technology_name (lk_technology l) +:+
  " evidence=" +:+ c_str (describe (lk_evidence l)) +:+ nl.

Definition rejected_text (rc : RejectedCandidate) : string :=
  "  rejected path=" +:+ dec (rc_path rc) +:+
  " reason=" +:+ RouteRejectionReason.rejection_reason_name (rc_reason rc) +:+
  " (" +:+ c_str (rc_detail rc) +:+ ")" +:+ nl.

Fixpoint paths_text (ps : list Path) (r : Registry) : M string :=
  match ps with
  | [] => ret EmptyString
  | p :: ps' => let* s := explain_path p r in let* rest := paths_text ps' r in
                ret ("  " +:+ c_str s +:+ nl +:+ rest)
  end.

(** The exit code, and the lines. *)
Definition text_details (cmd : string) (args : list string) (snap : TopologySnapshot)
    (r : Registry) : M (Z * string) :=
  if bool_decide (cmd = "devices"%string) then ret (0, append_all device_text (snap_devices snap))
  else if bool_decide (cmd = "links"%string) then ret (0, append_all link_text (snap_links snap))
  else if bool_decide (cmd = "topology"%string) then
    ret (0, "  devices=" +:+ dec (zlen (snap_devices snap)) +:+
            " links=" +:+ dec (zlen (snap_links snap)) +:+ nl)
  else if bool_decide (cmd = "paths"%string) || bool_decide (cmd = "route"%string) then
    match args with
    | s :: t :: _ =>
        let src := strtoull s in let tgt := strtoull t in
        if bool_decide (cmd = "paths"%string) then
          let* paths := enumerate_paths src tgt r in
          match paths with
          | Err e => ret (4, "path enumeration error: " +:+ c_str (error_to_string e) +:+ nl)
          | Ok ps => let* s := paths_text ps r in ret (0, s)
          end
        else
          let* d := decide_route src tgt default_policy r r in
          ret (match d with
               | Err e => (4, "route error: " +:+ c_str (error_to_string e) +:+ nl)
               | Ok d =>
                   (0, "  outcome=" +:+ RouteDecisionOutcome.route_outcome_name (rd_outcome d) +:+
                       " executable=" +:+ bit (rd_executable d) +:+ nl +:+
                       "  explanation: " +:+ c_str (rd_explanation d) +:+ nl +:+
                       append_all rejected_text (rd_rejected d))
               end)
    | _ => ret (2, "paths/route requires SRC TGT" +:+ nl)
    end
  else if bool_decide (cmd = "status"%string) then
    ret (0, "  topology_generation=" +:+ dec (topology_generation r) +:+
            " devices=" +:+ dec (zlen (snap_devices snap)) +:+
            " links=" +:+ dec (zlen (snap_links snap)) +:+
            " measurements=" +:+ dec (measurement_count r) +:+ nl)
  else ret (2, "unknown command: " +:+ c_str cmd +:+ nl).

Definition inspect_text (backend cmd : string) (args : list string) (r : Registry) : M Exit :=
  let* snap := snapshot r in
  let head := "=== " +:+ c_str cmd +:+ " (backend=" +:+ c_str backend +:+
              ", topology_generation=" +:+ dec (topology_generation r) +:+ ") ===" +:+ nl in
  let* '(code, s) := text_details cmd args snap r in
  ret (Exited code (head +:+ s)).

(** ** [main]: [argv] is the program name and the arguments *)
Definition usage : string :=
  "usage: nvlink_fabric_inspect <cmd> [SRC TGT] [--backend synthetic|nvidia|nop] [--json]" +:+ nl +:+
  "cmds: devices links topology paths SRC TGT route SRC TGT status" +:+ nl.

Definition inspect_main (argv : list string) : M Exit :=
  match argv with
  | _ :: cmd :: rest =>
      let a := parse_args rest (mkArgs "synthetic" false []) in
      let* loaded := load_backend (ar_backend a) (new_registry default_limits) in
      match loaded with
      | inl e => ret e
      | inr r =>
          if ar_json a then inspect_json (ar_backend a) cmd (ar_rest a) r
          else inspect_text (ar_backend a) cmd (ar_rest a) r
      end
  | _ => ret (Exited 2 usage)
  end.
End Main.
