(* ===== verification/InspectProps.v ===== *)
(** * The inspection tool: what it prints

    The JSON text is a JSON text, of exactly the values the registry holds;
    and the process always ends with one of its documented exit codes. *)

From S2P Require Import Prelude Enums Double Records World Registry RegistryFacts RegistryProps.
From S2P Require Import Paths PathsFacts Quality Route RouteFacts Governance WorkerClient.
From S2P Require Import Fixtures Bytes Text Json Backends Nvidia Inspect.
From Stdlib Require Import Ascii.

(** ** Text without null characters *)

Lemma no_nul_jesc s : no_nul (jesc s).
Proof.
  induction s as [|c s IH]; [done|]. cbn [jesc]. apply no_nul_app; [|done].
  destruct c as [[] [] [] [] [] [] [] []]; exact I.
Qed.

Lemma no_nul_jstring s : no_nul (jstring s).
Proof. unfold jstring. by repeat apply no_nul_app; try apply no_nul_jesc. Qed.

Lemma no_nul_render j : no_nul (render j).
Proof.
  induction j as [s|v|ms IH] using json_members_ind; [apply no_nul_jstring|apply no_nul_dec|].
  cbn [render]. apply no_nul_app; [exact I|]. generalize true.
  induction IH as [|[k v] ms Hv _ IHms]; intros b; [exact I|]. cbn [members].
  apply no_nul_app; [by destruct b|]. apply no_nul_app; [apply no_nul_jstring|].
  apply no_nul_app; [exact I|]. apply no_nul_app; [exact Hv|apply IHms].
Qed.

(** ** The members each command answers with *)

Definition device_object (d : DeviceRecord) : string * json :=
  ("device"%string, JObject
    [("id"%string, JNumber (dev_id d));
     ("name"%string, JString (dev_logical_name d));
     ("arch"%string, JString (dev_architecture d));
     ("health"%string, JString (DeviceHealthState.device_health_name (dev_health d)));
     ("evidence"%string,
       JString (EvidenceClass.evidence_class_name (evidence_class (dev_evidence d))))]).

Definition link_object (l : LinkRecord) : string * json :=
  ("link"%string, JObject
    [("id"%string, JNumber (lk_id l));
     ("src"%string, JNumber (lk_source l));
     ("tgt"%string, JNumber (lk_target l));
     ("state"%string, JString (LinkOperationalState.link_state_name (lk_state l)));
     ("tech"%string,
       JString (InterconnectTechnology.interconnect_technology_name (lk_technology l)));
     ("evidence"%string,
       JString (EvidenceClass.evidence_class_name (evidence_class (lk_evidence l))))]).

Definition json_bool (b : bool) : json := JNumber (if b then 1 else 0).

Definition path_object (p : Path) : string * json :=
  ("path"%string, JObject
    [("id"%string, JNumber (path_id_ p));
     ("hops"%string, JNumber (path_hop_count p));
     ("direct"%string, json_bool (path_direct p))]).

Definition decision_members (d : RouteDecision) : list (string * json) :=
  [("outcome"%string, JString (RouteDecisionOutcome.route_outcome_name (rd_outcome d)));
   ("executable"%string, json_bool (rd_executable d));
   ("explanation"%string, JString (rd_explanation d))].

Section Answers.
Context {P : Platform}.

(** What a command has to say of a registry: [answers cmd args r w ms] when
    [ms] are the members of its answer, the library being called in world [w]. *)
Inductive answers (r : Registry) (w : World) (args : list string)
    : string → list (string * json) → Prop :=
| answers_devices : answers r w args "devices" (device_object <$> sorted_devices (state_ r))
| answers_links : answers r w args "links" (link_object <$> sorted_links (state_ r))
| answers_topology : answers r w args "topology"
    [("devices"%string, JNumber (device_count r)); ("links"%string, JNumber (link_count r))]
| answers_paths s t rest ps :
    args = s :: t :: rest → (enumerate_paths (strtoull s) (strtoull t) r w).1 = Ok ps →
    answers r w args "paths" (path_object <$> ps)
| answers_route s t rest d :
    args = s :: t :: rest →
    (decide_route (strtoull s) (strtoull t) default_policy r r w).1 = Ok d →
    answers r w args "route" (decision_members d)
| answers_status : answers r w args "status"
    [("devices"%string, JNumber (device_count r)); ("links"%string, JNumber (link_count r));
     ("measurements"%string, JNumber (measurement_count r))].

Definition answer_head (backend cmd : string) (r : Registry) : list (string * json) :=
  [("backend"%string, JString backend); ("topology_gen"%string, JNumber (topology_generation r));
   ("cmd"%string, JString cmd)].

(** ** The registry's numbers are natural *)
Record natural (r : Registry) : Prop := {
  nat_limit : 0 ≤ max_candidate_paths (limits_ r);
  nat_gen : 0 ≤ topology_generation r;
  nat_devices : map_Forall (λ _ d, 0 ≤ dev_id d) (devices (state_ r));
  nat_links : map_Forall (λ _ l, 0 ≤ lk_id l ∧ 0 ≤ lk_source l ∧ 0 ≤ lk_target l) (links (state_ r))
}.

Lemma natural_new lim : 0 ≤ max_candidate_paths lim → natural (new_registry lim).
Proof. by split. Qed.

Lemma natural_commit r next o :
  0 ≤ max_candidate_paths (limits_ r) →
  map_Forall (λ _ d, 0 ≤ dev_id d) (devices next) →
  map_Forall (λ _ l, 0 ≤ lk_id l ∧ 0 ≤ lk_source l ∧ 0 ≤ lk_target l) (links next) →
  natural (commit_topology r next o).2.
Proof.
  intros Hm Hd Hl. split; simpl; [done| |done|].
  - apply wrap64_u64.
  - apply map_Forall_fmap. intros k l Hk. exact (Hl k l Hk).
Qed.

Lemma upsert_device_natural d r w :
  0 ≤ dev_id d → natural r → natural (upsert_device d r w).1.2.
Proof.
  intros Hi [Hm Hg Hd Hl]. destruct (upsert_device d r w) as [[res r'] w'] eqn:E. simpl.
  unfold upsert_device in E. open_op E; simplify_eq; try done; apply natural_commit; simpl; try done;
    by apply map_Forall_insert_2.
Qed.

Lemma upsert_link_natural l r w :
  0 ≤ lk_id l → 0 ≤ lk_source l → 0 ≤ lk_target l → natural r → natural (upsert_link l r w).1.2.
Proof.
  intros ??? [Hm Hg Hd Hl]. destruct (upsert_link l r w) as [[res r'] w'] eqn:E. simpl.
  unfold upsert_link in E. open_op E; simplify_eq; try done; apply natural_commit; simpl; try done;
    by apply map_Forall_insert_2.
Qed.

Lemma upsert_all_natural {A} (Q : A → Prop) (f : A → Registry → M (Result unit * Registry)) xs r w :
  (∀ x r w, Q x → natural r → natural (f x r w).1.2) → Forall Q xs → natural r →
  natural (upsert_all f xs r w).1.
Proof.
  intros Hf Hxs. revert r w. induction Hxs as [|x xs Hx _ IH]; intros r w Hr; [done|].
  cbn [upsert_all]. rewrite bind_eq. specialize (Hf x r w Hx Hr).
  destruct (f x r w) as [[res r'] w']. by apply IH.
Qed.

(** ** Loading *)

Lemma synthetic_device_natural s w : 0 ≤ sds_id s → 0 ≤ dev_id (discover_device s w).1.
Proof.
  intros Hs. unfold discover_device. rewrite !bind_eq. simpl. destruct (negb _); [done|].
  apply wrap64_u64.
Qed.

Definition natural_device (d : DeviceRecord) : Prop := 0 ≤ dev_id d.
Definition natural_link (l : LinkRecord) : Prop := 0 ≤ lk_id l ∧ 0 ≤ lk_source l ∧ 0 ≤ lk_target l.

Lemma upsert_devices_natural ds r w :
  Forall natural_device ds → natural r → natural (upsert_all upsert_device ds r w).1.
Proof. apply upsert_all_natural, upsert_device_natural. Qed.

Lemma upsert_links_natural ls r w :
  Forall natural_link ls → natural r → natural (upsert_all upsert_link ls r w).1.
Proof. apply upsert_all_natural. intros l r' w' (? & ? & ?). by apply upsert_link_natural. Qed.

Lemma publish_measurement_natural m r w : natural r → natural (publish_measurement m r w).1.2.
Proof. intros [Hm Hg Hd Hl]. unfold publish_measurement. rewrite bind_eq. by split. Qed.

Lemma fixture_devices_natural w :
  Forall natural_device (map_m discover_device (spec_devices inspect_spec) w).1.
Proof.
  unfold inspect_spec. cbn [spec_devices map_m]. rewrite !bind_eq. cbn [ret fst snd].
  repeat (apply Forall_cons; split; [by apply synthetic_device_natural|]). by apply Forall_nil.
Qed.

Lemma fixture_links_natural w :
  Forall natural_link (map_m discover_link (spec_links inspect_spec) w).1.
Proof.
  unfold inspect_spec. cbn [spec_links map_m]. rewrite !bind_eq. cbn [ret fst snd].
  repeat (apply Forall_cons; split; [split_and!; [apply wrap64_u64|done|done]|]).
  by apply Forall_nil.
Qed.

Lemma load_synthetic_natural r w :
  natural r → ∃ r', (load_synthetic r w).1 = inr r' ∧ natural r'.
Proof.
  intros Hr. unfold load_synthetic, populate.
  cbn [discover_devices discover_links synthetic_backend]. rewrite !bind_eq.
  pose proof (fixture_devices_natural w) as Hds.
  destruct (map_m discover_device _ w) as [ds w1]. cbn [ret fst snd] in *. rewrite !bind_eq.
  pose proof (fixture_links_natural w1) as Hls.
  destruct (map_m discover_link _ w1) as [ls w2]. cbn [ret fst snd] in *. rewrite !bind_eq.
  pose proof (upsert_devices_natural ds r w2 Hds Hr) as Hr1.
  destruct (upsert_all upsert_device ds r w2) as [r1 w3]. cbn [ret fst snd] in *.
  pose proof (upsert_links_natural ls r1 w3 Hls Hr1) as Hr2.
  destruct (upsert_all upsert_link ls r1 w3) as [r2 w4]. cbn [ret fst snd] in *.
  rewrite !bind_eq. lazymatch goal with
  | |- context [publish_measurement ?m r2 ?w5] =>
      pose proof (publish_measurement_natural m r2 w5 Hr2) as Hr3;
      destruct (publish_measurement m r2 w5) as [[res r3] w6]
  end. by exists r3.
Qed.

Lemma discover_cuda_natural dr n i st w ds :
  (discover_cuda dr n i st w).1 = Ok ds → Forall natural_device ds.
Proof.
  revert i st w ds. induction n as [|n IH]; intros i st w ds; cbn [discover_cuda].
  { intros Hd%Ok_inj. subst ds. by apply Forall_nil. }
  destruct (dr_properties dr i) as [prop|]; [|done]. rewrite bind_eq.
  destruct (cuda_pci_identity dr prop i st) as [pci st']. rewrite !bind_eq.
  destruct (discover_cuda dr n (i + 1) st' _) as [[ds'|e] w'] eqn:E; [|done].
  intros Hd%Ok_inj. subst ds. apply Forall_cons. split; [apply wrap64_u64|].
  eapply (IH (i + 1) st'). by rewrite E.
Qed.

Lemma load_nvidia_natural dr r w :
  natural r → match (load_nvidia dr r w).1 with
              | inr r' => natural r'
              | inl e => ∃ out, e = Exited 3 out
              end.
Proof.
  intros Hr. unfold load_nvidia, make_nvidia_backend. destruct (dr_device_count dr) as [n|] eqn:Hn;
    [|by eexists]. rewrite bind_eq. cbn [discover_devices discover_links nvidia_backend].
  unfold nvidia_discover_devices. rewrite Hn.
  destruct (discover_cuda dr (Z.to_nat n) 0 (nvml_at_entry dr) w) as [[ds|e] w1] eqn:E;
    [|by eexists].
  cbn [fst snd]. rewrite bind_eq.
  assert (natural (upsert_all upsert_device ds r w1).1) as Hr1.
  { apply upsert_devices_natural; [|done]. eapply discover_cuda_natural. by rewrite E. }
  destruct (upsert_all upsert_device ds r w1) as [r1 w2]. rewrite bind_eq.
  assert (nvidia_discover_links dr = Ok []) as ->
    by (unfold nvidia_discover_links; destruct (ensure_nvml _ _) as [[] ?]; done). done.
Qed.

(** A backend is loaded, or the process exits with one of two codes. *)
Lemma load_backend_natural nvidia b r w :
  natural r → match (load_backend nvidia b r w).1 with
              | inr r' => natural r'
              | inl e => ∃ code out, e = Exited code out ∧ code ∈ [2; 3]
              end.
Proof.
  intros Hr. unfold load_backend. case_bool_decide.
  { destruct (load_synthetic_natural r w Hr) as (r' & -> & ?). done. }
  case_bool_decide; [done|]. case_bool_decide; [|by eexists _, _; split; [|left]].
  destruct nvidia as [dr|]; [|by eexists _, _; split; [|left]].
  pose proof (load_nvidia_natural dr r w Hr) as Hn. destruct (load_nvidia dr r w).1; [|done].
  destruct Hn as [out ->]. eexists _, _. split; [done|]. right. left.
Qed.

(** ** The text of an answer *)

(** One member after another. *)
Definition member_text (m : string * json) : string :=
  "," +:+ jstring m.1 +:+ ":" +:+ render m.2.

Lemma members_text ms : members render false ms = append_all member_text ms +:+ "}".
Proof.
  induction ms as [|[k v] ms IH]; [done|]. cbn [members append_all foldr].
  rewrite IH. unfold member_text. cbn [fst snd]. by rewrite !append_assoc.
Qed.

Lemma append_all_app {A} (f : A → string) l k :
  append_all f (l ++ k) = append_all f l +:+ append_all f k.
Proof.
  induction l as [|x l IH]; [done|]. unfold append_all in *. simpl. by rewrite IH, append_assoc.
Qed.

Lemma append_all_fmap {A B} (f : B → string) (g : A → B) l :
  append_all f (g <$> l) = append_all (λ x, f (g x)) l.
Proof. unfold append_all. induction l as [|x l IH]; [done|]. simpl. by rewrite <-IH. Qed.

Lemma append_all_ext {A} (f g : A → string) l :
  (∀ x, f x = g x) → append_all f l = append_all g l.
Proof. intros Hf. unfold append_all. induction l as [|x l IH]; [done|]. simpl. by rewrite Hf, IH. Qed.

Lemma jesc_evidence e : jesc (EvidenceClass.evidence_class_name e) = EvidenceClass.evidence_class_name e.
Proof. by destruct e. Qed.
Lemma jesc_health e : jesc (DeviceHealthState.device_health_name e) = DeviceHealthState.device_health_name e.
Proof. by destruct e. Qed.
Lemma jesc_state e :
  jesc (LinkOperationalState.link_state_name e) = LinkOperationalState.link_state_name e.
Proof. by destruct e. Qed.
Lemma jesc_technology e : jesc (InterconnectTechnology.interconnect_technology_name e) =
  InterconnectTechnology.interconnect_technology_name e.
Proof. by destruct e. Qed.
Lemma jesc_outcome e :
  jesc (RouteDecisionOutcome.route_outcome_name e) = RouteDecisionOutcome.route_outcome_name e.
Proof. by destruct e. Qed.

Lemma bit_text b : bit b = render (json_bool b).
Proof. by destruct b. Qed.

Lemma device_text_eq d : device_json d = member_text (device_object d).
Proof.
  unfold device_json, device_object, member_text. cbn [fst snd render members]. unfold jstring.
  rewrite jesc_health, jesc_evidence. unfold key, quoted. rewrite !append_assoc. reflexivity.
Qed.

Lemma link_text_eq l : link_json l = member_text (link_object l).
Proof.
  unfold link_json, link_object, member_text. cbn [fst snd render members]. unfold jstring.
  rewrite jesc_state, jesc_technology, jesc_evidence. unfold key, quoted. rewrite !append_assoc.
  reflexivity.
Qed.

Lemma path_text_eq p : path_json p = member_text (path_object p).
Proof.
  unfold path_json, path_object, member_text. rewrite bit_text.
  cbn [fst snd render members]. unfold jstring, key, quoted. rewrite !append_assoc. reflexivity.
Qed.

(** Numbers under plain keys. *)
Lemma count_text k v : jesc k = k → key k +:+ dec v = member_text (k, JNumber v).
Proof.
  intros Hk. unfold member_text. cbn [fst snd render]. unfold jstring. rewrite Hk.
  unfold key. by rewrite !append_assoc.
Qed.

Lemma decision_text_eq d :
  key "outcome" +:+ quoted (RouteDecisionOutcome.route_outcome_name (rd_outcome d)) +:+
  key "executable" +:+ bit (rd_executable d) +:+
  key "explanation" +:+ quoted (jesc (rd_explanation d)) =
  append_all member_text (decision_members d).
Proof.
  unfold decision_members, member_text, append_all. rewrite bit_text. cbn [foldr fst snd render].
  unfold jstring. rewrite jesc_outcome. unfold key, quoted. rewrite !append_assoc. reflexivity.
Qed.

Lemma head_text backend cmd r ms :
  json_head backend cmd r +:+ append_all member_text ms +:+ "}" =
  render (JObject (answer_head backend cmd r ++ ms)).
Proof.
  unfold answer_head. cbn [render app members]. rewrite members_text.
  unfold json_head, jstring, key, quoted. rewrite !append_assoc. reflexivity.
Qed.

Lemma append_all_two {A} (f : A → string) x y : append_all f [x; y] = f x +:+ f y.
Proof. unfold append_all. cbn [foldr]. by rewrite append_nil_r. Qed.
Lemma append_all_three {A} (f : A → string) x y z :
  append_all f [x; y; z] = f x +:+ f y +:+ f z.
Proof. unfold append_all. cbn [foldr]. by rewrite append_nil_r. Qed.

(** ** The answers are right *)

Lemma objects_ok {A} (f : A → string * json) l :
  (∀ x, x ∈ l → json_ok (f x).2) → json_ok (JObject (f <$> l)).
Proof.
  intros Hf. cbn [json_ok]. induction l as [|x l IH]; [done|]. cbn [fmap list_fmap foldr].
  split; [apply Hf; left|]. apply IH. intros y Hy. apply Hf. by right.
Qed.

Lemma json_ok_app ms ms' : json_ok (JObject ms) → json_ok (JObject ms') → json_ok (JObject (ms ++ ms')).
Proof.
  cbn [json_ok]. induction ms as [|m ms IH]; [done|]. cbn [app foldr]. intros [??] ?. auto.
Qed.

Lemma elem_of_sorted_values {A} (lt : A → A → bool) (m : gmap Z A) x :
  x ∈ stable_sort lt (map_to_list m).*2 → ∃ i, m !! i = Some x.
Proof.
  rewrite stable_sort_perm, list_elem_of_fmap. intros ([i y] & -> & Hin%elem_of_map_to_list).
  by exists i.
Qed.

Lemma enumerated_natural src tgt r w ps p :
  0 ≤ max_candidate_paths (limits_ r) → (enumerate_paths src tgt r w).1 = Ok ps → p ∈ ps →
  0 ≤ path_id_ p ∧ 0 ≤ path_hop_count p.
Proof.
  intros Hm Hps Hp. unfold enumerate_paths in Hps. case_match; [done|].
  rewrite bind_eq in Hps. repeat case_match; try done. unfold ret in Hps.
  apply Ok_inj in Hps. subst ps. rewrite enumerate_paths_impl_spec in Hp by done.
  apply elem_of_take in Hp as (i & Hp & _). apply list_elem_of_lookup_2 in Hp.
  apply list_elem_of_fmap in Hp as (es & -> & _). rewrite route_path_hops.
  split; [apply path_id_u64|apply zlen_nonneg].
Qed.

Lemma answers_ok r w args cmd ms : natural r → answers r w args cmd ms → json_ok (JObject ms).
Proof.
  intros [Hm Hg Hd Hl]. destruct 1 as [| | |s t rest ps _ Hps|s t rest d _ _|].
  - apply objects_ok. intros d (i & Hi)%elem_of_sorted_values. specialize (Hd i d Hi). by split.
  - apply objects_ok. intros l (i & Hi)%elem_of_sorted_values. destruct (Hl i l Hi) as (? & ? & ?).
    by repeat split.
  - split; [apply msize_nonneg|]. split; [apply msize_nonneg|done].
  - apply objects_ok. intros p Hp. destruct (enumerated_natural _ _ _ _ _ _ Hm Hps Hp).
    split_and!; simpl; try done. by destruct (path_direct p).
  - split_and!; simpl; try done. by destruct (rd_executable d).
  - split; [apply msize_nonneg|]. split; [apply msize_nonneg|]. split; [apply zlen_nonneg|done].
Qed.

(** The process ends with this code, and there was no answer to give. *)
Ltac no_answer c :=
  split; [eexists c, _; split; [done|apply (bool_decide_unpack _); exact I]|
          intros ms Ha; inversion Ha; simplify_eq; try congruence;
          by match goal with
          | E : ?x = (Err _, _), H : (?x).1 = Ok _ |- _ => rewrite E in H
          end].

(** What [json_details] appends is the text of the command's answer, and it
    appends nothing to a command without one. *)
Lemma json_details_answers cmd args r w w0 :
  let snap := (snapshot r w0).1 in
  match (json_details cmd args snap r w).1 with
  | inr s => ∃ ms, answers r w args cmd ms ∧ s = append_all member_text ms
  | inl e => (∃ code out, e = Exited code out ∧ code ∈ [2; 4]) ∧
             ∀ ms, ¬ answers r w args cmd ms
  end.
Proof.
  unfold snapshot, build_snapshot. rewrite !bind_eq. cbn [fst ret]. unfold json_details.
  cbn [snap_devices snap_links].
  case_bool_decide as Hc; [subst cmd; eexists; split; [apply answers_devices|]|].
  { rewrite append_all_fmap. apply append_all_ext, device_text_eq. }
  case_bool_decide as Hc1; [subst cmd; eexists; split; [apply answers_links|]|].
  { rewrite append_all_fmap. apply append_all_ext, link_text_eq. }
  case_bool_decide as Hc2; [subst cmd; eexists; split; [apply answers_topology|]|].
  { unfold sorted_devices, sorted_links. rewrite !zlen_vals. by rewrite append_all_two, <-!count_text, append_assoc. }
  case_bool_decide as Hc3; [subst cmd; cbn [orb]|case_bool_decide as Hc4; [subst cmd; cbn [orb]|]].
  - destruct args as [|s [|t rest]]; [no_answer 2..|].
    rewrite bind_eq. destruct (enumerate_paths _ _ r w) as [[ps|e] w1] eqn:E; cbn [fst ret].
    + eexists. split; [by eapply answers_paths; [done|rewrite E]|].
      rewrite append_all_fmap. apply append_all_ext, path_text_eq.
    + no_answer 4.
  - destruct args as [|s [|t rest]]; [no_answer 2..|].
    rewrite bind_eq. destruct (decide_route _ _ _ r r w) as [[d|e] w1] eqn:E; cbn [fst ret].
    + eexists. split; [by eapply answers_route; [done|rewrite E]|]. apply decision_text_eq.
    + no_answer 4.
  - cbn [orb]. case_bool_decide as Hc5; [subst cmd; eexists; split; [apply answers_status|]|].
    { unfold sorted_devices, sorted_links. rewrite !zlen_vals. by rewrite append_all_three, <-!count_text, !append_assoc. }
    no_answer 2.
Qed.

Lemma answers_functional r w args cmd ms ms' :
  answers r w args cmd ms → answers r w args cmd ms' → ms = ms'.
Proof. destruct 1; inversion 1; simplify_eq; try done; congruence. Qed.

Lemma inspect_json_answers b cmd args r w :
  natural r →
  let w' := (snapshot r w).2 in
  (∀ ms, answers r w' args cmd ms → ∃ text, (inspect_json b cmd args r w).1 = Exited 0 (text +:+ nl) ∧
     parses_to text (JObject (answer_head b cmd r ++ ms))) ∧
  ((∃ ms, answers r w' args cmd ms) ∨
   ∃ code out, (inspect_json b cmd args r w).1 = Exited code out ∧ code ∈ [2; 4]).
Proof.
  intros Hr w'. unfold inspect_json. rewrite !bind_eq. fold w'.
  pose proof (json_details_answers cmd args r w' w) as Hd. cbv zeta in Hd.
  destruct (json_details cmd args _ r _) as [[e|s] w1]; cbn [fst snd ret] in *.
  - destruct Hd as [He Hno]. split; [by intros ms Hms%Hno|by right].
  - destruct Hd as (ms & Hms & ->). split; [|left; by exists ms].
    intros ms' Hms'. rewrite <-(answers_functional _ _ _ _ _ _ Hms Hms').
    exists (render (JObject (answer_head b cmd r ++ ms))).
    split; [|apply render_parses, json_ok_app; [|by eapply answers_ok]].
    + pose proof (no_nul_render (JObject (answer_head b cmd r ++ ms))) as Hn.
      rewrite <-head_text, <-append_assoc, no_nul_append in Hn. apply andb_True in Hn as [Hn _].
      by rewrite c_str_no_nul, <-head_text, !append_assoc.
    + destruct Hr. by split_and!.
Qed.

(** Every path through [main] ends, with a documented code. *)
Lemma text_details_code cmd args snap r w : (text_details cmd args snap r w).1.1 ∈ [0; 2; 4].
Proof.
  assert (0 ∈ [0; 2; 4] ∧ 2 ∈ [0; 2; 4] ∧ 4 ∈ [0; 2; 4]) as (H0 & H2 & H4)
    by (split_and!; [left|right; left|do 2 right; left]).
  unfold text_details. repeat (case_bool_decide; [done|]).
  destruct (_ || _).
  - destruct args as [|s [|t rest]]; [done..|]. case_bool_decide; rewrite bind_eq.
    + destruct (enumerate_paths _ _ r w) as [[ps|e] w1]; [|done]. cbn [fst snd].
      by rewrite bind_eq.
    + by destruct (decide_route _ _ _ r r w) as [[d|e] w1].
  - by case_bool_decide.
Qed.
End Answers.

Definition inspect_args (rest : list string) : Args := parse_args rest (mkArgs "synthetic" false []).

Lemma inspect_main_eq `{Platform} nvidia prog cmd rest w :
  (inspect_main nvidia (prog :: cmd :: rest) w).1 =
  let a := inspect_args rest in
  let '(loaded, w1) := load_backend nvidia (ar_backend a) (new_registry default_limits) w in
  match loaded with
  | inl e => e
  | inr r => ((if ar_json a then inspect_json else inspect_text)
                (ar_backend a) cmd (ar_rest a) r w1).1
  end.
Proof.
  unfold inspect_main. fold (inspect_args rest). rewrite bind_eq. cbv zeta.
  destruct (load_backend _ _ _ w) as [[e|r] w1]; [done|]. by destruct (ar_json _).
Qed.

(** Whatever the arguments, the backend and what CUDA answers, the process
    ends by itself, with 0, 2, 3 or 4. *)
Lemma inspect_main_exits `{Platform} nvidia argv w :
  ∃ code out, (inspect_main nvidia argv w).1 = Exited code out ∧ code ∈ [0; 2; 3; 4].
Proof.
  destruct argv as [|prog [|cmd rest]]; try (by exists 2, usage; split; [|right; left]).
  rewrite inspect_main_eq. cbv zeta.
  pose proof (load_backend_natural nvidia (ar_backend (inspect_args rest))
    (new_registry default_limits) w (natural_new default_limits ltac:(done))) as Hl.
  destruct (load_backend _ _ _ w) as [[e|r] w1]; cbn [fst] in Hl.
  { destruct Hl as (code & out & -> & Hc). exists code, out. split; [done|]. set_solver. }
  destruct (ar_json _).
  - unfold inspect_json. rewrite !bind_eq.
    pose proof (json_details_answers cmd (ar_rest (inspect_args rest)) r (snapshot r w1).2 w1) as Hd.
    cbv zeta in Hd. destruct (json_details _ _ _ r _) as [[e|s] w2]; cbn [fst snd ret] in *.
    + destruct Hd as [(code & out & -> & Hc) _]. exists code, out. split; [done|]. set_solver.
    + eexists _, _. split; [done|]. left.
  - unfold inspect_text. rewrite !bind_eq.
    pose proof (text_details_code cmd (ar_rest (inspect_args rest)) (snapshot r w1).1 r
      (snapshot r w1).2) as Ht.
    destruct (text_details _ _ _ r _) as [[code s] w2]. cbn [fst snd ret] in *.
    eexists _, _. split; [done|]. set_solver.
Qed.

(** C23.  What [nvlink_fabric_inspect --json] prints is a JSON text and says
    what the registry holds: with the backend loaded and a command that has an
    answer (the snapshot's devices or links, the counts, the enumerated paths,
    the route decision), the process exits 0 after printing one line, which
    parses as the object of the backend, topology generation, command and
    exactly the members of that answer, whatever characters the strings
    contain; and it exits 0 in no other case. *)
Theorem inspect_json_faithful `{Platform} nvidia prog cmd rest w :
  let a := inspect_args rest in
  let '(loaded, w1) := load_backend nvidia (ar_backend a) (new_registry default_limits) w in
  let printed := (inspect_main nvidia (prog :: cmd :: rest) w).1 in
  let answer r ms := loaded = inr r ∧ answers r (snapshot r w1).2 (ar_rest a) cmd ms in
  ar_json a = true →
  (∀ r ms, answer r ms → ∃ text, printed = Exited 0 (text +:+ nl) ∧
     parses_to text (JObject (answer_head (ar_backend a) cmd r ++ ms))) ∧
  (∀ out, printed = Exited 0 out → ∃ r ms, answer r ms).
Proof.
  intros a. destruct (load_backend _ _ _ w) as [loaded w1] eqn:El. intros printed answer Hj.
  assert (printed = match loaded with
                    | inl e => e
                    | inr r => (inspect_json (ar_backend a) cmd (ar_rest a) r w1).1
                    end) as Hp.
  { unfold printed. rewrite inspect_main_eq. cbv zeta. fold a. rewrite El, Hj. by destruct loaded. }
  pose proof (load_backend_natural nvidia (ar_backend a) (new_registry default_limits) w) as Hl.
  rewrite El in Hl. cbn [fst] in Hl. specialize (Hl (natural_new default_limits ltac:(done))).
  rewrite Hp. destruct loaded as [e|r].
  - destruct Hl as (code & out & -> & Hc). split; [by intros r ms []|].
    intros out' [= ->]. set_unfold in Hc. naive_solver.
  - pose proof (inspect_json_answers (ar_backend a) cmd (ar_rest a) r w1 Hl) as Ha.
    destruct Ha as [Hall Hex]. split.
    { intros r' ms [Hr Hms]. injection Hr as <-. exact (Hall ms Hms). }
    intros out Hout. destruct Hex as [[ms Hms]|(code & out' & Hc & Hin)]; [by exists r, ms|].
    rewrite Hout in Hc. injection Hc as <- _. set_unfold in Hin. naive_solver.
Qed.

(** The route from device 1000 to device 1002 of the fixture, as JSON. *)
Definition route_command : list string := ["1000"; "1002"; "--json"].
Definition loaded_fixture : Registry * World :=
  match @load_backend reference_platform None "synthetic" (new_registry default_limits) world0 with
  | (inr r, w) => (r, w)
  | (inl _, w) => (new_registry default_limits, w)
  end.
Definition fixture_answer : list (string * json) :=
  match (decide_route 1000 1002 default_policy loaded_fixture.1
           loaded_fixture.1 (snapshot loaded_fixture.1 loaded_fixture.2).2).1 with
  | Ok d => decision_members d
  | Err _ => []
  end.

Lemma inspect_json_faithful_witness :
  (∃ text, (@inspect_main reference_platform None ("nvlink_fabric_inspect"%string :: "route"%string
      :: route_command) world0).1 = Exited 0 (text +:+ nl) ∧
    parses_to text (JObject
      (("backend"%string, JString "synthetic") :: ("topology_gen"%string, JNumber 9) ::
       ("cmd"%string, JString "route") :: fixture_answer))) ∧
  fixture_answer !! 0%nat = Some ("outcome"%string, JString "ROUTE_ALLOWED").
Proof.
  split; [|by vm_compute].
  assert (match @load_backend reference_platform None "synthetic" (new_registry default_limits)
    world0 with (inr _, _) => true | _ => false end = true) as Hl by (vm_compute; reflexivity).
  assert (@load_backend reference_platform None "synthetic" (new_registry default_limits) world0 =
    (inr loaded_fixture.1, loaded_fixture.2)) as El.
  { unfold loaded_fixture. destruct (load_backend _ "synthetic" _ world0) as [[e|r] w1];
      [discriminate Hl|reflexivity]. }
  clear Hl.
  pose proof (@inspect_json_faithful reference_platform None "nvlink_fabric_inspect" "route"
    route_command world0) as Hf. cbv zeta in Hf.
  change (ar_backend (inspect_args route_command)) with "synthetic"%string in Hf.
  rewrite El in Hf. destruct (Hf eq_refl) as [Hall _].
  assert (∃ d, (decide_route 1000 1002 default_policy loaded_fixture.1
    loaded_fixture.1 (snapshot loaded_fixture.1 loaded_fixture.2).2).1 = Ok d ∧
    fixture_answer = decision_members d) as (d & Hd & ->).
  { unfold fixture_answer.
    assert (has_value (decide_route 1000 1002 default_policy loaded_fixture.1
      loaded_fixture.1 (snapshot loaded_fixture.1 loaded_fixture.2).2).1) as Hok by (vm_compute; exact I).
    destruct (decide_route _ _ _ _ _ _).1 as [d|e];
      [exists d; split; reflexivity|destruct Hok]. }
  destruct (Hall loaded_fixture.1 (decision_members d)) as (text & Ht & Hp).
  { split; [done|]. by eapply answers_route. }
  exists text. split; [exact Ht|].
  change 9 with (Z.of_N 9) in Hp. exact Hp.
Defined.
