(* ===== verification/Examples.v ===== *)
(** * The example programs (examples/)

    synthetic_topology.cpp, stale_invalidation.cpp and nvidia_discovery.cpp:
    each [main] as a function of the process's counters and clock, and of the
    driver, to how it ends and what it prints; and what that is. *)

From S2P Require Import Prelude Enums Double Records World Registry RegistryFacts Fixtures.
From S2P Require Import RegistryProps Paths Quality Route Text Backends BackendsProps.
From S2P Require Import Nvidia NvidiaProps Inspect.

(** [MeasurementRequest{}]. *)
Definition default_request : MeasurementRequest := mkRequest 0 0 (Z.shiftl 1 22) 8 2 true.

Section Examples.
Context {P : Platform}.

(** ** synthetic_topology.cpp *)
Definition gpu_spec (id : Z) (name : string) : SyntheticDeviceSpec :=
  mkDeviceSpec id name NodeKind.ACCELERATOR "SYNTHETIC" 400000000000 1 true.
Definition up_spec (s t : Z) (name : string) : SyntheticLinkSpec :=
  mkLinkSpec s t false LinkOperationalState.UP 400000000000 8 name false "".

Definition topology_spec : SyntheticTopologySpec :=
  mkSpec
    [gpu_spec 1 "gpu0"; gpu_spec 2 "gpu1"; gpu_spec 3 "gpu2";
     mkDeviceSpec 4 "switch0" NodeKind.SWITCH "SYNTHETIC" 800000000000 2 true]
    [up_spec 1 2 "NVLink 0"; up_spec 1 4 "NVLink 1"; up_spec 4 3 "NVLink 2";
     mkLinkSpec 2 3 false LinkOperationalState.DEGRADED 200000000000 8 "NVLink 3" true "degraded"]
    d0 d0.

Definition print_paths (paths : Result (list Path)) (r : Registry) : M string :=
  match paths with
  | Ok ps =>
      let* lines := map_m (λ p, let* s := explain_path p r in
        ret ("path " +:+ c_str s +:+ nl)) ps in
      ret (foldr (λ l out, l +:+ out) "" lines)
  | Err _ => ret ""
  end%string.

Definition print_decision (dec : Result RouteDecision) : string :=
  match dec with
  | Ok d =>
      "route outcome=" +:+ RouteDecisionOutcome.route_outcome_name (rd_outcome d) +:+
      " executable=" +:+ bit (rd_executable d) +:+ nl +:+
      "explanation: " +:+ c_str (rd_explanation d) +:+ nl
  | Err _ => ""
  end.

Definition synthetic_topology_main : M Exit :=
  let* loaded := populate topology_spec (new_registry default_limits) in
  match loaded with
  | None => ret Uncaught
  | Some r =>
      let counts := "devices=" +:+ dec (device_count r) +:+ " links=" +:+
        dec (link_count r) +:+ " topology_generation=" +:+
        dec (topology_generation r) +:+ nl in
      let* paths := enumerate_paths 1 3 r in
      let* listed := print_paths paths r in
      let* decision := decide_route 1 3 default_policy r r in
      ret (Exited 0 (counts +:+ listed +:+ print_decision decision))
  end.

(** ** stale_invalidation.cpp *)
Definition stale_spec : SyntheticTopologySpec :=
  mkSpec [gpu_spec 10 "gpuA"; gpu_spec 11 "gpuB"] [up_spec 10 11 "NVLink 0"] d0 d0.

Definition print_before (decision : Result RouteDecision) (r : Registry) : M string :=
  match decision with
  | Ok d =>
      let* ok := is_route_executable d r in
      ret ("before topology change: outcome=" +:+
             RouteDecisionOutcome.route_outcome_name (rd_outcome d) +:+
           " executable=" +:+ bit (rd_executable d) +:+ nl +:+
           "  is_executable=" +:+ bit ok +:+ nl)
  | Err _ => ret ""%string
  end.

Definition print_after (decision : Result RouteDecision) (r : Registry) : M string :=
  match decision with
  | Ok d =>
      let* ok := is_route_executable d r in
      let* reval := revalidate_route d r in
      ret ("after topology change: is_executable=" +:+ bit ok +:+
           " (route must be revalidated/refreshed)" +:+ nl +:+
           match reval with
           | Ok d' => "revalidation outcome=" +:+
                      RouteDecisionOutcome.route_outcome_name (rd_outcome d') +:+ nl
           | Err _ => ""
           end)
  | Err _ => ret ""%string
  end.

Definition stale_invalidation_main : M Exit :=
  let* loaded := populate stale_spec (new_registry default_limits) in
  match loaded with
  | None => ret Uncaught
  | Some r =>
      let* decision := decide_route 10 11 default_policy r r in
      let* before := print_before decision r in
      let* '(_, r') := advance_topology
        (mkEvidence EvidenceClass.REAL Provenance.DERIVED "example" "topology advanced") r in
      let* after := print_after decision r' in
      ret (Exited 0 (before +:+ after))
  end.

(** ** nvidia_discovery.cpp *)
Definition print_nvidia_device (d : DeviceRecord) : string :=
  "device name=" +:+ c_str (dev_logical_name d) +:+ " arch=" +:+ c_str (dev_architecture d) +:+
  " pci=" +:+ c_str (dev_pci_identity d) +:+ " evidence=" +:+ c_str (describe (dev_evidence d)) +:+ nl.

Definition nvidia_discovery_main (dr : Driver) : M Exit :=
  match make_nvidia_backend dr with
  | Err e => ret (Exited 3
      ("nvidia backend unavailable: " +:+ c_str (error_to_string e) +:+ nl))
  | Ok b =>
      let caps := match describe_capabilities b with
        | Ok c => "backend=" +:+ c_str (bc_backend_name c) +:+
            " device_discovery=" +:+ bit (bc_device_discovery c) +:+
            " link_discovery=" +:+ bit (bc_link_discovery c) +:+
            " measurement=" +:+ bit (bc_measurement c) +:+ nl
        | Err _ => ""%string
        end in
      let* devs := discover_devices b in
      match devs with
      | Err _ => ret Uncaught (* [*devs] in the call of discover_links *)
      | Ok ds =>
          let listed := foldr (λ d out, print_nvidia_device d +:+ out) ""%string ds +:+
            "device_count=" +:+ dec (zlen ds) +:+ nl in
          let* lks := discover_links b ds in
          let linked := match lks with
            | Ok ls => "nvlink_links=" +:+ dec (zlen ls) +:+
                " (empty means no NVLink adjacency on this hardware)" +:+ nl
            | Err _ => ""%string
            end in
          let* m := measure b default_request in
          let measured := match m with
            | Ok _ => ""%string
            | Err e => "measurement unsupported: " +:+ c_str (error_to_string e) +:+ nl
            end in
          ret (Exited 0 (caps +:+ listed +:+ linked +:+ measured))
      end
  end.
End Examples.

(** ** What they print *)

Definition lines (ls : list string) : string := foldr (λ l out, l +:+ nl +:+ out) ""%string ls.

(** The synthetic topology has two routes of equal length; the one through the
    switch wins, since the other uses a degraded link.  Whatever the clock. *)
Lemma synthetic_topology_prints clk :
  (@synthetic_topology_main reference_platform (initial_world clk)).1 =
  Exited 0 (lines
    ["devices=4 links=4 topology_generation=9";
     "path path 1731741634936793700 from 1 to 3 hops=2 direct=false " +:+
       "dev:1(name=gpu0 health=PRESENT ev=SYNTHETIC)  link:1(state=UP tech=NVLink ev=SYNTHETIC)  " +:+
       "dev:2(name=gpu1 health=PRESENT ev=SYNTHETIC)  " +:+
       "link:4(state=DEGRADED tech=NVLink ev=SYNTHETIC)  " +:+
       "dev:3(name=gpu2 health=PRESENT ev=SYNTHETIC) ";
     "path path 3181566570465700928 from 1 to 3 hops=2 direct=false " +:+
       "dev:1(name=gpu0 health=PRESENT ev=SYNTHETIC)  link:2(state=UP tech=NVLink ev=SYNTHETIC)  " +:+
       "dev:4(name=switch0 health=PRESENT ev=SYNTHETIC)  " +:+
       "link:3(state=UP tech=NVLink ev=SYNTHETIC)  dev:3(name=gpu2 health=PRESENT ev=SYNTHETIC) ";
     "route outcome=ROUTE_ALLOWED executable=1";
     "explanation: selected path 3181566570465700928 hops=2 directed=false " +:+
       "outcome=HEALTHY evidence=SYNTHETIC"]%string).
Proof. vm_compute. reflexivity. Qed.

(** A decision is executable until the topology moves on, and not after. *)
Lemma stale_invalidation_prints clk :
  (@stale_invalidation_main reference_platform (initial_world clk)).1 =
  Exited 0 (lines
    ["before topology change: outcome=ROUTE_ALLOWED executable=1";
     "  is_executable=1";
     "after topology change: is_executable=0 (route must be revalidated/refreshed)";
     "revalidation outcome=REVALIDATION_REQUIRED"]%string).
Proof. vm_compute. reflexivity. Qed.

Lemma discover_cuda_length dr n i st w :
  all_properties dr (Z.of_nat n) i →
  ∃ ds, (discover_cuda dr n i st w).1 = Ok ds ∧ zlen ds = Z.of_nat n.
Proof.
  revert i st w. induction n as [|n IH]; intros i st w Hp; [by exists []|].
  cbn [discover_cuda]. destruct (Hp i) as [prop ->]; [lia|].
  rewrite bind_eq. destruct (cuda_pci_identity dr prop i st) as [pci st']. rewrite !bind_eq.
  set (w1 := (fresh_generation _ _).2).
  destruct (IH (i + 1) st' w1) as (ds & Hds & Hl); [intros k Hk; apply Hp; lia|].
  rewrite Hds. eexists. split; [reflexivity|]. rewrite zlen_cons, Hl. lia.
Qed.

(** nvidia_discovery.cpp, for every answer of the driver: without a device
    count it says so and exits with 3; with one, and the properties of every
    device at hand, it lists the devices, no link and the unsupported
    measurement, and exits with 0; but if a single device's properties cannot
    be read, discovery has failed and the program ends with an uncaught
    exception, since it passes the list on without looking. *)
Lemma nvidia_discovery_ends dr w :
  match dr_device_count dr with
  | None =>
      (nvidia_discovery_main dr w).1 = Exited 3 (lines
        ["nvidia backend unavailable: BACKEND_UNAVAILABLE: CUDA runtime unavailable"%string])
  | Some n =>
      0 ≤ n →
      (all_properties dr n 0 →
       ∃ ds, zlen ds = n ∧ (nvidia_discovery_main dr w).1 = Exited 0
         ("backend=nvidia device_discovery=1 link_discovery=1 measurement=0" +:+ nl +:+
          foldr (λ d out, print_nvidia_device d +:+ out) "" ds +:+
          lines ["device_count=" +:+ dec n;
                 "nvlink_links=0 (empty means no NVLink adjacency on this hardware)";
                 "measurement unsupported: UNSUPPORTED: no supported peer-access NVLink path " +:+
                 "on installed hardware; measurement requires at least two real " +:+
                 "NVLink-connected devices"])%string) ∧
      (∀ k, 0 ≤ k < n → dr_properties dr k = None → (nvidia_discovery_main dr w).1 = Uncaught)
  end.
Proof.
  destruct (dr_device_count dr) as [n|] eqn:Hn.
  - intros Hn0. unfold nvidia_discovery_main, make_nvidia_backend. rewrite Hn, bind_eq.
    cbn [discover_devices nvidia_backend]. unfold nvidia_discover_devices. rewrite Hn.
    split.
    + intros Hp. destruct (discover_cuda_length dr (Z.to_nat n) 0 (nvml_at_entry dr) w)
        as (ds & Hds & Hl); [by rewrite Z2Nat.id|].
      rewrite Z2Nat.id in Hl by done. rewrite Hds, !bind_eq.
      assert (nvidia_discover_links dr = Ok []) as Hlinks
        by (unfold nvidia_discover_links; destruct (ensure_nvml _ _) as [[] ?]; done).
      cbn [discover_links measure nvidia_backend ret fst snd]. rewrite Hlinks, Hl.
      exists ds. split; [done|]. f_equal.
      cbn [describe_capabilities nvidia_backend]. unfold lines. cbn [foldr].
      rewrite !append_assoc. reflexivity.
    + intros k Hk Hnone. by rewrite (discover_cuda_fails dr (Z.to_nat n) 0 _ w k) by (done || lia).
  - unfold nvidia_discovery_main, make_nvidia_backend. rewrite Hn. vm_compute. reflexivity.
Qed.

(** Two devices are counted and the second cannot be read. *)
Definition half_readable : Driver :=
  mkDriver (Some 2) "no error" (λ i, if i =? 0 then Some (mkProp "gpu" 9 0 1 0) else None)
    posix_nvml false (λ _, false) None (λ _, None) (λ _, None) (λ _, None).

Lemma nvidia_discovery_ends_witness :
  (nvidia_discovery_main half_readable world0).1 = Uncaught.
Proof.
  assert (0 ≤ 2) as H0 by lia.
  apply (proj2 (nvidia_discovery_ends half_readable world0 H0) 1); [lia|reflexivity].
Defined.
