(* ===== verification/Worker.v ===== *)
(** * The worker process (tools/nvlink_worker.cpp) and the process helpers
    (runtime.cpp, spawn_worker to wait_worker)

    [main] of the worker as a function of its arguments and of what the network
    gives, and the helpers that start it and end it as an operating-system
    process. *)

From S2P Require Import Prelude Enums Double Records World Bytes Protocol Text Transport Wire.
From S2P Require Import Json Coordinator WorkerClient.

(** ** The program *)

(** Its arguments; [umax] is the largest [unsigned long]. *)
Definition worker_args (umax : Z) (argv : list string) : option (Z * WorkerDescriptor) :=
  match argv with
  | _ :: port :: wid :: boot :: epoch :: _ =>
      Some (wrap16 (strtoul umax port),
            mkDescriptor (strtoull wid) (strtoull boot) (strtoull epoch))
  | _ => None
  end.

(** Identities and generations of one incarnation start here. *)
Definition incarnation_base (boot : Z) : Z := wrap64 (boot * 1000000).

Definition worker_synthetic (note : string) : Evidence :=
  mkEvidence EvidenceClass.SYNTHETIC Provenance.SYNTHETIC_FIXTURE "worker" note.

Definition worker_capability : Capability :=
  mkCapability (interconnect default_capability) (cap_link_count default_capability)
    (nominal_lane_width default_capability) 400000000000 true
    (measurement_support default_capability) (supported_counters default_capability)
    (telemetry_supported default_capability).

(** [dr0] and [dr1]. *)
Definition worker_device (id : Z) (name : string) (gen : Z) : DeviceRecord :=
  mkDevice id name NodeKind.ACCELERATOR (dev_backend default_device)
    (dev_backend_instance default_device) (dev_pci_identity default_device) None
    (dev_vendor default_device) "SYNTHETIC" "SYNTHETIC" worker_capability
    DeviceHealthState.PRESENT (worker_synthetic "worker-synthetic device") gen None None.

Definition worker_gpu0 (boot : Z) : DeviceRecord :=
  worker_device 100 "gpu0" (wrap64 (incarnation_base boot + 1)).
Definition worker_gpu1 (boot : Z) : DeviceRecord :=
  worker_device 101 "gpu1" (wrap64 (incarnation_base boot + 2)).

Definition own_link (boot : Z) (now : Timestamp) : LinkRecord :=
  mkLink (wrap64 (incarnation_base boot + 1)) 100 101 (lk_directed default_link)
    (lk_physical_identifier default_link) LinkOperationalState.UP InterconnectTechnology.NVLINK
    (mkCapability (interconnect default_capability) (cap_link_count default_capability)
       (nominal_lane_width default_capability) 400000000000
       (peer_access_supported default_capability) (measurement_support default_capability)
       (supported_counters default_capability) (telemetry_supported default_capability))
    (wrap64 (incarnation_base boot + 1)) (worker_synthetic "worker-synthetic link") now true
    (lk_degraded default_link) (lk_degradation_note default_link)
    (lk_topology_generation default_link).

Definition own_measurement (boot : Z) : MeasurementRecord :=
  mkMeasurement (wrap64 (incarnation_base boot + 1)) 100 101 (4 * 1024 * 1024) 8 2 8
    (meas_bytes_verified default_measurement) (d_of_Z 380000000000)
    (ddiv (d_of_Z 8) (d_of_Z 1000000)) (meas_warmup_separated default_measurement) true
    (meas_contended default_measurement) (meas_method default_measurement)
    (meas_path_note default_measurement) (worker_synthetic "worker-synthetic measurement")
    (meas_measured_at default_measurement) true (meas_stale default_measurement)
    (meas_revalidation_required default_measurement) None None.

(** Where the process is: it has ended with a code and its output, it is in
    the heartbeat loop, or its behaviour is undefined. *)
Inductive Process := Ended (code : Z) (out : string) | Alive | Undefined.

(** The heartbeat loop, [n] rounds of it. *)
Fixpoint beat (n : nat) (c : Client) : Process * Client :=
  match n with
  | O => (Alive, c)
  | S n' =>
      let '(hb, c) := heartbeat c in
      match hb with
      | Err _ => (Ended 4 "", c)
      | Ok _ => beat n' c
      end
  end.

(** The records, then READY; what the calls return is dropped. *)
Definition publish_all (boot : Z) (c : Client) : M (option Client) :=
  let '(_, c) := publish_device (worker_gpu0 boot) c in
  let '(_, c) := publish_device (worker_gpu1 boot) c in
  let* now := now_timestamp in
  let '(_, c) := publish_link (own_link boot now) c in
  ret (match client_publish_measurement (own_measurement boot) c with
       | None => None
       | Some (_, c) => Some (signal_ready c).2
       end).

Definition worker_usage : string :=
  "usage: nvlink_worker <port> <worker_id> <boot> <epoch>" +:+ nl.

(** [main]: [dial port] is what the network gives, and [n] how many rounds of
    the last loop to follow. *)
Definition worker_main (umax : Z) (dial : Z → Dial) (n : nat) (argv : list string)
    : M (Process * Client) :=
  match worker_args umax argv with
  | None => ret (Ended 2 worker_usage, None)
  | Some (port, desc) =>
      let '(c, client) := connect desc (dial port) None in
      match c with
      | Err e => ret (Ended 3 ("connect rejected: " +:+ c_str (error_to_string e) +:+ nl), client)
      | Ok _ =>
          let* published := publish_all (wd_boot desc) client in
          ret (match published with
               | None => (Undefined, client)
               | Some client => beat n client
               end)
      end
  end.

(** ** Starting and ending it *)

Record WorkerProcessSpec := mkSpecProcess {
  worker_exe : string; spec_port : Z; spec_worker : Z; spec_boot : Z; spec_epoch : Z
}.

Definition command_line (spec : WorkerProcessSpec) : string :=
  String dq (worker_exe spec) +:+ String dq " " +:+
  dec (spec_port spec) +:+ " " +:+ dec (spec_worker spec) +:+ " " +:+
  dec (spec_boot spec) +:+ " " +:+ dec (spec_epoch spec).

(** Wide text, in UTF-16 units; what a callee reads of it ends at the first
    null. *)
Fixpoint wide_c_str (w : list Z) : list Z :=
  match w with
  | [] => []
  | u :: w' => if u =? 0 then [] else u :: wide_c_str w'
  end.

(** The platform.  [to_wide s] is what [MultiByteToWideChar] makes of the C
    string [s], its null included, and nothing where it fails; [create exe
    line] is [CreateProcessW], the process or nothing. *)
Inductive Os :=
| Windows (to_wide : string → list Z) (create : list Z → list Z → option Z)
| Posix.

(** The size asked for first, then the buffer of that size filled; of a text
    that cannot be converted one null. *)
Definition wide_of (to_wide : string → list Z) (s : string) : list Z :=
  let n := zlen (to_wide (c_str s)) in
  if 0 <? n then to_wide (c_str s) else [0].

(** [handle], [None] for null. *)
Abbreviation WorkerProcessHandle := (option Z).

Definition handle_valid (h : WorkerProcessHandle) : bool := bool_decide (h ≠ None).

Definition spawn_worker (os : Os) (spec : WorkerProcessSpec) : Result WorkerProcessHandle :=
  match os with
  | Windows to_wide create =>
      let wcmdline := wide_of to_wide (command_line spec) in
      let wexe := wide_of to_wide (worker_exe spec) in
      match create (wide_c_str wexe) (wide_c_str (wcmdline ++ [0])) with
      | None => err ErrorCode.BACKEND_ERROR "CreateProcess failed"
      | Some p => Ok (Some p)
      end
  | Posix => err ErrorCode.UNSUPPORTED "process spawn unsupported here"
  end.

(** What is asked of the system, in order. *)
Inductive ProcessCall :=
| TerminateProcess (p : Z) | WaitForSingleObject (p : Z) | CloseProcess (p : Z) | CloseThread (p : Z).

Definition kill_worker (os : Os) (h : WorkerProcessHandle)
    : Result unit * WorkerProcessHandle * list ProcessCall :=
  match os with
  | Windows _ _ =>
      match h with
      | None => (err ErrorCode.NOT_FOUND "no worker process", None, [])
      | Some p => (Ok tt, None,
          [TerminateProcess p; WaitForSingleObject p; CloseProcess p; CloseThread p])
      end
  | Posix => (err ErrorCode.UNSUPPORTED "process kill unsupported here", h, [])
  end.

Definition wait_worker (os : Os) (h : WorkerProcessHandle)
    : Result unit * WorkerProcessHandle * list ProcessCall :=
  match os with
  | Windows _ _ =>
      match h with
      | None => (err ErrorCode.NOT_FOUND "no worker process", None, [])
      | Some p => (Ok tt, None, [WaitForSingleObject p; CloseProcess p; CloseThread p])
      end
  | Posix => (err ErrorCode.UNSUPPORTED "process wait unsupported here", h, [])
  end.
