(* ===== verification/WorkerArgs.v ===== *)
(** * Starting a worker: what the new process is told

    The command line [spawn_worker] builds reaches the worker's [main] as the
    specification it was built from. *)

From S2P Require Import Prelude Enums Double Records World Bytes Text Json WorkerClient Worker.
From Stdlib Require Import Ascii.

(** ** What Windows documents *)

Fixpoint all_chars (f : ascii → bool) (s : string) : bool :=
  match s with EmptyString => true | String c s' => f c && all_chars f s' end.

Definition ascii_char (c : ascii) : bool := (0 <? byte_of_char c) && (byte_of_char c <? 128).

(** A character of a program path, and one of an argument that needs no
    quotes. *)
Definition path_char (c : ascii) : bool := ascii_char c && negb (Ascii.eqb c dq).
Definition plain_char (c : ascii) : bool :=
  path_char c && negb (is_space c) && negb (Ascii.eqb c "\").
Definition plain (s : string) : Prop := s ≠ EmptyString ∧ all_chars plain_char s.

(** The longest command line, its null included. *)
Definition line_limit : Z := 32767.

(** UTF-8 to UTF-16: an ASCII character is one unit of the same value. *)
Definition converts_ascii (to_wide : string → list Z) : Prop :=
  ∀ s, all_chars ascii_char s → slen s < line_limit → to_wide s = bytes_of_string s ++ [0].

Definition arguments_text (args : list string) : string :=
  foldr (λ a s, " " +:+ a +:+ s) EmptyString args.

(** How the C runtime makes the narrow arguments of [main] of a wide command
    line that starts with a quoted program name: something of the name, then
    plain arguments, which are separated by spaces, as they are. *)
Definition splits_arguments (split : list Z → list string) : Prop :=
  ∀ exe args, all_chars path_char exe → Forall plain args → ∃ arg0,
    split (bytes_of_string (String dq (exe +:+ String dq (arguments_text args)))) = arg0 :: args.

(** ** Decimal numbers are plain *)

Lemma all_chars_app (f : ascii → bool) s t : all_chars f s → all_chars f t → all_chars f (s +:+ t).
Proof.
  induction s as [|c s IH]; [done|]. rewrite append_cons. cbn [all_chars].
  intros [Hc Hs]%andb_True Ht. apply andb_True. auto.
Qed.

Lemma all_chars_pretty (f : ascii → bool) x s :
  (∀ d, f (pretty_N_char d)) → all_chars f s → all_chars f (pretty_N_go x s).
Proof.
  intros Hf. revert s. induction (N.lt_wf_0 x) as [x _ IH]. intros s Hs.
  destruct (decide (x = 0%N)) as [->|Hx]; [by rewrite pretty_N_go_0|].
  rewrite pretty_N_go_step by lia. apply IH; [by apply N.div_lt; lia|].
  cbn [all_chars]. apply andb_True. split; [apply Hf|done].
Qed.

Lemma digits_plain v : plain (dec v).
Proof.
  split.
  - destruct (dec_head v) as (c & s & -> & _). done.
  - unfold dec, pretty, pretty_N. destruct (decide _); [exact I|].
    apply all_chars_pretty; [|done]. intros d. unfold pretty_N_char. repeat case_match; exact I.
Qed.

Lemma command_line_text spec :
  command_line spec = String dq (worker_exe spec +:+ String dq (arguments_text
    [dec (spec_port spec); dec (spec_worker spec); dec (spec_boot spec); dec (spec_epoch spec)])).
Proof.
  unfold command_line, arguments_text. cbn [foldr]. rewrite append_nil_r.
  reflexivity.
Qed.

Lemma all_chars_impl (f g : ascii → bool) s :
  (∀ c, f c → g c) → all_chars f s → all_chars g s.
Proof.
  intros Hfg. induction s as [|c s IH]; [done|]. cbn [all_chars].
  intros [Hc Hs]%andb_True. apply andb_True. auto.
Qed.

Lemma ascii_c_str s : all_chars ascii_char s → c_str s = s.
Proof.
  intros Hs. apply c_str_no_nul. induction s as [|c s IH]; [done|]. cbn [all_chars no_nul] in *.
  apply andb_True in Hs as [Hc Hs]. apply andb_True. split; [|by apply IH].
  destruct (Ascii.eqb_spec c "000") as [->|]; done.
Qed.

Lemma ascii_path s : all_chars path_char s → all_chars ascii_char s.
Proof. apply all_chars_impl. intros c [Hc _]%andb_True. done. Qed.

Lemma ascii_dec v : all_chars ascii_char (dec v).
Proof.
  eapply all_chars_impl; [|apply digits_plain]. intros c [[[Hc _]%andb_True _]%andb_True _]%andb_True.
  done.
Qed.

Lemma ascii_command_line spec :
  all_chars path_char (worker_exe spec) → all_chars ascii_char (command_line spec).
Proof.
  intros He. unfold command_line. repeat (apply all_chars_app || apply ascii_dec); try done.
  change (all_chars ascii_char (worker_exe spec)). by apply ascii_path.
Qed.

Lemma wide_c_str_ascii s w :
  all_chars ascii_char s → wide_c_str (bytes_of_string s ++ 0 :: w) = bytes_of_string s.
Proof.
  induction s as [|c s IH]; [done|]. cbn [all_chars].
  intros [[Hc _]%andb_True Hs]%andb_True. apply Is_true_true, Z.ltb_lt in Hc.
  change (bytes_of_string (String c s)) with (byte_of_char c :: bytes_of_string s).
  cbn [app wide_c_str]. rewrite (proj2 (Z.eqb_neq _ _)) by lia. by rewrite IH.
Qed.

(** What [CreateProcessW] reads of an ASCII text. *)
Lemma wide_ascii to_wide s w :
  converts_ascii to_wide → all_chars ascii_char s → slen s < line_limit →
  wide_c_str (wide_of to_wide s ++ w) = bytes_of_string s.
Proof.
  intros Hc Hs Hl. unfold wide_of. rewrite ascii_c_str, Hc by done.
  rewrite zlen_app. pose proof (zlen_nonneg (bytes_of_string s)).
  change (zlen [0]) with 1. rewrite (proj2 (Z.ltb_lt _ _)) by lia.
  rewrite <-app_assoc. by apply wide_c_str_ascii.
Qed.

Lemma bytes_of_string_app s t : bytes_of_string (s +:+ t) = bytes_of_string s ++ bytes_of_string t.
Proof.
  induction s as [|c s IH]; [done|]. rewrite append_cons.
  change (byte_of_char c :: bytes_of_string (s +:+ t) = (byte_of_char c :: bytes_of_string s) ++ bytes_of_string t).
  by rewrite IH.
Qed.

Lemma slen_exe spec : slen (worker_exe spec) ≤ slen (command_line spec).
Proof.
  rewrite command_line_text. unfold slen.
  change (bytes_of_string (String dq ?s)) with (byte_of_char dq :: bytes_of_string s).
  rewrite bytes_of_string_app, zlen_cons, zlen_app.
  pose proof (zlen_nonneg (bytes_of_string (String dq (arguments_text [dec (spec_port spec);
    dec (spec_worker spec); dec (spec_boot spec); dec (spec_epoch spec)])))). lia.
Qed.

(** C38.  A worker is told what the specification says.  On Windows, given that
    the conversion to UTF-16 keeps ASCII and that the C runtime of the worker
    splits a command line as documented, [spawn_worker] asks for the executable
    of the specification with a line from which the worker's [main] reads back
    exactly its port, worker, boot and epoch, for every value of their types
    (argument 0 is not relied on), and what it answers is the process or
    BACKEND_ERROR.  The path is ASCII without a double quote or a null, and the
    line shorter than the system's limit of 32767.  Where spawning is not
    supported, it answers UNSUPPORTED and there is no process. *)
Theorem spawned_worker_arguments to_wide create split umax spec :
  converts_ascii to_wide → splits_arguments split → 65535 ≤ umax →
  0 ≤ spec_port spec ≤ 65535 → u64 (spec_worker spec) → u64 (spec_boot spec) →
  u64 (spec_epoch spec) →
  all_chars path_char (worker_exe spec) → slen (command_line spec) < line_limit →
  (∃ line,
     spawn_worker (Windows to_wide create) spec =
       match create (bytes_of_string (worker_exe spec)) line with
       | Some p => Ok (Some p)
       | None => err ErrorCode.BACKEND_ERROR "CreateProcess failed"
       end ∧
     worker_args umax (split line) = Some (spec_port spec,
       mkDescriptor (spec_worker spec) (spec_boot spec) (spec_epoch spec))) ∧
  spawn_worker Posix spec = err ErrorCode.UNSUPPORTED "process spawn unsupported here".
Proof.
  intros Hconv Hsplit Hu Hp Hw Hb He Hexe Hlen. split; [|done].
  pose proof (slen_exe spec). exists (bytes_of_string (command_line spec)). split.
  - unfold spawn_worker. rewrite (wide_ascii _ (command_line spec)) by auto using ascii_command_line.
    rewrite <-(app_nil_r (wide_of to_wide (worker_exe spec))).
    rewrite wide_ascii by (lia || auto using ascii_path). by destruct (create _ _).
  - rewrite command_line_text. destruct (Hsplit (worker_exe spec)
      [dec (spec_port spec); dec (spec_worker spec); dec (spec_boot spec); dec (spec_epoch spec)])
      as [arg0 ->]; [done|repeat constructor; apply digits_plain|].
    cbn [worker_args]. rewrite !strtoull_dec by done. rewrite strtoul_dec by lia.
    unfold wrap16. by rewrite Z.mod_small by lia.
Qed.

(** A splitter of that kind. *)
Fixpoint quoted_name (s : string) : string * string :=
  match s with
  | EmptyString => (EmptyString, EmptyString)
  | String c s' => if Ascii.eqb c dq then (EmptyString, s')
                   else let '(a, rest) := quoted_name s' in (String c a, rest)
  end.
(** The words of a text, [cur] being what the current one has so far. *)
Fixpoint words (cur s : string) : list string :=
  match s with
  | EmptyString => if bool_decide (cur = EmptyString) then [] else [cur]
  | String c s' =>
      if is_space c then
        if bool_decide (cur = EmptyString) then words EmptyString s'
        else cur :: words EmptyString s'
      else words (cur +:+ String c EmptyString) s'
  end.
Definition split_quoted (line : string) : list string :=
  match line with
  | String c s =>
      if Ascii.eqb c dq then let '(a, rest) := quoted_name s in a :: words EmptyString rest else []
  | EmptyString => []
  end.

Lemma quoted_name_ok exe rest : all_chars (λ c, negb (Ascii.eqb c dq)) exe →
  quoted_name (exe +:+ String dq rest) = (exe, rest).
Proof.
  induction exe as [|c exe IH]; [done|]. rewrite append_cons. cbn [all_chars quoted_name].
  intros [Hc He]%andb_True. destruct (Ascii.eqb c dq); [done|]. by rewrite IH.
Qed.

Lemma words_plain cur a rest : all_chars plain_char a → words cur (a +:+ rest) = words (cur +:+ a) rest.
Proof.
  revert cur. induction a as [|c a IH]; intros cur; [by rewrite append_nil_r|].
  rewrite append_cons. cbn [all_chars words]. unfold plain_char at 1.
  intros [[[_ Hc]%andb_True _]%andb_True Ha]%andb_True. destruct (is_space c); [done|].
  rewrite IH by done. rewrite append_assoc. done.
Qed.

Lemma words_arguments cur args : Forall plain args →
  words cur (arguments_text args) = (if bool_decide (cur = EmptyString) then [] else [cur]) ++ args.
Proof.
  intros Ha. revert cur. induction Ha as [|a args [Hne Hp] _ IH]; intros cur.
  { cbn. by rewrite app_nil_r. }
  change (arguments_text (a :: args)) with (String " " (a +:+ arguments_text args)).
  cbn [words]. change (is_space " ") with true. cbv iota.
  rewrite words_plain, append_nil_l, IH, (bool_decide_eq_false_2 (a = EmptyString)) by done.
  by case_bool_decide.
Qed.

(** The conversion and the splitting of a system whose code page is the bytes
    of the program's own text. *)
Definition widen (s : string) : list Z := bytes_of_string s ++ [0].
Definition split_wide (line : list Z) : list string := split_quoted (string_of_bytes line).

Lemma split_wide_ok : splits_arguments split_wide.
Proof.
  intros exe args He Ha. exists exe. unfold split_wide, split_quoted.
  rewrite string_of_bytes_of_string, Ascii.eqb_refl.
  rewrite quoted_name_ok; [by rewrite words_arguments|].
  eapply all_chars_impl; [|done]. intros c [_ Hc]%andb_True. done.
Qed.

Definition worker_spec : WorkerProcessSpec :=
  mkSpecProcess "C:\Program Files\nvlink_worker.exe" 40123 7 18446744073709551615 3.

Lemma spawned_worker_arguments_witness :
  ∃ line,
    spawn_worker (Windows widen (λ _ line, Some (zlen line))) worker_spec = Ok (Some (zlen line)) ∧
    worker_args 4294967295 (split_wide line) = Some (40123, mkDescriptor 7 18446744073709551615 3).
Proof.
  destruct (spawned_worker_arguments widen (λ _ line, Some (zlen line)) split_wide 4294967295 worker_spec)
    as [(line & Hs & Hl) _]; try done.
  - apply split_wide_ok.
  - by exists line.
Defined.
