(* ===== verification/WorkerProps.v ===== *)
(** * The worker process and the coordinator, from start to end

    A worker's whole life at the coordinator is one abstract session on the
    registry. *)

From S2P Require Import Prelude Enums Double Records World Registry RegistryFacts Fixtures.
From S2P Require Import RegistryProps Bytes BytesFacts Serialization SerializationFacts Protocol.
From S2P Require Import ProtocolProps Text Transport Wire Coordinator CoordinatorFacts.
From S2P Require Import CoordinatorProps WorkerClient Worker.

(** ** Frames on a socket that takes every byte *)

(** What a client call that sends [f] does there. *)
Lemma client_send_clear f failure i o :
  zlen (fr_payload f) ≤ kMax - 14 →
  client_send f failure (Some (mkSock i [] o)) = (Ok tt, Some (mkSock i [] (o ++ frame_bytes f))).
Proof.
  intros Hf. destruct (encode_small f Hf) as [bs He]. unfold client_send, frame_bytes.
  by rewrite (send_frame_clear f bs) by done; rewrite He.
Qed.

Definition beat_frames (n : nat) : list Frame := repeat (mkFrame HEARTBEAT []) n.

Lemma beat_clear n i o :
  beat n (Some (mkSock i [] o)) =
  (Alive, Some (mkSock i [] (o ++ concat (frame_bytes <$> beat_frames n)))).
Proof.
  revert o. induction n as [|n IH]; intros o; [by rewrite app_nil_r|]. cbn [beat]. unfold heartbeat.
  rewrite client_send_clear by done. rewrite IH. unfold beat_frames. cbn [repeat fmap list_fmap concat].
  by rewrite <-app_assoc.
Qed.

(** The frames of one incarnation after its HELLO; [now] is when the link was
    made, which is not sent. *)
Definition worker_bandwidth : Z := 380000000000.
Definition measurement_payload (boot : Z) : list Z :=
  put_u64 (wrap64 (incarnation_base boot + 1)) ++ put_u64 100 ++ put_u64 101 ++
  put_u64 worker_bandwidth ++ put_bool true ++ write_enum EvidenceClass.SYNTHETIC ++
  put_u64 (4 * 1024 * 1024).
Definition worker_frames (boot : Z) (now : Timestamp) : list Frame :=
  [mkFrame PUBLISH_DEVICE (enc_device (worker_gpu0 boot));
   mkFrame PUBLISH_DEVICE (enc_device (worker_gpu1 boot));
   mkFrame PUBLISH_LINK (enc_link (own_link boot now));
   mkFrame PUBLISH_MEASUREMENT (measurement_payload boot);
   mkFrame READY []].

Lemma own_bandwidth : d_to_u64 (d_of_Z 380000000000) = Some worker_bandwidth.
Proof. by vm_compute. Qed.

Lemma enc_own_measurement boot : enc_meas (own_measurement boot) = Some (measurement_payload boot).
Proof.
  unfold enc_meas. change (meas_bandwidth_bps (own_measurement boot)) with (d_of_Z 380000000000).
  by rewrite own_bandwidth.
Qed.

(** A frame the coordinator receives as it is and answers nothing to. *)
Definition servable (f : Frame) : Prop :=
  frame_wf f ∧ zlen (fr_payload f) ≤ kMax - 14 ∧ fr_type f ≠ ROUTE.

Ltac small := unfold write_enum, put_u64, put_u32, put_bool, put_u8;
  rewrite !zlen_app, !zlen_put_le; vm_compute; discriminate.

Lemma worker_frames_servable boot now : Forall servable (worker_frames boot now).
Proof.
  unfold worker_frames. repeat (apply Forall_cons; split); [..|by apply Forall_nil];
    (split; [apply frame_wf_intro; [done|done|]|split; [cbn [fr_payload]|done]]).
  1, 3: unfold enc_device; bytes.
  1, 2: unfold worker_gpu0, worker_gpu1, worker_device, enc_device; small.
  1: unfold enc_link; bytes.
  1: unfold enc_link, own_link; small.
  1: unfold measurement_payload; bytes.
  1: unfold measurement_payload; small.
  1: constructor.
  1: done.
Qed.

Lemma beat_frames_servable n : Forall servable (beat_frames n).
Proof. induction n as [|n IH]; [constructor|]. constructor; [|done].
  split; [apply frame_wf_intro; [done|done|constructor]|by split].
Qed.

Lemma publish_all_clear boot i o w :
  let now := (now_timestamp w).1 in
  publish_all boot (Some (mkSock i [] o)) w =
  (Some (Some (mkSock i [] (o ++ concat (frame_bytes <$> worker_frames boot now)))),
   (now_timestamp w).2).
Proof.
  intros now. pose proof (worker_frames_servable boot now) as Hs. unfold worker_frames in Hs.
  rewrite !Forall_cons in Hs. destruct Hs as ((_ & H1 & _) & (_ & H2 & _) & (_ & H3 & _) & (_ & H4 & _) & _).
  unfold publish_all, publish_device. rewrite !client_send_clear by done. rewrite bind_eq. fold now.
  unfold publish_link. rewrite client_send_clear by done. unfold client_publish_measurement.
  rewrite enc_own_measurement. cbn [mbind option_bind]. rewrite client_send_clear by done.
  unfold signal_ready. rewrite client_send_clear by done. unfold worker_frames.
  cbn [snd ret fmap list_fmap concat]. by rewrite <-!app_assoc, app_nil_r.
Qed.

(** ** The coordinator serves a list of frames *)

Section Serve.
Context {P : Platform}.

Fixpoint handle_all (fs : list Frame) (wid boot : Z) (r : Registry) : M Registry :=
  match fs with
  | [] => ret r
  | f :: fs' => let* r' := handle_publish f wid boot r in handle_all fs' wid boot r'
  end.

Lemma run_connection_add m n c s w :
  run_connection (m + n) c s w =
  let '((c', s'), w') := run_connection m c s w in run_connection n c' s' w'.
Proof.
  revert c s w. induction m as [|m IH]; intros c s w; [done|].
  cbn [Nat.add]. rewrite !run_connection_S. apply IH.
Qed.

Lemma frame_bytes_ok f : servable f → encode_frame f kMax = Ok (frame_bytes f).
Proof.
  intros (_ & Hs & _). unfold frame_bytes. destruct (encode_small f Hs) as [bs He]. by rewrite He.
Qed.

Lemma frames_bytes_ok fs : Forall servable fs → bytes_ok (concat (frame_bytes <$> fs)).
Proof.
  induction 1 as [|f fs Hf _ IH]; [constructor|]. cbn. apply bytes_ok_app; [|done].
  eapply encode_ok; [apply Hf|by apply frame_bytes_ok].
Qed.

(** Serving the frames of a stream is handling them in order. *)
Lemma serve_frames fs k rest wid boot s w :
  Forall servable fs → chunks_ok k → bytes_ok rest →
  stream k = concat (frame_bytes <$> fs) ++ rest →
  ∃ k', run_connection (length fs) (mkConn k (Serving wid boot)) s w =
    (let '(r', w') := handle_all fs wid boot (sv_registry s) w in
     ((mkConn k' (Serving wid boot), set_registry r' s), w')) ∧
    chunks_ok k' ∧ stream k' = rest ∧ sk_out k' = sk_out k.
Proof.
  intros Hfs. revert k s w. induction Hfs as [|f fs Hf Hfs IH]; intros k s w Hk Hr Hst.
  { exists k. split; [|done]. destruct s. done. }
  cbn [fmap list_fmap concat] in Hst. rewrite <-app_assoc in Hst.
  destruct (recv_frame_encoded f kMax (frame_bytes f) (concat (frame_bytes <$> fs) ++ rest) k)
    as (k1 & Hrecv & Hk1 & Hst1 & Ho1 & _);
    [apply Hf|done|by apply frame_bytes_ok|done|apply bytes_ok_app; [by apply frames_bytes_ok|done]|done|].
  cbn [length handle_all]. rewrite run_connection_S. unfold conn_step. cbn [cn_phase cn_sock].
  rewrite Hrecv, bool_decide_eq_false_2 by apply Hf. rewrite !bind_eq.
  destruct (handle_publish f wid boot (sv_registry s) w) as [r1 w1]. cbn [ret fst snd].
  destruct (IH k1 (set_registry r1 s) w1 Hk1 Hr Hst1) as (k' & Hrun & ? & ? & Ho').
  exists k'. rewrite Hrun. cbn [sv_registry set_registry].
  destruct (handle_all fs wid boot r1 w1) as [r' w']. split_and!; try done. congruence.
Qed.

(** A connection at the end of its stream is wound up. *)
Lemma serve_end k wid boot s w :
  chunks_ok k → stream k = [] →
  ∃ k', run_connection 3 (mkConn k (Serving wid boot)) s w =
    (let '(r', w') := mark_dynamic_evidence_revalidation_required (sv_registry s) w in
     ((mkConn k' (Closed false),
       mkServer r' (sv_epoch s) (last_boot s) (decremented (live_count s))), w')) ∧
    sk_out k' = sk_out k.
Proof.
  intros Hk Hst. rewrite run_connection_S. unfold conn_step. cbn [cn_phase cn_sock].
  pose proof (recv_frame_spec kMax k Hk) as Hr. rewrite Hst in Hr. specialize (Hr ltac:(constructor)).
  destruct (recv_frame kMax k) as [res k']. destruct Hr as (_ & Ho & _ & Hres).
  destruct res as [f|e]; [done|]. cbn [ret fst snd].
  rewrite run_connection_S. unfold conn_step. cbn [cn_phase cn_sock]. rewrite bind_eq.
  destruct (mark_dynamic_evidence_revalidation_required (sv_registry s) w) as [r' w'].
  cbn [ret fst snd]. rewrite run_connection_S. unfold conn_step. cbn [cn_phase cn_sock ret fst snd].
  exists k'. split; [|done]. unfold decremented. cbn [live_count set_registry sv_registry sv_epoch last_boot].
  destruct (0 <? live_count s) eqn:E; [done|]. destruct s. done.
Qed.
End Serve.

(** ** The abstract session *)

Section Session.
Context {P : Platform}.

(** What one incarnation does to the registry while it lives. *)
Definition session (wid boot : Z) (r : Registry) : M Registry :=
  let* '(_, r) := upsert_device (device_set_owner wid boot (published_device (worker_gpu0 boot))) r in
  let* '(_, r) := upsert_device (device_set_owner wid boot (published_device (worker_gpu1 boot))) r in
  let* now := now_timestamp in
  let* '(_, r) := upsert_link (published_link (own_link boot default_timestamp) now) r in
  let* now := now_timestamp in
  let* '(_, r) := publish_measurement (meas_set_owner wid boot
    (published_measurement (own_measurement boot) worker_bandwidth now)) r in
  ret r.

(** Its whole life: the evidence is marked when it is gone. *)
Definition incarnation (wid boot : Z) (r : Registry) : M Registry :=
  let* r := session wid boot r in mark_dynamic_evidence_revalidation_required r.

Lemma handle_device d wid boot r w : device_sendable d →
  handle_publish (mkFrame PUBLISH_DEVICE (enc_device d)) wid boot r w =
  (let* '(_, r') := upsert_device (device_set_owner wid boot (published_device d)) r in ret r') w.
Proof. intros Hd. exact (pub_handled d (enc_device d) wid boot r w Hd eq_refl). Qed.

Lemma handle_link l wid boot r w : link_sendable l →
  handle_publish (mkFrame PUBLISH_LINK (enc_link l)) wid boot r w =
  (let* now := now_timestamp in
   let* '(_, r') := upsert_link (published_link l now) r in ret r') w.
Proof. intros Hl. exact (pub_handled l (enc_link l) wid boot r w Hl eq_refl). Qed.

Lemma handle_measurement m bs bps wid boot r w :
  meas_sendable m → enc_meas m = Some bs → d_to_u64 (meas_bandwidth_bps m) = Some bps →
  handle_publish (mkFrame PUBLISH_MEASUREMENT bs) wid boot r w =
  (let* now := now_timestamp in
   let* '(_, r') := publish_measurement
     (meas_set_owner wid boot (published_measurement m bps now)) r in ret r') w.
Proof.
  intros Hm He Hb. etrans; [exact (pub_handled m bs wid boot r w Hm He)|].
  cbn [pub_call measurement_publication]. by rewrite Hb.
Qed.

Lemma worker_device_sendable id name gen :
  u64 id → u64 gen → device_sendable (worker_device id name gen).
Proof. by split. Qed.

Lemma own_link_sendable boot now : link_sendable (own_link boot now).
Proof. split; try done; apply wrap64_u64. Qed.

Lemma own_measurement_sendable boot : meas_sendable (own_measurement boot).
Proof. split; try done; apply wrap64_u64. Qed.

Lemma handle_beats n wid boot r w : handle_all (beat_frames n) wid boot r w = (r, w).
Proof. induction n as [|n IH]; [done|]. unfold beat_frames. cbn [repeat handle_all]. by rewrite bind_eq. Qed.

Lemma handle_all_app fs gs wid boot r w :
  handle_all (fs ++ gs) wid boot r w =
  let '(r', w') := handle_all fs wid boot r w in handle_all gs wid boot r' w'.
Proof.
  revert r w. induction fs as [|f fs IH]; intros r w; [done|]. cbn [app handle_all]. rewrite !bind_eq.
  apply IH.
Qed.

(** The worker's frames, handled in order, are the session. *)
Lemma handle_worker_frames wid boot now n r w :
  handle_all (worker_frames boot now ++ beat_frames n) wid boot r w = session wid boot r w.
Proof.
  rewrite handle_all_app. unfold worker_frames. cbn [handle_all]. rewrite bind_eq.
  unfold worker_gpu0, worker_gpu1. rewrite handle_device by (by apply worker_device_sendable; [|apply wrap64_u64]).
  unfold session, worker_gpu0, worker_gpu1. rewrite !bind_eq.
  destruct (upsert_device _ r w) as [[res1 s1] w1]. cbn [ret fst snd].
  rewrite !bind_eq, handle_device by (by apply worker_device_sendable; [|apply wrap64_u64]).
  rewrite !bind_eq. destruct (upsert_device _ s1 w1) as [[res2 s2] w2]. cbn [ret fst snd].
  rewrite !bind_eq, handle_link by apply own_link_sendable. rewrite !bind_eq.
  change (published_link (own_link boot now)) with (published_link (own_link boot default_timestamp)).
  destruct (upsert_link _ s2 _) as [[res3 s3] w3]. cbn [ret fst snd].
  rewrite !bind_eq, (handle_measurement (own_measurement boot) _ worker_bandwidth)
    by (apply own_measurement_sendable || apply enc_own_measurement || apply own_bandwidth).
  rewrite !bind_eq. destruct (publish_measurement _ s3 _) as [[res4 s4] w4]. cbn [ret fst snd].
  unfold handle_publish. cbn [fr_type ret fst snd]. apply handle_beats.
Qed.
End Session.

(** ** From start to end *)

Section Lifetime.
Context {P : Platform}.

(** The process, when the coordinator's answer is in its stream. *)
Lemma worker_accepted umax dial n argv w port desc inC epoch :
  worker_args umax argv = Some (port, desc) → dial port = Dialed (mkSock inC [] []) →
  Forall (λ b, b ≠ []) inC →
  concat inC = frame_bytes (hello_reply true (wd_epoch desc) epoch) →
  ∃ k, (worker_main umax dial n argv w).1 = (Alive, Some k) ∧
    sk_out k = frame_bytes (hello (wd_worker desc) (wd_boot desc) (wd_epoch desc)) ++
      concat (frame_bytes <$> (worker_frames (wd_boot desc) (now_timestamp w).1 ++ beat_frames n)).
Proof.
  intros Ha Hd HC Hst. unfold worker_main. rewrite Ha, Hd.
  destruct (connect_replied desc None inC true epoch []) as (inC' & _ & _ & Hc);
    [done|constructor|by rewrite app_nil_r|].
  rewrite Hc. rewrite bind_eq, publish_all_clear. cbn [fst snd ret]. rewrite beat_clear.
  eexists. split; [done|]. cbn [sk_out]. by rewrite fmap_app, concat_app, !app_assoc.
Qed.

Lemma worker_rejected umax dial n argv w port desc inC epoch :
  worker_args umax argv = Some (port, desc) → dial port = Dialed (mkSock inC [] []) →
  Forall (λ b, b ≠ []) inC →
  concat inC = frame_bytes (hello_reply false (wd_epoch desc) epoch) →
  ∃ k out, (worker_main umax dial n argv w).1 = (Ended 3 out, Some k) ∧
    sk_out k = frame_bytes (hello (wd_worker desc) (wd_boot desc) (wd_epoch desc)).
Proof.
  intros Ha Hd HC Hst. unfold worker_main. rewrite Ha, Hd.
  destruct (connect_replied desc None inC false epoch []) as (inC' & _ & _ & Hc);
    [done|constructor|by rewrite app_nil_r|].
  rewrite Hc. by eexists _, _.
Qed.

(** Whatever the answer, it sends the HELLO and frames that ask for no answer. *)
Lemma worker_says_hello umax dial n argv w port desc inC :
  worker_args umax argv = Some (port, desc) → dial port = Dialed (mkSock inC [] []) →
  ∃ fs, Forall servable fs ∧ default [] (sk_out <$> (worker_main umax dial n argv w).1.2) =
    frame_bytes (hello (wd_worker desc) (wd_boot desc) (wd_epoch desc)) ++
    concat (frame_bytes <$> fs).
Proof.
  intros Ha Hd. unfold worker_main. rewrite Ha, Hd.
  destruct (connect_side desc None inC) as [i Hi].
  destruct (connect desc _ None) as [[[]|e] client] eqn:Hc; cbn [fst snd] in Hi; subst client.
  2: { exists []. split; [constructor|]. by rewrite app_nil_r. }
  rewrite bind_eq, publish_all_clear. cbn [fst snd ret]. rewrite beat_clear.
  exists (worker_frames (wd_boot desc) (now_timestamp w).1 ++ beat_frames n).
  split; [|by rewrite (fmap_app frame_bytes), concat_app, app_assoc].
  apply Forall_app. split; [apply worker_frames_servable|apply beat_frames_servable].
Qed.

Lemma stream_length fs : Forall servable fs →
  (length fs ≤ length (concat (frame_bytes <$> fs)))%nat.
Proof.
  induction 1 as [|f fs Hf _ IH]; [done|]. cbn [fmap list_fmap concat]. rewrite length_app. cbn [length].
  destruct (encode_frame_length f kMax (frame_bytes f)) as (_ & Hl & _);
    [apply Hf|done|by apply frame_bytes_ok|]. unfold zlen in Hl. lia.
Qed.

(** The connection of a worker that is accepted, publishes and is gone. *)
Lemma accepted_life wid boot epoch fs inS s w :
  u64 wid → u64 boot → u64 epoch → Forall servable fs → Forall (λ b, b ≠ []) inS →
  concat inS = frame_bytes (hello wid boot epoch) ++ concat (frame_bytes <$> fs) →
  (authorize wid boot epoch s).1 = true →
  (handle_connection (mkSock inS [] []) s w).1.2 =
    mkServer ((let* r := handle_all fs wid boot (sv_registry s) in
               mark_dynamic_evidence_revalidation_required r) w).1 (sv_epoch s)
      (<[wid := boot]> (last_boot s)) (decremented (wrap64 (live_count s + 1))) ∧
  cn_phase (handle_connection (mkSock inS [] []) s w).1.1 = Closed false ∧
  sk_out (cn_sock (handle_connection (mkSock inS [] []) s w).1.1) =
    frame_bytes (hello_reply true epoch (sv_epoch s)).
Proof.
  intros Hw Hb He Hfs HS Hst Hacc.
  assert (∃ m, conn_fuel (mkConn (mkSock inS [] []) AwaitHello) = 3 + (length fs + (3 + m)))%nat as [m Hm].
  { exists (2 * length (concat inS) - length fs)%nat. unfold conn_fuel, stream. cbn [cn_sock cn_phase sk_in phase_rank].
    pose proof (stream_length fs Hfs). rewrite Hst, length_app. lia. }
  unfold handle_connection. rewrite Hm, run_connection_add.
  pose proof (hello_served wid boot epoch inS _ s w Hw Hb He HS (frames_bytes_ok fs Hfs) Hst) as Hh.
  destruct (authorize wid boot epoch s) as [acc s1] eqn:Ha. cbn [fst] in Hacc. subst acc.
  assert (s1 = enlist wid boot s) as -> by (unfold authorize in Ha; repeat case_match; by simplify_eq).
  destruct Hh as (inS' & Hok & Hrest & ->). rewrite run_connection_add.
  destruct (serve_frames fs (mkSock inS' [] (frame_bytes (hello_reply true epoch (sv_epoch s)))) []
    wid boot (enlist wid boot s) w) as (k1 & Hrun & Hk1 & Hst1 & Ho1);
    [done|done|constructor|by rewrite app_nil_r|].
  rewrite Hrun. cbn [sv_registry enlist]. rewrite bind_eq.
  destruct (handle_all fs wid boot (sv_registry s) w) as [r1 w1]. rewrite run_connection_add. cbn [fst snd].
  destruct (serve_end k1 wid boot (set_registry r1 (enlist wid boot s)) w1 Hk1 Hst1) as (k2 & Hend & Ho2).
  rewrite Hend. cbn [sv_registry set_registry].
  destruct (mark_dynamic_evidence_revalidation_required r1 w1) as [r2 w2].
  match goal with |- context [run_connection m ?c ?s' w2] =>
    pose proof (run_connection_closed m c s' w2 false eq_refl) as Hend' end.
  destruct (run_connection m _ _ w2) as [cs w3]. cbn [fst] in Hend'. subst cs.
  cbn [fst snd cn_phase cn_sock]. split_and!; [done|done|]. by rewrite Ho2, Ho1.
Qed.
End Lifetime.

Lemma rejected_life `{Platform} wid boot epoch inS rest s w :
  u64 wid → u64 boot → u64 epoch → Forall (λ b, b ≠ []) inS → bytes_ok rest →
  concat inS = frame_bytes (hello wid boot epoch) ++ rest →
  (authorize wid boot epoch s).1 = false →
  (handle_connection (mkSock inS [] []) s w).1.2 = s ∧
  cn_phase (handle_connection (mkSock inS [] []) s w).1.1 = Closed false ∧
  sk_out (cn_sock (handle_connection (mkSock inS [] []) s w).1.1) =
    frame_bytes (hello_reply false epoch (sv_epoch s)).
Proof.
  intros Hw Hb He HS Hr Hst Hacc. unfold handle_connection.
  assert (conn_fuel (mkConn (mkSock inS [] []) AwaitHello) =
    3 + (conn_fuel (mkConn (mkSock inS [] []) AwaitHello) - 3))%nat as ->
    by (unfold conn_fuel; simpl; lia).
  set (m := (conn_fuel _ - 3)%nat). rewrite run_connection_add.
  pose proof (hello_served wid boot epoch inS rest s w Hw Hb He HS Hr Hst) as Hh.
  destruct (authorize wid boot epoch s) as [acc s1] eqn:Ha. cbn [fst] in Hacc. subst acc.
  assert (s1 = s) as -> by (unfold authorize in Ha; repeat case_match; by simplify_eq).
  destruct Hh as (inS' & _ & _ & ->).
  match goal with |- context [run_connection m ?c ?s' w] =>
    pose proof (run_connection_closed m c s' w false eq_refl) as Hend end.
  destruct (run_connection m _ _ w) as [cs w3]. cbn [fst] in Hend. by subst cs.
Qed.

(** C7.  The whole life of an [nvlink_worker] process and of its connection,
    over a network that loses nothing, the process being killed after any
    number of heartbeats.  When the coordinator accepts its boot, the process
    reaches its heartbeat loop, and what the coordinator has done by the end is
    exactly one [incarnation] on its registry (two devices, a link and a
    measurement published for that worker and boot, then everything dynamic
    marked for revalidation), the boot recorded and the worker off the live
    count; when it refuses, the process exits with code 3 and the coordinator
    is as before.  The connection is closed either way. *)
Theorem worker_lifetime `{Platform} umax dial n argv w port desc inC inS s ws :
  let wid := wd_worker desc in let boot := wd_boot desc in let epoch := wd_epoch desc in
  let '(proc, client) := (worker_main umax dial n argv w).1 in
  let '(conn, s') := (handle_connection (mkSock inS [] []) s ws).1 in
  worker_args umax argv = Some (port, desc) → u64 wid → u64 boot → u64 epoch →
  dial port = Dialed (mkSock inC [] []) →
  Forall (λ b, b ≠ []) inC → Forall (λ b, b ≠ []) inS →
  concat inS = default [] (sk_out <$> client) →
  concat inC = sk_out (cn_sock conn) →
  cn_phase conn = Closed false ∧
  if (authorize wid boot epoch s).1 then
    proc = Alive ∧
    s' = mkServer (incarnation wid boot (sv_registry s) ws).1 (sv_epoch s)
           (<[wid := boot]> (last_boot s)) (decremented (wrap64 (live_count s + 1)))
  else (∃ out, proc = Ended 3 out) ∧ s' = s.
Proof.
  intros wid boot epoch. destruct (worker_main umax dial n argv w).1 as [proc client] eqn:Ew.
  destruct (handle_connection (mkSock inS [] []) s ws).1 as [conn s'] eqn:Es.
  intros Ha Hw Hb He Hd HC HS HinS HinC.
  destruct (worker_says_hello umax dial n argv w port desc inC Ha Hd) as (fs & Hfs & Hhello).
  rewrite Ew in Hhello. cbn [snd] in Hhello. rewrite <-HinS in Hhello.
  destruct (authorize wid boot epoch s).1 eqn:Hacc.
  - destruct (accepted_life wid boot epoch fs inS s ws Hw Hb He Hfs HS Hhello Hacc) as (_ & _ & Hout).
    rewrite Es in Hout. cbn [fst] in Hout. rewrite Hout in HinC.
    destruct (worker_accepted umax dial n argv w port desc inC (sv_epoch s) Ha Hd HC HinC) as (k & Hk & Hko).
    rewrite Ew in Hk. injection Hk as -> ->. cbn in HinS. rewrite Hko in HinS.
    destruct (accepted_life wid boot epoch
      (worker_frames boot (now_timestamp w).1 ++ beat_frames n) inS s ws Hw Hb He)
      as (H1 & H2 & _); [|done..|].
    { apply Forall_app. split; [apply worker_frames_servable|apply beat_frames_servable]. }
    rewrite Es in H1, H2. cbn [fst snd] in *. split; [done|]. split; [done|]. rewrite H1.
    unfold incarnation. by rewrite !bind_eq, handle_worker_frames.
  - destruct (rejected_life wid boot epoch inS _ s ws Hw Hb He HS
      (frames_bytes_ok fs Hfs) Hhello Hacc) as (H1 & H2 & Hout).
    rewrite Es in H1, H2, Hout. cbn [fst snd] in *. rewrite Hout in HinC.
    destruct (worker_rejected umax dial n argv w port desc inC (sv_epoch s) Ha Hd HC HinC)
      as (k & out & Hk & _).
    rewrite Ew in Hk. injection Hk as -> ->. split; [done|]. split; [by exists out|done].
Qed.

(** Worker 7, boot 1, against a coordinator that has just started: two
    heartbeats, and then it is killed. *)
Definition worker_argv : list string := ["nvlink_worker"; "40123"; "7"; "1"; "1"].
Definition ready_bytes : list Z := frame_bytes (hello_reply true 1 1).
Definition worker_dial (port : Z) : Dial :=
  if port =? 40123 then Dialed (mkSock [ready_bytes] [] []) else Refused.
Definition worker_run : Process * Client :=
  (worker_main (two64 - 1) worker_dial 2 worker_argv world0).1.
Definition worker_bytes : list Z := default [] (sk_out <$> worker_run.2).
Definition worker_served : Conn * Server :=
  (@handle_connection reference_platform (mkSock [take 50 worker_bytes; drop 50 worker_bytes] [] [])
     server1 world0).1.

Lemma worker_lifetime_witness :
  worker_run.1 = Alive ∧
  worker_served.2 = mkServer (@incarnation reference_platform 7 1 (sv_registry server1) world0).1
    (sv_epoch server1) (<[7 := 1]> (last_boot server1)) (decremented (wrap64 (live_count server1 + 1))) ∧
  link_count (sv_registry worker_served.2) = 1.
Proof.
  assert (concat [take 50 worker_bytes; drop 50 worker_bytes] =
    default [] (sk_out <$> worker_run.2)) as HinS by (vm_compute; reflexivity).
  assert (concat [ready_bytes] = sk_out (cn_sock worker_served.1)) as HinC by (vm_compute; reflexivity).
  assert (link_count (sv_registry worker_served.2) = 1) as Hl by (vm_compute; reflexivity).
  assert (worker_args (two64 - 1) worker_argv = Some (40123, mkDescriptor 7 1 1)) as Hargs
    by (vm_compute; reflexivity).
  assert (u64 7 ∧ u64 1) as [H7 H1] by (unfold u64, two64; lia).
  assert (Forall (λ b, b ≠ []) [ready_bytes]) as HC by (constructor; [by vm_compute|constructor]).
  assert (Forall (λ b, b ≠ []) [take 50 worker_bytes; drop 50 worker_bytes]) as HS.
  { constructor; [by vm_compute|]. constructor; [by vm_compute|constructor]. }
  assert ((authorize 7 1 1 server1).1 = true) as Hacc by (vm_compute; reflexivity).
  pose proof (@worker_lifetime reference_platform (two64 - 1) worker_dial 2 worker_argv world0 40123
    (mkDescriptor 7 1 1) [ready_bytes] [take 50 worker_bytes; drop 50 worker_bytes] server1 world0) as H.
  cbv zeta in H. fold worker_run worker_served in H.
  destruct worker_run as [proc client], worker_served as [conn s'].
  specialize (H Hargs H7 H1 H1 eq_refl HC HS HinS HinC).
  change (authorize (wd_worker (mkDescriptor 7 1 1)) _ _ _) with (authorize 7 1 1 server1) in H.
  rewrite Hacc in H. destruct H as (_ & Hr & Hs).
  split; [exact Hr|]. split; [exact Hs|exact Hl].
Defined.
