(* ===== verification/Restarts.v ===== *)
(** * A worker that is started again and again

    The incarnations of one worker at the registry, one after the other: the
    evidence of the newest replaces or outdates that of the others, but each
    publishes a link of its own, and the old links stay. *)

From S2P Require Import Prelude Enums Double Records World Registry RegistryFacts Fixtures.
From S2P Require Import RegistryProps Paths PathsFacts Quality Route RouteFacts Ranking.
From S2P Require Import Eligibility RouteProps Governance.
From S2P Require Import Wire Coordinator CoordinatorFacts Backends BackendsProps WorkerClient Worker.
From S2P Require Import WorkerProps.

(** ** Routes over links that all need revalidation *)

Definition needs_revalidation (l : LinkRecord) : Prop :=
  lk_state l = LinkOperationalState.REVALIDATION_REQUIRED.

Lemma reval_quality r w w' src tgt es :
  wf r → es ≠ [] → Forall (λ e, ∃ l, link r (edge_link e) = Some l ∧ needs_revalidation l) es →
  outcome_executable (outcome_of_quality (q_outcome (quality_of (consistent_view r w').1
    (route_path (topology_of r w) src tgt es)))) = false.
Proof.
  intros Hwf Hne Hes. unfold quality_of. rewrite quality_outcome.
  change (view_topology _) with (topology_of r w'). rewrite route_links by done.
  destruct es as [|e es]; [done|]. apply Forall_cons in Hes as [(l & Hl & Hr) _].
  destruct (_ || _); [done|]. destruct (existsb (on_link (λ l, bool_decide _)) _); [done|].
  cbn [fmap list_fmap existsb]. rewrite Hl. cbn [on_link]. unfold state_is_reval. rewrite Hr. done.
Qed.

Lemma walk_hops (E : Z → Edge → Prop) a es b :
  simple_walk E a es b → es ≠ [] ∧ Forall (λ e, ∃ a', E a' e) es.
Proof.
  intros (Hc & _ & Hne). split; [done|]. clear Hne. revert a Hc.
  induction es as [|e es IH]; intros a Hc; [constructor|]. destruct Hc as [He Hc].
  constructor; [by exists a|by eapply IH].
Qed.

Lemma nothing_usable_no_route src tgt pol r r' w d :
  wf r → 0 ≤ max_candidate_paths (limits_ r) →
  map_Forall (λ _, needs_revalidation) (links (state_ r)) →
  (decide_route src tgt pol r r' w).1 = Ok d → rd_executable d = false.
Proof.
  intros Hwf Hm Hl Hd. destruct (rd_executable d) eqn:Hx; [|done].
  destruct (executable_selected src tgt pol r r' w d Hd Hx) as [i Hi].
  destruct (selected_candidate src tgt pol r r' w d i Hwf Hm Hd Hi)
    as (w1 & sd & td & es & _ & _ & Hw & _ & _ & _ & Ho & He & _).
  rewrite <-Hx, He, Ho. destruct (walk_hops _ _ _ _ Hw) as [Hne Hes].
  apply reval_quality; [done|done|]. eapply Forall_impl; [exact Hes|].
  intros e (a & lk & Hlk & _). exists lk. split; [done|]. by eapply Hl.
Qed.

(** ** One call *)

Section Calls.
Context {P : Platform}.

(** A device that is new or newer than the stored one is stored. *)
Lemma upsert_device_stored d r w :
  dev_id d ≠ 0 → dev_generation d ≠ 0 →
  (∀ cur, device r (dev_id d) = Some cur → dev_generation cur < dev_generation d) →
  (device r (dev_id d) = None → device_count r < max_devices (limits_ r)) →
  let r' := (upsert_device d r w).1.2 in
  limits_ r' = limits_ r ∧ devices (state_ r') = <[dev_id d := d]> (devices (state_ r)) ∧
  ∃ g, links (state_ r') = link_set_topology_generation g <$> links (state_ r).
Proof.
  intros Hi Hg Hnew Hroom. unfold upsert_device, is_nil, gen_valid, device, device_count in *. cbv zeta.
  rewrite (proj2 (Z.eqb_neq _ _) Hi), (proj2 (Z.eqb_neq _ _) Hg). cbn [negb orb].
  destruct (devices (state_ r) !! dev_id d) as [cur|].
  - specialize (Hnew cur eq_refl). rewrite (proj2 (Z.ltb_ge _ _)) by lia.
    rewrite (proj2 (Z.eqb_neq _ _)) by lia. rewrite !bind_eq. split_and!; [done|done|by eexists].
  - rewrite (proj2 (Z.leb_gt _ _)) by auto. rewrite !bind_eq. split_and!; [done|done|by eexists].
Qed.

(** A link between a pair that has no room left changes nothing. *)
Lemma upsert_link_full l r w :
  max_parallel_links_per_pair (limits_ r) ≤ parallel_links (lk_source l) (lk_target l) (links (state_ r)) →
  (upsert_link l r w).1.2 = r.
Proof.
  intros Hp. unfold upsert_link. rewrite (proj2 (Z.leb_le (max_parallel_links_per_pair _) _)) by done.
  by repeat (case_match; [done|]).
Qed.

Lemma publish_measurement_topology m r w :
  let r' := (publish_measurement m r w).1.2 in
  limits_ r' = limits_ r ∧ devices (state_ r') = devices (state_ r) ∧ links (state_ r') = links (state_ r).
Proof. unfold publish_measurement. rewrite bind_eq. done. Qed.
End Calls.

Lemma msize_one {A} (m : gmap Z A) x : (∀ i, is_Some (m !! i) → i = x) → msize m ≤ 1.
Proof.
  intros Hm. unfold msize. rewrite <-size_dom.
  assert (size (dom m) ≤ size ({[x]} : gset Z))%nat as Hs.
  { apply subseteq_size. intros i Hi%elem_of_dom%Hm. set_solver. }
  rewrite size_singleton in Hs. lia.
Qed.

(** All links of a map join the pair. *)
Lemma parallel_links_all a b (m : gmap Z LinkRecord) :
  map_Forall (λ _ l, same_unordered a b l = true) m → parallel_links a b m = msize m.
Proof.
  intros Hm. unfold parallel_links. f_equal. apply map_filter_id. intros i l Hl. by apply (Hm i).
Qed.

(** ** One incarnation *)

Section Incarnation.
Context {P : Platform} (lim : Limits) (wid : Z).
Let room : Z := max_parallel_links_per_pair lim.

(** The registry after [k] incarnations, whose generations and link ids are
    at most [c]. *)
Record worn (k c : Z) (r : Registry) : Prop := {
  wn_wf : wf r;
  wn_limits : limits_ r = lim;
  wn_devices : ∀ i d, device r i = Some d → (i = 100 ∨ i = 101) ∧ dev_generation d ≤ c;
  wn_links : ∀ i l, link r i = Some l →
    i ≤ c ∧ same_unordered 100 101 l = true ∧ needs_revalidation l;
  wn_count : link_count r = Z.min k room
}.

(** The records as the coordinator stores them. *)
Definition stored_gpu0 (boot : Z) : DeviceRecord :=
  device_set_owner wid boot (published_device (worker_gpu0 boot)).
Definition stored_gpu1 (boot : Z) : DeviceRecord :=
  device_set_owner wid boot (published_device (worker_gpu1 boot)).
Definition stored_link (boot : Z) (now : Timestamp) : LinkRecord :=
  published_link (own_link boot default_timestamp) now.

(** The registry while the incarnation lives, after [k] others. *)
Record alive (k boot : Z) (r : Registry) : Prop := {
  al_limits : limits_ r = lim;
  al_wf : wf r;
  al_gpu0 : device r 100 = Some (stored_gpu0 boot);
  al_gpu1 : device r 101 = Some (stored_gpu1 boot);
  al_only : ∀ i, i ≠ 100 → i ≠ 101 → device r i = None;
  al_count : link_count r = Z.min (k + 1) room;
  al_own : if k <? room
           then ∃ now g, link r (incarnation_base boot + 1) =
                         Some (link_set_topology_generation g (stored_link boot now))
           else link r (incarnation_base boot + 1) = None;
  al_others : ∀ i l, i ≠ incarnation_base boot + 1 → link r i = Some l →
    i ≤ incarnation_base boot ∧ same_unordered 100 101 l = true ∧ needs_revalidation l
}.

Definition boot_fits (boot : Z) : Prop := 0 ≤ boot ∧ boot * 1000000 + 2 < two64.
#[export] Instance boot_fits_dec boot : Decision (boot_fits boot).
Proof. unfold boot_fits. apply _. Defined.

Lemma base_eq boot : boot_fits boot → incarnation_base boot = boot * 1000000.
Proof. intros [? ?]. apply wrap64_small. unfold u64. lia. Qed.

Lemma stored_ids boot : boot_fits boot →
  dev_id (stored_gpu0 boot) = 100 ∧ dev_generation (stored_gpu0 boot) = boot * 1000000 + 1 ∧
  dev_id (stored_gpu1 boot) = 101 ∧ dev_generation (stored_gpu1 boot) = boot * 1000000 + 2 ∧
  ∀ now, lk_id (stored_link boot now) = boot * 1000000 + 1 ∧
         lk_generation (stored_link boot now) = boot * 1000000 + 1.
Proof.
  intros Hb. destruct (Hb) as [H0 H1].
  assert (∀ j, 0 ≤ j ≤ 2 → wrap64 (incarnation_base boot + j) = boot * 1000000 + j) as Hw.
  { intros j Hj. rewrite base_eq by done. apply wrap64_small. unfold u64. lia. }
  unfold stored_gpu0, stored_gpu1, stored_link. split_and!; [done|apply Hw; lia|done|apply Hw; lia|].
  intros now. split; apply Hw; lia.
Qed.

Lemma handled_wf fs boot r w : limits_ok lim → limits_ r = lim → wf r →
  wf (handle_all fs wid boot r w).1 ∧ limits_ (handle_all fs wid boot r w).1 = lim.
Proof.
  intros Hl. revert r w. induction fs as [|f fs IH]; intros r w Hr Hwf; [done|].
  cbn [handle_all]. rewrite bind_eq.
  destruct (handle_publish_wf f wid boot r w) as [Hwf' Hl']; [by rewrite Hr|done|].
  apply IH; [congruence|done].
Qed.

(** What the links of older incarnations look like below [c]. *)
Definition old_links (c : Z) (m : gmap Z LinkRecord) : Prop :=
  map_Forall (λ i l, i ≤ c ∧ same_unordered 100 101 l = true ∧ needs_revalidation l) m.

Lemma old_links_stamped c g m : old_links c m → old_links c (link_set_topology_generation g <$> m).
Proof. intros Hm. apply map_Forall_fmap. intros i l Hl. exact (Hm i l Hl). Qed.

Lemma old_links_parallel c m : old_links c m → parallel_links 100 101 m = msize m.
Proof. intros Hm. apply parallel_links_all. intros i l Hl. by destruct (Hm i l Hl) as (_ & ? & _). Qed.

(** The first device. *)
Lemma publish_gpu0 k c boot r w :
  2 ≤ max_devices lim → boot_fits boot → c ≤ boot * 1000000 → worn k c r →
  let r1 := (upsert_device (stored_gpu0 boot) r w).1.2 in
  limits_ r1 = lim ∧ device r1 100 = Some (stored_gpu0 boot) ∧
  (∀ i d, device r1 i = Some d → i ≠ 100 → i = 101 ∧ dev_generation d ≤ c) ∧
  old_links c (links (state_ r1)) ∧ link_count r1 = Z.min k room.
Proof.
  intros Hmd Hb Hc [Hwf Hl Hd Hlk Hcount].
  destruct (stored_ids boot Hb) as (Hi0 & Hg0 & _). destruct (Hb) as [Hb0 Hb1].
  destruct (upsert_device_stored (stored_gpu0 boot) r w) as (Hl1 & Hd1 & g1 & Hk1);
    rewrite ?Hi0, ?Hg0; [lia|lia| | |].
  { intros cur Hcur. destruct (Hd 100 cur Hcur). lia. }
  { intros Hn. apply Z.le_lt_trans with 1; [|rewrite Hl; lia]. apply (msize_one _ 101).
    intros i [d Hi]. destruct (Hd i d Hi) as [[-> | ->] _]; [|done]. unfold device in Hn. congruence. }
  cbv zeta. unfold device, link_count. rewrite Hd1, Hk1, Hi0, msize_fmap.
  split_and!; [congruence|by rewrite lookup_insert_eq| |by apply old_links_stamped|done].
  intros i d Hi Hne. rewrite lookup_insert_ne in Hi by done. by destruct (Hd i d Hi) as [[->| ->] ?].
Qed.

(** The second one. *)
Lemma publish_gpu1 k c boot r1 w :
  2 ≤ max_devices lim → boot_fits boot → c ≤ boot * 1000000 → limits_ r1 = lim →
  device r1 100 = Some (stored_gpu0 boot) →
  (∀ i d, device r1 i = Some d → i ≠ 100 → i = 101 ∧ dev_generation d ≤ c) →
  old_links c (links (state_ r1)) → link_count r1 = Z.min k room →
  let r2 := (upsert_device (stored_gpu1 boot) r1 w).1.2 in
  limits_ r2 = lim ∧ device r2 100 = Some (stored_gpu0 boot) ∧
  device r2 101 = Some (stored_gpu1 boot) ∧ (∀ i, i ≠ 100 → i ≠ 101 → device r2 i = None) ∧
  old_links c (links (state_ r2)) ∧ link_count r2 = Z.min k room.
Proof.
  intros Hmd Hb Hc Hl H100 Hd Hold Hcount.
  destruct (stored_ids boot Hb) as (_ & _ & Hi1 & Hg1 & _). destruct (Hb) as [Hb0 Hb1].
  destruct (upsert_device_stored (stored_gpu1 boot) r1 w) as (Hl2 & Hd2 & g2 & Hk2);
    rewrite ?Hi1, ?Hg1; [lia|lia| | |].
  { intros cur Hcur. destruct (Hd 101 cur Hcur); lia. }
  { intros Hn. apply Z.le_lt_trans with 1; [|rewrite Hl; lia]. apply (msize_one _ 100).
    intros i [d Hi]. destruct (decide (i = 100)) as [|Hne]; [done|].
    destruct (Hd i d Hi Hne) as [-> _]. unfold device in Hn. congruence. }
  cbv zeta. unfold device, link_count in *. rewrite Hd2, Hk2, Hi1, msize_fmap.
  split_and!; [congruence|by rewrite lookup_insert_ne|by rewrite lookup_insert_eq|
    |by apply old_links_stamped|done].
  intros i H0 H1. rewrite lookup_insert_ne by done.
  destruct (devices (state_ r1) !! i) as [d|] eqn:Hi; [|done]. by destruct (Hd i d Hi H0).
Qed.

(** The link, stored when there is room for it. *)
Lemma publish_own_link k c boot now r w :
  0 ≤ k → 0 ≤ room ≤ max_links lim → boot_fits boot → c ≤ boot * 1000000 → limits_ r = lim →
  is_Some (device r 100) → is_Some (device r 101) → old_links c (links (state_ r)) →
  link_count r = Z.min k room →
  let r' := (upsert_link (stored_link boot now) r w).1.2 in
  limits_ r' = lim ∧ devices (state_ r') = devices (state_ r) ∧
  link_count r' = Z.min (k + 1) room ∧
  (if k <? room
   then ∃ g, link r' (boot * 1000000 + 1) = Some (link_set_topology_generation g (stored_link boot now))
   else link r' (boot * 1000000 + 1) = None) ∧
  old_links c (delete (boot * 1000000 + 1) (links (state_ r'))).
Proof.
  intros Hk [Hroom Hml] Hb Hc Hl H100 H101 Hold Hcount.
  destruct (stored_ids boot Hb) as (_ & _ & _ & _ & Hil). destruct (Hil now) as [Hi Hg].
  assert (links (state_ r) !! (boot * 1000000 + 1) = None) as Hnone.
  { destruct (links (state_ r) !! (boot * 1000000 + 1)) as [l|] eqn:E; [|done].
    destruct (Hold _ l E). lia. }
  destruct (k <? room) eqn:E; to_props.
  - destruct (upsert_new_link (stored_link boot now) r w) as (Hl' & Hd' & Hk').
    { destruct Hb. split_and!; rewrite ?Hi, ?Hg; try done; [lia|lia|rewrite Hl; lia|].
      change (parallel_links 100 101 (links (state_ r)) < max_parallel_links_per_pair (limits_ r)).
      rewrite (old_links_parallel c) by done. unfold link_count in Hcount. rewrite Hcount, Hl. fold room. lia. }
    { by rewrite Hi. }
    cbv zeta in *. set (r' := (upsert_link (stored_link boot now) r w).1.2) in *. rewrite Hi in Hk'.
    unfold link_count, link in *. rewrite Hk', msize_fmap, msize_insert_None by done.
    split_and!; [congruence|done|lia| |].
    + rewrite lookup_fmap, lookup_insert_eq. by eexists.
    + rewrite <-fmap_delete, delete_insert_id by done. by apply old_links_stamped.
  - rewrite upsert_link_full; [split_and!; [done|done|lia|done|by rewrite delete_id]|].
    change (max_parallel_links_per_pair (limits_ r) ≤ parallel_links 100 101 (links (state_ r))).
    rewrite (old_links_parallel c) by done. unfold link_count in Hcount. rewrite Hcount, Hl. fold room. lia.
Qed.

(** What the coordinator makes of the first [n] frames of an incarnation. *)
Definition received (n : nat) (boot : Z) (r : Registry) : M Registry :=
  handle_all (take n (worker_frames boot default_timestamp)) wid boot r.

Lemma received_1 boot r w :
  (received 1 boot r w).1 = (upsert_device (stored_gpu0 boot) r w).1.2 ∧
  (received 1 boot r w).2 = (upsert_device (stored_gpu0 boot) r w).2.
Proof.
  unfold received, worker_frames. cbn [take handle_all]. rewrite bind_eq.
  unfold worker_gpu0. rewrite handle_device by (by apply worker_device_sendable; [|apply wrap64_u64]).
  rewrite bind_eq. fold (worker_gpu0 boot). unfold stored_gpu0.
  by destruct (upsert_device _ r w) as [[??]?].
Qed.

Lemma received_more m n boot r w :
  (received (m + n) boot r w) =
  handle_all (take n (drop m (worker_frames boot default_timestamp))) wid boot
    (received m boot r w).1 (received m boot r w).2.
Proof.
  unfold received. rewrite <-take_take_drop, handle_all_app. by destruct (handle_all (take m _) wid boot r w).
Qed.

Lemma received_2 boot r w :
  (received 2 boot r w).1 =
    (upsert_device (stored_gpu1 boot) (received 1 boot r w).1 (received 1 boot r w).2).1.2.
Proof.
  rewrite (received_more 1 1). unfold worker_frames. cbn [take drop handle_all]. rewrite bind_eq.
  unfold worker_gpu1. rewrite handle_device by (by apply worker_device_sendable; [|apply wrap64_u64]).
  rewrite bind_eq. fold (worker_gpu1 boot). unfold stored_gpu1.
  by destruct (upsert_device _ _ _) as [[??]?].
Qed.

Lemma received_3 boot r w : ∃ now w',
  (received 3 boot r w).1 = (upsert_link (stored_link boot now) (received 2 boot r w).1 w').1.2.
Proof.
  set (w2 := (received 2 boot r w).2). exists (now_timestamp w2).1, (now_timestamp w2).2.
  rewrite (received_more 2 1). fold w2. unfold worker_frames. cbn [take drop handle_all].
  rewrite bind_eq, handle_link by apply own_link_sendable. rewrite !bind_eq.
  unfold stored_link. by destruct (upsert_link _ _ _) as [[??]?].
Qed.

(** What comes after the link leaves the topology alone. *)
Lemma received_rest n boot r w : (3 ≤ n)%nat →
  let r3 := (received 3 boot r w).1 in
  devices (state_ (received n boot r w).1) = devices (state_ r3) ∧
  links (state_ (received n boot r w).1) = links (state_ r3).
Proof.
  intros Hn. replace n with (3 + (n - 3))%nat by lia. rewrite received_more. cbv zeta.
  generalize (received 3 boot r w) as p. intros [r3 w3]. unfold worker_frames.
  destruct (n - 3)%nat as [|m]; [done|]. cbn [drop take handle_all fst snd]. rewrite bind_eq.
  rewrite (handle_measurement (own_measurement boot) _ worker_bandwidth)
    by (apply own_measurement_sendable || apply enc_own_measurement || apply own_bandwidth).
  rewrite !bind_eq. match goal with |- context [publish_measurement ?m r3 ?w] =>
    pose proof (publish_measurement_topology m r3 w) as (_ & Hd & Hk);
    destruct (publish_measurement m r3 w) as [[res4 r4] w4] end. cbn [fst snd ret] in *.
  destruct m as [|[|m]]; cbn [take handle_all]; [done|..];
    rewrite bind_eq; unfold handle_publish; cbn [Protocol.fr_type ret fst snd]; done.
Qed.

Lemma received_all boot :
  received 5 boot = handle_all (worker_frames boot default_timestamp) wid boot.
Proof. reflexivity. Qed.

Lemma received_wf n boot r w : limits_ok lim → limits_ r = lim → wf r →
  wf (received n boot r w).1 ∧ limits_ (received n boot r w).1 = lim.
Proof. apply handled_wf. Qed.

#[local] Opaque received upsert_link upsert_device.

(** The registry after one and after two frames, and after the link. *)
Lemma received_gpu0 k c boot r w :
  2 ≤ max_devices lim → boot_fits boot → c ≤ boot * 1000000 → worn k c r →
  let r1 := (received 1 boot r w).1 in
  limits_ r1 = lim ∧ device r1 100 = Some (stored_gpu0 boot) ∧
  (∀ i d, device r1 i = Some d → i ≠ 100 → i = 101 ∧ dev_generation d ≤ c) ∧
  old_links c (links (state_ r1)) ∧ link_count r1 = Z.min k room.
Proof.
  intros Hmd Hb Hc Hworn. rewrite (proj1 (received_1 boot r w)). by apply publish_gpu0.
Qed.

Lemma received_gpus k c boot r w :
  2 ≤ max_devices lim → boot_fits boot → c ≤ boot * 1000000 → worn k c r →
  let r2 := (received 2 boot r w).1 in
  limits_ r2 = lim ∧ device r2 100 = Some (stored_gpu0 boot) ∧
  device r2 101 = Some (stored_gpu1 boot) ∧ (∀ i, i ≠ 100 → i ≠ 101 → device r2 i = None) ∧
  old_links c (links (state_ r2)) ∧ link_count r2 = Z.min k room.
Proof.
  intros Hmd Hb Hc Hworn. rewrite received_2.
  destruct (received_gpu0 k c boot r w) as (? & ? & ? & ? & ?); [done..|]. by apply publish_gpu1.
Qed.

Lemma received_link k c boot r w :
  2 ≤ max_devices lim → 0 ≤ room ≤ max_links lim → 0 ≤ k → boot_fits boot →
  c ≤ boot * 1000000 → worn k c r →
  let r3 := (received 3 boot r w).1 in
  device r3 100 = Some (stored_gpu0 boot) ∧ device r3 101 = Some (stored_gpu1 boot) ∧
  (∀ i, i ≠ 100 → i ≠ 101 → device r3 i = None) ∧ link_count r3 = Z.min (k + 1) room ∧
  (if k <? room
   then ∃ now g, link r3 (boot * 1000000 + 1) =
                 Some (link_set_topology_generation g (stored_link boot now))
   else link r3 (boot * 1000000 + 1) = None) ∧
  old_links c (delete (boot * 1000000 + 1) (links (state_ r3))).
Proof.
  intros Hmd Hroom Hk Hb Hc Hworn.
  destruct (received_gpus k c boot r w) as (Hl2 & H0 & H1 & Hnone & Hold & Hcount); [done..|].
  destruct (received_3 boot r w) as (now & w' & ->).
  set (r2 := (received 2 boot r w).1) in *. clearbody r2.
  destruct (publish_own_link k c boot now r2 w' Hk Hroom Hb Hc Hl2
    (mk_is_Some _ _ H0) (mk_is_Some _ _ H1) Hold Hcount) as (_ & Hd3 & Hc3 & Hown & Hothers).
  set (r3 := (upsert_link (stored_link boot now) r2 w').1.2) in *. clearbody r3.
  unfold device in *. rewrite Hd3. split_and!; try done.
  destruct (k <? room); [|done]. destruct Hown as [g Hg]. by exists now, g.
Qed.

Lemma received_alive k c boot n r w :
  limits_ok lim → 2 ≤ max_devices lim → 0 ≤ room ≤ max_links lim → 0 ≤ k → boot_fits boot →
  c ≤ boot * 1000000 → (3 ≤ n)%nat → worn k c r → alive k boot (received n boot r w).1.
Proof.
  intros Hlim Hmd Hroom Hk Hb Hc Hn Hworn.
  destruct (received_wf n boot r w Hlim (wn_limits _ _ _ Hworn) (wn_wf _ _ _ Hworn)) as [Hwf Hl].
  destruct (received_rest n boot r w Hn) as [Hdn Hkn].
  destruct (received_link k c boot r w) as (H0 & H1 & Hnone & Hc3 & Hown & Hothers); [done..|].
  set (rn := (received n boot r w).1) in *. set (r3 := (received 3 boot r w).1) in *.
  clearbody rn r3. unfold device, link, link_count in *. rewrite <-Hdn in H0, H1, Hnone.
  rewrite <-Hkn, <-(base_eq boot Hb) in *. split; try done.
  intros i l Hne Hi. destruct (Hothers i l) as (? & ? & ?); [by rewrite lookup_delete_ne|].
  split_and!; [lia|done|done].
Qed.

Lemma session_alive k c boot r w :
  limits_ok lim → 2 ≤ max_devices lim → 0 ≤ room ≤ max_links lim → 0 ≤ k → boot_fits boot →
  c ≤ boot * 1000000 → worn k c r → alive k boot (session wid boot r w).1.
Proof.
  intros. rewrite <-(handle_worker_frames wid boot default_timestamp 0).
  cbn [beat_frames]. rewrite app_nil_r, <-received_all.
  apply (received_alive k c boot 5 r w); try done. lia.
Qed.

(** The end of the connection leaves its evidence to the next one. *)
Lemma marked_worn k boot r w :
  limits_ok lim → limits_ r = lim → wf r →
  (∀ i d, device r i = Some d → (i = 100 ∨ i = 101) ∧ dev_generation d ≤ boot * 1000000 + 2) →
  (∀ i l, link r i = Some l → i ≤ boot * 1000000 + 2 ∧ same_unordered 100 101 l = true) →
  link_count r = Z.min k room →
  worn k (boot * 1000000 + 2) (mark_dynamic_evidence_revalidation_required r w).1.
Proof.
  intros Hlim Hl Hwf Hd Hk Hc.
  assert (∀ d, dev_generation (revalidate_owned_device d) = dev_generation d) as Hgen
    by (intros d; unfold revalidate_owned_device; by case_bool_decide).
  destruct (mark_wf r w) as [Hwf' Hl']; [by rewrite Hl|done|].
  split; [done|congruence|..]; unfold device, link, link_count in *; simpl.
  - intros i d. rewrite lookup_fmap, fmap_Some. intros (d0 & Hi & ->). rewrite Hgen. by apply Hd.
  - intros i l. rewrite !lookup_fmap, !fmap_Some. intros (l1 & (l0 & Hi & ->)%fmap_Some & ->).
    destruct (Hk i l0 Hi). done.
  - by rewrite !msize_fmap.
Qed.

(** An incarnation that is gone after [n] frames. *)
Definition cut_short (n : nat) (boot : Z) (r : Registry) : M Registry :=
  let* r := received n boot r in mark_dynamic_evidence_revalidation_required r.

(** Whether it got as far as its link. *)
Definition left_a_link (life : Z * nat) : bool := (3 <=? life.2)%nat.

Lemma alive_marked k boot r w :
  limits_ok lim → boot_fits boot → alive k boot r →
  worn (k + 1) (boot * 1000000 + 2) (mark_dynamic_evidence_revalidation_required r w).1.
Proof.
  intros Hlim Hb [Hl Hwf H0 H1 Hn Hc Hown Hothers].
  destruct (stored_ids boot Hb) as (_ & Hg0 & _ & Hg1 & _). destruct (Hb) as [Hb0 Hb1].
  apply marked_worn; try done.
  - intros i d Hi. destruct (decide (i = 100)) as [->|]; [rewrite H0 in Hi; simplify_eq; lia|].
    destruct (decide (i = 101)) as [->|]; [rewrite H1 in Hi; simplify_eq; lia|].
    by rewrite Hn in Hi.
  - intros i l Hi. destruct (decide (i = incarnation_base boot + 1)) as [->|Hne].
    + rewrite base_eq by done. split; [lia|]. destruct (k <? room); [|congruence].
      destruct Hown as (now & g & Hg). by simplify_eq.
    + destruct (Hothers i l Hne Hi) as (Hle & Hs & _). rewrite base_eq in Hle by done. split; [lia|done].
Qed.

Lemma cut_short_worn k c n boot r w :
  limits_ok lim → 2 ≤ max_devices lim → 0 ≤ room ≤ max_links lim → 0 ≤ k → boot_fits boot →
  c ≤ boot * 1000000 → worn k c r →
  worn (if left_a_link (boot, n) then k + 1 else k) (boot * 1000000 + 2) (cut_short n boot r w).1.
Proof.
  intros Hlim Hmd Hroom Hk Hb Hc Hworn. unfold cut_short, left_a_link. rewrite bind_eq. cbn [snd].
  destruct (Nat.leb_spec 3 n) as [Hn|Hn]; [apply alive_marked; try done; by eapply received_alive|].
  destruct (received_wf n boot r w Hlim (wn_limits _ _ _ Hworn) (wn_wf _ _ _ Hworn)) as [Hwf Hl].
  destruct (stored_ids boot Hb) as (_ & Hg0 & _ & Hg1 & _). destruct (Hb) as [Hb0 Hb1].
  apply marked_worn; [done|done|done|..].
  1: intros i d Hi; cut ((i = 100 ∨ i = 101) ∧ dev_generation d ≤ boot * 1000000 + 2); [done|];
    revert i d Hi.
  2: assert (∀ r0, old_links c (links (state_ r0)) →
      ∀ i l, link r0 i = Some l → i ≤ boot * 1000000 + 2 ∧ same_unordered 100 101 l = true) as Hold
      by (intros r0 H i l Hi; destruct (H i l Hi) as (? & ? & _); split; [lia|done]).
  all: destruct n as [|[|[|n]]]; [| | |lia].
  - intros i d Hi. destruct (wn_devices _ _ _ Hworn i d Hi). split; [done|lia].
  - destruct (received_gpu0 k c boot r w) as (_ & H100 & Hd1 & _); [done..|].
    set (r1 := (received 1 boot r w).1) in *. clearbody r1. intros i d Hi.
    destruct (decide (i = 100)) as [->|Hne]; [rewrite H100 in Hi; simplify_eq; lia|].
    destruct (Hd1 i d Hi Hne). split; [by right|lia].
  - destruct (received_gpus k c boot r w) as (_ & H0 & H1 & Hnone & _); [done..|].
    set (r2 := (received 2 boot r w).1) in *. clearbody r2. intros i d Hi.
    destruct (decide (i = 100)) as [->|]; [rewrite H0 in Hi; simplify_eq; lia|].
    destruct (decide (i = 101)) as [->|]; [rewrite H1 in Hi; simplify_eq; lia|].
    by rewrite Hnone in Hi.
  - apply Hold. exact (wn_links _ _ _ Hworn).
  - apply Hold. by apply (received_gpu0 k).
  - apply Hold. by apply (received_gpus k).
  - apply (wn_count _ _ _ Hworn).
  - by apply (received_gpu0 k c).
  - by apply (received_gpus k c).
Qed.

#[local] Transparent received upsert_link upsert_device.

(** One after the other: boots, and the frames that arrived of each. *)
Fixpoint restarts (lives : list (Z * nat)) (r : Registry) : M Registry :=
  match lives with
  | [] => ret r
  | (boot, n) :: lives' => let* r := cut_short n boot r in restarts lives' r
  end.

Lemma restarts_worn lives k c r w :
  limits_ok lim → 2 ≤ max_devices lim → 0 ≤ room ≤ max_links lim → 0 ≤ k →
  StronglySorted Z.lt lives.*1 → Forall boot_fits lives.*1 →
  Forall (λ b, c ≤ b * 1000000) lives.*1 → worn k c r →
  ∃ c', worn (k + zcount left_a_link lives) c' (restarts lives r w).1 ∧
        ∀ b, c ≤ b * 1000000 → Forall (λ b', b' < b) lives.*1 → c' ≤ b * 1000000.
Proof.
  intros Hlim Hmd Hroom. revert k c r w. induction lives as [|[boot n] lives IH];
    intros k c r w Hk Hs Hfits Hc Hworn.
  { exists c. change (zcount left_a_link []) with 0. by rewrite Z.add_0_r. }
  cbn [fmap list_fmap fst] in *. apply StronglySorted_inv in Hs as [Hs Hlt].
  apply Forall_cons in Hfits as [Hb Hfits]. apply Forall_cons in Hc as [Hcb Hc].
  cbn [restarts]. rewrite bind_eq, zcount_cons.
  pose proof (cut_short_worn k c n boot r w Hlim Hmd Hroom Hk Hb Hcb Hworn) as Hw1.
  destruct (IH (if left_a_link (boot, n) then k + 1 else k) (boot * 1000000 + 2)
    (cut_short n boot r w).1 (cut_short n boot r w).2) as (c' & Hw' & Hc');
    [case_match; lia|done|done| |done|].
  { eapply Forall_impl; [exact Hlt|]. simpl. lia. }
  exists c'. split.
  - destruct (left_a_link (boot, n)); [by rewrite Z.add_assoc|by rewrite Z.add_0_l].
  - intros b Hb' [Hlb Hl]%Forall_cons. apply Hc'; [lia|done].
Qed.

Lemma worn_new : limits_ok lim → 0 ≤ room → worn 0 0 (new_registry lim).
Proof.
  intros Hlim Hroom. split; [by apply new_registry_wf|done|..].
  - intros i d. unfold device. simpl. by rewrite lookup_empty.
  - intros i l. unfold link. simpl. by rewrite lookup_empty.
  - unfold link_count. simpl. change (msize ∅) with 0. lia.
Qed.
End Incarnation.

(** C20.  A worker that is killed and started again, from a coordinator that has
    just started with room for two devices and at least as many links as a pair
    may have in parallel: let its boots increase, each small enough for its
    identities not to wrap (boot * 10^6 + 2 below 2^64), and let each earlier
    incarnation be gone after any number of the frames it publishes.  Once the
    newest has published everything, both its devices are stored as just
    published, for the new boot and PRESENT, and every link but its own awaits
    revalidation.  Its own link is stored, UP, exactly while the earlier
    incarnations whose link arrived are fewer than the parallel links a pair may
    have: the links of dead incarnations stay, and once they have used up the
    room, the new link is refused, and no route between any two devices is
    executable. *)
Theorem restarts_wear_out `{Platform} lim wid lives boot w w' r' w'' src tgt pol d :
  limits_ok lim → 2 ≤ max_devices lim → 0 ≤ max_candidate_paths lim →
  0 ≤ max_parallel_links_per_pair lim ≤ max_links lim →
  StronglySorted Z.lt (lives.*1 ++ [boot]) → Forall boot_fits (lives.*1 ++ [boot]) →
  let r := (session wid boot (restarts wid lives (new_registry lim) w).1 w').1 in
  let own := boot * 1000000 + 1 in
  let left_over := zcount left_a_link lives in
  device r 100 = Some (stored_gpu0 wid boot) ∧ device r 101 = Some (stored_gpu1 wid boot) ∧
  link_count r = Z.min (left_over + 1) (max_parallel_links_per_pair lim) ∧
  (∀ i l, link r i = Some l → i ≠ own → needs_revalidation l) ∧
  (left_over < max_parallel_links_per_pair lim →
   ∃ l, link r own = Some l ∧ lk_state l = LinkOperationalState.UP) ∧
  (max_parallel_links_per_pair lim ≤ left_over →
   link r own = None ∧
   ((decide_route src tgt pol r r' w'').1 = Ok d → rd_executable d = false)).
Proof.
  intros Hlim Hmd Hmc Hroom Hs Hfits r own left_over.
  apply StronglySorted_app in Hs as (Hlt & Hs & _).
  apply Forall_app in Hfits as [Hfits [Hb _]%Forall_cons]. destruct (Hb) as [Hb0 Hb1].
  destruct (restarts_worn lim wid lives 0 0 (new_registry lim) w) as (c & Hworn & Hc);
    [done..| |apply worn_new; [done|lia]|].
  { eapply Forall_impl; [exact Hfits|]. intros b [? ?]. lia. }
  assert (alive lim wid left_over boot r) as [Hl Hwf H0 H1 _ Hcount Hown Hothers].
  { apply (session_alive lim wid _ c); try done; [apply zcount_nonneg|].
    apply Hc; [lia|]. apply Forall_forall. intros b Hin. apply Hlt; [done|by left]. }
  rewrite base_eq in Hown, Hothers by done. fold own in Hown, Hothers.
  split_and!; [done|done|done| | |].
  - intros i l Hi Hne. by destruct (Hothers i l Hne Hi) as (_ & _ & ?).
  - intros Hroom1. rewrite (proj2 (Z.ltb_lt _ _)) in Hown by done. destruct Hown as (now & g & Hg).
    eexists. by split.
  - intros Hroom1. rewrite (proj2 (Z.ltb_ge _ _)) in Hown by done. split; [done|]. intros Hd.
    apply (nothing_usable_no_route src tgt pol r r' w'' d); [done|by rewrite Hl| |done].
    intros i l Hi. destruct (decide (i = own)) as [->|Hne]; [unfold link in Hown; congruence|].
    by destruct (Hothers i l Hne Hi) as (_ & _ & ?).
Qed.

(** The nineteenth start of worker 7: two of the earlier ones were killed before
    their link arrived. *)
Definition lives_before : list (Z * nat) := (1, 0%nat) :: (2, 2%nat) :: ((λ b, (b, 5%nat)) <$> seqZ 3 16).
#[local] Abbreviation nineteenth :=
  (@session reference_platform 7 19
     (@restarts reference_platform 7 lives_before (new_registry default_limits) world0).1 world0).1
  (only parsing).

Lemma restarts_wear_out_witness :
  link nineteenth 19000001 = None ∧ link_count nineteenth = 16 ∧
  ∃ d, (decide_route 100 101 default_policy nineteenth nineteenth world0).1 = Ok d ∧
    rd_executable d = false.
Proof.
  assert (∃ d, (decide_route 100 101 default_policy nineteenth nineteenth world0).1 = Ok d) as [d Hd].
  { assert (has_value (decide_route 100 101 default_policy nineteenth nineteenth world0).1) as Hok
      by (vm_compute; exact I).
    destruct (decide_route _ _ _ _ _ _).1 as [d|e]; [by exists d|destruct Hok]. }
  destruct (@restarts_wear_out reference_platform default_limits 7 lives_before 19 world0 world0
    nineteenth world0 100 101 default_policy d) as (_ & _ & Hc & _ & _ & Hfull).
  - vm_compute. intuition congruence.
  - vm_compute. discriminate.
  - vm_compute. discriminate.
  - vm_compute. intuition congruence.
  - apply (bool_decide_unpack _). vm_compute. exact I.
  - apply (bool_decide_unpack _). vm_compute. exact I.
  - destruct Hfull as [Hown Hx]; [vm_compute; discriminate|].
    split; [exact Hown|]. split; [exact Hc|]. exists d.
    split; [exact Hd|exact (Hx Hd)].
Defined.
